(** * The notion-mcp installer and verifier: a shallow embedding

    [scripts/install.cjs] (class [NotionMcpInstaller]) and the verifier
    script (class [NotionMcpVerifier]) are sequences of file-system calls,
    subprocess calls and console output around one read-modify-write of a
    JSON document.  The embedding has three layers:

    - [JSON]: the values [JSON.parse] builds, the parser, and the printer
      [JSON.stringify (v, null, 2)];
    - [Runtime]: the world the scripts run in (files, directories, the
      clock, subprocesses, the console) and the monad that threads it,
      with the four ways a JavaScript call can end;
    - [Installer] and [Verifier]: the methods of the two classes, one
      definition per method, in the order of the source.

    The facts follow the embedding: the round trip of the JSON codec
    ([JSONFacts]), the calls of the monad ([RuntimeFacts]), the
    reconciliation of the desktop configuration ([DesktopFacts]), the
    ways the methods can end ([Shapes], [InstallerShapes]), the exit codes
    ([InstallerExit], [VerifierExit], [ExitCodes]), the check of the
    runtime ([DependencyFacts]), the configuration of the installer
    ([ConfigFacts]), the registry of the command line tool
    ([RegistryFacts]) and the timeouts of the subprocess calls
    ([TimeoutFacts]). *)

From Stdlib Require Import String Ascii List ZArith Lia Bool Decimal DecimalN DecimalFacts DecimalPos.
From stdpp Require Import base option gmap strings list.

Local Open Scope string_scope.
Local Open Scope list_scope.

(** ** Characters that cannot be written inside a string literal *)

Definition DQUOTE : ascii := "034"%char.
Definition BACKSLASH : ascii := "092"%char.
Definition LF : ascii := "010"%char.
Definition CR : ascii := "013"%char.
Definition TAB : ascii := "009"%char.
Definition BS : ascii := "008"%char.
Definition FF : ascii := "012"%char.
Definition VT : ascii := "011"%char.

Module JSON.

(** ** Values

    A number is kept as the decimal notation that was read: sign, integer
    part, fraction digits and exponent.  Rounding to an IEEE double, which
    the engine performs, is outside this model.

    A JavaScript array is an object: besides its elements it can carry
    named properties.  [JSON.parse] never creates them and
    [JSON.stringify] never prints them, but an assignment such as
    [a.mcpServers = {}] on an array succeeds and is read back by
    [a.mcpServers]; [arr_named] holds these properties.

    An object keeps its own properties in creation order. *)

Record number := Number {
  num_neg : bool;
  num_int : N;
  num_frac : uint;
  num_exp : option Z
}.

Unset Elimination Schemes.
Inductive value :=
| JNull
| JBool (b : bool)
| JNumber (n : number)
| JString (s : string)
| JArray (elems : list value) (arr_named : list (string * value))
| JObject (props : list (string * value)).
Set Elimination Schemes.

Definition object := list (string * value).

(** Induction on values, with the hypothesis for every element and every
    property value. *)
Section value_induction.
Variable P : value -> Prop.
Hypothesis Hnull : P JNull.
Hypothesis Hbool : forall b, P (JBool b).
Hypothesis Hnumber : forall n, P (JNumber n).
Hypothesis Hstring : forall s, P (JString s).
Hypothesis Harray : forall es named,
  Forall P es -> Forall (fun kv => P (snd kv)) named -> P (JArray es named).
Hypothesis Hobject : forall kvs,
  Forall (fun kv => P (snd kv)) kvs -> P (JObject kvs).

Fixpoint value_ind (v : value) : P v :=
  let fix all (l : list value) : Forall P l :=
    match l with
    | [] => @List.Forall_nil _ P
    | x :: r => @List.Forall_cons _ P x r (value_ind x) (all r)
    end in
  let fix all_props (l : list (string * value)) : Forall (fun kv => P (snd kv)) l :=
    match l with
    | [] => @List.Forall_nil _ (fun kv => P (snd kv))
    | kv :: r =>
        @List.Forall_cons _ (fun kv => P (snd kv)) kv r
          (match kv as kv0 return P (snd kv0) with (_, x) => value_ind x end)
          (all_props r)
    end in
  match v with
  | JNull => Hnull
  | JBool b => Hbool b
  | JNumber n => Hnumber n
  | JString s => Hstring s
  | JArray es named => Harray es named (all es) (all_props named)
  | JObject kvs => Hobject kvs (all_props kvs)
  end.
End value_induction.

(** Own-property lookup, [o[k]] for a key that is not inherited. *)
Fixpoint obj_get (k : string) (o : object) : option value :=
  match o with
  | [] => None
  | (k', v) :: r => if String.eqb k' k then Some v else obj_get k r
  end.

(** [o[k] = v]: replaces the value of an existing property where it
    stands, or creates the property after the existing ones. *)
Fixpoint obj_set (k : string) (v : value) (o : object) : object :=
  match o with
  | [] => [(k, v)]
  | (k', v') :: r =>
      if String.eqb k' k then (k', v) :: r else (k', v') :: obj_set k v r
  end.

Fixpoint distinct (keys : list string) : bool :=
  match keys with
  | [] => true
  | k :: r => negb (existsb (String.eqb k) r) && distinct r
  end.

(** The values [JSON.parse] can build: no array carries a named
    property and no object has two properties of one name. *)
Fixpoint plain (v : value) : bool :=
  match v with
  | JArray es named =>
      forallb plain es && match named with [] => true | _ :: _ => false end
  | JObject kvs =>
      distinct (List.map fst kvs) && forallb (fun kv => plain (snd kv)) kvs
  | _ => true
  end.

(** ** Digits and numbers *)

Definition digit_of_char (c : ascii) : option (uint -> uint) :=
  match c with
  | "0" => Some D0 | "1" => Some D1 | "2" => Some D2 | "3" => Some D3
  | "4" => Some D4 | "5" => Some D5 | "6" => Some D6 | "7" => Some D7
  | "8" => Some D8 | "9" => Some D9 | _ => None
  end%char.

Fixpoint string_of_uint (d : uint) : string :=
  match d with
  | Nil => ""
  | D0 d => String "0"%char (string_of_uint d)
  | D1 d => String "1"%char (string_of_uint d)
  | D2 d => String "2"%char (string_of_uint d)
  | D3 d => String "3"%char (string_of_uint d)
  | D4 d => String "4"%char (string_of_uint d)
  | D5 d => String "5"%char (string_of_uint d)
  | D6 d => String "6"%char (string_of_uint d)
  | D7 d => String "7"%char (string_of_uint d)
  | D8 d => String "8"%char (string_of_uint d)
  | D9 d => String "9"%char (string_of_uint d)
  end.

(** The longest run of decimal digits at the head of [s], and the rest. *)
Fixpoint take_digits (s : string) : uint * string :=
  match s with
  | String c r =>
      match digit_of_char c with
      | Some d => let '(ds, r') := take_digits r in (d ds, r')
      | None => (Nil, s)
      end
  | "" => (Nil, "")
  end.

Definition uint_is_nil (d : uint) : bool :=
  match d with Nil => true | _ => false end.

(** No superfluous leading zero: ["0"] or a run that starts with 1-9. *)
Definition canonical_int (d : uint) : bool :=
  match d with
  | Nil => false
  | D0 Nil => true
  | D0 _ => false
  | _ => true
  end.

Definition string_of_Z (z : Z) : string :=
  match z with
  | Z0 => "0"
  | Zpos p => string_of_uint (N.to_uint (Npos p))
  | Zneg p => String "-"%char (string_of_uint (N.to_uint (Npos p)))
  end.

Definition string_of_number (n : number) : string :=
  (if num_neg n then "-" else "")
  +:+ string_of_uint (N.to_uint (num_int n))
  +:+ (if uint_is_nil (num_frac n) then ""
       else String "."%char (string_of_uint (num_frac n)))
  +:+ match num_exp n with
      | None => ""
      | Some e => String "e"%char (string_of_Z e)
      end.

(** [s] without its first character, when that is [c]. *)
Definition head_is (c : ascii) (s : string) : option string :=
  match s with
  | String a r => if Ascii.eqb a c then Some r else None
  | "" => None
  end.

Definition parse_exponent (s : string) : option (option Z * string) :=
  let marked :=
    match head_is "e"%char s with
    | Some r => Some r
    | None => head_is "E"%char s
    end in
  match marked with
  | None => Some (None, s)
  | Some r =>
      let '(sgn, r1) :=
        match head_is "-"%char r with
        | Some r1 => (true, r1)
        | None =>
            match head_is "+"%char r with
            | Some r1 => (false, r1)
            | None => (false, r)
            end
        end in
      let '(ds, r2) := take_digits r1 in
      if uint_is_nil ds then None
      else
        let m := Z.of_N (N.of_uint ds) in
        Some (Some (if sgn then (- m)%Z else m), r2)
  end.

Definition parse_fraction (s : string) : option (uint * string) :=
  match head_is "."%char s with
  | Some r =>
      let '(ds, r1) := take_digits r in
      if uint_is_nil ds then None else Some (ds, r1)
  | None => Some (Nil, s)
  end.

Definition parse_number (s : string) : option (number * string) :=
  let '(neg, r0) :=
    match head_is "-"%char s with
    | Some r0 => (true, r0)
    | None => (false, s)
    end in
  let '(ds, r1) := take_digits r0 in
  if canonical_int ds then
    match parse_fraction r1 with
    | Some (fr, r2) =>
        match parse_exponent r2 with
        | Some (ex, r3) => Some (Number neg (N.of_uint ds) fr ex, r3)
        | None => None
        end
    | None => None
    end
  else None.

(** ** Strings

    A string is the sequence of bytes of its UTF-8 form.  Bytes above 127
    pass through the parser and the printer unchanged; an escape
    [\uXXXX] above 127 is stored as the UTF-8 bytes of its code point, a
    surrogate pair as the four bytes of the code point it denotes. *)

Definition hex_value (c : ascii) : option N :=
  let n := N_of_ascii c in
  if ((48 <=? n) && (n <=? 57))%N then Some (n - 48)%N
  else if ((97 <=? n) && (n <=? 102))%N then Some (n - 87)%N
  else if ((65 <=? n) && (n <=? 70))%N then Some (n - 55)%N
  else None.

Definition hex4 (a b c d : ascii) : option N :=
  match hex_value a, hex_value b, hex_value c, hex_value d with
  | Some x, Some y, Some z, Some w => Some (((x * 16 + y) * 16 + z) * 16 + w)%N
  | _, _, _, _ => None
  end.

Definition utf8_encode (cp : N) : string :=
  if (cp <? 128)%N then String (ascii_of_N cp) ""
  else if (cp <? 2048)%N then
    String (ascii_of_N (192 + cp / 64))
      (String (ascii_of_N (128 + cp mod 64)) "")
  else if (cp <? 65536)%N then
    String (ascii_of_N (224 + cp / 4096))
      (String (ascii_of_N (128 + (cp / 64) mod 64))
        (String (ascii_of_N (128 + cp mod 64)) ""))
  else
    String (ascii_of_N (240 + cp / 262144))
      (String (ascii_of_N (128 + (cp / 4096) mod 64))
        (String (ascii_of_N (128 + (cp / 64) mod 64))
          (String (ascii_of_N (128 + cp mod 64)) ""))).

Definition is_high_surrogate (n : N) : bool := ((55296 <=? n) && (n <=? 56319))%N.
Definition is_low_surrogate (n : N) : bool := ((56320 <=? n) && (n <=? 57343))%N.

Definition simple_escape (c : ascii) : option ascii :=
  if Ascii.eqb c DQUOTE then Some DQUOTE
  else if Ascii.eqb c BACKSLASH then Some BACKSLASH
  else if Ascii.eqb c "/"%char then Some "/"%char
  else if Ascii.eqb c "b"%char then Some BS
  else if Ascii.eqb c "f"%char then Some FF
  else if Ascii.eqb c "n"%char then Some LF
  else if Ascii.eqb c "r"%char then Some CR
  else if Ascii.eqb c "t"%char then Some TAB
  else None.

Definition prepend (p : string) (x : option (string * string)) : option (string * string) :=
  match x with
  | Some (s, r) => Some (p +:+ s, r)
  | None => None
  end.

(** The characters of a string literal after its opening quote, up to and
    including the closing quote. *)
Fixpoint parse_chars (s : string) : option (string * string) :=
  match s with
  | "" => None
  | String c r =>
      if Ascii.eqb c DQUOTE then Some ("", r)
      else if Ascii.eqb c BACKSLASH then
        match r with
        | String e r1 =>
            match simple_escape e with
            | Some b => prepend (String b "") (parse_chars r1)
            | None =>
                if Ascii.eqb e "u"%char then
                  match r1 with
                  | String h1 (String h2 (String h3 (String h4 r2))) =>
                      match hex4 h1 h2 h3 h4 with
                      | Some hi =>
                          if is_high_surrogate hi then
                            match r2 with
                            | String b2 (String u2 (String l1 (String l2 (String l3 (String l4 r3))))) =>
                                match hex4 l1 l2 l3 l4 with
                                | Some lo =>
                                    if (Ascii.eqb b2 BACKSLASH && Ascii.eqb u2 "u"%char
                                        && is_low_surrogate lo)%bool
                                    then prepend (utf8_encode (65536 + (hi - 55296) * 1024 + (lo - 56320))%N)
                                                 (parse_chars r3)
                                    else prepend (utf8_encode hi) (parse_chars r2)
                                | None => prepend (utf8_encode hi) (parse_chars r2)
                                end
                            | _ => prepend (utf8_encode hi) (parse_chars r2)
                            end
                          else prepend (utf8_encode hi) (parse_chars r2)
                      | None => None
                      end
                  | _ => None
                  end
                else None
            end
        | "" => None
        end
      else if (N_of_ascii c <? 32)%N then None
      else prepend (String c "") (parse_chars r)
  end.

Definition hex_char (n : N) : ascii :=
  if (n <? 10)%N then ascii_of_N (48 + n) else ascii_of_N (87 + n).

Definition escape_char (c : ascii) : string :=
  if Ascii.eqb c DQUOTE then String BACKSLASH (String DQUOTE "")
  else if Ascii.eqb c BACKSLASH then String BACKSLASH (String BACKSLASH "")
  else if Ascii.eqb c BS then String BACKSLASH "b"
  else if Ascii.eqb c FF then String BACKSLASH "f"
  else if Ascii.eqb c LF then String BACKSLASH "n"
  else if Ascii.eqb c CR then String BACKSLASH "r"
  else if Ascii.eqb c TAB then String BACKSLASH "t"
  else if (N_of_ascii c <? 32)%N then
    String BACKSLASH
      (String "u"%char (String "0"%char (String "0"%char
        (String (hex_char (N_of_ascii c / 16)) (String (hex_char (N_of_ascii c mod 16)) "")))))
  else String c "".

Fixpoint quote_chars (s : string) : string :=
  match s with
  | "" => String DQUOTE ""
  | String c r => escape_char c +:+ quote_chars r
  end.

Definition quote (s : string) : string := String DQUOTE (quote_chars s).

(** ** [JSON.stringify (v, null, 2)] *)

Fixpoint spaces (n : nat) : string :=
  match n with
  | O => ""
  | S n => String " "%char (spaces n)
  end.

Definition newline (ind : nat) : string := String LF (spaces ind).

Fixpoint join_items (ind : nat) (items : list string) : string :=
  match items with
  | [] => ""
  | x :: r => String ","%char (newline ind) +:+ x +:+ join_items ind r
  end.

(** An empty container prints as its two brackets; otherwise each item
    stands on a line of its own, two columns further in. *)
Definition bracket (opening closing : ascii) (ind : nat) (items : list string) : string :=
  match items with
  | [] => String opening (String closing "")
  | x :: r =>
      String opening (newline (2 + ind)) +:+ x +:+ join_items (2 + ind) r
      +:+ newline ind +:+ String closing ""
  end.

Fixpoint stringify_at (ind : nat) (v : value) {struct v} : string :=
  match v with
  | JNull => "null"
  | JBool true => "true"
  | JBool false => "false"
  | JNumber n => string_of_number n
  | JString s => quote s
  | JArray es _ =>
      bracket "["%char "]"%char ind (List.map (stringify_at (2 + ind)) es)
  | JObject kvs =>
      bracket "{"%char "}"%char ind
        (List.map (fun kv => let '(k, x) := kv in
                     quote k +:+ ": " +:+ stringify_at (2 + ind) x) kvs)
  end.

Definition stringify (v : value) : string := stringify_at 0 v.

(** The depth of calls the parser needs to read [v] back. *)
Fixpoint cost (v : value) : nat :=
  match v with
  | JArray es _ => S (list_sum (List.map (fun e => S (cost e)) es))
  | JObject kvs => S (list_sum (List.map (fun kv => S (cost (snd kv))) kvs))
  | _ => 1
  end.

(** ** [JSON.parse] *)

Definition is_ws (c : ascii) : bool :=
  (Ascii.eqb c " "%char || Ascii.eqb c LF || Ascii.eqb c CR || Ascii.eqb c TAB)%bool.

Fixpoint skip_ws (s : string) : string :=
  match s with
  | String c r => if is_ws c then skip_ws r else s
  | "" => ""
  end.

Fixpoint strip_prefix (p s : string) : option string :=
  match p, s with
  | "", _ => Some s
  | String a p', String b s' => if Ascii.eqb a b then strip_prefix p' s' else None
  | String _ _, "" => None
  end.

Definition literal (word : string) (v : value) (s : string) : option (value * string) :=
  match strip_prefix word s with
  | Some r => Some (v, r)
  | None => None
  end.

(** The members of an object literal are defined one after the other, so
    a repeated key keeps its first position and its last value. *)
Definition obj_of_members (kvs : list (string * value)) : object :=
  fold_left (fun o kv => obj_set (fst kv) (snd kv) o) kvs [].

(** Recursive descent; [fuel] bounds the number of nested calls and is
    taken from the length of the text by [parse]. *)
Fixpoint parse_value (fuel : nat) (s : string) {struct fuel} : option (value * string) :=
  match fuel with
  | O => None
  | S f =>
      match s with
      | "" => None
      | String c r =>
          if Ascii.eqb c "{"%char then
            match head_is "}"%char (skip_ws r) with
            | Some r' => Some (JObject [], r')
            | None =>
                match parse_members f (skip_ws r) with
                | Some (kvs, r') => Some (JObject (obj_of_members kvs), r')
                | None => None
                end
            end
          else if Ascii.eqb c "["%char then
            match head_is "]"%char (skip_ws r) with
            | Some r' => Some (JArray [] [], r')
            | None =>
                match parse_elements f (skip_ws r) with
                | Some (vs, r') => Some (JArray vs [], r')
                | None => None
                end
            end
          else if Ascii.eqb c DQUOTE then
            match parse_chars r with
            | Some (str, r') => Some (JString str, r')
            | None => None
            end
          else if Ascii.eqb c "t"%char then literal "rue" (JBool true) r
          else if Ascii.eqb c "f"%char then literal "alse" (JBool false) r
          else if Ascii.eqb c "n"%char then literal "ull" JNull r
          else
            match parse_number s with
            | Some (n, r') => Some (JNumber n, r')
            | None => None
            end
      end
  end
with parse_elements (fuel : nat) (s : string) {struct fuel} : option (list value * string) :=
  match fuel with
  | O => None
  | S f =>
      match parse_value f s with
      | Some (v, r) =>
          match head_is ","%char (skip_ws r) with
          | Some r' =>
              match parse_elements f (skip_ws r') with
              | Some (vs, r'') => Some (v :: vs, r'')
              | None => None
              end
          | None =>
              match head_is "]"%char (skip_ws r) with
              | Some r' => Some ([v], r')
              | None => None
              end
          end
      | None => None
      end
  end
with parse_members (fuel : nat) (s : string) {struct fuel} : option (list (string * value) * string) :=
  match fuel with
  | O => None
  | S f =>
      match head_is DQUOTE s with
      | Some r =>
          match parse_chars r with
          | Some (k, r1) =>
              match head_is ":"%char (skip_ws r1) with
              | Some r2 =>
                  match parse_value f (skip_ws r2) with
                  | Some (v, r3) =>
                      match head_is ","%char (skip_ws r3) with
                      | Some r4 =>
                          match parse_members f (skip_ws r4) with
                          | Some (kvs, r5) => Some ((k, v) :: kvs, r5)
                          | None => None
                          end
                      | None =>
                          match head_is "}"%char (skip_ws r3) with
                          | Some r4 => Some ([(k, v)], r4)
                          | None => None
                          end
                      end
                  | None => None
                  end
              | None => None
              end
          | None => None
          end
      | None => None
      end
  end.

(** [JSON.parse text]: [None] stands for the [SyntaxError] it throws. *)
Definition parse (text : string) : option value :=
  match parse_value (S (String.length text)) (skip_ws text) with
  | Some (v, r) =>
      match skip_ws r with
      | "" => Some v
      | _ => None
      end
  | None => None
  end.

End JSON.


(** * The JavaScript operations the scripts use on values and strings *)

Module JS.
Import JSON.

(** [ToBoolean].  A number is read off its digits: it is falsy when its
    integer part and its fraction are zero, whatever the exponent; a
    number with a digit other than zero is taken as truthy, although a
    large negative exponent can make the value zero. *)
Definition truthy (v : value) : bool :=
  match v with
  | JNull => false
  | JBool b => b
  | JNumber n => negb (N.eqb (num_int n) 0 && uint_is_nil (Decimal.nzhead (num_frac n)))
  | JString s => negb (String.eqb s "")
  | JArray _ _ => true
  | JObject _ => true
  end.

(** [undefined] is the absence of a value. *)
Definition truthy_opt (v : option value) : bool :=
  match v with
  | Some x => truthy x
  | None => false
  end.

(** The name a [TypeError] message gives to a primitive. *)
Definition type_name (v : value) : string :=
  match v with
  | JNull => "null"
  | JBool _ => "boolean"
  | JNumber _ => "number"
  | JString _ => "string"
  | JArray _ _ => "object"
  | JObject _ => "object"
  end.

(** [ToString] of a value, as a template literal performs it. *)
Fixpoint to_string (v : value) {struct v} : string :=
  match v with
  | JNull => "null"
  | JBool true => "true"
  | JBool false => "false"
  | JNumber n => string_of_number n
  | JString s => s
  | JArray es _ =>
      (fix join (first : bool) (l : list value) {struct l} : string :=
         match l with
         | [] => ""
         | x :: r =>
             (if first then "" else ",")
             +:+ match x with JNull => "" | _ => to_string x end
             +:+ join false r
         end) true es
  | JObject _ => "[object Object]"
  end.

(** [v.k] for a key [k] that no prototype defines and that is neither an
    index nor ["length"]: a [TypeError] on [null] ([inl] carries its
    message), [undefined] ([None]) on the other primitives. *)
Definition get_member (v : value) (k : string) : string + option value :=
  match v with
  | JNull => inl ("Cannot read properties of null (reading '" +:+ k +:+ "')")
  | JObject o => inr (obj_get k o)
  | JArray _ named => inr (obj_get k named)
  | _ => inr None
  end.

(** [v.k = x] in strict code (a class body is strict): a [TypeError] on a
    primitive, a new or replaced property on an object or an array. *)
Definition set_member (v : value) (k : string) (x : value) : string + value :=
  match v with
  | JObject o => inr (JObject (obj_set k x o))
  | JArray es named => inr (JArray es (obj_set k x named))
  | JNull => inl ("Cannot set properties of null (setting '" +:+ k +:+ "')")
  | _ => inl ("Cannot create property '" +:+ k +:+ "' on " +:+ type_name v
              +:+ " '" +:+ to_string v +:+ "'")
  end.

(** [hay.includes (needle)] on strings. *)
Fixpoint includes (needle hay : string) : bool :=
  match strip_prefix needle hay with
  | Some _ => true
  | None =>
      match hay with
      | "" => false
      | String _ r => includes needle r
      end
  end.

Definition startsWith (p s : string) : bool :=
  match strip_prefix p s with
  | Some _ => true
  | None => false
  end.

Definition is_space (c : ascii) : bool :=
  (Ascii.eqb c " "%char || Ascii.eqb c LF || Ascii.eqb c CR || Ascii.eqb c TAB
   || Ascii.eqb c VT || Ascii.eqb c FF)%bool.

Fixpoint trim_start (s : string) : string :=
  match s with
  | String c r => if is_space c then trim_start r else s
  | "" => ""
  end.

(** Drops the white space at the end: a character stays when something
    other than white space follows it. *)
Fixpoint trim_end (s : string) : string :=
  match s with
  | "" => ""
  | String c r =>
      match trim_end r with
      | "" => if is_space c then "" else String c ""
      | r' => String c r'
      end
  end.

(** [s.trim ()], on the ASCII white space: the white space characters
    outside ASCII, which [trim] and [parseInt] strip as well, are kept. *)
Definition trim (s : string) : string := trim_end (trim_start s).

(** [s.replace (c, '')] for a one-character pattern: the first
    occurrence goes. *)
Fixpoint remove_first (c : ascii) (s : string) : string :=
  match s with
  | "" => ""
  | String a r => if Ascii.eqb a c then r else String a (remove_first c r)
  end.

(** [s.split (c)] for a one-character separator. *)
Fixpoint split (c : ascii) (s : string) : list string :=
  match s with
  | "" => [""]
  | String a r =>
      if Ascii.eqb a c then "" :: split c r
      else
        match split c r with
        | x :: l => String a x :: l
        | [] => [String a ""]
        end
  end.

Definition digit_value (radix : N) (c : ascii) : option N :=
  match hex_value c with
  | Some d => if (d <? radix)%N then Some d else None
  | None => None
  end.

(** The digits at the head of [s] in [radix], folded into [acc];
    [seen] tells whether a digit was read at all. *)
Fixpoint read_digits (radix : N) (s : string) (acc : N) (seen : bool) : option N :=
  match s with
  | "" => if seen then Some acc else None
  | String c r =>
      match digit_value radix c with
      | Some d => read_digits radix r (acc * radix + d)%N true
      | None => if seen then Some acc else None
      end
  end.

(** [parseInt (s)] without a radix; [None] is [NaN].  Leading white
    space, a sign, a [0x] prefix, then the longest run of digits. *)
Definition parseInt (s : string) : option Z :=
  let s0 := trim_start s in
  let '(neg, s1) :=
    match s0 with
    | String "-"%char r => (true, r)
    | String "+"%char r => (false, r)
    | _ => (false, s0)
    end in
  let '(radix, s2) :=
    match s1 with
    | String "0"%char (String x r) =>
        if (Ascii.eqb x "x"%char || Ascii.eqb x "X"%char)%bool then (16%N, r) else (10%N, s1)
    | _ => (10%N, s1)
    end in
  match read_digits radix s2 0%N false with
  | Some n => Some (if neg then (- Z.of_N n)%Z else Z.of_N n)
  | None => None
  end.

(** [parseInt (nodeVersion.replace ('v', '').split ('.')[0])], the
    expression both scripts bind to [versionNum]. *)
Definition versionNum (nodeVersion : string) : option Z :=
  parseInt (hd "" (split "."%char (remove_first "v"%char nodeVersion))).

(** [x < y] where [x] may be [NaN]: a comparison with [NaN] is false. *)
Definition lt_number (x : option Z) (y : Z) : bool :=
  match x with
  | Some n => (n <? y)%Z
  | None => false
  end.

End JS.

(** * The world the scripts run in *)

Module Runtime.
Import JSON.

(** What a command line does when a shell runs it. *)
Inductive proc :=
| Succeeds (ms : Z) (stdout : string) (writes : list (string * string))
    (** ends with status 0 after [ms] milliseconds, having written files *)
| Fails (ms : Z) (stderr : string)
    (** ends with a non-zero status *)
| Never.
    (** does not end *)

(** What a path names. *)
Inductive node :=
| File (bytes : string)
| Dir.

Record world := World {
  w_platform : string;                (* os.platform () *)
  w_homedir : string;                 (* os.homedir () *)
  w_dirname : string;                 (* __dirname of the script *)
  w_argv : list string;               (* process.argv *)
  w_environ : gmap string string;     (* process.env *)
  w_fs : gmap string node;            (* the files and directories *)
  w_unreadable : gset string;         (* paths that may not be opened for reading *)
  w_locked : gset string;             (* paths that may not be created or written *)
  w_procs : gmap string proc;         (* the commands the shell can find *)
  w_now : Z;                          (* Date.now () *)
  w_console : list string;            (* lines printed, oldest first *)
  w_calls : list (string * option Z)  (* execSync calls made: command, timeout *)
}.

Definition set_fs (f : gmap string node) (w : world) : world :=
  World (w_platform w) (w_homedir w) (w_dirname w) (w_argv w) (w_environ w)
    f (w_unreadable w) (w_locked w) (w_procs w) (w_now w)
    (w_console w) (w_calls w).

Definition set_now (t : Z) (w : world) : world :=
  World (w_platform w) (w_homedir w) (w_dirname w) (w_argv w) (w_environ w)
    (w_fs w) (w_unreadable w) (w_locked w) (w_procs w) t
    (w_console w) (w_calls w).

Definition set_console (c : list string) (w : world) : world :=
  World (w_platform w) (w_homedir w) (w_dirname w) (w_argv w) (w_environ w)
    (w_fs w) (w_unreadable w) (w_locked w) (w_procs w) (w_now w)
    c (w_calls w).

Definition set_calls (c : list (string * option Z)) (w : world) : world :=
  World (w_platform w) (w_homedir w) (w_dirname w) (w_argv w) (w_environ w)
    (w_fs w) (w_unreadable w) (w_locked w) (w_procs w) (w_now w)
    (w_console w) c.

(** ** The ways a call can end *)

Inductive outcome (A : Type) :=
| Ret (a : A)          (** it returns *)
| Throw (msg : string) (** it throws an error with this message *)
| Exit (code : Z)      (** [process.exit (code)]: nothing runs after it *)
| Hang.                (** it blocks for ever *)
Arguments Ret {A} a.
Arguments Throw {A} msg.
Arguments Exit {A} code.
Arguments Hang {A}.

(** A method of an object of class [T]: it reads and updates the fields
    of [this] and the world. *)
Definition M (T A : Type) : Type := T -> world -> outcome A * T * world.

Definition ret {T A} (a : A) : M T A := fun t w => (Ret a, t, w).

Definition bind {T A B} (m : M T A) (k : A -> M T B) : M T B :=
  fun t w =>
    match m t w with
    | (Ret a, t', w') => k a t' w'
    | (Throw e, t', w') => (Throw e, t', w')
    | (Exit c, t', w') => (Exit c, t', w')
    | (Hang, t', w') => (Hang, t', w')
    end.

Definition throw {T A} (msg : string) : M T A := fun t w => (Throw msg, t, w).

(** [process.exit (code)]. *)
Definition process_exit {T A} (code : Z) : M T A := fun t w => (Exit code, t, w).

(** [try { body } catch (error) { handler (error.message) }]: only a
    thrown error reaches the handler. *)
Definition try_catch {T A} (body : M T A) (handler : string -> M T A) : M T A :=
  fun t w =>
    match body t w with
    | (Throw e, t', w') => handler e t' w'
    | r => r
    end.

(** The exit code of the process when its main function ends in [o]: 0
    when it returns, 1 for an uncaught error, none when it never ends. *)
Definition exit_code {A} (o : outcome A) : option Z :=
  match o with
  | Ret _ => Some 0%Z
  | Exit code => Some code
  | Throw _ => Some 1%Z
  | Hang => None
  end.

Definition get_this {T} : M T T := fun t w => (Ret t, t, w).
Definition put_this {T} (t' : T) : M T unit := fun _ w => (Ret tt, t', w).
Definition get_world {T} : M T world := fun t w => (Ret w, t, w).
Definition put_world {T} (w' : world) : M T unit := fun t _ => (Ret tt, t, w').

(** An operation of the value layer that either throws or yields. *)
Definition lift {T A} (r : string + A) : M T A :=
  match r with
  | inl msg => throw msg
  | inr a => ret a
  end.

Declare Scope js_scope.
Delimit Scope js_scope with js.
Notation "x <- m ;; k" := (bind m (fun x => k))
  (at level 100, m at next level, right associativity) : js_scope.
Notation "m ;; k" := (bind m (fun _ => k))
  (at level 100, right associativity) : js_scope.
Local Open Scope js_scope.

(** ** console *)

Definition console_log {T} (line : string) : M T unit :=
  fun t w => (Ret tt, t, set_console (w_console w ++ [line]) w).

(** ** fs *)

Definition exists_in (w : world) (p : string) : bool :=
  match w_fs w !! p with
  | Some _ => true
  | None => false
  end.

Definition existsSync {T} (p : string) : M T bool :=
  fun t w => (Ret (exists_in w p), t, w).

Definition read_in (w : world) (p : string) : string + string :=
  if bool_decide (p ∈ w_unreadable w) then
    inl ("EACCES: permission denied, open '" +:+ p +:+ "'")
  else
    match w_fs w !! p with
    | Some (File bytes) => inr bytes
    | Some Dir => inl "EISDIR: illegal operation on a directory, read"
    | None => inl ("ENOENT: no such file or directory, open '" +:+ p +:+ "'")
    end.

(** [fs.readFileSync (p, 'utf8')]. *)
Definition readFileSync {T} (p : string) : M T string :=
  fun t w =>
    match read_in w p with
    | inl msg => (Throw msg, t, w)
    | inr bytes => (Ret bytes, t, w)
    end.

Definition write_in (w : world) (p bytes : string) : string + world :=
  if bool_decide (p ∈ w_locked w) then
    inl ("EACCES: permission denied, open '" +:+ p +:+ "'")
  else
    match w_fs w !! p with
    | Some Dir => inl ("EISDIR: illegal operation on a directory, open '" +:+ p +:+ "'")
    | _ => inr (set_fs (<[p := File bytes]> (w_fs w)) w)
    end.

(** [fs.writeFileSync (p, bytes)]. *)
Definition writeFileSync {T} (p bytes : string) : M T unit :=
  fun t w =>
    match write_in w p bytes with
    | inl msg => (Throw msg, t, w)
    | inr w' => (Ret tt, t, w')
    end.

(** [fs.copyFileSync (src, dst)]: the bytes of [src], written to [dst],
    which is replaced when it exists. *)
Definition copyFileSync {T} (src dst : string) : M T unit :=
  fun t w =>
    match read_in w src with
    | inl msg => (Throw msg, t, w)
    | inr bytes =>
        match write_in w dst bytes with
        | inl msg => (Throw msg, t, w)
        | inr w' => (Ret tt, t, w')
        end
    end.

(** [fs.mkdirSync (p, { recursive: true })], for a directory whose
    parent exists: the directory itself is made, the missing directories
    above it, which the option would make as well, are not part of the
    model. *)
Definition mkdirSync {T} (p : string) : M T unit :=
  fun t w =>
    if bool_decide (p ∈ w_locked w) then
      (Throw ("EACCES: permission denied, mkdir '" +:+ p +:+ "'"), t, w)
    else
      match w_fs w !! p with
      | Some (File _) => (Throw ("EEXIST: file already exists, mkdir '" +:+ p +:+ "'"), t, w)
      | _ => (Ret tt, t, set_fs (<[p := Dir]> (w_fs w)) w)
      end.

(** ** Date *)

Definition Date_now {T} : M T Z := fun t w => (Ret (w_now w), t, w).

(** ** path

    [path.join] on arguments that are already normalised: the parts are
    put together with the separator of the platform. *)

Definition path_sep (platform : string) : string :=
  if String.eqb platform "win32" then "\" else "/".

Fixpoint path_join (sep : string) (parts : list string) : string :=
  match parts with
  | [] => "."
  | [p] => p
  | p :: r => p +:+ sep +:+ path_join sep r
  end.

(** The position after the last separator, counted from the end: what
    follows the last separator, if there is one. *)
Fixpoint after_last (sep : ascii) (s : string) : option string :=
  match s with
  | "" => None
  | String c r =>
      match after_last sep r with
      | Some tail => Some tail
      | None => if Ascii.eqb c sep then Some r else None
      end
  end.

Fixpoint take (n : nat) (s : string) : string :=
  match n, s with
  | S n', String c r => String c (take n' r)
  | _, _ => ""
  end.

(** [path.dirname (p)] for an absolute, normalised [p]. *)
Definition path_dirname (sep : string) (p : string) : string :=
  match sep with
  | String c _ =>
      match after_last c p with
      | Some tail =>
          match take (String.length p - String.length tail - 1) p with
          | "" => sep
          | d => d
          end
      | None => "."
      end
  | "" => "."
  end.

(** ** child_process *)

Inductive stdio := pipe | inherit.

Record exec_options := ExecOptions {
  cwd : option string;
  stdio_mode : stdio;
  timeout : option Z
}.

Definition advance (ms : Z) (w : world) : world := set_now (w_now w + ms)%Z w.

Fixpoint write_all (l : list (string * string)) (f : gmap string node) : gmap string node :=
  match l with
  | [] => f
  | (p, bytes) :: r => write_all r (<[p := File bytes]> f)
  end.

(** The message of the error [execSync] throws for a non-zero status:
    the captured standard error is appended when there is some. *)
Definition command_failed (cmd : string) (mode : stdio) (stderr : string) : string :=
  "Command failed: " +:+ cmd +:+
  match mode with
  | pipe => if String.eqb stderr "" then "" else String LF stderr
  | inherit => ""
  end.

Definition timed_out : string := "spawnSync /bin/sh ETIMEDOUT".

(** The run of a command that has behaviour [p], once the call is on
    record in [w]. *)
Definition run_proc (cmd : string) (opts : exec_options) (p : proc) (w : world) : outcome string * world :=
  let over (ms : Z) : bool :=
    match timeout opts with
    | Some limit => (limit <? ms)%Z
    | None => false
    end in
  match p with
  | Succeeds ms out writes =>
      if over ms then (Throw timed_out, advance (default 0%Z (timeout opts)) w)
      else (Ret out, advance ms (set_fs (write_all writes (w_fs w)) w))
  | Fails ms err =>
      if over ms then (Throw timed_out, advance (default 0%Z (timeout opts)) w)
      else (Throw (command_failed cmd (stdio_mode opts) err), advance ms w)
  | Never =>
      match timeout opts with
      | Some limit => (Throw timed_out, advance limit w)
      | None => (Hang, w)
      end
  end.

(** [execSync (cmd, opts)]: blocks until the command ends or the timeout
    of [opts], if any, has passed.  A command the shell cannot find ends
    at once with a non-zero status. *)
Definition execSync {T} (cmd : string) (opts : exec_options) : M T string :=
  fun t w =>
    let w1 := set_calls (w_calls w ++ [(cmd, timeout opts)]) w in
    let p := default (Fails 0 ("/bin/sh: 1: " +:+ cmd +:+ ": not found")) (w_procs w !! cmd) in
    let '(o, w2) := run_proc cmd opts p w1 in
    (o, t, w2).

End Runtime.

(** * [scripts/install.cjs]: class [NotionMcpInstaller] *)

Module Installer.
Import JSON JS Runtime.
Local Open Scope js_scope.

(** The fields of the object.  [getClaudeConfigDir] runs in the
    constructor before [logPrefix] is assigned, so both fields can be
    [undefined] ([None]) while it runs. *)
Record installer := mkInstaller {
  platform : string;
  projectRoot : string;
  config : value;
  claudeConfigDir : option string;
  logPrefix : option string
}.

Definition with_config (c : value) (this : installer) : installer :=
  mkInstaller (platform this) (projectRoot this) c (claudeConfigDir this) (logPrefix this).

Definition with_claudeConfigDir (d : option string) (this : installer) : installer :=
  mkInstaller (platform this) (projectRoot this) (config this) d (logPrefix this).

Definition with_logPrefix (p : option string) (this : installer) : installer :=
  mkInstaller (platform this) (projectRoot this) (config this) (claudeConfigDir this) p.

Inductive level := info | failure | good.

Definition icon (type : level) : string :=
  match type with
  | failure => "❌"
  | good => "✅"
  | info => "ℹ️"
  end.

Definition line (type : level) (prefix : option string) (message : string) : string :=
  icon type +:+ " " +:+ default "undefined" prefix +:+ " " +:+ message.

(** [log (message, type = 'info')]; the timestamp it computes is not
    printed. *)
Definition log (message : string) (type : level) : M installer unit :=
  this <- get_this ;;
  console_log (line type (logPrefix this) message).

(** [error (message, exit = true)]. *)
Definition error (message : string) (exit : bool) : M installer unit :=
  log message failure ;;
  if exit then process_exit 1 else ret tt.

Definition success (message : string) : M installer unit :=
  log message good.

Definition sep_of (this : installer) : string := path_sep (platform this).

(** [path.join] of a field that may be [undefined]. *)
Definition join_under (this : installer) (dir : option string) (parts : list string) : M installer string :=
  match dir with
  | Some d => ret (path_join (sep_of this) (d :: parts))
  | None => throw "The path argument must be of type string. Received undefined"
  end.

Definition getClaudeConfigDir : M installer (option string) :=
  this <- get_this ;;
  w <- get_world ;;
  if String.eqb (platform this) "win32" then
    ret (Some (path_join (sep_of this) [w_homedir w; "AppData"; "Roaming"; "Claude"]))
  else if String.eqb (platform this) "darwin" then
    ret (Some (path_join (sep_of this) [w_homedir w; "Library"; "Application Support"; "Claude"]))
  else if String.eqb (platform this) "linux" then
    ret (Some (path_join (sep_of this) [w_homedir w; ".config"; "claude"]))
  else
    error ("Unsupported platform: " +:+ platform this) true ;;
    ret None.

Definition constructor : M installer unit :=
  w <- get_world ;;
  put_this (mkInstaller (w_platform w)
              (path_dirname (path_sep (w_platform w)) (w_dirname w))
              JNull None None) ;;
  dir <- getClaudeConfigDir ;;
  this <- get_this ;;
  put_this (with_logPrefix (Some "[Notion MCP Installer]") (with_claudeConfigDir dir this)).

(** [JSON.parse (text)], which throws a [SyntaxError].  The message of
    the engine names the offending token and its position; one fixed
    text stands for it here. *)
Definition JSON_parse {T} (text : string) : M T value :=
  match parse text with
  | Some v => ret v
  | None => throw "Unexpected token in JSON"
  end.

Definition default_config : value :=
  JObject [("notionToken", JString ""); ("verbose", JBool false)].

(** The path [loadConfig] reads: the value of the first [--config=]
    argument, or [scripts/install-config.json] under the project. *)
Definition install_config_path (this : installer) (argv : list string) : string :=
  let configArg := List.find (startsWith "--config=") argv in
  match configArg with
  | Some arg => nth 1 (split "="%char arg) ""
  | None => path_join (sep_of this) [projectRoot this; "scripts"; "install-config.json"]
  end.

Definition loadConfig : M installer unit :=
  this <- get_this ;;
  w <- get_world ;;
  let configPath := install_config_path this (w_argv w) in
  present <- existsSync configPath ;;
  if present then
    try_catch
      (text <- readFileSync configPath ;;
       parsed <- JSON_parse text ;;
       this <- get_this ;;
       put_this (with_config parsed this) ;;
       log ("Loaded configuration from: " +:+ configPath) info)
      (fun message =>
         error ("Failed to parse configuration file: " +:+ message) true)
  else
    put_this (with_config default_config this) ;;
    log "Using default configuration (no config file found)" info.

Definition plain_options : exec_options := ExecOptions None pipe None.

Definition checkSystemDependencies : M installer unit :=
  log "Checking system dependencies..." info ;;
  try_catch
    (out <- execSync "node --version" plain_options ;;
     let nodeVersion := trim out in
     log ("Node.js version: " +:+ nodeVersion +:+ " ✓") info ;;
     if lt_number (versionNum nodeVersion) 16 then
       error "Node.js version 16 or higher is required" true
     else ret tt)
    (fun _ => error "Node.js is not installed or not in PATH" true) ;;
  try_catch
    (out <- execSync "npm --version" plain_options ;;
     let npmVersion := trim out in
     log ("npm version: " +:+ npmVersion +:+ " ✓") info)
    (fun _ => error "npm is not installed or not in PATH" true) ;;
  success "System dependencies check completed".

(** [this.config.verbose ? 'inherit' : 'pipe']. *)
Definition verbose_stdio : M installer stdio :=
  this <- get_this ;;
  verbose <- lift (get_member (config this) "verbose") ;;
  ret (if truthy_opt verbose then inherit else pipe).

Definition cli_binary (this : installer) : string :=
  path_join (sep_of this) [projectRoot this; "bin"; "cli.mjs"].

Definition buildProject : M installer unit :=
  log "Building Notion MCP server..." info ;;
  try_catch
    (this <- get_this ;;
     log "Installing dependencies..." info ;;
     mode <- verbose_stdio ;;
     execSync "npm install" (ExecOptions (Some (projectRoot this)) mode None) ;;
     log "Building project..." info ;;
     mode <- verbose_stdio ;;
     execSync "npm run build" (ExecOptions (Some (projectRoot this)) mode None) ;;
     let cliBinary := cli_binary this in
     present <- existsSync cliBinary ;;
     if negb present then throw "CLI binary not found after build"
     else success "Project build completed successfully")
    (fun message => error ("Failed to build project: " +:+ message) true).

Definition quoted (s : string) : string :=
  String DQUOTE s +:+ String DQUOTE "".

Definition testNotionMcpServer : M installer unit :=
  log "Testing Notion MCP server..." info ;;
  try_catch
    (this <- get_this ;;
     let cliBinary := cli_binary this in
     result <- execSync ("node " +:+ quoted cliBinary +:+ " --help")
                 (ExecOptions None pipe (Some 15000%Z)) ;;
     if includes "Usage: notion-mcp-server" result then
       success "Notion MCP server test completed successfully"
     else throw "Unexpected server response")
    (fun message => error ("Notion MCP server test failed: " +:+ message) true).

Definition empty_config : value := JObject [("mcpServers", JObject [])].

Definition SERVER_NAME : string := "notion-mcp".

(** [this.config.notionToken || ""]. *)
Definition token_or_empty (token : option value) : value :=
  match token with
  | Some v => if truthy v then v else JString ""
  | None => JString ""
  end.

(** The entry written under ["notion-mcp"]. *)
Definition server_entry (cliBinaryPath : string) (token : option value) : value :=
  JObject [("command", JString "node");
           ("args", JArray [JString cliBinaryPath] []);
           ("env", JObject [("NOTION_TOKEN", token_or_empty token)])].

(** The body of the [try] that loads the existing file: parse, make sure
    [mcpServers] is there, then copy the file aside. *)
Definition load_existing (configPath : string) : M installer value :=
  text <- readFileSync configPath ;;
  claudeConfig <- JSON_parse text ;;
  servers <- lift (get_member claudeConfig "mcpServers") ;;
  claudeConfig <-
    (if negb (truthy_opt servers) then
       lift (set_member claudeConfig "mcpServers" (JObject []))
     else ret claudeConfig) ;;
  now <- Date_now ;;
  let backupPath := configPath +:+ ".backup." +:+ string_of_Z now in
  copyFileSync configPath backupPath ;;
  log ("Backed up existing configuration to: " +:+ backupPath) info ;;
  ret claudeConfig.

(** [claudeConfig.mcpServers["notion-mcp"] = entry]: the object that
    [claudeConfig.mcpServers] refers to is updated where it is. *)
Definition set_server (claudeConfig entry : value) : string + value :=
  match get_member claudeConfig "mcpServers" with
  | inl msg => inl msg
  | inr None => inl "Cannot set properties of undefined (setting 'notion-mcp')"
  | inr (Some servers) =>
      match set_member servers SERVER_NAME entry with
      | inl msg => inl msg
      | inr servers' => set_member claudeConfig "mcpServers" servers'
      end
  end.

Definition configureClaudeDesktop : M installer unit :=
  log "Configuring Claude Desktop..." info ;;
  this <- get_this ;;
  present <- match claudeConfigDir this with
             | Some d => existsSync d
             | None => ret false
             end ;;
  (if negb present then
     match claudeConfigDir this with
     | Some d =>
         mkdirSync d ;;
         log ("Created Claude config directory: " +:+ d) info
     | None => throw "The path argument must be of type string. Received undefined"
     end
   else ret tt) ;;
  configPath <- join_under this (claudeConfigDir this) ["claude_desktop_config.json"] ;;
  let cliBinaryPath := cli_binary this in
  present <- existsSync configPath ;;
  claudeConfig <-
    (if present then
       try_catch (load_existing configPath)
         (fun _ =>
            log "Warning: Could not parse existing config, creating new one" info ;;
            ret empty_config)
     else ret empty_config) ;;
  token <- lift (get_member (config this) "notionToken") ;;
  claudeConfig <- lift (set_server claudeConfig (server_entry cliBinaryPath token)) ;;
  try_catch
    (writeFileSync configPath (stringify claudeConfig) ;;
     success ("Claude Desktop configuration updated: " +:+ configPath))
    (fun message =>
       error ("Failed to write Claude Desktop configuration: " +:+ message) true).

Definition manual_command (cliBinaryPath : string) : string :=
  "claude mcp add notion-mcp node " +:+ quoted cliBinaryPath +:+ " -s user".

Definition configureClaudeCodeCLI : M installer unit :=
  log "Configuring Claude Code CLI..." info ;;
  try_catch
    (this <- get_this ;;
     let cliBinaryPath := cli_binary this in
     try_catch
       (log "Checking for existing Claude Code CLI MCP server..." info ;;
        execSync "claude mcp remove notion-mcp -s user" plain_options ;;
        log "Removed existing MCP server configuration" info)
       (fun _ =>
          log "No existing MCP server found (expected for fresh installation)" info) ;;
     token <- lift (get_member (config this) "notionToken") ;;
     let command :=
       manual_command cliBinaryPath +:+
       (if truthy_opt token then
          " --env NOTION_TOKEN=" +:+ quoted (from_option to_string "undefined" token)
        else "") in
     log "Adding Notion MCP server to Claude Code CLI with user scope..." info ;;
     mode <- verbose_stdio ;;
     execSync command (ExecOptions None mode None) ;;
     success "Claude Code CLI configuration completed")
    (fun message =>
       if includes "already exists" message then
         success "Claude Code CLI MCP server already configured"
       else
         log ("Warning: Failed to configure Claude Code CLI: " +:+ message) failure ;;
         this <- get_this ;;
         log ("You may need to manually run: " +:+ manual_command (cli_binary this)) info).

Definition createClaudeConfig : M installer unit :=
  log "Creating Claude Desktop and Claude Code CLI configuration..." info ;;
  configureClaudeDesktop ;;
  configureClaudeCodeCLI.

Definition closing_lines : list string :=
  [""; "Configuration completed for:";
   "✅ Claude Desktop - Restart Claude Desktop to load the MCP server";
   "✅ Claude Code CLI - MCP server configured globally with user scope";
   ""; "Next steps:";
   "1. Set your Notion integration token in the configuration files if not already set";
   "2. Restart Claude Desktop to load the new MCP server";
   "3. Test Claude Code CLI: Open any terminal and run " +:+ quoted "claude mcp list";
   "4. The Notion MCP server will be available for Notion workspace integration";
   "5. Run " +:+ quoted "node scripts/verify.js" +:+ " to verify the installation (if verify script exists)";
   ""].

Fixpoint log_all (lines : list string) : M installer unit :=
  match lines with
  | [] => ret tt
  | l :: r => log l info ;; log_all r
  end.

Definition install : M installer unit :=
  try_catch
    (log "Starting Notion MCP Server installation..." info ;;
     loadConfig ;;
     checkSystemDependencies ;;
     buildProject ;;
     testNotionMcpServer ;;
     createClaudeConfig ;;
     success "Installation completed successfully!" ;;
     log_all closing_lines)
    (fun message => error ("Installation failed: " +:+ message) true).

Definition blank : installer := mkInstaller "" "" JNull None None.

(** The script run directly: [new NotionMcpInstaller ()] then
    [install ()].  The result is the exit code of the process, if it
    ends, and the world it leaves. *)
Definition main (w : world) : option Z * world :=
  let '(o, _, w') := (constructor ;; install) blank w in (exit_code o, w').

End Installer.

(** * The verifier script: class [NotionMcpVerifier] *)

Module Verifier.
Import JSON JS Runtime.
Local Open Scope js_scope.

Record verifier := mkVerifier {
  platform : string;
  projectRoot : string;
  claudeConfigDir : option string;
  logPrefix : option string;
  errors : list string;
  warnings : list string
}.

Definition with_errors (e : list string) (this : verifier) : verifier :=
  mkVerifier (platform this) (projectRoot this) (claudeConfigDir this)
    (logPrefix this) e (warnings this).

Definition with_warnings (l : list string) (this : verifier) : verifier :=
  mkVerifier (platform this) (projectRoot this) (claudeConfigDir this)
    (logPrefix this) (errors this) l.

Inductive level := info | failure | good | caution.

Definition icon (type : level) : string :=
  match type with
  | failure => "❌"
  | good => "✅"
  | caution => "⚠️"
  | info => "ℹ️"
  end.

Definition line (type : level) (prefix : option string) (message : string) : string :=
  icon type +:+ " " +:+ default "undefined" prefix +:+ " " +:+ message.

Definition log (message : string) (type : level) : M verifier unit :=
  this <- get_this ;;
  console_log (line type (logPrefix this) message).

(** [error (message)]: the message joins [this.errors]; nothing ends. *)
Definition error (message : string) : M verifier unit :=
  this <- get_this ;;
  put_this (with_errors (errors this ++ [message]) this) ;;
  log message failure.

Definition warning (message : string) : M verifier unit :=
  this <- get_this ;;
  put_this (with_warnings (warnings this ++ [message]) this) ;;
  log message caution.

Definition success (message : string) : M verifier unit :=
  log message good.

Definition sep_of (this : verifier) : string := path_sep (platform this).

Definition getClaudeConfigDir : M verifier (option string) :=
  this <- get_this ;;
  w <- get_world ;;
  if String.eqb (platform this) "win32" then
    ret (Some (path_join (sep_of this) [w_homedir w; "AppData"; "Roaming"; "Claude"]))
  else if String.eqb (platform this) "darwin" then
    ret (Some (path_join (sep_of this) [w_homedir w; "Library"; "Application Support"; "Claude"]))
  else if String.eqb (platform this) "linux" then
    ret (Some (path_join (sep_of this) [w_homedir w; ".config"; "claude"]))
  else throw ("Unsupported platform: " +:+ platform this).

Definition constructor : M verifier unit :=
  w <- get_world ;;
  put_this (mkVerifier (w_platform w)
              (path_dirname (path_sep (w_platform w)) (w_dirname w))
              None None [] []) ;;
  dir <- getClaudeConfigDir ;;
  this <- get_this ;;
  put_this (mkVerifier (platform this) (projectRoot this) dir
              (Some "[Notion MCP Verifier]") [] []).

Definition plain_options : exec_options := ExecOptions None pipe None.

Definition checkSystemDependencies : M verifier unit :=
  log "Checking system dependencies..." info ;;
  try_catch
    (out <- execSync "node --version" plain_options ;;
     let nodeVersion := trim out in
     success ("Node.js version: " +:+ nodeVersion) ;;
     if lt_number (versionNum nodeVersion) 16 then
       error "Node.js version 16 or higher is required"
     else ret tt)
    (fun _ => error "Node.js is not installed or not in PATH") ;;
  try_catch
    (out <- execSync "npm --version" plain_options ;;
     let npmVersion := trim out in
     success ("npm version: " +:+ npmVersion))
    (fun _ => error "npm is not installed or not in PATH").

Definition cli_binary (this : verifier) : string :=
  path_join (sep_of this) [projectRoot this; "bin"; "cli.mjs"].

Definition quoted (s : string) : string :=
  String DQUOTE s +:+ String DQUOTE "".

Definition checkProjectBuild : M verifier unit :=
  log "Checking project build..." info ;;
  this <- get_this ;;
  let nodeModulesPath := path_join (sep_of this) [projectRoot this; "node_modules"] in
  present <- existsSync nodeModulesPath ;;
  if negb present then
    error ("Node modules not found - run " +:+ quoted "npm install")
  else
    success "Node modules found" ;;
    let cliBinary := cli_binary this in
    present <- existsSync cliBinary ;;
    if negb present then
      error ("CLI binary not found - run " +:+ quoted "npm run build")
    else
      success "CLI binary found" ;;
      try_catch
        (result <- execSync ("node " +:+ quoted cliBinary +:+ " --help")
                     (ExecOptions None pipe (Some 10000%Z)) ;;
         if includes "Usage: notion-mcp-server" result then
           success "CLI binary is functional"
         else error "CLI binary test failed - unexpected output")
        (fun message => error ("CLI binary test failed: " +:+ message)).

Definition JSON_parse {T} (text : string) : M T value :=
  match parse text with
  | Some v => ret v
  | None => throw "Unexpected token in JSON"
  end.

Definition is_string (s : string) (v : option value) : bool :=
  match v with
  | Some (JString x) => String.eqb x s
  | _ => false
  end.

Definition not_a_function (what : string) : string := what +:+ " is not a function".

(** [args.includes (x)] for a truthy [args]: the method of arrays looks
    for an element, the method of strings for a substring, and no other
    value has a callable [includes]. *)
Definition call_includes (args : value) (x : string) : string + bool :=
  match args with
  | JArray es named =>
      match obj_get "includes" named with
      | Some _ => inl (not_a_function "notionConfig.args.includes")
      | None => inr (existsb (fun e => is_string x (Some e)) es)
      end
  | JString s => inr (includes x s)
  | _ => inl (not_a_function "notionConfig.args.includes")
  end.

(** [env.hasOwnProperty (k)] for a truthy [env] and a key that is neither
    an index nor ["length"]: an own property named [hasOwnProperty]
    hides the inherited method and is not callable. *)
Definition call_hasOwnProperty (env : value) (k : string) : string + bool :=
  match env with
  | JObject o =>
      match obj_get "hasOwnProperty" o with
      | Some _ => inl (not_a_function "notionConfig.env.hasOwnProperty")
      | None => inr (bool_decide (is_Some (obj_get k o)))
      end
  | JArray _ named =>
      match obj_get "hasOwnProperty" named with
      | Some _ => inl (not_a_function "notionConfig.env.hasOwnProperty")
      | None => inr (bool_decide (is_Some (obj_get k named)))
      end
  | _ => inr false
  end.

Definition config_path (this : verifier) : M verifier string :=
  match claudeConfigDir this with
  | Some d => ret (path_join (sep_of this) [d; "claude_desktop_config.json"])
  | None => throw "The path argument must be of type string. Received undefined"
  end.

Definition checkClaudeDesktopConfig : M verifier unit :=
  log "Checking Claude Desktop configuration..." info ;;
  this <- get_this ;;
  configPath <- config_path this ;;
  present <- existsSync configPath ;;
  if negb present then warning "Claude Desktop config file not found"
  else
    try_catch
      (text <- readFileSync configPath ;;
       config <- JSON_parse text ;;
       servers <- lift (get_member config "mcpServers") ;;
       match servers with
       | Some servers =>
           if negb (truthy servers) then
             warning "No MCP servers configured in Claude Desktop"
           else
             entry <- lift (get_member servers "notion-mcp") ;;
             match entry with
             | Some notionConfig =>
                 if negb (truthy notionConfig) then
                   warning "Notion MCP server not found in Claude Desktop config"
                 else
                   let cliBinaryPath := cli_binary this in
                   command <- lift (get_member notionConfig "command") ;;
                   (if negb (is_string "node" command) then
                      warning ("Claude Desktop config command should be " +:+ quoted "node")
                    else ret tt) ;;
                   args <- lift (get_member notionConfig "args") ;;
                   points <-
                     match args with
                     | Some a => if truthy a then lift (call_includes a cliBinaryPath) else ret false
                     | None => ret false
                     end ;;
                   (if negb points then
                      warning "Claude Desktop config args do not point to correct CLI binary"
                    else ret tt) ;;
                   env <- lift (get_member notionConfig "env") ;;
                   has_token <-
                     match env with
                     | Some e => if truthy e then lift (call_hasOwnProperty e "NOTION_TOKEN") else ret false
                     | None => ret false
                     end ;;
                   (if negb has_token then
                      warning "NOTION_TOKEN not configured in Claude Desktop (may need to be set manually)"
                    else ret tt) ;;
                   success "Claude Desktop configuration looks correct"
             | None => warning "Notion MCP server not found in Claude Desktop config"
             end
       | None => warning "No MCP servers configured in Claude Desktop"
       end)
      (fun message => error ("Failed to parse Claude Desktop config: " +:+ message)).

Definition checkClaudeCodeCLI : M verifier unit :=
  log "Checking Claude Code CLI configuration..." info ;;
  found <- try_catch
             (execSync "claude --version" plain_options ;; ret true)
             (fun _ =>
                warning "Claude Code CLI not found - cannot verify MCP configuration" ;;
                ret false) ;;
  if negb found then ret tt
  else
    try_catch
      (result <- execSync "claude mcp list" (ExecOptions None pipe (Some 30000%Z)) ;;
       if includes "notion-mcp" result then
         if includes "✓ Connected" result then
           success "Notion MCP server is connected in Claude Code CLI"
         else if includes "✗ Failed to connect" result then
           warning "Notion MCP server found but failed to connect in Claude Code CLI"
         else
           warning "Notion MCP server found with unknown status in Claude Code CLI"
       else
         warning "Notion MCP server not found in Claude Code CLI configuration")
      (fun message =>
         error ("Failed to check Claude Code CLI MCP servers: " +:+ message)).

(** [a && a.k]: the member when [a] is truthy, else [a] itself; what
    matters further on is only whether the result is truthy. *)
Definition and_member (a : option value) (k : string) : string + option value :=
  match a with
  | Some v => if truthy v then get_member v k else inr a
  | None => inr None
  end.

(** [token.length > 0] for a truthy token.  A string or an array has its
    length; an object has the own property [length] it may carry, which
    is compared when it is a number or a boolean (the conversion of other
    values to a number is not modelled: they do not pass); a number or a
    boolean has no [length]. *)
Definition length_positive (token : value) : bool :=
  match token with
  | JString s => negb (String.eqb s "")
  | JArray es _ => negb (bool_decide (es = []))
  | JObject o =>
      match obj_get "length" o with
      | Some (JNumber n) => negb (num_neg n) && truthy (JNumber n)
      | Some (JBool b) => b
      | _ => false
      end
  | _ => false
  end.

Definition instructions : list string :=
  [""; "📝 Notion Integration Setup Instructions:";
   "1. Go to https://www.notion.so/profile/integrations";
   "2. Create a new internal integration or select an existing one";
   "3. Copy the integration token (starts with " +:+ quoted "ntn_" +:+ ")";
   "4. Add the token to your Claude configurations";
   "5. Grant page access to your integration in Notion"].

Fixpoint log_all (lines : list string) : M verifier unit :=
  match lines with
  | [] => ret tt
  | l :: r => log l info ;; log_all r
  end.

Definition checkNotionIntegration : M verifier unit :=
  log "Checking Notion integration setup..." info ;;
  w <- get_world ;;
  (match w_environ w !! "NOTION_TOKEN" with
   | Some (String _ _) => success "NOTION_TOKEN found in environment"
   | _ => warning "NOTION_TOKEN not set in environment - will need to be configured in Claude configs"
   end) ;;
  this <- get_this ;;
  configPath <- config_path this ;;
  present <- existsSync configPath ;;
  (if present then
     try_catch
       (text <- readFileSync configPath ;;
        config <- JSON_parse text ;;
        servers <- lift (get_member config "mcpServers") ;;
        entry <- lift (and_member servers "notion-mcp") ;;
        env <- lift (and_member entry "env") ;;
        token <- lift (and_member env "NOTION_TOKEN") ;;
        match token with
        | Some token =>
            if truthy token then
              if length_positive token then
                success "NOTION_TOKEN configured in Claude Desktop"
              else warning "NOTION_TOKEN is empty in Claude Desktop config"
            else ret tt
        | None => ret tt
        end)
       (fun _ => ret tt)
   else ret tt) ;;
  log_all instructions.

Definition rule : string := "==================================================".

Fixpoint list_all (items : list string) : M verifier unit :=
  match items with
  | [] => ret tt
  | x :: r => log ("   - " +:+ x) info ;; list_all r
  end.

Definition count (l : list string) : string := string_of_Z (Z.of_nat (length l)).

Definition verify : M verifier unit :=
  log "Starting Notion MCP Server verification..." info ;;
  log "" info ;;
  checkSystemDependencies ;;
  log "" info ;;
  checkProjectBuild ;;
  log "" info ;;
  checkClaudeDesktopConfig ;;
  log "" info ;;
  checkClaudeCodeCLI ;;
  log "" info ;;
  checkNotionIntegration ;;
  log "" info ;;
  log rule info ;;
  log "VERIFICATION SUMMARY" info ;;
  log rule info ;;
  this <- get_this ;;
  if bool_decide (errors this = []) && bool_decide (warnings this = []) then
    success "All checks passed! Notion MCP server is ready to use."
  else
    (if negb (bool_decide (errors this = [])) then
       log ("❌ " +:+ count (errors this) +:+ " error(s) found:") info ;;
       list_all (errors this)
     else ret tt) ;;
    (if negb (bool_decide (warnings this = [])) then
       log ("⚠️ " +:+ count (warnings this) +:+ " warning(s) found:") info ;;
       list_all (warnings this)
     else ret tt) ;;
    if negb (bool_decide (errors this = [])) then
      log "" info ;;
      log "❌ Please fix the errors above before using the Notion MCP server." info ;;
      process_exit 1
    else
      log "" info ;;
      log "⚠️ The server should work, but consider addressing the warnings above." info.

Definition blank : verifier := mkVerifier "" "" None None [] [].

(** The script run directly: an error thrown by the constructor is an
    uncaught exception, which ends the process with code 1. *)
Definition main (w : world) : option Z * world :=
  let '(o, _, w') := (constructor ;; verify) blank w in (exit_code o, w').

End Verifier.

Module JSONFacts.
Import JSON.

(** ** Strings *)

Lemma append_nil_l (b : string) : "" +:+ b = b.
Proof. reflexivity. Qed.

Lemma append_cons (x : ascii) (a b : string) : String x a +:+ b = String x (a +:+ b).
Proof. reflexivity. Qed.

Lemma append_assoc (a b c : string) : (a +:+ b) +:+ c = a +:+ (b +:+ c).
Proof.
  induction a as [|x a IH]; [reflexivity|].
  rewrite !append_cons. f_equal. exact IH.
Qed.

Lemma append_nil_r (a : string) : a +:+ "" = a.
Proof.
  induction a as [|x a IH]; [reflexivity|].
  rewrite append_cons. f_equal. exact IH.
Qed.

Lemma length_append (a b : string) :
  String.length (a +:+ b) = String.length a + String.length b.
Proof.
  induction a as [|x a IH]; [reflexivity|].
  rewrite append_cons. simpl. now rewrite IH.
Qed.

Lemma append_not_self (a b : string) : b <> "" -> a +:+ b <> a.
Proof.
  intros Hb Heq. apply Hb.
  assert (H : String.length (a +:+ b) = String.length a) by now rewrite Heq.
  rewrite length_append in H. destruct b; [reflexivity | simpl in H; lia].
Qed.

(** ** Objects *)

Lemma obj_get_set_same k v o : obj_get k (obj_set k v o) = Some v.
Proof.
  induction o as [|[k' v'] o IH]; simpl.
  - now rewrite String.eqb_refl.
  - destruct (String.eqb k' k) eqn:E; simpl; rewrite E; [reflexivity | exact IH].
Qed.

Lemma obj_get_set_other k k' v o : k' <> k -> obj_get k' (obj_set k v o) = obj_get k' o.
Proof.
  intros Hne. induction o as [|[k0 v0] o IH]; simpl.
  - destruct (String.eqb k k') eqn:E; [apply String.eqb_eq in E; congruence | reflexivity].
  - destruct (String.eqb k0 k) eqn:E; simpl.
    + apply String.eqb_eq in E. subst k0.
      destruct (String.eqb k k') eqn:E'; [apply String.eqb_eq in E'; congruence | reflexivity].
    + now rewrite IH.
Qed.

Lemma keys_obj_set k v o :
  List.map fst (obj_set k v o) =
  if existsb (String.eqb k) (List.map fst o) then List.map fst o else List.map fst o ++ [k].
Proof.
  induction o as [|[k' v'] o IH]; simpl; [reflexivity|].
  rewrite (String.eqb_sym k k').
  destruct (String.eqb k' k) eqn:E; simpl; [reflexivity|].
  rewrite IH. now destruct (existsb _ _).
Qed.

Lemma existsb_app_single k k' l :
  existsb (String.eqb k) (l ++ [k']) = existsb (String.eqb k) l || String.eqb k k'.
Proof. rewrite existsb_app. simpl. now rewrite orb_false_r. Qed.

Lemma distinct_snoc l k : distinct (l ++ [k]) = distinct l && negb (existsb (String.eqb k) l).
Proof.
  induction l as [|x l IH]; simpl; [reflexivity|].
  rewrite IH, existsb_app_single, (String.eqb_sym k x).
  destruct (existsb (String.eqb x) l), (String.eqb x k), (distinct l),
    (existsb (String.eqb k) l); reflexivity.
Qed.

Lemma distinct_obj_set k v o :
  distinct (List.map fst o) = true -> distinct (List.map fst (obj_set k v o)) = true.
Proof.
  intros H. rewrite keys_obj_set.
  destruct (existsb _ _) eqn:E; [exact H|].
  now rewrite distinct_snoc, H, E.
Qed.

Lemma values_obj_set (Q : value -> bool) k v o :
  Q v = true -> forallb (fun kv => Q (snd kv)) o = true ->
  forallb (fun kv => Q (snd kv)) (obj_set k v o) = true.
Proof.
  intros Hv. induction o as [|[k' v'] o IH]; simpl; intros H.
  - now rewrite Hv.
  - apply andb_true_iff in H as [H1 H2].
    destruct (String.eqb k' k); simpl.
    + now rewrite Hv, H2.
    + now rewrite H1, IH.
Qed.

Lemma obj_set_fresh k v o :
  existsb (String.eqb k) (List.map fst o) = false -> obj_set k v o = o ++ [(k, v)].
Proof.
  induction o as [|[k' v'] o IH]; simpl; [reflexivity|].
  rewrite (String.eqb_sym k k'). intros H. apply orb_false_iff in H as [H1 H2].
  now rewrite H1, IH.
Qed.

Lemma fold_obj_set_distinct kvs acc :
  distinct (List.map fst (acc ++ kvs)) = true ->
  fold_left (fun o kv => obj_set (fst kv) (snd kv) o) kvs acc = acc ++ kvs.
Proof.
  revert acc. induction kvs as [|[k v] kvs IH]; intros acc H; simpl.
  - now rewrite app_nil_r.
  - assert (Hacc : acc ++ (k, v) :: kvs = (acc ++ [(k, v)]) ++ kvs)
      by now rewrite <- app_assoc.
    rewrite Hacc in H |- *.
    rewrite obj_set_fresh.
    + now apply IH.
    + rewrite map_app, map_app in H. simpl in H.
      clear -H. induction (List.map fst acc) as [|x l IHl]; [reflexivity|].
      simpl in H. apply andb_true_iff in H as [H1 H2].
      simpl. rewrite IHl by exact H2.
      rewrite <- app_assoc in H1. simpl in H1. rewrite existsb_app in H1. simpl in H1.
      rewrite (String.eqb_sym k x).
      destruct (String.eqb x k); [|reflexivity].
      now rewrite orb_true_r in H1.
Qed.

Lemma obj_of_members_distinct kvs :
  distinct (List.map fst kvs) = true -> obj_of_members kvs = kvs.
Proof. intros H. unfold obj_of_members. now rewrite fold_obj_set_distinct. Qed.

(** ** Numbers *)

Definition delimited (rest : string) : Prop :=
  rest = "" \/ exists r, rest = String ","%char r \/ rest = String LF r.

Definition stops_digits (rest : string) : Prop :=
  match rest with
  | "" => True
  | String c _ => digit_of_char c = None
  end.

Lemma delimited_stops_digits rest : delimited rest -> stops_digits rest.
Proof. intros [-> | [r [-> | ->]]]; simpl; auto. Qed.

Lemma take_digits_string_of_uint d rest :
  stops_digits rest -> take_digits (string_of_uint d +:+ rest) = (d, rest).
Proof.
  intros H.
  induction d; simpl; rewrite ?append_cons; simpl; try (rewrite IHd; reflexivity).
  destruct rest; simpl in *; [reflexivity | now rewrite H].
Qed.

Lemma nzhead_not_D0 d d' : nzhead d <> D0 d'.
Proof. induction d; simpl; congruence. Qed.

Lemma to_uint_unorm n : unorm (N.to_uint n) = N.to_uint n.
Proof.
  rewrite <- DecimalN.Unsigned.to_of, DecimalN.Unsigned.of_to. reflexivity.
Qed.

Lemma to_uint_canonical n : canonical_int (N.to_uint n) = true.
Proof.
  pose proof (to_uint_unorm n) as H.
  destruct (N.to_uint n) as [|d| | | | | | | | |]; try reflexivity.
  - discriminate H.
  - unfold unorm in H. simpl in H.
    destruct (nzhead d) eqn:E; try (exfalso; eapply nzhead_not_D0; rewrite E; exact H).
    injection H as <-. reflexivity.
Qed.

Lemma head_is_digits c d rest :
  canonical_int d = true -> digit_of_char c = None ->
  head_is c (string_of_uint d +:+ rest) = None.
Proof.
  intros Hd Hc.
  destruct d; [simpl in Hd; discriminate Hd|..];
    cbn [string_of_uint]; rewrite append_cons; cbn [head_is];
    (destruct (Ascii.eqb _ c) eqn:E; [apply Ascii.eqb_eq in E; subst c; discriminate Hc | reflexivity]).
Qed.

Definition exponent_text (ex : option Z) : string :=
  match ex with
  | None => ""
  | Some e => String "e"%char (string_of_Z e)
  end.

Lemma uint_is_nil_to_uint n : uint_is_nil (N.to_uint n) = false.
Proof.
  pose proof (to_uint_canonical n). now destruct (N.to_uint n).
Qed.

Lemma parse_exponent_text ex rest :
  delimited rest -> parse_exponent (exponent_text ex +:+ rest) = Some (ex, rest).
Proof.
  intros Hrest. pose proof (delimited_stops_digits _ Hrest) as Hstop.
  destruct ex as [e|]; simpl.
  - rewrite append_cons. unfold parse_exponent. simpl.
    destruct e as [|p|p]; unfold string_of_Z.
    + change ("0" +:+ rest) with (string_of_uint (D0 Nil) +:+ rest).
      rewrite (head_is_digits "-"), (head_is_digits "+") by reflexivity.
      rewrite take_digits_string_of_uint by exact Hstop. reflexivity.
    + rewrite (head_is_digits "-"), (head_is_digits "+")
        by (try apply to_uint_canonical; reflexivity).
      rewrite take_digits_string_of_uint by exact Hstop. cbv beta iota zeta.
      rewrite uint_is_nil_to_uint, DecimalN.Unsigned.of_to. reflexivity.
    + rewrite append_cons. cbn [head_is Ascii.eqb Bool.eqb].
      rewrite take_digits_string_of_uint by exact Hstop. cbv beta iota zeta.
      rewrite uint_is_nil_to_uint, DecimalN.Unsigned.of_to. reflexivity.
  - rewrite append_nil_l. unfold parse_exponent.
    destruct Hrest as [-> | [r [-> | ->]]]; reflexivity.
Qed.

Definition fraction_text (fr : uint) : string :=
  if uint_is_nil fr then "" else String "."%char (string_of_uint fr).

Lemma exponent_text_stops ex rest :
  delimited rest ->
  stops_digits (exponent_text ex +:+ rest) /\
  head_is "."%char (exponent_text ex +:+ rest) = None.
Proof.
  intros Hrest. destruct ex; unfold exponent_text.
  - rewrite append_cons. split; reflexivity.
  - rewrite append_nil_l. destruct Hrest as [-> | [r [-> | ->]]]; split; reflexivity.
Qed.

Lemma parse_fraction_text fr ex rest :
  delimited rest ->
  parse_fraction (fraction_text fr +:+ exponent_text ex +:+ rest)
  = Some (fr, exponent_text ex +:+ rest).
Proof.
  intros Hrest. destruct (exponent_text_stops ex rest Hrest) as [Hstop Hdot].
  unfold fraction_text, parse_fraction.
  destruct (uint_is_nil fr) eqn:E.
  - rewrite append_nil_l, Hdot. now destruct fr.
  - rewrite append_cons. cbn [head_is Ascii.eqb Bool.eqb].
    rewrite take_digits_string_of_uint by exact Hstop. cbv beta iota zeta.
    now rewrite E.
Qed.

Lemma string_of_number_parts n :
  string_of_number n =
  (if num_neg n then "-" else "") +:+ string_of_uint (N.to_uint (num_int n))
  +:+ fraction_text (num_frac n) +:+ exponent_text (num_exp n).
Proof. reflexivity. Qed.

Lemma fraction_text_stops fr ex rest :
  delimited rest -> stops_digits (fraction_text fr +:+ exponent_text ex +:+ rest).
Proof.
  intros Hrest. unfold fraction_text. destruct (uint_is_nil fr).
  - rewrite append_nil_l. now apply exponent_text_stops.
  - rewrite append_cons. reflexivity.
Qed.

Lemma parse_number_text n rest :
  delimited rest -> parse_number (string_of_number n +:+ rest) = Some (n, rest).
Proof.
  intros Hrest. rewrite string_of_number_parts. destruct n as [neg i fr ex]. simpl.
  rewrite !append_assoc. unfold parse_number.
  destruct neg.
  - rewrite append_cons, append_nil_l. cbn [head_is Ascii.eqb Bool.eqb].
    rewrite take_digits_string_of_uint by now apply fraction_text_stops.
    cbv beta iota zeta.
    rewrite to_uint_canonical, parse_fraction_text, parse_exponent_text by exact Hrest.
    now rewrite DecimalN.Unsigned.of_to.
  - rewrite append_nil_l.
    rewrite head_is_digits by (try apply to_uint_canonical; reflexivity).
    rewrite take_digits_string_of_uint by now apply fraction_text_stops.
    cbv beta iota zeta.
    rewrite to_uint_canonical, parse_fraction_text, parse_exponent_text by exact Hrest.
    now rewrite DecimalN.Unsigned.of_to.
Qed.

(** ** String literals *)

Lemma prepend_cons c x :
  prepend (String c "") x =
  match x with Some (s, r) => Some (String c s, r) | None => None end.
Proof. destruct x as [[s r]|]; reflexivity. Qed.

Lemma parse_chars_escape_char c rest :
  parse_chars (escape_char c +:+ rest) = prepend (String c "") (parse_chars rest).
Proof.
  destruct c as [[] [] [] [] [] [] [] []]; reflexivity.
Qed.

Lemma parse_chars_quote_chars s rest :
  parse_chars (quote_chars s +:+ rest) = Some (s, rest).
Proof.
  induction s as [|c s IH].
  - reflexivity.
  - cbn [quote_chars]. rewrite append_assoc, parse_chars_escape_char, IH.
    reflexivity.
Qed.

(** ** White space *)

Lemma skip_ws_spaces n s : skip_ws (spaces n +:+ s) = skip_ws s.
Proof. induction n as [|n IH]; [reflexivity|]. cbn [spaces]. rewrite append_cons. exact IH. Qed.

Lemma skip_ws_newline n s : skip_ws (newline n +:+ s) = skip_ws s.
Proof. unfold newline. rewrite append_cons. cbn [skip_ws]. apply skip_ws_spaces. Qed.

Lemma skip_ws_comma r : skip_ws (String ","%char r) = String ","%char r.
Proof. reflexivity. Qed.

Lemma skip_ws_colon r : skip_ws (String ":"%char r) = String ":"%char r.
Proof. reflexivity. Qed.

Lemma skip_ws_space r : skip_ws (String " "%char r) = skip_ws r.
Proof. reflexivity. Qed.

Lemma skip_ws_closing r :
  skip_ws (String "]"%char r) = String "]"%char r /\
  skip_ws (String "}"%char r) = String "}"%char r.
Proof. split; reflexivity. Qed.

Lemma head_is_same c r : head_is c (String c r) = Some r.
Proof. cbn [head_is]. now rewrite Ascii.eqb_refl. Qed.

Lemma head_is_comma_closing r :
  head_is ","%char (String "]"%char r) = None /\
  head_is ","%char (String "}"%char r) = None.
Proof. split; reflexivity. Qed.

(** A text that begins with the first character of a value. *)
Definition opens (s : string) : Prop :=
  match s with
  | "" => False
  | String c _ => is_ws c = false /\ c <> "]"%char /\ c <> "}"%char /\ c <> ","%char
  end.

Lemma skip_ws_opens s : opens s -> skip_ws s = s.
Proof. destruct s as [|c s]; [intros []|]. intros [H _]. cbn [skip_ws]. now rewrite H. Qed.

Lemma head_is_opens c s :
  opens s -> c = "]"%char \/ c = "}"%char \/ c = ","%char -> head_is c s = None.
Proof.
  destruct s as [|a s]; [intros []|]. intros (_ & H1 & H2 & H3) Hc. cbn [head_is].
  destruct (Ascii.eqb a c) eqn:E; [|reflexivity].
  apply Ascii.eqb_eq in E. subst a. destruct Hc as [-> | [-> | ->]]; congruence.
Qed.

Lemma opens_uint d rest : canonical_int d = true -> opens (string_of_uint d +:+ rest).
Proof.
  destruct d; [discriminate|..]; intros _; cbn [string_of_uint]; rewrite append_cons;
    repeat split; discriminate.
Qed.

Lemma opens_stringify ind v rest : opens (stringify_at ind v +:+ rest).
Proof.
  destruct v as [|[]|n|s|es named|kvs]; try (repeat split; discriminate).
  - cbn [stringify_at]. rewrite string_of_number_parts, !append_assoc.
    destruct (num_neg n).
    + rewrite append_cons. repeat split; discriminate.
    + rewrite append_nil_l. apply opens_uint, to_uint_canonical.
  - cbn [stringify_at]. unfold bracket.
    destruct (List.map _ es); rewrite ?append_cons; repeat split; discriminate.
  - cbn [stringify_at]. unfold bracket.
    destruct (List.map _ kvs); rewrite ?append_cons; repeat split; discriminate.
Qed.

(** ** One step of the parser *)

Lemma parse_value_array f r :
  parse_value (S f) (String "["%char r) =
  match head_is "]"%char (skip_ws r) with
  | Some r' => Some (JArray [] [], r')
  | None =>
      match parse_elements f (skip_ws r) with
      | Some (vs, r') => Some (JArray vs [], r')
      | None => None
      end
  end.
Proof. reflexivity. Qed.

Lemma parse_value_object f r :
  parse_value (S f) (String "{"%char r) =
  match head_is "}"%char (skip_ws r) with
  | Some r' => Some (JObject [], r')
  | None =>
      match parse_members f (skip_ws r) with
      | Some (kvs, r') => Some (JObject (obj_of_members kvs), r')
      | None => None
      end
  end.
Proof. reflexivity. Qed.

Lemma parse_value_string f r :
  parse_value (S f) (String DQUOTE r) =
  match parse_chars r with
  | Some (str, r') => Some (JString str, r')
  | None => None
  end.
Proof. reflexivity. Qed.

Lemma parse_value_number f c r :
  c = "-"%char \/ digit_of_char c <> None ->
  parse_value (S f) (String c r) =
  match parse_number (String c r) with
  | Some (n, r') => Some (JNumber n, r')
  | None => None
  end.
Proof.
  destruct c as [[] [] [] [] [] [] [] []]; try reflexivity;
    intros [H | H]; (discriminate H || (exfalso; apply H; reflexivity)).
Qed.

Lemma parse_elements_step f s :
  parse_elements (S f) s =
  match parse_value f s with
  | Some (v, r) =>
      match head_is ","%char (skip_ws r) with
      | Some r' =>
          match parse_elements f (skip_ws r') with
          | Some (vs, r'') => Some (v :: vs, r'')
          | None => None
          end
      | None =>
          match head_is "]"%char (skip_ws r) with
          | Some r' => Some ([v], r')
          | None => None
          end
      end
  | None => None
  end.
Proof. reflexivity. Qed.

Lemma parse_members_step f s :
  parse_members (S f) s =
  match head_is DQUOTE s with
  | Some r =>
      match parse_chars r with
      | Some (k, r1) =>
          match head_is ":"%char (skip_ws r1) with
          | Some r2 =>
              match parse_value f (skip_ws r2) with
              | Some (v, r3) =>
                  match head_is ","%char (skip_ws r3) with
                  | Some r4 =>
                      match parse_members f (skip_ws r4) with
                      | Some (kvs, r5) => Some ((k, v) :: kvs, r5)
                      | None => None
                      end
                  | None =>
                      match head_is "}"%char (skip_ws r3) with
                      | Some r4 => Some ([(k, v)], r4)
                      | None => None
                      end
                  end
              | None => None
              end
          | None => None
          end
      | None => None
      end
  | None => None
  end.
Proof. reflexivity. Qed.

(** ** Reading back what was printed *)

Lemma list_sum_cons a l : list_sum (a :: l) = a + list_sum l.
Proof. reflexivity. Qed.

Definition reads_back (v : value) : Prop :=
  plain v = true ->
  forall ind fuel rest, cost v <= fuel -> delimited rest ->
  parse_value fuel (stringify_at ind v +:+ rest) = Some (v, rest).

Lemma delimited_comma r : delimited (String ","%char r).
Proof. right. exists r. now left. Qed.

Lemma delimited_newline n r : delimited (newline n +:+ r).
Proof. right. exists (spaces n +:+ r). now right. Qed.

Lemma parse_elements_text es :
  Forall reads_back es -> forallb plain es = true ->
  forall e ind k fuel rest,
    reads_back e -> plain e = true ->
    S (cost e) + list_sum (List.map (fun x => S (cost x)) es) <= fuel ->
    parse_elements fuel
      (stringify_at ind e +:+ join_items ind (List.map (stringify_at ind) es)
       +:+ newline k +:+ String "]"%char rest)
    = Some (e :: es, rest).
Proof.
  induction es as [|e2 es IH]; intros Hall Hplain e ind k fuel rest He Hpe Hfuel.
  - destruct fuel as [|f]; [simpl in Hfuel; lia|].
    rewrite parse_elements_step. cbn [List.map join_items]. rewrite append_nil_l.
    rewrite He; [|exact Hpe|simpl in Hfuel; lia|apply delimited_newline].
    rewrite skip_ws_newline, (proj1 (skip_ws_closing _)).
    now rewrite (proj1 (head_is_comma_closing _)), head_is_same.
  - destruct fuel as [|f]; [simpl in Hfuel; lia|].
    apply Forall_cons_1 in Hall as [He2 Hall].
    cbn [forallb] in Hplain. apply andb_true_iff in Hplain as [Hp2 Hplain].
    cbn [List.map] in Hfuel. rewrite list_sum_cons in Hfuel.
    rewrite parse_elements_step. cbn [List.map join_items].
    rewrite !append_assoc, append_cons.
    rewrite He; [|exact Hpe|lia|apply delimited_comma].
    rewrite skip_ws_comma, head_is_same.
    rewrite skip_ws_newline, skip_ws_opens by apply opens_stringify.
    rewrite IH; [reflexivity|exact Hall|exact Hplain|exact He2|exact Hp2|lia].
Qed.

Definition member_text (ind : nat) (kv : string * value) : string :=
  let '(k, x) := kv in quote k +:+ ": " +:+ stringify_at ind x.

Lemma parse_members_text kvs :
  Forall (fun kv => reads_back (snd kv)) kvs ->
  forallb (fun kv => plain (snd kv)) kvs = true ->
  forall kv ind k fuel rest,
    reads_back (snd kv) -> plain (snd kv) = true ->
    S (cost (snd kv)) + list_sum (List.map (fun x => S (cost (snd x))) kvs) <= fuel ->
    parse_members fuel
      (member_text ind kv +:+ join_items ind (List.map (member_text ind) kvs)
       +:+ newline k +:+ String "}"%char rest)
    = Some (kv :: kvs, rest).
Proof.
  induction kvs as [|kv2 kvs IH]; intros Hall Hplain [key x] ind k fuel rest He Hpe Hfuel;
    cbn [snd] in He, Hpe, Hfuel.
  - destruct fuel as [|f]; [simpl in Hfuel; lia|].
    rewrite parse_members_step. cbn [List.map join_items member_text]. rewrite append_nil_l.
    unfold quote. rewrite !append_assoc, append_cons, head_is_same.
    rewrite ?append_assoc, parse_chars_quote_chars.
    rewrite !append_cons, append_nil_l.
    rewrite skip_ws_colon, head_is_same, skip_ws_space.
    rewrite skip_ws_opens by apply opens_stringify.
    rewrite He; [|exact Hpe|simpl in Hfuel; lia|apply delimited_newline].
    rewrite skip_ws_newline, (proj2 (skip_ws_closing _)).
    now rewrite (proj2 (head_is_comma_closing _)), head_is_same.
  - destruct fuel as [|f]; [simpl in Hfuel; lia|].
    apply Forall_cons_1 in Hall as [He2 Hall].
    cbn [forallb] in Hplain. apply andb_true_iff in Hplain as [Hp2 Hplain].
    cbn [List.map] in Hfuel. rewrite list_sum_cons in Hfuel.
    rewrite parse_members_step. cbn [List.map join_items member_text].
    unfold quote at 1. rewrite !append_assoc, append_cons, head_is_same.
    rewrite ?append_assoc, parse_chars_quote_chars.
    rewrite !append_cons, append_nil_l.
    rewrite skip_ws_colon, head_is_same, skip_ws_space.
    rewrite skip_ws_opens by apply opens_stringify.
    rewrite He; [|exact Hpe|lia|apply delimited_comma].
    rewrite skip_ws_comma, head_is_same, skip_ws_newline.
    rewrite skip_ws_opens.
    2:{ destruct kv2 as [k2 x2]. cbn [member_text]. unfold quote.
        rewrite append_cons. repeat split; discriminate. }
    rewrite IH; [reflexivity|exact Hall|exact Hplain|exact He2|exact Hp2|lia].
Qed.

Lemma forallb_Forall_plain (l : list value) :
  forallb plain l = true -> Forall (fun e => plain e = true) l.
Proof.
  induction l as [|x l IH]; simpl; intros H; constructor;
    apply andb_true_iff in H as [H1 H2]; auto.
Qed.

Lemma reads_back_all v : reads_back v.
Proof.
  induction v as [|b|n|s|es named IHes _|kvs IH] using value_ind;
    intros Hplain ind fuel rest Hfuel Hrest;
    (destruct fuel as [|f]; [simpl in Hfuel; lia|]).
  - reflexivity.
  - destruct b; reflexivity.
  - cbn [stringify_at].
    assert (Hopen : exists c r, string_of_number n +:+ rest = String c r /\
                     (c = "-"%char \/ digit_of_char c <> None)).
    { rewrite string_of_number_parts, !append_assoc. destruct (num_neg n).
      - rewrite append_cons. eexists _, _. split; [reflexivity | now left].
      - rewrite append_nil_l. pose proof (to_uint_canonical (num_int n)) as Hc.
        destruct (N.to_uint (num_int n)); [discriminate Hc|..];
          cbn [string_of_uint]; rewrite append_cons;
          eexists _, _; (split; [reflexivity | right; discriminate]). }
    destruct Hopen as (c & r & Heq & Hc).
    rewrite Heq, parse_value_number by exact Hc.
    rewrite <- Heq, parse_number_text by exact Hrest. reflexivity.
  - cbn [stringify_at]. unfold quote. rewrite append_cons, parse_value_string.
    now rewrite parse_chars_quote_chars.
  - cbn [plain] in Hplain. apply andb_true_iff in Hplain as [Hes Hnamed].
    destruct named; [|discriminate Hnamed].
    cbn [stringify_at]. destruct es as [|e es]; [reflexivity|].
    cbn [List.map bracket]. rewrite !append_assoc, !append_cons, parse_value_array.
    rewrite append_nil_l.
    apply Forall_cons_1 in IHes as [He IHes].
    cbn [forallb] in Hes. apply andb_true_iff in Hes as [Hpe Hes].
    rewrite skip_ws_newline, skip_ws_opens by apply opens_stringify.
    rewrite head_is_opens by (try apply opens_stringify; auto).
    cbn [cost List.map] in Hfuel. rewrite list_sum_cons in Hfuel.
    rewrite parse_elements_text; [reflexivity|exact IHes|exact Hes|exact He|exact Hpe|lia].
  - cbn [plain] in Hplain. apply andb_true_iff in Hplain as [Hkeys Hvals].
    cbn [stringify_at]. destruct kvs as [|kv kvs]; [reflexivity|].
    cbn [List.map bracket].
    change (let '(k, x) := kv in quote k +:+ ": " +:+ stringify_at (2 + ind) x)
      with (member_text (2 + ind) kv).
    change (List.map (fun kv0 : string * value =>
                   let '(k, x) := kv0 in quote k +:+ ": " +:+ stringify_at (2 + ind) x) kvs)
      with (List.map (member_text (2 + ind)) kvs).
    rewrite !append_assoc, !append_cons, parse_value_object.
    rewrite append_nil_l.
    apply Forall_cons_1 in IH as [He IH].
    cbn [forallb] in Hvals. apply andb_true_iff in Hvals as [Hpe Hvals].
    assert (Hopen : opens (member_text (2 + ind) kv +:+
                           join_items (2 + ind) (List.map (member_text (2 + ind)) kvs) +:+
                           newline ind +:+ String "}"%char rest)).
    { destruct kv as [k x]. cbn [member_text]. unfold quote.
      rewrite append_cons. repeat split; discriminate. }
    rewrite skip_ws_newline, skip_ws_opens by exact Hopen.
    rewrite head_is_opens by (try exact Hopen; auto).
    cbn [cost List.map] in Hfuel. rewrite list_sum_cons in Hfuel.
    rewrite parse_members_text; [|exact IH|exact Hvals|exact He|exact Hpe|lia].
    now rewrite obj_of_members_distinct.
Qed.

(** ** The text is long enough to carry the fuel *)

Lemma length_string_of_uint d : canonical_int d = true -> 1 <= String.length (string_of_uint d).
Proof. destruct d; [discriminate|..]; intros _; simpl; lia. Qed.

Lemma length_join_items ind (texts : list string) (costs : list nat) :
  Forall2 (fun c t => c <= String.length t) costs texts ->
  list_sum (List.map S costs) <= String.length (join_items ind texts).
Proof.
  induction 1 as [|c t costs texts Hc _ IH]; [reflexivity|].
  cbn [List.map join_items]. rewrite list_sum_cons, append_cons.
  cbn [String.length]. rewrite !length_append. lia.
Qed.

Lemma length_bracket o c ind (texts : list string) (costs : list nat) :
  Forall2 (fun c t => c <= String.length t) costs texts ->
  S (list_sum (List.map S costs)) <= String.length (bracket o c ind texts).
Proof.
  intros H. destruct H as [|k t costs texts Hk H]; [simpl; lia|].
  cbn [List.map bracket]. rewrite list_sum_cons, append_cons.
  cbn [String.length]. rewrite !length_append. cbn [String.length].
  pose proof (length_join_items (2 + ind) _ _ H). lia.
Qed.

Lemma cost_le_length v : forall ind, cost v <= String.length (stringify_at ind v).
Proof.
  induction v as [|b|n|s|es named IHes _|kvs IH] using value_ind; intros ind.
  - simpl; lia.
  - destruct b; simpl; lia.
  - cbn [cost stringify_at]. rewrite string_of_number_parts, !length_append.
    pose proof (length_string_of_uint _ (to_uint_canonical (num_int n))). lia.
  - simpl; lia.
  - cbn [cost stringify_at].
    rewrite <- (map_map cost S).
    apply length_bracket.
    induction IHes as [|e es He _ IHl]; constructor; auto.
  - cbn [cost stringify_at].
    rewrite <- (map_map (fun kv => cost (snd kv)) S).
    apply length_bracket.
    induction IH as [|[k x] kvs He _ IHl]; constructor; auto.
    cbn [snd] in *. rewrite !length_append. specialize (He (2 + ind)). lia.
Qed.

Lemma skip_ws_stringify v : skip_ws (stringify v) = stringify v.
Proof.
  unfold stringify. rewrite <- (append_nil_r (stringify_at 0 v)).
  apply skip_ws_opens, opens_stringify.
Qed.

Lemma parse_stringify v : plain v = true -> parse (stringify v) = Some v.
Proof.
  intros Hplain. unfold parse. rewrite skip_ws_stringify.
  pose proof (reads_back_all v Hplain 0 (S (String.length (stringify v))) "") as H.
  rewrite append_nil_r in H. fold (stringify v) in H.
  rewrite H; [reflexivity| |now left].
  pose proof (cost_le_length v 0). unfold stringify. lia.
Qed.

(** ** What the parser builds is plain *)

Lemma plain_fold_obj_set kvs acc :
  forallb (fun kv => plain (snd kv)) kvs = true ->
  distinct (List.map fst acc) = true ->
  forallb (fun kv => plain (snd kv)) acc = true ->
  let o := fold_left (fun o kv => obj_set (fst kv) (snd kv) o) kvs acc in
  distinct (List.map fst o) = true /\ forallb (fun kv => plain (snd kv)) o = true.
Proof.
  revert acc. induction kvs as [|[k v] kvs IH]; intros acc Hkvs Hd Hp; cbn [fold_left].
  - split; assumption.
  - cbn [forallb snd] in Hkvs. apply andb_true_iff in Hkvs as [Hv Hkvs].
    apply IH; [exact Hkvs|now apply distinct_obj_set|now apply values_obj_set].
Qed.

Lemma plain_obj_of_members kvs :
  forallb (fun kv => plain (snd kv)) kvs = true -> plain (JObject (obj_of_members kvs)) = true.
Proof.
  intros H. destruct (plain_fold_obj_set kvs [] H eq_refl eq_refl) as [H1 H2].
  cbn [plain]. unfold obj_of_members. now rewrite H1, H2.
Qed.

Lemma parse_value_plain fuel :
  (forall s v r, parse_value fuel s = Some (v, r) -> plain v = true) /\
  (forall s vs r, parse_elements fuel s = Some (vs, r) -> forallb plain vs = true) /\
  (forall s kvs r, parse_members fuel s = Some (kvs, r) ->
     forallb (fun kv => plain (snd kv)) kvs = true).
Proof.
  induction fuel as [|f (IHv & IHe & IHm)]; [repeat split; intros; discriminate|].
  repeat split.
  - intros s v r H. cbn [parse_value] in H. unfold literal in H.
    repeat case_match; simplify_eq; try reflexivity.
    + apply plain_obj_of_members. eauto.
    + cbn [plain]. erewrite IHe by eauto. reflexivity.
  - intros s vs r H. rewrite parse_elements_step in H.
    repeat case_match; simplify_eq; cbn [forallb].
    + erewrite IHv, IHe by eauto. reflexivity.
    + erewrite IHv by eauto. reflexivity.
  - intros s kvs r H. rewrite parse_members_step in H.
    repeat case_match; simplify_eq; cbn [forallb snd].
    + erewrite IHv, IHm by eauto. reflexivity.
    + erewrite IHv by eauto. reflexivity.
Qed.

Lemma parse_plain text v : parse text = Some v -> plain v = true.
Proof.
  unfold parse. intros H. repeat case_match; simplify_eq.
  eapply parse_value_plain; eauto.
Qed.

(** A document read from a file is printed back to a text that reads as
    the same document. *)
Lemma parse_stringify_parse text v :
  parse text = Some v -> parse (stringify v) = Some v.
Proof. intros H. apply parse_stringify. eapply parse_plain; eauto. Qed.

End JSONFacts.

(** * Running the monad one call at a time *)

Module RuntimeFacts.
Import JSON JS Runtime.
Local Open Scope js_scope.

Section Steps.
Context {T A B : Type}.
Implicit Types (m : M T A) (k : A -> M T B) (t : T) (w : world).

Lemma bind_Ret m k t w a t' w' :
  m t w = (Ret a, t', w') -> bind m k t w = k a t' w'.
Proof. unfold bind. now intros ->. Qed.

Lemma bind_Throw m k t w e t' w' :
  m t w = (Throw e, t', w') -> bind m k t w = (Throw e, t', w').
Proof. unfold bind. now intros ->. Qed.

Lemma bind_Exit m k t w c t' w' :
  m t w = (Exit c, t', w') -> bind m k t w = (Exit c, t', w').
Proof. unfold bind. now intros ->. Qed.

Lemma bind_Hang m k t w t' w' :
  m t w = (Hang, t', w') -> bind m k t w = (Hang, t', w').
Proof. unfold bind. now intros ->. Qed.

Lemma bind_ret (a : A) k t w : bind (ret a) k t w = k a t w.
Proof. reflexivity. Qed.

Lemma bind_console_log (l : string) (k : unit -> M T B) t w :
  bind (console_log l) k t w = k tt t (set_console (w_console w ++ [l]) w).
Proof. reflexivity. Qed.

Lemma bind_get_this (k : T -> M T B) t w : bind get_this k t w = k t t w.
Proof. reflexivity. Qed.

Lemma bind_get_world (k : world -> M T B) t w : bind get_world k t w = k w t w.
Proof. reflexivity. Qed.

Lemma bind_put_this (t' : T) (k : unit -> M T B) t w : bind (put_this t') k t w = k tt t' w.
Proof. reflexivity. Qed.

Lemma bind_existsSync (p : string) (k : bool -> M T B) t w :
  bind (existsSync p) k t w = k (exists_in w p) t w.
Proof. reflexivity. Qed.

Lemma bind_Date_now (k : Z -> M T B) t w : bind Date_now k t w = k (w_now w) t w.
Proof. reflexivity. Qed.

Lemma bind_lift_inr (a : A) k t w : bind (lift (inr a)) k t w = k a t w.
Proof. reflexivity. Qed.

Lemma bind_lift_inl (e : string) k t w : bind (lift (inl e)) k t w = (Throw e, t, w).
Proof. reflexivity. Qed.

Lemma bind_throw (e : string) k t w : bind (throw e) k t w = (Throw e, t, w).
Proof. reflexivity. Qed.

Lemma bind_process_exit (c : Z) k t w : bind (process_exit c) k t w = (Exit c, t, w).
Proof. reflexivity. Qed.

Lemma bind_Ret_inv m k t w b t' w' :
  bind m k t w = (Ret b, t', w') ->
  exists a t1 w1, m t w = (Ret a, t1, w1) /\ k a t1 w1 = (Ret b, t', w').
Proof.
  unfold bind. destruct (m t w) as [[[a|e|c|] t1] w1]; try discriminate. eauto.
Qed.

End Steps.

Lemma bind_assoc {T A B C} (m : M T A) (f : A -> M T B) (g : B -> M T C) t w :
  bind (bind m f) g t w = bind m (fun a => bind (f a) g) t w.
Proof. unfold bind. now destruct (m t w) as [[[a|e|c|] t1] w1]. Qed.

Section Catch.
Context {T A : Type}.
Implicit Types (body : M T A) (h : string -> M T A) (t : T) (w : world).

Lemma try_Ret body h t w a t' w' :
  body t w = (Ret a, t', w') -> try_catch body h t w = (Ret a, t', w').
Proof. unfold try_catch. now intros ->. Qed.

Lemma try_Throw body h t w e t' w' :
  body t w = (Throw e, t', w') -> try_catch body h t w = h e t' w'.
Proof. unfold try_catch. now intros ->. Qed.

Lemma try_Exit body h t w c t' w' :
  body t w = (Exit c, t', w') -> try_catch body h t w = (Exit c, t', w').
Proof. unfold try_catch. now intros ->. Qed.

Lemma try_Hang body h t w t' w' :
  body t w = (Hang, t', w') -> try_catch body h t w = (Hang, t', w').
Proof. unfold try_catch. now intros ->. Qed.

Lemma try_Ret_inv body h t w a t' w' :
  try_catch body h t w = (Ret a, t', w') ->
  body t w = (Ret a, t', w') \/
  exists e t1 w1, body t w = (Throw e, t1, w1) /\ h e t1 w1 = (Ret a, t', w').
Proof.
  unfold try_catch. destruct (body t w) as [[[a'|e|c|] t1] w1]; try discriminate; eauto 6.
Qed.

End Catch.

(** ** Files *)

Definition writable (w : world) (p : string) : bool :=
  negb (bool_decide (p ∈ w_locked w)) &&
  match w_fs w !! p with
  | Some Dir => false
  | _ => true
  end.

Lemma write_in_writable w p bytes :
  writable w p = true ->
  write_in w p bytes = inr (set_fs (<[p := File bytes]> (w_fs w)) w).
Proof.
  unfold writable, write_in. intros H. apply andb_true_iff in H as [H1 H2].
  apply negb_true_iff in H1. rewrite H1.
  destruct (w_fs w !! p) as [[|]|]; [reflexivity|discriminate|reflexivity].
Qed.

Lemma write_in_not_writable w p bytes :
  writable w p = false -> exists e, write_in w p bytes = inl e.
Proof.
  unfold writable, write_in. intros H.
  destruct (bool_decide (p ∈ w_locked w)); [eauto|].
  destruct (w_fs w !! p) as [[|]|]; try discriminate; eauto.
Qed.

Lemma read_in_set_console c w p : read_in (set_console c w) p = read_in w p.
Proof. reflexivity. Qed.

Lemma exists_in_set_console c w p : exists_in (set_console c w) p = exists_in w p.
Proof. reflexivity. Qed.

Lemma writable_set_console c w p : writable (set_console c w) p = writable w p.
Proof. reflexivity. Qed.

Lemma read_in_file w p bytes : read_in w p = inr bytes -> w_fs w !! p = Some (File bytes).
Proof.
  unfold read_in. destruct (bool_decide _); [discriminate|].
  destruct (w_fs w !! p) as [[|]|]; congruence.
Qed.

Section Files.
Context {T B : Type}.
Implicit Types (t : T) (w : world).

Lemma bind_readFileSync_ok p bytes (k : string -> M T B) t w :
  read_in w p = inr bytes -> bind (readFileSync p) k t w = k bytes t w.
Proof. unfold bind, readFileSync. now intros ->. Qed.

Lemma bind_readFileSync_err p e (k : string -> M T B) t w :
  read_in w p = inl e -> bind (readFileSync p) k t w = (Throw e, t, w).
Proof. unfold bind, readFileSync. now intros ->. Qed.

Lemma bind_writeFileSync_ok p bytes (k : unit -> M T B) t w :
  writable w p = true ->
  bind (writeFileSync p bytes) k t w = k tt t (set_fs (<[p := File bytes]> (w_fs w)) w).
Proof. intros H. unfold bind, writeFileSync. now rewrite write_in_writable. Qed.

Lemma bind_writeFileSync_err p bytes (k : unit -> M T B) t w :
  writable w p = false ->
  exists e, bind (writeFileSync p bytes) k t w = (Throw e, t, w).
Proof.
  intros H. destruct (write_in_not_writable w p bytes H) as [e He].
  exists e. unfold bind, writeFileSync. now rewrite He.
Qed.

Lemma bind_copyFileSync_ok src dst bytes (k : unit -> M T B) t w :
  read_in w src = inr bytes -> writable w dst = true ->
  bind (copyFileSync src dst) k t w = k tt t (set_fs (<[dst := File bytes]> (w_fs w)) w).
Proof.
  intros Hr Hw. unfold bind, copyFileSync. now rewrite Hr, write_in_writable.
Qed.

Lemma bind_copyFileSync_err src dst bytes (k : unit -> M T B) t w :
  read_in w src = inr bytes -> writable w dst = false ->
  exists e, bind (copyFileSync src dst) k t w = (Throw e, t, w).
Proof.
  intros Hr Hw. destruct (write_in_not_writable w dst bytes Hw) as [e He].
  exists e. unfold bind, copyFileSync. now rewrite Hr, He.
Qed.

End Files.

(** ** Subprocesses *)

(** The world once a call of [cmd] is on record. *)
Definition called (cmd : string) (opts : exec_options) (w : world) : world :=
  set_calls (w_calls w ++ [(cmd, timeout opts)]) w.

Definition in_time (opts : exec_options) (ms : Z) : bool :=
  match timeout opts with
  | Some limit => negb (limit <? ms)%Z
  | None => true
  end.

Section Exec.
Context {T B : Type}.
Implicit Types (t : T) (w : world) (k : string -> M T B).

Lemma execSync_succeeds cmd opts ms out writes t w :
  w_procs w !! cmd = Some (Succeeds ms out writes) -> in_time opts ms = true ->
  execSync cmd opts t w =
  (Ret out, t, advance ms (set_fs (write_all writes (w_fs w)) (called cmd opts w))).
Proof.
  intros Hp Ht. unfold execSync, run_proc, called. rewrite Hp. unfold default, from_option, id.
  unfold in_time in Ht. destruct (timeout opts); [|reflexivity].
  apply negb_true_iff in Ht. cbv beta iota zeta. now rewrite Ht.
Qed.

Lemma execSync_fails cmd opts ms err t w :
  w_procs w !! cmd = Some (Fails ms err) -> in_time opts ms = true ->
  execSync cmd opts t w =
  (Throw (command_failed cmd (stdio_mode opts) err), t, advance ms (called cmd opts w)).
Proof.
  intros Hp Ht. unfold execSync, run_proc, called. rewrite Hp. unfold default, from_option, id.
  unfold in_time in Ht. destruct (timeout opts); [|reflexivity].
  apply negb_true_iff in Ht. cbv beta iota zeta. now rewrite Ht.
Qed.

Lemma execSync_not_found cmd opts t w :
  w_procs w !! cmd = None -> in_time opts 0 = true ->
  execSync cmd opts t w =
  (Throw (command_failed cmd (stdio_mode opts) ("/bin/sh: 1: " +:+ cmd +:+ ": not found")),
   t, advance 0 (called cmd opts w)).
Proof.
  intros Hp Ht. unfold execSync, run_proc, called. rewrite Hp. unfold default, from_option, id.
  unfold in_time in Ht. destruct (timeout opts); [|reflexivity].
  apply negb_true_iff in Ht. cbv beta iota zeta. now rewrite Ht.
Qed.

Lemma execSync_never cmd opts t w :
  w_procs w !! cmd = Some Never -> timeout opts = None ->
  execSync cmd opts t w = (Hang, t, called cmd opts w).
Proof. intros Hp Ht. unfold execSync, run_proc, called. now rewrite Hp, Ht. Qed.

Lemma execSync_timed_out cmd opts limit t w :
  w_procs w !! cmd = Some Never -> timeout opts = Some limit ->
  execSync cmd opts t w = (Throw timed_out, t, advance limit (called cmd opts w)).
Proof. intros Hp Ht. unfold execSync, run_proc, called. now rewrite Hp, Ht. Qed.

End Exec.

End RuntimeFacts.

(** * The desktop configuration: [configureClaudeDesktop] *)

Module DesktopFacts.
Import JSON JS Runtime Installer JSONFacts RuntimeFacts.
Local Open Scope js_scope.

Definition desktop_path (this : installer) (dir : string) : string :=
  path_join (sep_of this) [dir; "claude_desktop_config.json"].

Definition backup_path (path : string) (now : Z) : string :=
  path +:+ ".backup." +:+ string_of_Z now.

(** A line as [this.log] prints it. *)
Definition say (type : level) (this : installer) (message : string) : string :=
  line type (logPrefix this) message.

Definition said (l : list string) (w : world) : world :=
  set_console (w_console w ++ l) w.

(** [v.k] where no [TypeError] is possible. *)
Definition member (v : value) (k : string) : option value :=
  match get_member v k with
  | inr r => r
  | inl _ => None
  end.

(** The entry the installer [this] wants under ["notion-mcp"]. *)
Definition desired (this : installer) : value :=
  server_entry (cli_binary this) (member (config this) "notionToken").

(** The document written when nothing of an existing file is kept. *)
Definition fresh (this : installer) : value :=
  JObject [("mcpServers", JObject [(SERVER_NAME, desired this)])].

Definition is_container (v : value) : bool :=
  match v with
  | JObject _ | JArray _ _ => true
  | _ => false
  end.

(** A configuration document: an object whose [mcpServers], if it is
    there, is an object. *)
Definition valid_document (v : value) : bool :=
  match v with
  | JObject o =>
      match obj_get "mcpServers" o with
      | None | Some (JObject _) => true
      | Some _ => false
      end
  | _ => false
  end.

Definition servers_of (o : object) : object :=
  match obj_get "mcpServers" o with
  | Some (JObject m) => m
  | _ => []
  end.

(** The document with the entry merged in. *)
Definition merged (o : object) (entry : value) : object :=
  obj_set "mcpServers" (JObject (obj_set SERVER_NAME entry (servers_of o))) o.

(** The value after [if (!claudeConfig.mcpServers) claudeConfig.mcpServers = {}]. *)
Definition with_servers (v : value) : value :=
  match get_member v "mcpServers" with
  | inr s =>
      if truthy_opt s then v
      else match set_member v "mcpServers" (JObject []) with
           | inr v' => v'
           | inl _ => v
           end
  | inl _ => v
  end.

Lemma bind_log {B} (message : string) (type : level) (k : unit -> M installer B) this w :
  bind (log message type) k this w = k tt this (said [say type this message] w).
Proof. reflexivity. Qed.

Lemma log_run (message : string) (type : level) this w :
  log message type this w = (Ret tt, this, said [say type this message] w).
Proof. reflexivity. Qed.

Lemma get_member_not_null v k : v <> JNull -> get_member v k = inr (member v k).
Proof. unfold member. destruct v; try reflexivity. congruence. Qed.

Lemma get_member_container v k : is_container v = true -> get_member v k = inr (member v k).
Proof. intros H. apply get_member_not_null. now destruct v. Qed.

Lemma set_member_container v k x :
  is_container v = true -> exists v', set_member v k x = inr v' /\ is_container v' = true.
Proof. destruct v; try discriminate; intros _; eexists; split; reflexivity. Qed.

Lemma with_servers_container v :
  is_container v = true ->
  (if truthy_opt (member v "mcpServers") then inr v
   else set_member v "mcpServers" (JObject [])) = inr (with_servers v).
Proof.
  intros H. unfold with_servers. rewrite get_member_container by exact H.
  destruct (truthy_opt _); [reflexivity|].
  destruct (set_member_container v "mcpServers" (JObject []) H) as (v' & -> & _).
  reflexivity.
Qed.

(** ** Loading the existing file *)

Section Load.
Variables (this : installer) (w : world) (path text : string).
Hypothesis Hread : read_in w path = inr text.

Lemma load_existing_unparseable :
  parse text = None ->
  load_existing path this w = (Throw "Unexpected token in JSON", this, w).
Proof.
  intros Hp. unfold load_existing.
  rewrite (bind_readFileSync_ok _ _ _ _ _ Hread). unfold JSON_parse. now rewrite Hp.
Qed.

Lemma load_existing_primitive v :
  parse text = Some v -> is_container v = false ->
  exists e, load_existing path this w = (Throw e, this, w).
Proof.
  intros Hp Hv. unfold load_existing.
  rewrite (bind_readFileSync_ok _ _ _ _ _ Hread). unfold JSON_parse. rewrite Hp, bind_ret.
  destruct v; try discriminate Hv; eexists; reflexivity.
Qed.

Lemma load_existing_container v :
  parse text = Some v -> is_container v = true ->
  writable w (backup_path path (w_now w)) = true ->
  load_existing path this w =
  (Ret (with_servers v), this,
   said [say info this ("Backed up existing configuration to: " +:+ backup_path path (w_now w))]
     (set_fs (<[backup_path path (w_now w) := File text]> (w_fs w)) w)).
Proof.
  intros Hp Hv Hw. unfold load_existing.
  rewrite (bind_readFileSync_ok _ _ _ _ _ Hread). unfold JSON_parse. rewrite Hp, bind_ret.
  rewrite get_member_container, bind_lift_inr by exact Hv.
  pose proof (with_servers_container v Hv) as Hs.
  destruct (truthy_opt (member v "mcpServers")); cbn [negb];
    [rewrite bind_ret; injection Hs as <- | rewrite Hs, bind_lift_inr];
    rewrite bind_Date_now;
    rewrite (bind_copyFileSync_ok _ _ _ _ _ _ Hread Hw), bind_log; reflexivity.
Qed.

Lemma load_existing_no_backup v :
  parse text = Some v -> is_container v = true ->
  writable w (backup_path path (w_now w)) = false ->
  exists e, load_existing path this w = (Throw e, this, w).
Proof.
  intros Hp Hv Hw. unfold load_existing.
  rewrite (bind_readFileSync_ok _ _ _ _ _ Hread). unfold JSON_parse. rewrite Hp, bind_ret.
  rewrite get_member_container, bind_lift_inr by exact Hv.
  pose proof (with_servers_container v Hv) as Hs.
  destruct (bind_copyFileSync_err (T := installer) (B := value) path
              (backup_path path (w_now w)) text
              (fun _ => log ("Backed up existing configuration to: "
                             +:+ backup_path path (w_now w)) info;; ret (with_servers v))
              this w Hread Hw) as [e He].
  exists e.
  destruct (truthy_opt (member v "mcpServers")); cbn [negb];
    [rewrite bind_ret; injection Hs as Hs; rewrite <- Hs in He
    | rewrite Hs, bind_lift_inr];
    rewrite bind_Date_now; exact He.
Qed.

End Load.

Lemma load_existing_unreadable this w path e :
  read_in w path = inl e -> load_existing path this w = (Throw e, this, w).
Proof. intros H. unfold load_existing. now rewrite (bind_readFileSync_err _ _ _ _ _ H). Qed.

(** ** The console *)

Lemma said_said l1 l2 w : said l2 (said l1 w) = said (l1 ++ l2) w.
Proof. unfold said, set_console. cbn. now rewrite <- app_assoc. Qed.

Lemma said_set_fs l f w : set_fs f (said l w) = said l (set_fs f w).
Proof. reflexivity. Qed.

(** ** The three things [configureClaudeDesktop] can find at the path *)

Inductive finding :=
| Absent
| Unusable
| Usable (text : string) (v : value).

Definition find (w : world) (path : string) : finding :=
  if exists_in w path then
    match read_in w path with
    | inl _ => Unusable
    | inr text =>
        match parse text with
        | None => Unusable
        | Some v =>
            if is_container v && writable w (backup_path path (w_now w))
            then Usable text v else Unusable
        end
    end
  else Absent.

Definition WARNING : string := "Warning: Could not parse existing config, creating new one".

(** The part of the method that follows the loading of the file. *)
Definition finish (this : installer) (configPath : string) (claudeConfig : value) : M installer unit :=
  (token <- lift (get_member (config this) "notionToken") ;;
   claudeConfig <- lift (set_server claudeConfig (server_entry (cli_binary this) token)) ;;
   try_catch
     (writeFileSync configPath (stringify claudeConfig) ;;
      success ("Claude Desktop configuration updated: " +:+ configPath))
     (fun message =>
        error ("Failed to write Claude Desktop configuration: " +:+ message) true))%js.

Definition obtain (configPath : string) : M installer value :=
  try_catch (load_existing configPath)
    (fun _ => log WARNING info ;; ret empty_config)%js.

Section Configure.
Variables (this : installer) (w : world) (dir : string).
Hypothesis Hdir : claudeConfigDir this = Some dir.
Hypothesis Hex : exists_in w dir = true.

Let path := desktop_path this dir.
Let START := say info this "Configuring Claude Desktop...".

Lemma configure_unfold :
  configureClaudeDesktop this w =
  bind (if exists_in w path then obtain path else ret empty_config)
       (finish this path) this (said [START] w).
Proof.
  unfold configureClaudeDesktop.
  rewrite bind_log, bind_get_this, Hdir, bind_existsSync.
  change (exists_in (said _ w) dir) with (exists_in w dir). rewrite Hex. cbn [negb].
  rewrite bind_ret. unfold join_under. rewrite bind_ret, bind_existsSync.
  reflexivity.
Qed.

Lemma obtain_unusable w0 :
  (exists e, load_existing path this w0 = (Throw e, this, w0)) ->
  obtain path this w0 = (Ret empty_config, this, said [say info this WARNING] w0).
Proof.
  intros [e He]. unfold obtain. rewrite (try_Throw _ _ _ _ _ _ _ He), bind_log.
  reflexivity.
Qed.

Lemma configure_run :
  configureClaudeDesktop this w =
  match find w path with
  | Absent => finish this path empty_config this (said [START] w)
  | Unusable =>
      finish this path empty_config this (said [START; say info this WARNING] w)
  | Usable text v =>
      finish this path (with_servers v) this
        (said [START; say info this ("Backed up existing configuration to: "
                                    +:+ backup_path path (w_now w))]
           (set_fs (<[backup_path path (w_now w) := File text]> (w_fs w)) w))
  end.
Proof.
  rewrite configure_unfold. unfold find.
  destruct (exists_in w path); [|now rewrite bind_ret].
  assert (Hfail : (exists e, load_existing path this (said [START] w)
                              = (Throw e, this, said [START] w)) ->
          bind (obtain path) (finish this path) this (said [START] w)
          = finish this path empty_config this (said [START; say info this WARNING] w)).
  { intros H. rewrite (bind_Ret _ _ _ _ _ _ _ (obtain_unusable _ H)).
    now rewrite said_said. }
  change (read_in w path) with (read_in (said [START] w) path).
  change (writable w (backup_path path (w_now w)))
    with (writable (said [START] w) (backup_path path (w_now (said [START] w)))).
  destruct (read_in (said [START] w) path) as [e|text] eqn:Hread.
  - apply Hfail. exists e. now apply load_existing_unreadable.
  - destruct (parse text) as [v|] eqn:Hp.
    + destruct (is_container v) eqn:Hv; cbn [andb].
      * destruct (writable _ _) eqn:Hw.
        -- unfold obtain.
           rewrite (bind_Ret _ _ _ _ _ _ _
                      (try_Ret _ _ _ _ _ _ _
                         (load_existing_container this _ path text Hread v Hp Hv Hw))).
           now rewrite said_set_fs, said_said.
        -- apply Hfail. now apply (load_existing_no_backup this _ path text Hread v).
      * apply Hfail. now apply (load_existing_primitive this _ path text Hread v).
    + apply Hfail. eexists. now apply (load_existing_unparseable this _ path text Hread).
Qed.

(** The three ways the last part can end. *)

Hypothesis Hconfig : config this <> JNull.

Lemma finish_written cc doc w0 :
  set_server cc (desired this) = inr doc -> writable w0 path = true ->
  finish this path cc this w0 =
  (Ret tt, this,
   said [say good this ("Claude Desktop configuration updated: " +:+ path)]
     (set_fs (<[path := File (stringify doc)]> (w_fs w0)) w0)).
Proof.
  intros Hset Hw. unfold finish.
  rewrite get_member_not_null, bind_lift_inr by exact Hconfig.
  fold (desired this). rewrite Hset, bind_lift_inr.
  erewrite try_Ret; [reflexivity|].
  rewrite (bind_writeFileSync_ok _ _ _ _ _ Hw). apply log_run.
Qed.

Lemma finish_denied cc doc w0 :
  set_server cc (desired this) = inr doc -> writable w0 path = false ->
  exists e,
    finish this path cc this w0 =
    (Exit 1%Z, this,
     said [say failure this ("Failed to write Claude Desktop configuration: " +:+ e)] w0).
Proof.
  intros Hset Hw. unfold finish.
  rewrite get_member_not_null, bind_lift_inr by exact Hconfig.
  fold (desired this). rewrite Hset, bind_lift_inr.
  destruct (bind_writeFileSync_err (T := installer) path (stringify doc)
              (fun _ => success ("Claude Desktop configuration updated: " +:+ path))
              this w0 Hw) as [e He].
  exists e. rewrite (try_Throw _ _ _ _ _ _ _ He). unfold error. now rewrite bind_log.
Qed.

Lemma finish_type_error cc e w0 :
  set_server cc (desired this) = inl e ->
  finish this path cc this w0 = (Throw e, this, w0).
Proof.
  intros Hset. unfold finish.
  rewrite get_member_not_null, bind_lift_inr by exact Hconfig.
  fold (desired this). now rewrite Hset.
Qed.

End Configure.

(** ** The document that is written *)

Lemma obj_set_set k v v' o : obj_set k v (obj_set k v' o) = obj_set k v o.
Proof.
  induction o as [|[k0 v0] o IH]; cbn [obj_set].
  - now rewrite String.eqb_refl.
  - destruct (String.eqb k0 k) eqn:E; cbn [obj_set]; rewrite E; [reflexivity|now rewrite IH].
Qed.

Lemma obj_set_same k v o : obj_get k o = Some v -> obj_set k v o = o.
Proof.
  induction o as [|[k0 v0] o IH]; cbn [obj_get obj_set]; [discriminate|].
  destruct (String.eqb k0 k); [now intros [= ->]|intros H; now rewrite IH].
Qed.

Lemma set_server_fresh entry :
  set_server empty_config entry = inr (JObject [("mcpServers", JObject [(SERVER_NAME, entry)])]).
Proof. reflexivity. Qed.

Lemma set_server_valid o entry :
  valid_document (JObject o) = true ->
  set_server (with_servers (JObject o)) entry = inr (JObject (merged o entry)).
Proof.
  unfold valid_document, with_servers, merged, servers_of, set_server.
  cbn [get_member]. destruct (obj_get "mcpServers" o) as [[| | | | |m]|] eqn:E;
    try discriminate; intros _; cbn [truthy_opt truthy set_member get_member].
  - now rewrite E.
  - rewrite obj_get_set_same. cbn [obj_set set_member]. now rewrite obj_set_set.
Qed.

Lemma merged_other o entry k :
  k <> "mcpServers" -> obj_get k (merged o entry) = obj_get k o.
Proof. intros H. unfold merged. now rewrite obj_get_set_other. Qed.

Lemma merged_servers o entry :
  obj_get "mcpServers" (merged o entry)
  = Some (JObject (obj_set SERVER_NAME entry (servers_of o))).
Proof. unfold merged. apply obj_get_set_same. Qed.

Lemma servers_of_merged o entry :
  servers_of (merged o entry) = obj_set SERVER_NAME entry (servers_of o).
Proof. unfold servers_of at 1. now rewrite merged_servers. Qed.

Lemma merged_merged o entry : merged (merged o entry) entry = merged o entry.
Proof.
  unfold merged at 1. rewrite servers_of_merged, obj_set_set.
  unfold merged. now rewrite obj_set_set.
Qed.

Lemma valid_merged o entry : valid_document (JObject (merged o entry)) = true.
Proof. unfold valid_document. now rewrite merged_servers. Qed.

Lemma plain_obj_set k v o :
  plain v = true -> plain (JObject o) = true -> plain (JObject (obj_set k v o)) = true.
Proof.
  cbn [plain]. intros Hv H. apply andb_true_iff in H as [H1 H2].
  rewrite distinct_obj_set by exact H1.
  now rewrite (values_obj_set plain) by assumption.
Qed.

Lemma plain_obj_get k v o : plain (JObject o) = true -> obj_get k o = Some v -> plain v = true.
Proof.
  cbn [plain]. intros H. apply andb_true_iff in H as [_ H].
  induction o as [|[k0 v0] o IH]; cbn [obj_get]; [discriminate|].
  cbn [forallb snd] in H. apply andb_true_iff in H as [H1 H2].
  destruct (String.eqb k0 k); [now intros [= <-]|now apply IH].
Qed.

Lemma plain_servers_of o : plain (JObject o) = true -> plain (JObject (servers_of o)) = true.
Proof.
  intros H. unfold servers_of.
  destruct (obj_get "mcpServers" o) as [[| | | | |m]|] eqn:E; try reflexivity.
  exact (plain_obj_get _ _ _ H E).
Qed.

Lemma plain_merged o entry :
  plain (JObject o) = true -> plain entry = true -> plain (JObject (merged o entry)) = true.
Proof.
  intros Ho He. unfold merged.
  apply plain_obj_set; [|exact Ho].
  apply plain_obj_set; [exact He|now apply plain_servers_of].
Qed.

Lemma plain_member v k x : plain v = true -> member v k = Some x -> plain x = true.
Proof.
  unfold member. destruct v as [| | | |es named|o]; cbn [get_member]; try discriminate.
  - cbn [plain]. intros H. apply andb_true_iff in H as [_ H].
    destruct named; [discriminate|discriminate H].
  - apply plain_obj_get.
Qed.

Lemma plain_desired this : plain (config this) = true -> plain (desired this) = true.
Proof.
  intros H. unfold desired, server_entry, token_or_empty.
  destruct (member (config this) "notionToken") as [x|] eqn:E; [|reflexivity].
  pose proof (plain_member _ _ _ H E) as Hx.
  destruct (truthy x); [|reflexivity].
  cbn. now rewrite Hx.
Qed.

Lemma plain_fresh this : plain (config this) = true -> plain (fresh this) = true.
Proof.
  intros H.
  change (fresh this)
    with (JObject (obj_set "mcpServers" (JObject (obj_set SERVER_NAME (desired this) [])) [])).
  apply plain_obj_set; [|reflexivity].
  apply plain_obj_set; [now apply plain_desired|reflexivity].
Qed.

(** ** What one call leaves behind *)

Lemma writable_after_file w q bytes p :
  writable w p = true -> writable (set_fs (<[q := File bytes]> (w_fs w)) w) p = true.
Proof.
  unfold writable. cbn [w_locked w_fs set_fs]. intros H.
  apply andb_true_iff in H as [H1 H2]. rewrite H1. cbn [andb].
  destruct (decide (q = p)) as [->|Hne].
  - now rewrite lookup_insert_eq.
  - now rewrite lookup_insert_ne.
Qed.

Lemma find_exists w path : find w path <> Absent -> exists_in w path = true.
Proof. unfold find. now destruct (exists_in w path). Qed.

Lemma find_Usable w path text v :
  find w path = Usable text v ->
  read_in w path = inr text /\ parse text = Some v /\ is_container v = true /\
  writable w (backup_path path (w_now w)) = true.
Proof.
  unfold find. destruct (exists_in w path); [|discriminate].
  destruct (read_in w path) as [|text'] eqn:Hr; [discriminate|].
  destruct (parse text') as [v'|] eqn:Hp; [|discriminate].
  destruct (is_container v') eqn:Hv; [|discriminate]. cbn [andb].
  destruct (writable _ _) eqn:Hw; [|discriminate]. intros [= <- <-]. auto.
Qed.

Section Outcomes.
Variables (this : installer) (w : world) (dir : string).
Hypothesis Hdir : claudeConfigDir this = Some dir.
Hypothesis Hex : exists_in w dir = true.
Hypothesis Hconfig : config this <> JNull.

Let path := desktop_path this dir.
Let START := say info this "Configuring Claude Desktop...".
Let UPDATED := say good this ("Claude Desktop configuration updated: " +:+ path).
Let BACKED := say info this ("Backed up existing configuration to: "
                             +:+ backup_path path (w_now w)).

(** Nothing is kept of what was there: the file is absent, or it cannot
    be used. *)
Lemma configure_fresh :
  (forall text v, find w path <> Usable text v) ->
  writable w path = true ->
  configureClaudeDesktop this w =
  (Ret tt, this,
   said (START :: match find w path with Absent => [] | _ => [say info this WARNING] end
               ++ [UPDATED])
     (set_fs (<[path := File (stringify (fresh this))]> (w_fs w)) w)).
Proof.
  intros Hno Hw. rewrite (configure_run this w dir Hdir Hex). fold path START.
  destruct (find w path) as [| |text v] eqn:Hf.
  - rewrite (finish_written this dir Hconfig empty_config _ _ (set_server_fresh _))
      by exact Hw.
    fold path UPDATED. now rewrite said_set_fs, said_said.
  - rewrite (finish_written this dir Hconfig empty_config _ _ (set_server_fresh _))
      by exact Hw.
    fold path UPDATED. now rewrite said_set_fs, said_said.
  - now destruct (Hno text v).
Qed.

(** A configuration document was there and could be copied aside. *)
Lemma configure_merged text o :
  find w path = Usable text (JObject o) ->
  valid_document (JObject o) = true ->
  writable w path = true ->
  configureClaudeDesktop this w =
  (Ret tt, this,
   said [START; BACKED; UPDATED]
     (set_fs (<[path := File (stringify (JObject (merged o (desired this))))]>
                (<[backup_path path (w_now w) := File text]> (w_fs w))) w)).
Proof.
  intros Hf Hvalid Hw. rewrite (configure_run this w dir Hdir Hex). fold path START.
  rewrite Hf. fold BACKED.
  rewrite (finish_written this dir Hconfig _ _ _ (set_server_valid o _ Hvalid)).
  - fold path UPDATED. now rewrite said_set_fs, said_said.
  - fold path. apply (writable_after_file w). exact Hw.
Qed.

End Outcomes.

Lemma find_of_file w path text :
  w_fs w !! path = Some (File text) -> parse text = None -> find w path = Unusable.
Proof.
  intros Hfile Hp. unfold find, exists_in. rewrite Hfile.
  destruct (read_in w path) as [e|text'] eqn:Hr; [reflexivity|].
  apply read_in_file in Hr. rewrite Hfile in Hr. injection Hr as <-. now rewrite Hp.
Qed.

Lemma backup_path_fresh path now : backup_path path now <> path.
Proof. unfold backup_path. apply append_not_self. discriminate. Qed.

(** Whatever happens after the file was loaded, only the target path can
    change. *)
Lemma finish_keeps this path cc w0 q :
  q <> path ->
  w_fs (finish this path cc this w0).2 !! q = w_fs w0 !! q.
Proof.
  intros Hq. unfold finish.
  destruct (get_member (config this) "notionToken") as [e|token];
    [reflexivity|rewrite bind_lift_inr].
  destruct (set_server cc _) as [e|doc]; [reflexivity|rewrite bind_lift_inr].
  unfold try_catch, bind, writeFileSync, write_in.
  destruct (bool_decide _); [reflexivity|].
  destruct (w_fs w0 !! path) as [[|]|]; cbn; try reflexivity;
    now rewrite lookup_insert_ne by congruence.
Qed.

(** ** Example worlds *)

(** Apostrophes stand for double quotes, so that a JSON text can be
    written as a string literal. *)
Fixpoint sq (s : string) : string :=
  match s with
  | "" => ""
  | String c r => String (if Ascii.eqb c "'"%char then DQUOTE else c) (sq r)
  end.

Definition this0 : installer :=
  mkInstaller "linux" "/repo" default_config (Some "/home/u/.config/claude")
    (Some "[Notion MCP Installer]").

Definition dir0 : string := "/home/u/.config/claude".
Definition path0 : string := "/home/u/.config/claude/claude_desktop_config.json".

Definition world_of (fs : gmap string node) (locked : gset string) (now : Z) : world :=
  World "linux" "/home/u" "/repo/scripts" ["node"; "/repo/scripts/install.cjs"] ∅
    fs ∅ locked ∅ now [] [].

Definition document0 : string :=
  sq "{'theme':'dark','mcpServers':{'other':{'command':'npx','args':['-y','pkg'],'env':{}}}}".

Definition fs_with (text : string) : gmap string node :=
  {[ dir0 := Dir; path0 := File text ]}.

Definition T0 : Z := 1700000000000.

(** ** C3 *)

(** C3. When the file at the target path is not JSON, the call returns
    normally, the only path that changes is the target (so no backup file
    appears), the text written is the print of the document
    [{ mcpServers: { "notion-mcp": entry } }], which reads back as that
    document, and the console shows the warning at the level [info], between
    the opening line and the line of success. *)
Theorem C3_invalid_json_starts_fresh (this : installer) (w : world) (dir text : string) :
  claudeConfigDir this = Some dir ->
  exists_in w dir = true ->
  config this <> JNull ->
  plain (config this) = true ->
  w_fs w !! desktop_path this dir = Some (File text) ->
  parse text = None ->
  writable w (desktop_path this dir) = true ->
  let '(out, this', w') := configureClaudeDesktop this w in
  out = Ret tt /\
  w_fs w' = <[desktop_path this dir := File (stringify (fresh this))]> (w_fs w) /\
  parse (stringify (fresh this)) = Some (fresh this) /\
  w_console w' =
    w_console w ++
    [say info this "Configuring Claude Desktop...";
     say info this "Warning: Could not parse existing config, creating new one";
     say good this ("Claude Desktop configuration updated: " +:+ desktop_path this dir)].
Proof.
  intros Hdir Hex Hconfig Hplain Hfile Hp Hw.
  pose proof (find_of_file _ _ _ Hfile Hp) as Hf.
  rewrite (configure_fresh this w dir Hdir Hex Hconfig); [|rewrite Hf; discriminate|exact Hw].
  rewrite Hf. repeat split. now apply parse_stringify, plain_fresh.
Qed.

Definition world_garbled : world := world_of (fs_with "{not json") ∅ T0.

Lemma C3_witness :
  let '(out, this', w') := configureClaudeDesktop this0 world_garbled in
  out = Ret tt /\
  w_fs w' = <[path0 := File (stringify (fresh this0))]> (w_fs world_garbled) /\
  parse (stringify (fresh this0)) = Some (fresh this0) /\
  w_console w' =
    [say info this0 "Configuring Claude Desktop...";
     say info this0 "Warning: Could not parse existing config, creating new one";
     say good this0 ("Claude Desktop configuration updated: " +:+ path0)].
Proof.
  apply (C3_invalid_json_starts_fresh this0 world_garbled dir0 "{not json");
    try reflexivity.
  discriminate.
Defined.

(** ** C1 *)

(** The frame of a merge: when a configuration document is found at the
    target and the copy aside succeeds, the document written has every
    top-level key other than [mcpServers], and every server other than
    ["notion-mcp"], with the value it had, and ["notion-mcp"] holds the
    desired entry. *)
Lemma merge_frame (this : installer) (w : world) (dir text : string) (o : object) :
  claudeConfigDir this = Some dir ->
  exists_in w dir = true ->
  config this <> JNull ->
  find w (desktop_path this dir) = Usable text (JObject o) ->
  valid_document (JObject o) = true ->
  writable w (desktop_path this dir) = true ->
  let '(out, this', w') := configureClaudeDesktop this w in
  exists o',
    out = Ret tt /\
    w_fs w' !! desktop_path this dir = Some (File (stringify (JObject o'))) /\
    (forall k, k <> "mcpServers" -> obj_get k o' = obj_get k o) /\
    exists m',
      obj_get "mcpServers" o' = Some (JObject m') /\
      (forall name, name <> SERVER_NAME -> obj_get name m' = obj_get name (servers_of o)) /\
      obj_get SERVER_NAME m' = Some (desired this).
Proof.
  intros Hdir Hex Hconfig Hf Hvalid Hw.
  rewrite (configure_merged this w dir Hdir Hex Hconfig text o Hf Hvalid Hw).
  exists (merged o (desired this)). split; [reflexivity|]. split.
  { cbn [w_fs said set_console set_fs]. apply lookup_insert_eq. }
  split; [intros k Hk; now apply merged_other|].
  exists (obj_set SERVER_NAME (desired this) (servers_of o)).
  split; [apply merged_servers|]. split.
  - intros name Hn. now apply obj_get_set_other.
  - apply obj_get_set_same.
Qed.

Definition world_locked_backup : world :=
  world_of (fs_with document0) {[ backup_path path0 T0 ]} T0.

Definition parsed0 : object :=
  match parse document0 with
  | Some (JObject o) => o
  | _ => []
  end.

(** C1, at an input where it fails.  The target holds a configuration
    document with the key [theme]; the backup path cannot be created while
    the target itself can be written.  The call returns normally and the
    document written has lost [theme] and the server [other]. *)
Theorem C1_keys_lost_when_backup_fails :
  parse document0 = Some (JObject parsed0) /\
  valid_document (JObject parsed0) = true /\
  obj_get "theme" parsed0 = Some (JString "dark") /\
  (exists entry, obj_get "other" (servers_of parsed0) = Some entry) /\
  let '(out, this', w') := configureClaudeDesktop this0 world_locked_backup in
  out = Ret tt /\
  w_fs w' !! path0 = Some (File (stringify (fresh this0))) /\
  member (fresh this0) "theme" = None /\
  w_fs w' !! backup_path path0 T0 = None.
Proof.
  split; [reflexivity|]. split; [reflexivity|]. split; [reflexivity|].
  split; [eexists; reflexivity|].
  vm_compute. repeat split.
Qed.

(** ** C9 *)

(** C9. When the existing file parses to an object or an array but the
    copy to the backup path fails, the call still returns normally and
    writes the document that holds nothing but the entry: no key of the
    parsed document other than [mcpServers] is in it. *)
Theorem C9_backup_failure_discards_document
  (this : installer) (w : world) (dir text : string) (v : value) :
  claudeConfigDir this = Some dir ->
  exists_in w dir = true ->
  config this <> JNull ->
  read_in w (desktop_path this dir) = inr text ->
  parse text = Some v ->
  is_container v = true ->
  writable w (backup_path (desktop_path this dir) (w_now w)) = false ->
  writable w (desktop_path this dir) = true ->
  let '(out, this', w') := configureClaudeDesktop this w in
  out = Ret tt /\
  w_fs w' = <[desktop_path this dir := File (stringify (fresh this))]> (w_fs w) /\
  (forall k, k <> "mcpServers" -> member (fresh this) k = None) /\
  w_console w' =
    w_console w ++
    [say info this "Configuring Claude Desktop...";
     say info this "Warning: Could not parse existing config, creating new one";
     say good this ("Claude Desktop configuration updated: " +:+ desktop_path this dir)].
Proof.
  intros Hdir Hex Hconfig Hr Hp Hv Hb Hw.
  assert (Hf : find w (desktop_path this dir) = Unusable).
  { unfold find, exists_in. rewrite (read_in_file _ _ _ Hr), Hr, Hp, Hv, Hb. reflexivity. }
  rewrite (configure_fresh this w dir Hdir Hex Hconfig); [|rewrite Hf; discriminate|exact Hw].
  rewrite Hf. repeat split.
  intros k Hk. unfold member, fresh. cbn [get_member obj_get].
  destruct (String.eqb "mcpServers" k) eqn:E; [|reflexivity].
  apply String.eqb_eq in E. congruence.
Qed.

Lemma C9_witness :
  let '(out, this', w') := configureClaudeDesktop this0 world_locked_backup in
  out = Ret tt /\
  w_fs w' = <[path0 := File (stringify (fresh this0))]> (w_fs world_locked_backup) /\
  (forall k, k <> "mcpServers" -> member (fresh this0) k = None) /\
  w_console w' =
    [say info this0 "Configuring Claude Desktop...";
     say info this0 "Warning: Could not parse existing config, creating new one";
     say good this0 ("Claude Desktop configuration updated: " +:+ path0)].
Proof.
  apply (C9_backup_failure_discards_document this0 world_locked_backup dir0 document0
           (JObject parsed0)); try reflexivity.
  discriminate.
Defined.

(** ** C2 *)

(** C2, as amended.  When the file at the target parses to an object or
    an array and the backup path can be written, the world the call
    leaves has, at the path [target.backup.<Date.now ()>], the bytes the
    target had before the call: this holds however the call ends, so in
    particular whenever the target has been rewritten. *)
Theorem C2_backup_of_parsed_container
  (this : installer) (w : world) (dir text : string) (v : value) :
  claudeConfigDir this = Some dir ->
  exists_in w dir = true ->
  read_in w (desktop_path this dir) = inr text ->
  parse text = Some v ->
  is_container v = true ->
  writable w (backup_path (desktop_path this dir) (w_now w)) = true ->
  let '(out, this', w') := configureClaudeDesktop this w in
  w_fs w' !! (desktop_path this dir +:+ ".backup." +:+ string_of_Z (w_now w))
  = Some (File text).
Proof.
  intros Hdir Hex Hr Hp Hv Hb.
  assert (Hf : find w (desktop_path this dir) = Usable text v).
  { unfold find, exists_in. rewrite (read_in_file _ _ _ Hr), Hr, Hp, Hv, Hb. reflexivity. }
  destruct (configureClaudeDesktop this w) as [[out this'] w'] eqn:E.
  rewrite (configure_run this w dir Hdir Hex), Hf in E.
  match type of E with
  | finish ?t ?p ?cc ?t' ?w0 = _ =>
      pose proof (finish_keeps t p cc w0 (backup_path p (w_now w))
                    (backup_path_fresh p (w_now w))) as Hk
  end.
  rewrite E in Hk. cbn [snd] in Hk. fold (backup_path (desktop_path this dir) (w_now w)).
  rewrite Hk. cbn [w_fs said set_console set_fs]. apply lookup_insert_eq.
Qed.

Definition world_document : world := world_of (fs_with document0) ∅ T0.

Lemma C2_witness :
  let '(out, this', w') := configureClaudeDesktop this0 world_document in
  w_fs w' !! (path0 +:+ ".backup." +:+ string_of_Z T0) = Some (File document0).
Proof.
  apply (C2_backup_of_parsed_container this0 world_document dir0 document0 (JObject parsed0));
    reflexivity.
Defined.

Definition world_null : world := world_of (fs_with "null") ∅ T0.

(** C2, as it is stated, fails when the file holds the JSON text [null]:
    the text parses, yet the call writes the target anew and no backup
    exists afterwards. *)
Lemma C2_no_backup_for_null :
  read_in world_null path0 = inr "null" /\
  parse "null" = Some JNull /\
  writable world_null (backup_path path0 T0) = true /\
  let '(out, this', w') := configureClaudeDesktop this0 world_null in
  out = Ret tt /\
  w_fs w' !! backup_path path0 T0 = None /\
  w_fs w' !! path0 = Some (File (stringify (fresh this0))) /\
  size (w_fs w') = size (w_fs world_null).
Proof. vm_compute. repeat split. Qed.

(** ** C4 *)

Lemma string_of_uint_inj d d' : string_of_uint d = string_of_uint d' -> d = d'.
Proof.
  revert d'. induction d; destruct d'; cbn [string_of_uint]; intros H;
    try discriminate H; try reflexivity; injection H as H; f_equal; auto.
Qed.

Lemma to_uint_inj n n' : N.to_uint n = N.to_uint n' -> n = n'.
Proof.
  intros H. rewrite <- (DecimalN.Unsigned.of_to n), <- (DecimalN.Unsigned.of_to n').
  now rewrite H.
Qed.

Lemma string_of_uint_no_minus d r : string_of_uint d <> String "-"%char r.
Proof. destruct d; cbn [string_of_uint]; discriminate. Qed.

Lemma string_of_Z_inj z z' : string_of_Z z = string_of_Z z' -> z = z'.
Proof.
  assert (Hzero : forall p, string_of_uint (N.to_uint (N.pos p)) <> "0").
  { intros p H. change "0" with (string_of_uint (N.to_uint 0)) in H.
    apply string_of_uint_inj in H. apply (to_uint_inj (N.pos p) 0%N) in H.
    discriminate H. }
  destruct z as [|p|p], z' as [|q|q]; unfold string_of_Z; intros H;
    try reflexivity.
  - symmetry in H. now apply Hzero in H.
  - discriminate H.
  - now apply Hzero in H.
  - apply string_of_uint_inj in H. apply (to_uint_inj (N.pos p) (N.pos q)) in H.
    now injection H as ->.
  - now apply string_of_uint_no_minus in H.
  - discriminate H.
  - symmetry in H. now apply string_of_uint_no_minus in H.
  - injection H as H. apply string_of_uint_inj in H.
    apply (to_uint_inj (N.pos p) (N.pos q)) in H. now injection H as ->.
Qed.

Lemma backup_path_inj path t t' : backup_path path t = backup_path path t' -> t = t'.
Proof.
  unfold backup_path. intros H.
  apply (inj (String.app path)) in H. apply (inj (String.app ".backup.")) in H.
  now apply string_of_Z_inj.
Qed.

(** The value of [mcpServers["notion-mcp"]] in the document a text
    denotes. *)
Definition entry_of_text (text : string) : option value :=
  match parse text with
  | Some d =>
      match member d "mcpServers" with
      | Some servers => member servers SERVER_NAME
      | None => None
      end
  | None => None
  end.

(** The target is absent, or cannot be used, or holds a configuration
    document. *)
Definition regular (w : world) (path : string) : bool :=
  match find w path with
  | Usable _ v => valid_document v
  | _ => true
  end.

Definition readable (w : world) (path : string) : bool :=
  negb (bool_decide (path ∈ w_unreadable w)).

(** What the first of two calls establishes, for the file system [fs] it
    leaves and the object [o] it has written. *)
Definition settled (this : installer) (w : world) (path : string)
  (fs : gmap string node) (o : object) : Prop :=
  fs !! path = Some (File (stringify (JObject o))) /\
  (forall q, is_Some (w_fs w !! q) -> is_Some (fs !! q)) /\
  (forall q, writable w q = true -> writable (set_fs fs w) q = true) /\
  merged o (desired this) = o /\
  plain (JObject o) = true /\
  valid_document (JObject o) = true /\
  entry_of_text (stringify (JObject o)) = Some (desired this) /\
  match find w path with
  | Usable text _ => fs !! backup_path path (w_now w) = Some (File text)
  | _ => fs = <[path := File (stringify (JObject o))]> (w_fs w)
  end.

Lemma is_Some_insert_file (fs : gmap string node) p bytes q :
  is_Some (fs !! q) -> is_Some (<[p := File bytes]> fs !! q).
Proof.
  intros H. destruct (decide (p = q)) as [->|Hne].
  - rewrite lookup_insert_eq. eauto.
  - now rewrite lookup_insert_ne.
Qed.

Lemma entry_of_text_merged o entry :
  plain (JObject o) = true -> plain entry = true ->
  entry_of_text (stringify (JObject (merged o entry))) = Some entry.
Proof.
  intros Ho He. unfold entry_of_text.
  rewrite parse_stringify by now apply plain_merged.
  unfold member. cbn [get_member]. rewrite merged_servers. cbn [get_member].
  now rewrite obj_get_set_same.
Qed.

Lemma fresh_as_merged this : fresh this = JObject (merged [] (desired this)).
Proof. reflexivity. Qed.

Section Twice.
Variables (this : installer) (w : world) (dir : string) (t2 : Z).
Hypothesis Hdir : claudeConfigDir this = Some dir.
Hypothesis Hex : exists_in w dir = true.
Hypothesis Hconfig : config this <> JNull.
Hypothesis Hplain : plain (config this) = true.

Let path := desktop_path this dir.

Hypothesis Hregular : regular w path = true.
Hypothesis Hreadable : readable w path = true.
Hypothesis Hwritable : writable w path = true.
Hypothesis Hbackup : writable w (backup_path path t2) = true.

Lemma first_call :
  exists lines fs o,
    configureClaudeDesktop this w = (Ret tt, this, said lines (set_fs fs w)) /\
    settled this w path fs o.
Proof.
  unfold regular in Hregular. destruct (find w path) as [| |text v] eqn:Hf.
  1,2: eexists _, _, (merged [] (desired this));
    (split; [rewrite (configure_fresh this w dir Hdir Hex Hconfig);
               [fold path; rewrite Hf, fresh_as_merged; reflexivity
               |fold path; rewrite Hf; discriminate|exact Hwritable]|]);
    unfold settled; rewrite Hf;
    (split; [apply lookup_insert_eq|]);
    (split; [intros q; apply is_Some_insert_file|]);
    (split; [intros q; apply writable_after_file|]);
    (split; [apply merged_merged|]);
    (split; [apply plain_merged; [reflexivity|now apply plain_desired]|]);
    (split; [apply valid_merged|]);
    (split; [apply entry_of_text_merged; [reflexivity|now apply plain_desired]|]);
    reflexivity.
  destruct v as [| | | | |o]; try discriminate Hregular.
  destruct (find_Usable _ _ _ _ Hf) as (Hr & Hp & _ & Hb).
  pose proof (parse_plain _ _ Hp) as Ho.
  eexists _, _, (merged o (desired this)).
  split; [apply (configure_merged this w dir Hdir Hex Hconfig text o Hf Hregular Hwritable)|].
  unfold settled. fold path. rewrite Hf.
  split; [apply lookup_insert_eq|].
  split.
  { intros q Hq. apply (is_Some_insert_file _ path). apply (is_Some_insert_file _ _ text).
    exact Hq. }
  split.
  { intros q Hq.
    apply (writable_after_file w (backup_path path (w_now w)) text q) in Hq.
    apply (writable_after_file _ path (stringify (JObject (merged o (desired this)))) q) in Hq.
    exact Hq. }
  split; [apply merged_merged|].
  split; [apply plain_merged; [exact Ho|now apply plain_desired]|].
  split; [apply valid_merged|].
  split; [apply entry_of_text_merged; [exact Ho|now apply plain_desired]|].
  rewrite lookup_insert_ne by (symmetry; apply backup_path_fresh).
  apply lookup_insert_eq.
Qed.

Lemma second_call lines fs o :
  settled this w path fs o ->
  configureClaudeDesktop this (set_now t2 (said lines (set_fs fs w))) =
  (Ret tt, this,
   said (lines ++
         [say info this "Configuring Claude Desktop...";
          say info this ("Backed up existing configuration to: " +:+ backup_path path t2);
          say good this ("Claude Desktop configuration updated: " +:+ path)])
     (set_now t2
        (set_fs (<[path := File (stringify (JObject o))]>
                   (<[backup_path path t2 := File (stringify (JObject o))]> fs)) w))).
Proof.
  intros (Hfile & Hsome & Hwr & Hm & Ho & Hvalid & _ & _).
  set (w1 := set_now t2 (said lines (set_fs fs w))).
  assert (Hex1 : exists_in w1 dir = true).
  { unfold exists_in in Hex |- *. cbn [w1 w_fs set_now said set_console set_fs].
    destruct (w_fs w !! dir) eqn:E; [|discriminate].
    destruct (Hsome dir) as [x ->]; [rewrite E; eauto|reflexivity]. }
  assert (Hf1 : find w1 path = Usable (stringify (JObject o)) (JObject o)).
  { unfold find, exists_in, read_in.
    cbn [w1 w_fs w_unreadable w_now set_now said set_console set_fs].
    rewrite Hfile. unfold readable in Hreadable. apply negb_true_iff in Hreadable.
    rewrite Hreadable, (parse_stringify _ Ho). cbn [is_container andb].
    change (writable w1 (backup_path path t2))
      with (writable (set_fs fs w) (backup_path path t2)).
    now rewrite (Hwr _ Hbackup). }
  assert (Hw1 : writable w1 path = true) by exact (Hwr _ Hwritable).
  rewrite (configure_merged this w1 dir Hdir Hex1 Hconfig _ o Hf1 Hvalid Hw1).
  rewrite Hm. fold path. unfold w1, said, set_console, set_fs, set_now. cbn.
  now rewrite <- app_assoc.
Qed.

End Twice.

(** C4, as amended.  Two calls in succession with the same installer
    object, the second at the clock reading [t2], on a target that is
    absent, unusable or a configuration document, with the target and the
    second backup path writable.  Both calls return; the second writes the
    bytes the first wrote, whose [mcpServers["notion-mcp"]] is the desired
    entry; the second call copies what the first wrote to its own backup
    path.  The first call makes a backup exactly when it found a document,
    and that backup is still there after the second call when the two clock
    readings differ. *)
Theorem C4_second_call_repeats_and_backs_up
  (this : installer) (w : world) (dir : string) (t2 : Z) :
  claudeConfigDir this = Some dir ->
  exists_in w dir = true ->
  config this <> JNull ->
  plain (config this) = true ->
  regular w (desktop_path this dir) = true ->
  readable w (desktop_path this dir) = true ->
  writable w (desktop_path this dir) = true ->
  writable w (backup_path (desktop_path this dir) t2) = true ->
  let '(out1, _, w1) := configureClaudeDesktop this w in
  let '(out2, _, w2) := configureClaudeDesktop this (set_now t2 w1) in
  out1 = Ret tt /\ out2 = Ret tt /\
  exists text1,
    w_fs w1 !! desktop_path this dir = Some (File text1) /\
    w_fs w2 !! desktop_path this dir = Some (File text1) /\
    entry_of_text text1 = Some (desired this) /\
    w_fs w2 !! backup_path (desktop_path this dir) t2 = Some (File text1) /\
    match find w (desktop_path this dir) with
    | Usable text0 _ =>
        w_fs w1 !! backup_path (desktop_path this dir) (w_now w) = Some (File text0) /\
        (t2 <> w_now w ->
         w_fs w2 !! backup_path (desktop_path this dir) (w_now w) = Some (File text0))
    | _ => w_fs w1 = <[desktop_path this dir := File text1]> (w_fs w)
    end.
Proof.
  intros Hdir Hex Hconfig Hplain Hregular Hreadable Hwritable Hbackup.
  destruct (first_call this w dir Hdir Hex Hconfig Hplain Hregular Hwritable)
    as (lines & fs & o & E1 & Hs).
  rewrite E1.
  rewrite (second_call this w dir t2 Hdir Hex Hconfig Hreadable Hwritable Hbackup lines fs o Hs).
  destruct Hs as (Hfile & _ & _ & _ & _ & _ & Hentry & Hfound).
  split; [reflexivity|]. split; [reflexivity|].
  exists (stringify (JObject o)).
  cbn [w_fs said set_console set_fs set_now].
  split; [exact Hfile|]. split; [apply lookup_insert_eq|]. split; [exact Hentry|].
  split.
  { rewrite lookup_insert_ne by (symmetry; apply backup_path_fresh). apply lookup_insert_eq. }
  destruct (find w (desktop_path this dir)); try exact Hfound.
  split; [exact Hfound|]. intros Ht.
  rewrite lookup_insert_ne by (symmetry; apply backup_path_fresh).
  rewrite lookup_insert_ne; [exact Hfound|].
  intros H. apply backup_path_inj in H. congruence.
Qed.

Lemma C4_witness :
  let '(out1, _, w1) := configureClaudeDesktop this0 world_document in
  let '(out2, _, w2) := configureClaudeDesktop this0 (set_now (T0 + 1) w1) in
  out1 = Ret tt /\ out2 = Ret tt /\
  exists text1,
    w_fs w1 !! path0 = Some (File text1) /\
    w_fs w2 !! path0 = Some (File text1) /\
    entry_of_text text1 = Some (desired this0) /\
    w_fs w2 !! backup_path path0 (T0 + 1) = Some (File text1) /\
    w_fs w1 !! backup_path path0 T0 = Some (File document0) /\
    ((T0 + 1)%Z <> T0 -> w_fs w2 !! backup_path path0 T0 = Some (File document0)).
Proof.
  apply (C4_second_call_repeats_and_backs_up this0 world_document dir0 (T0 + 1));
    try reflexivity.
  discriminate.
Defined.

Definition world_empty : world := world_of {[ dir0 := Dir ]} ∅ T0.

(** C4, as it is stated, fails on a first installation: the first of the
    two calls finds no file and makes no backup, so that after both calls
    there is one backup file, not two.  It also fails when both calls read
    the same millisecond: the second copy replaces the first. *)
Lemma C4_one_backup_after_two_calls :
  (let '(out1, _, w1) := configureClaudeDesktop this0 world_empty in
   let '(out2, _, w2) := configureClaudeDesktop this0 (set_now (T0 + 1) w1) in
   out1 = Ret tt /\ out2 = Ret tt /\
   w_fs w1 !! backup_path path0 T0 = None /\
   size (w_fs w1) = 2 /\ size (w_fs w2) = 3) /\
  (let '(out1, _, w1) := configureClaudeDesktop this0 world_document in
   let '(out2, _, w2) := configureClaudeDesktop this0 (set_now T0 w1) in
   out1 = Ret tt /\ out2 = Ret tt /\
   w_fs w1 !! backup_path path0 T0 = Some (File document0) /\
   w_fs w2 !! backup_path path0 T0 <> Some (File document0) /\
   size (w_fs w2) = 3).
Proof. vm_compute. repeat split. discriminate. Qed.

End DesktopFacts.

(** * Which ways of ending a method has *)

Module Shapes.
Import JSON JS Runtime RuntimeFacts.
Local Open Scope js_scope.

(** The ways of ending that are open to a computation: returning,
    throwing, exiting (always with code 1), hanging. *)
Record shape := Shape {
  may_return : bool;
  may_throw : bool;
  may_exit : bool;
  may_hang : bool
}.

Definition allows {A} (s : shape) (o : outcome A) : Prop :=
  match o with
  | Ret _ => may_return s = true
  | Throw _ => may_throw s = true
  | Exit c => may_exit s = true /\ c = 1%Z
  | Hang => may_hang s = true
  end.

Definition le (s1 s2 : shape) : bool :=
  implb (may_return s1) (may_return s2) && implb (may_throw s1) (may_throw s2)
  && implb (may_exit s1) (may_exit s2) && implb (may_hang s1) (may_hang s2).

Definition with_return (s : shape) : shape :=
  Shape true (may_throw s) (may_exit s) (may_hang s).

Definition caught (s : shape) : shape :=
  Shape (may_return s) false (may_exit s) (may_hang s).

Definition RETURNS : shape := Shape true false false false.
Definition THROWS : shape := Shape false true false false.
Definition EXITS : shape := Shape false false true false.
Definition FALLIBLE : shape := Shape true true false false.

Lemma allows_le {A} s1 s2 (o : outcome A) : le s1 s2 = true -> allows s1 o -> allows s2 o.
Proof.
  unfold le. intros H.
  apply andb_true_iff in H as [H H4]. apply andb_true_iff in H as [H H3].
  apply andb_true_iff in H as [H1 H2].
  destruct o; cbn; [intros E|intros E|intros [E ?]; split; [|assumption]|intros E];
    rewrite E in *; assumption.
Qed.

Section Sat.
Context {T : Type}.
Variable I : T -> world -> Prop.

(** [m], started in a state where [I] holds, ends in one of the ways of
    [s], in a state where [I] holds. *)
Definition sat {A} (s : shape) (m : M T A) : Prop :=
  forall t w, I t w -> I (m t w).1.2 (m t w).2 /\ allows s (m t w).1.1.

Lemma sat_le {A} s1 s2 (m : M T A) : le s1 s2 = true -> sat s1 m -> sat s2 m.
Proof. intros Hle H t w Hi. destruct (H t w Hi). eauto using allows_le. Qed.

Lemma sat_ret {A} s (a : A) : may_return s = true -> sat s (ret a).
Proof. intros H t w Hi. now split. Qed.

Lemma sat_throw {A} s e : may_throw s = true -> sat s (throw (A := A) e).
Proof. intros H t w Hi. now split. Qed.

Lemma sat_process_exit {A} s : may_exit s = true -> sat s (process_exit (A := A) 1).
Proof. intros H t w Hi. now split. Qed.

Lemma sat_lift {A} s (x : string + A) :
  may_return s = true -> may_throw s = true -> sat s (lift x).
Proof. intros H1 H2 t w Hi. destruct x; now split. Qed.

Lemma sat_bind {A B} s (m : M T A) (k : A -> M T B) :
  sat (with_return s) m -> (forall a, sat s (k a)) -> sat s (bind m k).
Proof.
  intros Hm Hk t w Hi. destruct (Hm t w Hi) as [Hi' Ho]. unfold bind.
  destruct (m t w) as [[[a|e|c|] t'] w']; cbn in *; auto.
  now apply Hk.
Qed.

Lemma sat_bind_ret {A B} s (a : A) (k : A -> M T B) : sat s (k a) -> sat s (bind (ret a) k).
Proof. intros H t w Hi. exact (H t w Hi). Qed.

Lemma sat_bind_stuck {A B} s (m : M T A) (k : A -> M T B) :
  may_return s = false -> sat s m -> sat s (bind m k).
Proof.
  intros Hr Hm t w Hi. destruct (Hm t w Hi) as [Hi' Ho]. unfold bind.
  destruct (m t w) as [[[a|e|c|] t'] w']; cbn in *; auto. congruence.
Qed.

Lemma sat_try {A} sb s (body : M T A) (h : string -> M T A) :
  sat sb body -> (forall e, sat s (h e)) -> le (caught sb) s = true ->
  sat s (try_catch body h).
Proof.
  intros Hb Hh Hle t w Hi. destruct (Hb t w Hi) as [Hi' Ho]. unfold try_catch.
  destruct (body t w) as [[[a|e|c|] t'] w']; cbn in *.
  - split; [assumption|]. apply (allows_le (caught sb) s (@Ret A a) Hle). exact Ho.
  - now apply Hh.
  - split; [assumption|]. apply (allows_le (caught sb) s (@Exit A c) Hle). exact Ho.
  - split; [assumption|]. apply (allows_le (caught sb) s (@Hang A) Hle). exact Ho.
Qed.

Lemma sat_get_this s : may_return s = true -> sat s get_this.
Proof. intros H t w Hi. now split. Qed.

Lemma sat_get_world s : may_return s = true -> sat s get_world.
Proof. intros H t w Hi. now split. Qed.

Lemma sat_existsSync s p : may_return s = true -> sat s (existsSync p).
Proof. intros H t w Hi. now split. Qed.

Lemma sat_Date_now s : may_return s = true -> sat s Date_now.
Proof. intros H t w Hi. now split. Qed.

Lemma sat_put_this s t' :
  may_return s = true -> (forall t w, I t w -> I t' w) -> sat s (put_this t').
Proof. intros H Ht t w Hi. split; [now apply (Ht t)|assumption]. Qed.

(** [I] does not look at what the calls of the scripts change in the
    world: the console, the files, the clock, the record of calls. *)
Definition blind : Prop :=
  forall t w c f n l,
    I t w -> I t (set_calls l (set_now n (set_fs f (set_console c w)))).

Hypothesis Hblind : blind.

Lemma blind_console t w c : I t w -> I t (set_console c w).
Proof.
  intros Hi. apply (Hblind t w c (w_fs w) (w_now w) (w_calls w)) in Hi.
  now destruct w.
Qed.

Lemma blind_fs t w f : I t w -> I t (set_fs f w).
Proof.
  intros Hi. apply (Hblind t w (w_console w) f (w_now w) (w_calls w)) in Hi.
  now destruct w.
Qed.

Lemma blind_run t w f n l : I t w -> I t (set_calls l (set_now n (set_fs f w))).
Proof.
  intros Hi. apply (Hblind t w (w_console w) f n l) in Hi. now destruct w.
Qed.

Lemma blind_now_fs t w f n : I t w -> I t (set_now n (set_fs f w)).
Proof.
  intros Hi. apply (Hblind t w (w_console w) f n (w_calls w)) in Hi. now destruct w.
Qed.

Lemma blind_now t w n : I t w -> I t (set_now n w).
Proof.
  intros Hi. apply (Hblind t w (w_console w) (w_fs w) n (w_calls w)) in Hi. now destruct w.
Qed.

Lemma blind_calls t w l : I t w -> I t (set_calls l w).
Proof.
  intros Hi. apply (Hblind t w (w_console w) (w_fs w) (w_now w) l) in Hi. now destruct w.
Qed.

Lemma sat_console_log s l : may_return s = true -> sat s (console_log l).
Proof. intros H t w Hi. split; [now apply blind_console|assumption]. Qed.

Lemma sat_readFileSync s p :
  may_return s = true -> may_throw s = true -> sat s (readFileSync p).
Proof.
  intros H1 H2 t w Hi. unfold readFileSync. destruct (read_in w p); now split.
Qed.

Lemma write_in_blind t w p bytes w' : I t w -> write_in w p bytes = inr w' -> I t w'.
Proof.
  unfold write_in. intros Hi. destruct (bool_decide _); [discriminate|].
  destruct (w_fs w !! p) as [[|]|]; intros [= <-]; now apply blind_fs.
Qed.

Lemma sat_writeFileSync s p bytes :
  may_return s = true -> may_throw s = true -> sat s (writeFileSync p bytes).
Proof.
  intros H1 H2 t w Hi. unfold writeFileSync.
  destruct (write_in w p bytes) eqn:E; cbn; [now split|].
  split; [now apply (write_in_blind t w p bytes)|assumption].
Qed.

Lemma sat_copyFileSync s src dst :
  may_return s = true -> may_throw s = true -> sat s (copyFileSync src dst).
Proof.
  intros H1 H2 t w Hi. unfold copyFileSync.
  destruct (read_in w src); cbn; [now split|].
  destruct (write_in w dst s0) eqn:E; cbn; [now split|].
  split; [now apply (write_in_blind t w dst s0)|assumption].
Qed.

Lemma sat_mkdirSync s p :
  may_return s = true -> may_throw s = true -> sat s (mkdirSync p).
Proof.
  intros H1 H2 t w Hi. unfold mkdirSync.
  destruct (bool_decide _); [now split|].
  destruct (w_fs w !! p) as [[|]|]; cbn; (split; [|assumption]);
    try assumption; now apply blind_fs.
Qed.

(** A subprocess call may return or throw; it may hang only when it has
    no timeout. *)
Definition exec_shape (opts : exec_options) : shape :=
  Shape true true false (bool_decide (timeout opts = None)).

Lemma run_proc_blind t w cmd opts p :
  I t w -> I t (run_proc cmd opts p w).2.
Proof.
  intros Hi. unfold run_proc, advance.
  destruct p as [ms out writes|ms err|]; [| |destruct (timeout opts)]; cbn;
    repeat case_match; cbn; try assumption;
    first [apply blind_now; assumption | apply blind_now_fs; assumption].
Qed.

Lemma run_proc_shape cmd opts p w :
  allows (exec_shape opts) (run_proc cmd opts p w).1.
Proof.
  unfold run_proc. destruct p as [ms out writes|ms err|].
  - destruct (timeout opts); [destruct (_ <? _)%Z|]; reflexivity.
  - destruct (timeout opts); [destruct (_ <? _)%Z|]; reflexivity.
  - unfold exec_shape. destruct (timeout opts); reflexivity.
Qed.

Lemma le_refl_exec opts : le (exec_shape opts) (exec_shape opts) = true.
Proof. unfold exec_shape. now destruct (bool_decide _). Qed.

Lemma sat_execSync s cmd opts :
  le (exec_shape opts) s = true -> sat s (execSync cmd opts).
Proof.
  intros Hle. apply (sat_le (exec_shape opts)); [exact Hle|].
  intros t w Hi. unfold execSync.
  set (w1 := set_calls _ w). set (p := default _ _).
  assert (Hi1 : I t w1).
  { unfold w1. now apply blind_calls. }
  pose proof (run_proc_blind t w1 cmd opts p Hi1) as H1.
  pose proof (run_proc_shape cmd opts p w1) as H2.
  destruct (run_proc cmd opts p w1) as [o w2]. now split.
Qed.

(** A command that ends with a failure, or that the shell cannot find. *)
Definition fails (p : option proc) : bool :=
  match p with
  | None | Some (Fails _ _) => true
  | Some _ => false
  end.

Lemma sat_execSync_fails cmd opts :
  (forall t w, I t w -> fails (w_procs w !! cmd) = true) ->
  sat THROWS (execSync cmd opts).
Proof.
  intros Hf t w Hi. specialize (Hf t w Hi).
  pose proof (sat_execSync (exec_shape opts) cmd opts (le_refl_exec opts) t w Hi) as [Hi' _].
  split; [exact Hi'|]. clear Hi'. unfold execSync, run_proc.
  destruct (w_procs w !! cmd) as [[ms out writes|ms err|]|]; try discriminate Hf; cbn;
    repeat case_match; simplify_eq; exact eq_refl.
Qed.

(** A command that ends. *)
Lemma sat_execSync_ends cmd opts :
  (forall t w, I t w -> w_procs w !! cmd <> Some Never) ->
  sat FALLIBLE (execSync cmd opts).
Proof.
  intros Hf t w Hi. specialize (Hf t w Hi).
  pose proof (sat_execSync (exec_shape opts) cmd opts (le_refl_exec opts) t w Hi) as [Hi' _].
  split; [exact Hi'|]. clear Hi'. unfold execSync, run_proc.
  destruct (w_procs w !! cmd) as [[ms out writes|ms err|]|]; try congruence; cbn;
    repeat case_match; simplify_eq; exact eq_refl.
Qed.

Lemma sat_writeFileSync_locked p bytes :
  (forall t w, I t w -> bool_decide (p ∈ w_locked w) = true) ->
  sat THROWS (writeFileSync p bytes).
Proof.
  intros Hl t w Hi. unfold writeFileSync, write_in. rewrite (Hl t w Hi). now split.
Qed.

(** What [get_this] returns is a state in which [I] held. *)
Lemma sat_bind_get_this {B} s (k : T -> M T B) :
  (forall a, (exists w, I a w) -> sat s (k a)) -> sat s (bind get_this k).
Proof. intros Hk t w Hi. apply (Hk t); eauto. Qed.

(** A relation between the way of ending and the state left. *)
Definition ends {A} (R : outcome A -> T -> world -> Prop) (m : M T A) : Prop :=
  forall t w, I t w -> R (m t w).1.1 (m t w).1.2 (m t w).2.

Lemma ends_bind {A B} (R : outcome B -> T -> world -> Prop) (m : M T A) (k : A -> M T B) :
  sat (Shape true false false true) m ->
  (forall t w, R Hang t w) ->
  (forall a, ends R (k a)) ->
  ends R (bind m k).
Proof.
  intros Hm Hh Hk t w Hi. destruct (Hm t w Hi) as [Hi' Ho]. unfold bind.
  destruct (m t w) as [[[a|e|c|] t'] w']; cbn in *.
  - now apply Hk.
  - discriminate Ho.
  - destruct Ho as [Ho _]. discriminate Ho.
  - apply Hh.
Qed.

Lemma ends_bind_get_this {B} (R : outcome B -> T -> world -> Prop) (k : T -> M T B) :
  (forall a, (exists w, I a w) -> ends R (k a)) -> ends R (bind get_this k).
Proof. intros Hk t w Hi. apply (Hk t); eauto. Qed.

Definition throwing (s : shape) : shape :=
  Shape (may_return s) true (may_exit s) (may_hang s).

Lemma le_refl s : le s s = true.
Proof. destruct s as [[] [] [] []]; reflexivity. Qed.

Lemma sat_try_any {A} s (body : M T A) (h : string -> M T A) :
  sat (throwing s) body -> (forall e, sat s (h e)) -> sat s (try_catch body h).
Proof.
  intros Hb Hh. apply (sat_try (throwing s)); [exact Hb|exact Hh|].
  destruct s as [[] [] [] []]; reflexivity.
Qed.

End Sat.

(** One rule at a time, from the outside of the term inwards. *)
Ltac side := solve [reflexivity | assumption].

Ltac sat_rule Hblind :=
  lazymatch goal with
  | |- sat _ _ (ret _) => apply sat_ret; side
  | |- sat _ _ (throw _) => apply sat_throw; side
  | |- sat _ _ (process_exit _) => apply sat_process_exit; side
  | |- sat _ _ (lift _) => apply sat_lift; side
  | |- sat _ _ get_this => apply sat_get_this; side
  | |- sat _ _ get_world => apply sat_get_world; side
  | |- sat _ _ (existsSync _) => apply sat_existsSync; side
  | |- sat _ _ Date_now => apply sat_Date_now; side
  | |- sat _ _ (console_log _) => apply (sat_console_log _ Hblind); side
  | |- sat _ _ (readFileSync _) => apply (sat_readFileSync _); side
  | |- sat _ _ (writeFileSync _ _) => apply (sat_writeFileSync _ Hblind); side
  | |- sat _ _ (copyFileSync _ _) => apply (sat_copyFileSync _ Hblind); side
  | |- sat _ _ (mkdirSync _) => apply (sat_mkdirSync _ Hblind); side
  | |- sat _ _ (execSync _ _) => apply (sat_execSync _ Hblind); side
  | |- sat _ _ (bind get_this _) => apply sat_bind_get_this; intros ? ?
  | |- sat _ _ (bind _ _) => apply sat_bind
  | |- sat _ _ (try_catch _ _) => apply sat_try_any
  | |- sat _ _ (if ?b then _ else _) => destruct b
  | |- sat _ _ (match ?x with _ => _ end) => destruct x
  end.

End Shapes.

(** * The ways the methods of the installer can end *)

Module InstallerShapes.
Import JSON JS Runtime Installer RuntimeFacts Shapes.
Local Open Scope js_scope.

Definition ANY : shape := Shape true true true true.

(** Returning or hanging: neither an error thrown nor an exit. *)
Definition HARMLESS : shape := Shape true false false true.

(** Returning or exiting with code 1, without hanging. *)
Definition PROMPT : shape := Shape true false true false.

(** Anything but an error thrown. *)
Definition SETTLED : shape := Shape true false true true.

Section Methods.
Variable I : installer -> world -> Prop.
Hypothesis Hblind : blind I.
Hypothesis Hconfig : forall t w c, I t w -> I (with_config c t) w.

Lemma sat_log s message type : may_return s = true -> sat I s (log message type).
Proof. intros H. unfold log. repeat (intros; sat_rule Hblind). Qed.

Lemma sat_success s message : may_return s = true -> sat I s (success message).
Proof. apply sat_log. Qed.

Lemma sat_error s message : may_exit s = true -> sat I s (error message true).
Proof.
  intros H. unfold error. apply sat_bind; [apply sat_log; reflexivity|].
  repeat (intros; sat_rule Hblind).
Qed.

Lemma sat_log_all s lines : may_return s = true -> sat I s (log_all lines).
Proof.
  intros H. induction lines as [|l lines IH]; cbn [log_all].
  - now apply sat_ret.
  - apply sat_bind; [apply sat_log; reflexivity|intros _; exact IH].
Qed.

Ltac go :=
  repeat (intros;
          lazymatch goal with
          | |- sat _ _ (log _ _) => apply sat_log; side
          | |- sat _ _ (success _) => apply sat_success; side
          | |- sat _ _ (error _ _) => apply sat_error; side
          | |- sat _ _ (log_all _) => apply sat_log_all; side
          | |- _ => sat_rule Hblind
          end).

Lemma sat_JSON_parse s text :
  may_return s = true -> may_throw s = true -> sat I s (JSON_parse text).
Proof. intros H1 H2. unfold JSON_parse. go. Qed.

Lemma sat_loadConfig : sat I PROMPT loadConfig.
Proof.
  intros this w Hi. unfold loadConfig.
  rewrite bind_get_this, bind_get_world, bind_existsSync.
  destruct (exists_in w _).
  - unfold try_catch, bind, readFileSync, JSON_parse, error, log, bind, get_this, put_this.
    destruct (read_in w _) as [e|text]; cbn.
    + split; [now apply (blind_console I Hblind)|now split].
    + destruct (parse text) as [v|]; cbn.
      * split; [apply (blind_console I Hblind); now apply Hconfig|reflexivity].
      * split; [now apply (blind_console I Hblind)|now split].
  - cbn. split; [apply (blind_console I Hblind); now apply Hconfig|reflexivity].
Qed.

Lemma sat_verbose_stdio s :
  may_return s = true -> may_throw s = true -> sat I s verbose_stdio.
Proof. intros H1 H2. unfold verbose_stdio. go. Qed.

Lemma sat_checkSystemDependencies : sat I SETTLED checkSystemDependencies.
Proof. unfold checkSystemDependencies. go. Qed.

Lemma sat_buildProject : sat I SETTLED buildProject.
Proof. unfold buildProject. go; try (apply sat_verbose_stdio; side); go. Qed.

Lemma sat_testNotionMcpServer : sat I PROMPT testNotionMcpServer.
Proof. unfold testNotionMcpServer. go. Qed.

Lemma sat_load_existing path : sat I FALLIBLE (load_existing path).
Proof. unfold load_existing. go; try (apply sat_JSON_parse; side); go. Qed.

Lemma sat_configureClaudeDesktop : sat I (Shape true true true false) configureClaudeDesktop.
Proof.
  unfold configureClaudeDesktop, join_under.
  go; try (apply (sat_le _ FALLIBLE); [reflexivity|apply sat_load_existing]); go.
Qed.

Lemma sat_configureClaudeCodeCLI : sat I HARMLESS configureClaudeCodeCLI.
Proof. unfold configureClaudeCodeCLI. go; try (apply sat_verbose_stdio; side); go. Qed.

Lemma sat_createClaudeConfig : sat I ANY createClaudeConfig.
Proof.
  unfold createClaudeConfig.
  apply sat_bind; [apply sat_log; reflexivity|intros _].
  apply sat_bind; intros.
  - apply (sat_le _ (Shape true true true false)); [reflexivity|].
    apply sat_configureClaudeDesktop.
  - apply (sat_le _ HARMLESS); [reflexivity|]. apply sat_configureClaudeCodeCLI.
Qed.

Lemma sat_install : sat I SETTLED install.
Proof.
  unfold install. apply (sat_try _ ANY); [|intros; apply sat_error; reflexivity|reflexivity].
  apply sat_bind; [apply sat_log; reflexivity|intros _].
  apply sat_bind; [apply (sat_le _ PROMPT); [reflexivity|apply sat_loadConfig]|intros _].
  apply sat_bind;
    [apply (sat_le _ SETTLED); [reflexivity|apply sat_checkSystemDependencies]|intros _].
  apply sat_bind; [apply (sat_le _ SETTLED); [reflexivity|apply sat_buildProject]|intros _].
  apply sat_bind;
    [apply (sat_le _ PROMPT); [reflexivity|apply sat_testNotionMcpServer]|intros _].
  apply sat_bind; [apply sat_createClaudeConfig|intros _].
  apply sat_bind; [apply sat_success; reflexivity|intros _].
  apply sat_log_all. reflexivity.
Qed.

End Methods.

(** ** The constructor *)

Definition config_dir (w : world) : option string :=
  let sep := path_sep (w_platform w) in
  if String.eqb (w_platform w) "win32" then
    Some (path_join sep [w_homedir w; "AppData"; "Roaming"; "Claude"])
  else if String.eqb (w_platform w) "darwin" then
    Some (path_join sep [w_homedir w; "Library"; "Application Support"; "Claude"])
  else if String.eqb (w_platform w) "linux" then
    Some (path_join sep [w_homedir w; ".config"; "claude"])
  else None.

(** The object the constructor builds on a supported platform. *)
Definition built (w : world) : installer :=
  mkInstaller (w_platform w) (path_dirname (path_sep (w_platform w)) (w_dirname w))
    JNull (config_dir w) (Some "[Notion MCP Installer]").

Lemma constructor_supported w dir :
  config_dir w = Some dir -> constructor blank w = (Ret tt, built w, w).
Proof.
  unfold config_dir, built, constructor, getClaudeConfigDir, config_dir.
  rewrite bind_get_world, bind_put_this.
  unfold bind at 1. unfold bind at 1. unfold get_this at 1. cbn [platform].
  unfold bind at 1. unfold get_world at 1. unfold sep_of. cbn [platform].
  destruct (String.eqb (w_platform w) "win32"); [reflexivity|].
  destruct (String.eqb (w_platform w) "darwin"); [reflexivity|].
  destruct (String.eqb (w_platform w) "linux"); [reflexivity|].
  discriminate.
Qed.

Lemma constructor_unsupported w :
  config_dir w = None -> (constructor blank w).1.1 = Exit 1%Z.
Proof.
  unfold config_dir, constructor, getClaudeConfigDir.
  rewrite bind_get_world, bind_put_this.
  unfold bind at 1. unfold bind at 1. unfold get_this at 1. cbn [platform].
  unfold bind at 1. unfold get_world at 1.
  destruct (String.eqb (w_platform w) "win32"); [discriminate|].
  destruct (String.eqb (w_platform w) "darwin"); [discriminate|].
  destruct (String.eqb (w_platform w) "linux"); [discriminate|].
  reflexivity.
Qed.

Lemma main_supported w dir :
  config_dir w = Some dir -> (main w).1 = exit_code (install (built w) w).1.1.
Proof.
  intros H. unfold main. rewrite (bind_Ret _ _ _ _ _ _ _ (constructor_supported w dir H)).
  now destruct (install (built w) w) as [[o t] w'].
Qed.

Lemma main_unsupported w : config_dir w = None -> (main w).1 = Some 1%Z.
Proof.
  intros H. unfold main. pose proof (constructor_unsupported w H) as Hc.
  unfold bind. destruct (constructor blank w) as [[o t] w']. cbn in Hc. now subst o.
Qed.

(** ** Steps that stop the installation *)

Definition STOPS : shape := Shape false false true true.

Section Fatal.
Variable I : installer -> world -> Prop.
Hypothesis Hblind : blind I.
Hypothesis Hconfig : forall t w c, I t w -> I (with_config c t) w.

Ltac go :=
  repeat (intros;
          lazymatch goal with
          | |- sat _ _ (log _ _) => apply sat_log; side
          | |- sat _ _ (success _) => apply sat_success; side
          | |- sat _ _ (error _ _) => apply sat_error; side
          | |- sat _ _ (log_all _) => apply sat_log_all; side
          | |- _ => sat_rule Hblind
          end).

(** The installation stops when one of its steps cannot return. *)
Lemma install_stops_at_checkSystemDependencies :
  sat I STOPS checkSystemDependencies -> sat I STOPS install.
Proof.
  intros H. unfold install.
  apply (sat_try _ (Shape false true true true));
    [|intros; now apply sat_error|reflexivity].
  apply sat_bind; [now apply sat_log|intros _].
  apply sat_bind;
    [apply (sat_le _ PROMPT); [reflexivity|now apply sat_loadConfig]|intros _].
  apply sat_bind_stuck; [reflexivity|].
  apply (sat_le _ STOPS); [reflexivity|exact H].
Qed.

Lemma install_stops_at_buildProject :
  sat I STOPS buildProject -> sat I STOPS install.
Proof.
  intros H. unfold install.
  apply (sat_try _ (Shape false true true true));
    [|intros; now apply sat_error|reflexivity].
  apply sat_bind; [now apply sat_log|intros _].
  apply sat_bind;
    [apply (sat_le _ PROMPT); [reflexivity|now apply sat_loadConfig]|intros _].
  apply sat_bind;
    [apply (sat_le _ SETTLED); [reflexivity|now apply sat_checkSystemDependencies]|intros _].
  apply sat_bind_stuck; [reflexivity|].
  apply (sat_le _ STOPS); [reflexivity|exact H].
Qed.

Lemma install_stops_at_configureClaudeDesktop :
  sat I (Shape false true true false) configureClaudeDesktop -> sat I STOPS install.
Proof.
  intros H. unfold install.
  apply (sat_try _ (Shape false true true true));
    [|intros; now apply sat_error|reflexivity].
  apply sat_bind; [now apply sat_log|intros _].
  apply sat_bind;
    [apply (sat_le _ PROMPT); [reflexivity|now apply sat_loadConfig]|intros _].
  apply sat_bind;
    [apply (sat_le _ SETTLED); [reflexivity|now apply sat_checkSystemDependencies]|intros _].
  apply sat_bind;
    [apply (sat_le _ SETTLED); [reflexivity|now apply sat_buildProject]|intros _].
  apply sat_bind;
    [apply (sat_le _ PROMPT); [reflexivity|now apply sat_testNotionMcpServer]|intros _].
  apply sat_bind_stuck; [reflexivity|].
  unfold createClaudeConfig.
  apply sat_bind; [now apply sat_log|intros _].
  apply sat_bind_stuck; [reflexivity|].
  apply (sat_le _ (Shape false true true false)); [reflexivity|exact H].
Qed.

(** A missing runtime. *)
Lemma checkSystemDependencies_without_node :
  (forall t w, I t w -> fails (w_procs w !! "node --version") = true) ->
  sat I EXITS checkSystemDependencies.
Proof.
  intros Hf. unfold checkSystemDependencies.
  apply sat_bind; [now apply sat_log|intros _].
  apply sat_bind_stuck; [reflexivity|].
  apply (sat_try _ THROWS); [|intros; now apply sat_error|reflexivity].
  apply sat_bind_stuck; [reflexivity|].
  now apply sat_execSync_fails.
Qed.

(** A build that fails. *)
Lemma buildProject_failing :
  (forall t w, I t w -> fails (w_procs w !! "npm run build") = true) ->
  sat I STOPS buildProject.
Proof.
  intros Hf. unfold buildProject.
  apply sat_bind; [now apply sat_log|intros _].
  apply (sat_try _ (Shape false true false true)); [|intros; now apply sat_error|reflexivity].
  apply sat_bind_get_this. intros this _.
  apply sat_bind; [now apply sat_log|intros _].
  apply sat_bind; [now apply sat_verbose_stdio|intros mode].
  apply sat_bind; [apply sat_execSync; [assumption|now destruct mode]|intros _].
  apply sat_bind; [now apply sat_log|intros _].
  apply sat_bind; [now apply sat_verbose_stdio|intros mode'].
  apply sat_bind_stuck; [reflexivity|].
  apply (sat_le _ THROWS); [reflexivity|]. now apply sat_execSync_fails.
Qed.

(** An installation of the dependencies that fails. *)
Lemma buildProject_install_failing :
  (forall t w, I t w -> fails (w_procs w !! "npm install") = true) ->
  sat I STOPS buildProject.
Proof.
  intros Hf. unfold buildProject.
  apply sat_bind; [now apply sat_log|intros _].
  apply (sat_try _ (Shape false true false true)); [|intros; now apply sat_error|reflexivity].
  apply sat_bind_get_this. intros this _.
  apply sat_bind; [now apply sat_log|intros _].
  apply sat_bind; [now apply sat_verbose_stdio|intros mode].
  apply sat_bind_stuck; [reflexivity|].
  apply (sat_le _ THROWS); [reflexivity|]. now apply sat_execSync_fails.
Qed.

End Fatal.

End InstallerShapes.

(** * The exit code of the installer *)

Module InstallerExit.
Import JSON JS Runtime Installer RuntimeFacts Shapes InstallerShapes.
Local Open Scope js_scope.

Definition PREFIX : option string := Some "[Notion MCP Installer]".

(** What the installer prints last when every step went through. *)
Definition completion_lines : list string :=
  line good PREFIX "Installation completed successfully!"
  :: map (line info PREFIX) closing_lines.

Definition trivial (_ : installer) (_ : world) : Prop := True.

Lemma blind_trivial : blind trivial.
Proof. now intros t w c f n l _. Qed.

(** The object keeps its log prefix. *)
Definition prefixed (t : installer) (_ : world) : Prop := logPrefix t = PREFIX.

Lemma blind_prefixed : blind prefixed.
Proof. now intros t w c f n l H. Qed.

Lemma prefixed_config t w c : prefixed t w -> prefixed (with_config c t) w.
Proof. now intros H. Qed.

(** The runtime cannot be started. *)
Definition without_node (_ : installer) (w : world) : Prop :=
  fails (w_procs w !! "node --version") = true.

Lemma blind_without_node : blind without_node.
Proof. now intros t w c f n l H. Qed.

(** The build ends with a failure. *)
Definition build_fails (_ : installer) (w : world) : Prop :=
  fails (w_procs w !! "npm run build") = true.

Lemma blind_build_fails : blind build_fails.
Proof. now intros t w c f n l H. Qed.

(** The installation of the dependencies ends with a failure. *)
Definition install_fails (_ : installer) (w : world) : Prop :=
  fails (w_procs w !! "npm install") = true.

Lemma blind_install_fails : blind install_fails.
Proof. now intros t w c f n l H. Qed.

(** The file of the desktop application under the directory [dir]. *)
Definition desktop_file (platform dir : string) : string :=
  path_join (path_sep platform) [dir; "claude_desktop_config.json"].

(** The file of the desktop application cannot be written. *)
Definition write_denied (plat dir : string) (t : installer) (w : world) : Prop :=
  platform t = plat /\ claudeConfigDir t = Some dir /\
  bool_decide (desktop_file plat dir ∈ w_locked w) = true.

Lemma blind_write_denied plat dir : blind (write_denied plat dir).
Proof. now intros t w c f n l H. Qed.

Lemma write_denied_config plat dir t w c :
  write_denied plat dir t w -> write_denied plat dir (with_config c t) w.
Proof. now intros H. Qed.

Lemma configureClaudeDesktop_denied plat dir :
  sat (write_denied plat dir) (Shape false true true false) configureClaudeDesktop.
Proof.
  pose proof (blind_write_denied plat dir) as Hblind.
  assert (Hlog : forall s m ty, may_return s = true -> sat (write_denied plat dir) s (log m ty)).
  { intros. now apply sat_log. }
  unfold configureClaudeDesktop.
  apply sat_bind; [now apply Hlog|intros _].
  apply sat_bind_get_this. intros this [w0 (Hp & Hd & Hl)]. rewrite Hd. cbn [join_under].
  apply sat_bind; [now apply sat_existsSync|intros present].
  apply sat_bind.
  { destruct (negb present); [|now apply sat_ret].
    apply sat_bind; [now apply sat_mkdirSync|intros _]. now apply Hlog. }
  intros _. apply sat_bind_ret.
  apply sat_bind; [now apply sat_existsSync|intros present'].
  apply sat_bind.
  { destruct present'; [|now apply sat_ret].
    apply (sat_try _ FALLIBLE); [now apply sat_load_existing| |reflexivity].
    intros e. apply sat_bind; [now apply Hlog|intros _]. now apply sat_ret. }
  intros claudeConfig.
  apply sat_bind; [now apply sat_lift|intros token].
  apply sat_bind; [now apply sat_lift|intros claudeConfig'].
  apply (sat_try _ THROWS); [|intros; now apply sat_error|reflexivity].
  apply sat_bind_stuck; [reflexivity|].
  apply sat_writeFileSync_locked. intros t w (Hp' & Hd' & Hl').
  unfold sep_of. rewrite Hp. exact Hl'.
Qed.

Lemma log_all_run lines t w :
  log_all lines t w =
  (Ret tt, t, set_console (w_console w ++ map (line info (logPrefix t)) lines) w).
Proof.
  revert w. induction lines as [|l lines IH]; intros w; cbn [log_all map].
  - rewrite app_nil_r. now destruct w.
  - rewrite DesktopFacts.bind_log, IH. unfold DesktopFacts.said, DesktopFacts.say.
    destruct w; cbn. now rewrite <- app_assoc.
Qed.

(** Where a step that returned leaves the object, the prefix is the
    same. *)
Lemma keeps_prefix {A} s (m : M installer A) t w a t' w' :
  sat prefixed s m -> prefixed t w -> m t w = (Ret a, t', w') -> prefixed t' w'.
Proof. intros Hs Hi E. destruct (Hs t w Hi) as [H _]. now rewrite E in H. Qed.

(** [install] returns only after the closing lines. *)
Lemma install_returns t w t' w' :
  logPrefix t = PREFIX -> install t w = (Ret tt, t', w') ->
  exists before, w_console w' = before ++ completion_lines.
Proof.
  intros Hp E. unfold install in E.
  apply try_Ret_inv in E as [E|(e & t1 & w1 & _ & E)].
  2:{ unfold error, log in E. cbn in E. discriminate. }
  pose proof blind_prefixed as Hb. pose proof prefixed_config as Hc.
  apply bind_Ret_inv in E as (? & t1 & w1 & E1 & E).
  apply (keeps_prefix RETURNS) in E1; [|now apply sat_log|exact Hp].
  apply bind_Ret_inv in E as (? & t2 & w2 & E2 & E).
  apply (keeps_prefix PROMPT) in E2; [|now apply sat_loadConfig|exact E1].
  apply bind_Ret_inv in E as (? & t3 & w3 & E3 & E).
  apply (keeps_prefix SETTLED) in E3; [|now apply sat_checkSystemDependencies|exact E2].
  apply bind_Ret_inv in E as (? & t4 & w4 & E4 & E).
  apply (keeps_prefix SETTLED) in E4; [|now apply sat_buildProject|exact E3].
  apply bind_Ret_inv in E as (? & t5 & w5 & E5 & E).
  apply (keeps_prefix PROMPT) in E5; [|now apply sat_testNotionMcpServer|exact E4].
  apply bind_Ret_inv in E as (? & t6 & w6 & E6 & E).
  apply (keeps_prefix ANY) in E6; [|now apply sat_createClaudeConfig|exact E5].
  unfold success in E. rewrite DesktopFacts.bind_log, log_all_run in E.
  unfold DesktopFacts.said, DesktopFacts.say in E. injection E as <- <-.
  exists (w_console w6). unfold prefixed in E6. rewrite E6.
  destruct w6; cbn. now rewrite <- app_assoc.
Qed.

(** ** The script as a whole *)

Lemma main_run w dir :
  config_dir w = Some dir ->
  main w = (exit_code (install (built w) w).1.1, (install (built w) w).2).
Proof.
  intros H. unfold main. rewrite (bind_Ret _ _ _ _ _ _ _ (constructor_supported w dir H)).
  now destruct (install (built w) w) as [[o t] w'].
Qed.

Lemma main_codes w :
  (main w).1 = Some 0%Z \/ (main w).1 = Some 1%Z \/ (main w).1 = None.
Proof.
  destruct (config_dir w) as [dir|] eqn:Hd.
  - rewrite (main_run w dir Hd). cbn [fst].
    destruct (sat_install trivial blind_trivial (fun _ _ _ H => H) (built w) w Logic.I)
      as [_ Ha].
    destruct (install (built w) w) as [[[[]|e|c|] t] w']; cbn in *; auto.
    destruct Ha as [_ ->]. auto.
  - right. left. now apply main_unsupported.
Qed.

Lemma main_zero w :
  (main w).1 = Some 0%Z -> exists before, w_console (main w).2 = before ++ completion_lines.
Proof.
  destruct (config_dir w) as [dir|] eqn:Hd.
  - rewrite (main_run w dir Hd). cbn [fst snd].
    destruct (sat_install trivial blind_trivial (fun _ _ _ H => H) (built w) w Logic.I)
      as [_ Ha].
    destruct (install (built w) w) as [[[[]|e|c|] t] w'] eqn:E; cbn in *;
      try easy.
    + intros _. now apply (install_returns (built w) w t w').
    + destruct Ha as [_ ->]. easy.
  - rewrite (main_unsupported w Hd). easy.
Qed.

Lemma install_without_node : sat without_node EXITS install.
Proof.
  pose proof blind_without_node as Hb.
  assert (Hc : forall t w c, without_node t w -> without_node (with_config c t) w)
    by now intros.
  unfold install.
  apply (sat_try _ (Shape false true true false));
    [|intros; now apply sat_error|reflexivity].
  apply sat_bind; [now apply sat_log|intros _].
  apply sat_bind;
    [apply (sat_le _ PROMPT); [reflexivity|now apply sat_loadConfig]|intros _].
  apply sat_bind_stuck; [reflexivity|].
  apply (sat_le _ EXITS); [reflexivity|].
  now apply checkSystemDependencies_without_node.
Qed.

Lemma main_without_node w :
  fails (w_procs w !! "node --version") = true -> (main w).1 = Some 1%Z.
Proof.
  intros Hf. destruct (config_dir w) as [dir|] eqn:Hd; [|now apply main_unsupported].
  rewrite (main_run w dir Hd). cbn [fst].
  destruct (install_without_node (built w) w Hf) as [_ Ha].
  destruct (install (built w) w) as [[[[]|e|c|] t] w']; cbn in *; try easy.
  now destruct Ha as [_ ->].
Qed.

(** A run that cannot return does not end with code 0. *)
Lemma main_stopped (I : installer -> world -> Prop) w :
  sat I STOPS install -> I (built w) w -> (main w).1 <> Some 0%Z.
Proof.
  intros Hs Hi. destruct (config_dir w) as [dir|] eqn:Hd.
  - rewrite (main_run w dir Hd). cbn [fst].
    destruct (Hs (built w) w Hi) as [_ Ha].
    destruct (install (built w) w) as [[[[]|e|c|] t] w']; cbn in *; try easy.
    now destruct Ha as [_ ->].
  - now rewrite (main_unsupported w Hd).
Qed.

Lemma main_build_fails w :
  fails (w_procs w !! "npm run build") = true -> (main w).1 <> Some 0%Z.
Proof.
  intros Hf. apply (main_stopped build_fails); [|exact Hf].
  apply install_stops_at_buildProject; [exact blind_build_fails|now intros|].
  apply buildProject_failing; [exact blind_build_fails|now intros].
Qed.

Lemma main_install_fails w :
  fails (w_procs w !! "npm install") = true -> (main w).1 <> Some 0%Z.
Proof.
  intros Hf. apply (main_stopped install_fails); [|exact Hf].
  apply install_stops_at_buildProject; [exact blind_install_fails|now intros|].
  apply buildProject_install_failing; [exact blind_install_fails|now intros].
Qed.

Lemma main_write_denied w dir :
  config_dir w = Some dir ->
  bool_decide (desktop_file (w_platform w) dir ∈ w_locked w) = true ->
  (main w).1 <> Some 0%Z.
Proof.
  intros Hd Hl. apply (main_stopped (write_denied (w_platform w) dir)).
  - apply install_stops_at_configureClaudeDesktop;
      [apply blind_write_denied|apply write_denied_config|].
    apply configureClaudeDesktop_denied.
  - now split.
Qed.

End InstallerExit.

(** * The exit code of the verifier *)

Module VerifierExit.
Import JSON JS Runtime Verifier RuntimeFacts Shapes.
Local Open Scope js_scope.

(** Returning or hanging. *)
Definition CALM : shape := Shape true false false true.

(** The object is one the constructor built: it has its directory. *)
Definition constructed (dir : string) (t : verifier) (_ : world) : Prop :=
  claudeConfigDir t = Some dir.

Lemma blind_constructed dir : blind (constructed dir).
Proof. now intros t w c f n l H. Qed.

(** ** The checks, for an invariant that does not look at the errors and
    the warnings of the object *)

Section Checks.
Variable I : verifier -> world -> Prop.
Hypothesis Hblind : blind I.
Hypothesis Herrors : forall t w e, I t w -> I (with_errors e t) w.
Hypothesis Hwarnings : forall t w l, I t w -> I (with_warnings l t) w.

Lemma sat_verifier_log s message type : may_return s = true -> sat I s (log message type).
Proof. intros H. unfold log. repeat (intros; sat_rule Hblind). Qed.

Lemma sat_verifier_success s message : may_return s = true -> sat I s (success message).
Proof. apply sat_verifier_log. Qed.

Lemma sat_verifier_error s message : may_return s = true -> sat I s (error message).
Proof.
  intros H t w Hi. split; [|exact H]. cbn.
  apply (blind_console I Hblind). now apply Herrors.
Qed.

Lemma sat_verifier_warning s message : may_return s = true -> sat I s (warning message).
Proof.
  intros H t w Hi. split; [|exact H]. cbn.
  apply (blind_console I Hblind). now apply Hwarnings.
Qed.

Lemma sat_verifier_log_all s lines : may_return s = true -> sat I s (log_all lines).
Proof.
  intros H. induction lines as [|l lines IH]; cbn [log_all].
  - now apply sat_ret.
  - apply sat_bind; [apply sat_verifier_log; reflexivity|intros _; exact IH].
Qed.

Ltac step :=
  repeat (intros;
          lazymatch goal with
          | |- sat _ _ (log _ _) => apply sat_verifier_log; side
          | |- sat _ _ (success _) => apply sat_verifier_success; side
          | |- sat _ _ (error _) => apply sat_verifier_error; side
          | |- sat _ _ (warning _) => apply sat_verifier_warning; side
          | |- sat _ _ (log_all _) => apply sat_verifier_log_all; side
          | |- _ => sat_rule Hblind
          end).

Lemma sat_verifier_JSON_parse s text :
  may_return s = true -> may_throw s = true -> sat I s (JSON_parse text).
Proof. intros H1 H2. unfold JSON_parse. step. Qed.

Lemma sat_verifier_checkSystemDependencies : sat I CALM checkSystemDependencies.
Proof. unfold checkSystemDependencies. step. Qed.

Lemma sat_checkProjectBuild : sat I RETURNS checkProjectBuild.
Proof. unfold checkProjectBuild. step. Qed.

Lemma sat_checkClaudeCodeCLI : sat I CALM checkClaudeCodeCLI.
Proof. unfold checkClaudeCodeCLI. step. Qed.

(** The two checks that read the file of the desktop application need
    the directory: [path.join] throws without it. *)
Variable dir : string.
Hypothesis Hdir : forall t w, I t w -> claudeConfigDir t = Some dir.

Lemma sat_config_path s this :
  may_return s = true -> (exists w, I this w) -> sat I s (config_path this).
Proof.
  intros H [w Hi]. unfold config_path. rewrite (Hdir this w Hi). now apply sat_ret.
Qed.

Lemma sat_checkClaudeDesktopConfig : sat I RETURNS checkClaudeDesktopConfig.
Proof.
  unfold checkClaudeDesktopConfig.
  apply sat_bind; [now apply sat_verifier_log|intros _].
  apply sat_bind_get_this. intros this Hi.
  apply sat_bind; [now apply sat_config_path|intros configPath].
  step; try (apply sat_verifier_JSON_parse; side); step.
Qed.

Lemma sat_checkNotionIntegration : sat I RETURNS checkNotionIntegration.
Proof.
  unfold checkNotionIntegration.
  apply sat_bind; [now apply sat_verifier_log|intros _].
  apply sat_bind; [now apply sat_get_world|intros w].
  apply sat_bind; [step|intros _].
  apply sat_bind_get_this. intros this Hi.
  apply sat_bind; [now apply sat_config_path|intros configPath].
  step; try (apply sat_verifier_JSON_parse; side); step.
Qed.

End Checks.

(** ** The summary *)

Lemma verifier_bind_log {B} (message : string) (type : level) (k : unit -> M verifier B) this w :
  bind (log message type) k this w =
  k tt this (set_console (w_console w ++ [line type (logPrefix this) message]) w).
Proof. reflexivity. Qed.

Definition items_of (this : verifier) (items : list string) : list string :=
  map (fun x => line info (logPrefix this) ("   - " +:+ x)) items.

Lemma list_all_run items this w :
  list_all items this w =
  (Ret tt, this, set_console (w_console w ++ items_of this items) w).
Proof.
  revert w. induction items as [|x items IH]; intros w; cbn [list_all items_of map].
  - rewrite app_nil_r. now destruct w.
  - rewrite verifier_bind_log, IH. destruct w; cbn. now rewrite <- app_assoc.
Qed.

Lemma bind_list_all {B} items (k : unit -> M verifier B) this w :
  bind (list_all items) k this w =
  k tt this (set_console (w_console w ++ items_of this items) w).
Proof. unfold bind at 1. now rewrite list_all_run. Qed.

(** How a run of [verify] may end, given the errors the object holds
    at the end. *)
Definition verdict (o : outcome unit) (this : verifier) (_ : world) : Prop :=
  match o with
  | Ret _ => errors this = []
  | Exit code => code = 1%Z /\ errors this <> []
  | Throw _ => False
  | Hang => True
  end.

Lemma verify_verdict dir : ends (constructed dir) verdict verify.
Proof.
  pose proof (blind_constructed dir) as Hb.
  assert (He : forall t w e, constructed dir t w -> constructed dir (with_errors e t) w)
    by now intros.
  assert (Hw : forall t w l, constructed dir t w -> constructed dir (with_warnings l t) w)
    by now intros.
  assert (Hd : forall t w, constructed dir t w -> claudeConfigDir t = Some dir)
    by now intros.
  assert (Hlog : forall m ty, sat (constructed dir) CALM (log m ty)).
  { intros. now apply sat_verifier_log. }
  assert (Hle : forall A (m : M verifier A),
             sat (constructed dir) RETURNS m -> sat (constructed dir) CALM m).
  { intros A m. now apply sat_le. }
  unfold verify.
  apply ends_bind; [apply Hlog|easy|intros _].
  apply ends_bind; [apply Hlog|easy|intros _].
  apply ends_bind; [now apply sat_verifier_checkSystemDependencies|easy|intros _].
  apply ends_bind; [apply Hlog|easy|intros _].
  apply ends_bind; [apply Hle; now apply sat_checkProjectBuild|easy|intros _].
  apply ends_bind; [apply Hlog|easy|intros _].
  apply ends_bind;
    [apply Hle; eapply sat_checkClaudeDesktopConfig; eassumption|easy|intros _].
  apply ends_bind; [apply Hlog|easy|intros _].
  apply ends_bind; [now apply sat_checkClaudeCodeCLI|easy|intros _].
  apply ends_bind; [apply Hlog|easy|intros _].
  apply ends_bind;
    [apply Hle; eapply sat_checkNotionIntegration; eassumption|easy|intros _].
  apply ends_bind; [apply Hlog|easy|intros _].
  apply ends_bind; [apply Hlog|easy|intros _].
  apply ends_bind; [apply Hlog|easy|intros _].
  apply ends_bind; [apply Hlog|easy|intros _].
  intros this w _. rewrite bind_get_this.
  repeat case_bool_decide; cbn [andb negb]; unfold success;
    repeat first [rewrite bind_assoc | rewrite bind_ret | rewrite verifier_bind_log
                 | rewrite bind_list_all];
    cbn; easy.
Qed.

(** ** The script as a whole *)

Definition config_dir (w : world) : option string :=
  let sep := path_sep (w_platform w) in
  if String.eqb (w_platform w) "win32" then
    Some (path_join sep [w_homedir w; "AppData"; "Roaming"; "Claude"])
  else if String.eqb (w_platform w) "darwin" then
    Some (path_join sep [w_homedir w; "Library"; "Application Support"; "Claude"])
  else if String.eqb (w_platform w) "linux" then
    Some (path_join sep [w_homedir w; ".config"; "claude"])
  else None.

(** The object the constructor builds on a supported platform. *)
Definition built (w : world) : verifier :=
  mkVerifier (w_platform w) (path_dirname (path_sep (w_platform w)) (w_dirname w))
    (config_dir w) (Some "[Notion MCP Verifier]") [] [].

Lemma verifier_constructor_supported w dir :
  config_dir w = Some dir -> constructor blank w = (Ret tt, built w, w).
Proof.
  unfold config_dir, built, constructor, getClaudeConfigDir, config_dir.
  rewrite bind_get_world, bind_put_this.
  unfold bind at 1. unfold bind at 1. unfold get_this at 1. cbn [platform].
  unfold bind at 1. unfold get_world at 1. unfold sep_of. cbn [platform].
  destruct (String.eqb (w_platform w) "win32"); [reflexivity|].
  destruct (String.eqb (w_platform w) "darwin"); [reflexivity|].
  destruct (String.eqb (w_platform w) "linux"); [reflexivity|].
  discriminate.
Qed.

(** On any other platform the constructor throws, and the exception ends
    the process. *)
Lemma verifier_main_unsupported w : config_dir w = None -> (main w).1 = Some 1%Z.
Proof.
  unfold config_dir, main, constructor, getClaudeConfigDir.
  rewrite bind_assoc, bind_get_world, bind_assoc, bind_put_this.
  rewrite !bind_assoc, bind_get_this, bind_assoc, bind_get_world.
  cbn [platform].
  destruct (String.eqb (w_platform w) "win32"); [discriminate|].
  destruct (String.eqb (w_platform w) "darwin"); [discriminate|].
  destruct (String.eqb (w_platform w) "linux"); [discriminate|].
  reflexivity.
Qed.

Lemma verifier_main_run w dir :
  config_dir w = Some dir ->
  main w = (exit_code (verify (built w) w).1.1, (verify (built w) w).2).
Proof.
  intros H. unfold main.
  rewrite (bind_Ret _ _ _ _ _ _ _ (verifier_constructor_supported w dir H)).
  now destruct (verify (built w) w) as [[o t] w'].
Qed.

Lemma verifier_main_verdict w dir :
  config_dir w = Some dir ->
  let code := (main w).1 in
  let final := (verify (built w) w).1.2 in
  (code = Some 0%Z \/ code = Some 1%Z \/ code = None) /\
  (code = Some 0%Z -> errors final = []) /\
  (code = Some 1%Z -> errors final <> []).
Proof.
  intros Hd. cbv zeta. rewrite (verifier_main_run w dir Hd). cbn [fst].
  pose proof (verify_verdict dir (built w) w Hd) as Hv.
  destruct (verify (built w) w) as [[[[]|e|c|] t] w']; cbn in *; try easy.
  - repeat split; auto.
  - destruct Hv as [-> Hv]. repeat split; auto. easy.
  - repeat split; auto; easy.
Qed.

End VerifierExit.

(** * Exit codes of the two scripts *)

Module ExitCodes.
Import JSON JS Runtime RuntimeFacts Shapes.

(** A machine on which every step of the installer goes through: the
    runtime and the package manager answer, the build leaves the CLI
    binary, and the binary prints its usage. *)
Definition ready_procs : gmap string proc :=
  {[ "node --version" := Succeeds 5 ("v18.1.0" +:+ String LF "") [];
     "npm --version" := Succeeds 5 "9.0.0" [];
     "npm install" := Succeeds 900 "" [("/repo/node_modules", "")];
     "npm run build" := Succeeds 800 "" [("/repo/bin/cli.mjs", "#!/usr/bin/env node")];
     "node " +:+ Installer.quoted "/repo/bin/cli.mjs" +:+ " --help" :=
       Succeeds 40 "Usage: notion-mcp-server [options]" [] ]}.

Definition world_ready : world :=
  World "linux" "/home/u" "/repo/scripts" ["node"; "/repo/scripts/install.cjs"] ∅
    ∅ ∅ ∅ ready_procs 1700000000000 [] [].

(** The same machine after the build, with no desktop configuration and
    no [claude] command: the verifier has warnings and no error. *)
Definition world_built : world :=
  World "linux" "/home/u" "/repo/scripts" ["node"; "/repo/scripts/verify.cjs"] ∅
    {[ "/repo/node_modules" := Dir; "/repo/bin/cli.mjs" := File "#!/usr/bin/env node" ]}
    ∅ ∅ ready_procs 1700000000000 [] [].

End ExitCodes.

(** * The check of the runtime and of the package manager *)

Module DependencyFacts.
Import JSON JS Runtime RuntimeFacts JSONFacts Shapes.

(** ** The number read from a version string *)

(** The digits of [d], read from the left after [acc]. *)
Fixpoint value_after (d : uint) (acc : N) : N :=
  match d with
  | Nil => acc
  | D0 d => value_after d (acc * 10 + 0)
  | D1 d => value_after d (acc * 10 + 1)
  | D2 d => value_after d (acc * 10 + 2)
  | D3 d => value_after d (acc * 10 + 3)
  | D4 d => value_after d (acc * 10 + 4)
  | D5 d => value_after d (acc * 10 + 5)
  | D6 d => value_after d (acc * 10 + 6)
  | D7 d => value_after d (acc * 10 + 7)
  | D8 d => value_after d (acc * 10 + 8)
  | D9 d => value_after d (acc * 10 + 9)
  end%N.

Lemma read_digits_uint d acc :
  read_digits 10 (string_of_uint d) acc true = Some (value_after d acc).
Proof.
  revert acc.
  induction d; intros acc; cbn [string_of_uint value_after];
    try (cbn [read_digits]; exact (IHd _)).
  reflexivity.
Qed.

Lemma usize_rev_value d acc :
  value_after d acc =
  (acc * 10 ^ DecimalPos.Unsigned.usize d + DecimalPos.Unsigned.of_lu (Decimal.rev d))%N.
Proof.
  revert acc.
  induction d; intros acc; cbn [value_after DecimalPos.Unsigned.usize];
    try (rewrite IHd; unfold Decimal.rev; cbn [revapp];
         rewrite !DecimalPos.Unsigned.of_lu_revapp; cbn [DecimalPos.Unsigned.of_lu];
         rewrite N.pow_succ_r'; lia).
  cbn. lia.
Qed.

Lemma value_after_to_uint n : value_after (N.to_uint n) 0 = n.
Proof.
  rewrite usize_rev_value, <- DecimalPos.Unsigned.of_uint_alt.
  change (Pos.of_uint (N.to_uint n)) with (N.of_uint (N.to_uint n)).
  rewrite DecimalN.Unsigned.of_to. lia.
Qed.

Lemma hd_split_other c a r :
  Ascii.eqb a c = false -> hd "" (split c (String a r)) = String a (hd "" (split c r)).
Proof. intros H. cbn [split]. rewrite H. now destruct (split c r). Qed.

Lemma hd_split_uint d rest :
  hd "" (split "."%char (string_of_uint d +:+ String "."%char rest)) = string_of_uint d.
Proof.
  induction d; cbn [string_of_uint]; rewrite ?append_cons;
    try (rewrite hd_split_other; [now rewrite IHd|reflexivity]).
  reflexivity.
Qed.

Ltac digits :=
  repeat match goal with
         | |- context [digit_value 10 ?c] =>
             let v := eval vm_compute in (digit_value 10 c) in
             change (digit_value 10 c) with v
         end;
  cbv beta iota.

Lemma parseInt_uint d :
  d <> Nil -> parseInt (string_of_uint d) = Some (Z.of_N (value_after d 0)).
Proof.
  intros Hd. destruct d as [|d|d|d|d|d|d|d|d|d|d]; [congruence|..];
    try (unfold parseInt; cbn; digits; now rewrite read_digits_uint).
  destruct d; unfold parseInt; cbn; digits; try reflexivity; now rewrite read_digits_uint.
Qed.

Lemma to_uint_not_Nil n : N.to_uint n <> Nil.
Proof.
  destruct n as [|p]; [discriminate|]. apply DecimalPos.Unsigned.to_uint_nonnil.
Qed.

(** A version string of the usual form [vMAJOR.rest]. *)
Definition version_string (major : N) (rest : string) : string :=
  "v" +:+ string_of_uint (N.to_uint major) +:+ "." +:+ rest.

Lemma versionNum_version_string major rest :
  versionNum (version_string major rest) = Some (Z.of_N major).
Proof.
  unfold versionNum, version_string. rewrite !append_cons, !append_nil_l.
  cbn [remove_first]. change (Ascii.eqb "v" "v") with true. cbv iota.
  rewrite hd_split_uint, parseInt_uint by apply to_uint_not_Nil.
  now rewrite value_after_to_uint.
Qed.

Lemma lt_number_version_string major rest :
  lt_number (versionNum (version_string major rest)) 16 = (major <? 16)%N.
Proof.
  rewrite versionNum_version_string. cbn [lt_number].
  destruct (N.ltb_spec major 16); [apply Z.ltb_lt|apply Z.ltb_ge]; lia.
Qed.

(** ** The check of the installer *)

Section InstallerCheck.
Import Installer.
Variable this : installer.
Variable w : world.

Definition installer_says (type : level) (message : string) : string :=
  line type (logPrefix this) message.

(** A runtime that answers with a version below 16. *)
Lemma installer_old_runtime ms out writes :
  w_procs w !! "node --version" = Some (Succeeds ms out writes) ->
  lt_number (versionNum (trim out)) 16 = true ->
  (checkSystemDependencies this w).1 = (Exit 1%Z, this) /\
  w_console (checkSystemDependencies this w).2 =
    w_console w ++
    [installer_says info "Checking system dependencies...";
     installer_says info ("Node.js version: " +:+ trim out +:+ " ✓");
     installer_says failure "Node.js version 16 or higher is required"].
Proof.
  intros Hp Hlt.
  cbv [checkSystemDependencies bind try_catch log error success get_this console_log
       process_exit ret].
  rewrite (execSync_succeeds "node --version" plain_options ms out writes this
             (set_console _ w) Hp eq_refl).
  rewrite Hlt. cbn. rewrite <- !app_assoc. now split.
Qed.

(** A runtime that cannot be started. *)
Lemma installer_without_node :
  fails (w_procs w !! "node --version") = true ->
  (checkSystemDependencies this w).1 = (Exit 1%Z, this) /\
  w_console (checkSystemDependencies this w).2 =
    w_console w ++
    [installer_says info "Checking system dependencies...";
     installer_says failure "Node.js is not installed or not in PATH"].
Proof.
  intros Hf.
  cbv [checkSystemDependencies bind try_catch log error success get_this console_log
       process_exit ret execSync run_proc plain_options timeout].
  cbn [w_procs set_console set_calls].
  destruct (w_procs w !! "node --version") as [[ms out writes|ms err|]|];
    try discriminate Hf; cbn; rewrite <- !app_assoc; now split.
Qed.

(** A package manager that cannot be started, after a runtime that
    passed. *)
Lemma installer_without_npm ms out writes :
  w_procs w !! "node --version" = Some (Succeeds ms out writes) ->
  lt_number (versionNum (trim out)) 16 = false ->
  fails (w_procs w !! "npm --version") = true ->
  (checkSystemDependencies this w).1 = (Exit 1%Z, this) /\
  w_console (checkSystemDependencies this w).2 =
    w_console w ++
    [installer_says info "Checking system dependencies...";
     installer_says info ("Node.js version: " +:+ trim out +:+ " ✓");
     installer_says failure "npm is not installed or not in PATH"].
Proof.
  intros Hp Hlt Hf.
  cbv [checkSystemDependencies bind try_catch log error success get_this console_log
       process_exit ret].
  rewrite (execSync_succeeds "node --version" plain_options ms out writes this
             (set_console _ w) Hp eq_refl).
  rewrite Hlt. cbv [execSync run_proc plain_options timeout].
  cbn [w_procs set_console set_calls set_fs set_now advance called].
  destruct (w_procs w !! "npm --version") as [[ms' out' writes'|ms' err|]|];
    try discriminate Hf; cbn; rewrite <- !app_assoc; now split.
Qed.

End InstallerCheck.

(** ** The check of the verifier *)

Section VerifierCheck.
Import Verifier.
Variable this : verifier.
Variable w : world.

Definition verifier_says (type : level) (message : string) : string :=
  line type (logPrefix this) message.

(** What the check of the package manager may add. *)
Definition npm_error (more : list string) : Prop :=
  more = [] \/ more = ["npm is not installed or not in PATH"].

(** A runtime that answers with a version below 16: the error is
    recorded, nothing ends, and the package manager is checked next. *)
Lemma verifier_old_runtime ms out writes :
  w_procs w !! "node --version" = Some (Succeeds ms out writes) ->
  lt_number (versionNum (trim out)) 16 = true ->
  let '(o, this', w') := checkSystemDependencies this w in
  (o = Ret tt \/ o = Hang) /\
  (exists more,
     npm_error more /\
     errors this' = errors this ++ "Node.js version 16 or higher is required" :: more) /\
  warnings this' = warnings this /\
  exists more,
    w_console w' =
      w_console w ++
      [verifier_says info "Checking system dependencies...";
       verifier_says good ("Node.js version: " +:+ trim out);
       verifier_says failure "Node.js version 16 or higher is required"] ++ more.
Proof.
  intros Hp Hlt.
  cbv [checkSystemDependencies bind try_catch log error success get_this put_this
       console_log ret].
  rewrite (execSync_succeeds "node --version" plain_options ms out writes this
             (set_console _ w) Hp eq_refl).
  rewrite Hlt. cbv [execSync run_proc plain_options timeout].
  cbn [w_procs set_console set_calls set_fs set_now advance called].
  destruct (w_procs w !! "npm --version") as [[ms' out' writes'|ms' err|]|]; cbn;
    rewrite <- ?app_assoc; cbn [app];
    (split; [auto|split; [eexists; split; [|reflexivity]; unfold npm_error; auto|]]);
    (split; [reflexivity|eexists; reflexivity]).
Qed.

(** A runtime that cannot be started. *)
Lemma verifier_without_node :
  fails (w_procs w !! "node --version") = true ->
  let '(o, this', w') := checkSystemDependencies this w in
  (o = Ret tt \/ o = Hang) /\
  (exists more,
     npm_error more /\
     errors this' = errors this ++ "Node.js is not installed or not in PATH" :: more) /\
  warnings this' = warnings this /\
  exists more,
    w_console w' =
      w_console w ++
      [verifier_says info "Checking system dependencies...";
       verifier_says failure "Node.js is not installed or not in PATH"] ++ more.
Proof.
  intros Hf.
  cbv [checkSystemDependencies bind try_catch log error success get_this put_this
       console_log ret execSync run_proc plain_options timeout].
  cbn [w_procs set_console set_calls set_fs set_now advance called].
  destruct (w_procs w !! "node --version") as [[ms out writes|ms err|]|];
    try discriminate Hf; cbn;
    destruct (w_procs w !! "npm --version") as [[ms' out' writes'|ms' err'|]|]; cbn;
    rewrite <- ?app_assoc; cbn [app];
    (split; [auto|split; [eexists; split; [|reflexivity]; unfold npm_error; auto|]]);
    (split; [reflexivity|eexists; reflexivity]).
Qed.

(** A package manager that cannot be started, after a runtime that
    passed. *)
Lemma verifier_without_npm ms out writes :
  w_procs w !! "node --version" = Some (Succeeds ms out writes) ->
  lt_number (versionNum (trim out)) 16 = false ->
  fails (w_procs w !! "npm --version") = true ->
  let '(o, this', w') := checkSystemDependencies this w in
  o = Ret tt /\
  errors this' = errors this ++ ["npm is not installed or not in PATH"] /\
  warnings this' = warnings this.
Proof.
  intros Hp Hlt Hf.
  cbv [checkSystemDependencies bind try_catch log error success get_this put_this
       console_log ret].
  rewrite (execSync_succeeds "node --version" plain_options ms out writes this
             (set_console _ w) Hp eq_refl).
  rewrite Hlt. cbv [execSync run_proc plain_options timeout].
  cbn [w_procs set_console set_calls set_fs set_now advance called].
  destruct (w_procs w !! "npm --version") as [[ms' out' writes'|ms' err|]|];
    try discriminate Hf; cbn; auto.
Qed.

End VerifierCheck.

(** ** Both checks *)

Definition TOO_OLD : string := "Node.js version 16 or higher is required".
Definition NO_NODE : string := "Node.js is not installed or not in PATH".
Definition NO_NPM : string := "npm is not installed or not in PATH".

(** The check of the installer ends the process with code 1, the object
    unchanged, after printing [lines]. *)
Definition installer_stops (this : Installer.installer) (w : world) (lines : list string) : Prop :=
  (Installer.checkSystemDependencies this w).1 = (Exit 1%Z, this) /\
  w_console (Installer.checkSystemDependencies this w).2 = w_console w ++ lines.

(** The check of the verifier does not end the process: it records
    [message] as an error, then at most the error about the package
    manager; it records no warning; it prints [lines] first. *)
Definition verifier_records (this : Verifier.verifier) (w : world)
    (message : string) (lines : list string) : Prop :=
  let '(o, this', w') := Verifier.checkSystemDependencies this w in
  (o = Ret tt \/ o = Hang) /\
  (exists more,
     (more = [] \/ more = [NO_NPM]) /\
     Verifier.errors this' = Verifier.errors this ++ message :: more) /\
  Verifier.warnings this' = Verifier.warnings this /\
  exists more, w_console w' = w_console w ++ lines ++ more.

(** A machine whose runtime is version 14. *)
Definition world_node14 : world :=
  World "linux" "/home/u" "/repo/scripts" ["node"; "/repo/scripts/install.cjs"] ∅
    ∅ ∅ ∅
    {[ "node --version" := Succeeds 5 ("v14.17.0" +:+ String LF "") [];
       "npm --version" := Succeeds 5 "6.14.13" [] ]}
    1700000000000 [] [].

(** C5. When [node --version] answers with a version string
    [vMAJOR.rest] whose major number is below 16, the check of the
    installer prints the version string as it is and ends the process
    with code 1, and the check of the verifier prints the version string
    as it is and records the error (no warning) without ending.  When
    the runtime or the package manager cannot be started, the installer
    ends with code 1 and the verifier records an error, with messages
    other than the one for a runtime that is too old. *)
Theorem C5_runtime_below_16_is_rejected
    (ti : Installer.installer) (tv : Verifier.verifier) (w : world) :
  (forall major rest out ms writes,
     (major < 16)%N ->
     trim out = version_string major rest ->
     w_procs w !! "node --version" = Some (Succeeds ms out writes) ->
     installer_stops ti w
       [installer_says ti Installer.info "Checking system dependencies...";
        installer_says ti Installer.info
          ("Node.js version: " +:+ version_string major rest +:+ " ✓");
        installer_says ti Installer.failure TOO_OLD] /\
     verifier_records tv w TOO_OLD
       [verifier_says tv Verifier.info "Checking system dependencies...";
        verifier_says tv Verifier.good ("Node.js version: " +:+ version_string major rest);
        verifier_says tv Verifier.failure TOO_OLD]) /\
  (fails (w_procs w !! "node --version") = true ->
   installer_stops ti w
     [installer_says ti Installer.info "Checking system dependencies...";
      installer_says ti Installer.failure NO_NODE] /\
   verifier_records tv w NO_NODE
     [verifier_says tv Verifier.info "Checking system dependencies...";
      verifier_says tv Verifier.failure NO_NODE]) /\
  (forall major rest out ms writes,
     (16 <= major)%N ->
     trim out = version_string major rest ->
     w_procs w !! "node --version" = Some (Succeeds ms out writes) ->
     fails (w_procs w !! "npm --version") = true ->
     installer_stops ti w
       [installer_says ti Installer.info "Checking system dependencies...";
        installer_says ti Installer.info
          ("Node.js version: " +:+ version_string major rest +:+ " ✓");
        installer_says ti Installer.failure NO_NPM] /\
     (let '(o, this', w') := Verifier.checkSystemDependencies tv w in
      o = Ret tt /\
      Verifier.errors this' = Verifier.errors tv ++ [NO_NPM] /\
      Verifier.warnings this' = Verifier.warnings tv)) /\
  TOO_OLD <> NO_NODE /\ TOO_OLD <> NO_NPM.
Proof.
  split; [|split; [|split]].
  - intros major rest out ms writes Hm Ht Hp.
    assert (Hlt : lt_number (versionNum (trim out)) 16 = true).
    { rewrite Ht, lt_number_version_string. now apply N.ltb_lt. }
    rewrite <- Ht. split.
    + exact (installer_old_runtime ti w ms out writes Hp Hlt).
    + exact (verifier_old_runtime tv w ms out writes Hp Hlt).
  - intros Hf. split.
    + exact (installer_without_node ti w Hf).
    + exact (verifier_without_node tv w Hf).
  - intros major rest out ms writes Hm Ht Hp Hf.
    assert (Hlt : lt_number (versionNum (trim out)) 16 = false).
    { rewrite Ht, lt_number_version_string. now apply N.ltb_ge. }
    rewrite <- Ht. split.
    + exact (installer_without_npm ti w ms out writes Hp Hlt Hf).
    + exact (verifier_without_npm tv w ms out writes Hp Hlt Hf).
  - split; discriminate.
Qed.

Lemma C5_witness :
  installer_stops DesktopFacts.this0 world_node14
    [installer_says DesktopFacts.this0 Installer.info "Checking system dependencies...";
     installer_says DesktopFacts.this0 Installer.info ("Node.js version: v14.17.0 ✓");
     installer_says DesktopFacts.this0 Installer.failure TOO_OLD] /\
  verifier_records (VerifierExit.built world_node14) world_node14 TOO_OLD
    [verifier_says (VerifierExit.built world_node14) Verifier.info
       "Checking system dependencies...";
     verifier_says (VerifierExit.built world_node14) Verifier.good
       ("Node.js version: v14.17.0");
     verifier_says (VerifierExit.built world_node14) Verifier.failure TOO_OLD].
Proof.
  apply (proj1 (C5_runtime_below_16_is_rejected DesktopFacts.this0
                  (VerifierExit.built world_node14) world_node14)
           14%N "17.0" ("v14.17.0" +:+ String LF "") 5%Z []).
  - reflexivity.
  - reflexivity.
  - reflexivity.
Defined.

End DependencyFacts.

(** * The configuration of the installer *)

Module ConfigFacts.
Import JSON JS Runtime Installer RuntimeFacts JSONFacts Shapes DesktopFacts.

Lemma read_in_exists w p text : read_in w p = inr text -> exists_in w p = true.
Proof. intros H. apply read_in_file in H. unfold exists_in. now rewrite H. Qed.

Section LoadConfig.
Variable this : installer.
Variable w : world.

Definition configPath : string := install_config_path this (w_argv w).

Definition PARSE_FAILURE : string :=
  "Failed to parse configuration file: Unexpected token in JSON".

(** No file: the default configuration. *)
Lemma loadConfig_absent :
  exists_in w configPath = false ->
  loadConfig this w =
  (Ret tt, with_config default_config this,
   said [say info this "Using default configuration (no config file found)"] w).
Proof.
  intros He. unfold loadConfig. rewrite bind_get_this, bind_get_world, bind_existsSync.
  fold configPath. now rewrite He.
Qed.

(** A file that is not JSON: the process ends with code 1, the
    configuration as it was. *)
Lemma loadConfig_malformed text :
  read_in w configPath = inr text -> parse text = None ->
  loadConfig this w = (Exit 1%Z, this, said [say failure this PARSE_FAILURE] w).
Proof.
  intros Hr Hp. unfold loadConfig.
  rewrite bind_get_this, bind_get_world, bind_existsSync. fold configPath.
  rewrite (read_in_exists _ _ _ Hr).
  apply try_Throw with (e := "Unexpected token in JSON") (t' := this) (w' := w).
  rewrite (bind_readFileSync_ok _ _ _ _ _ Hr). unfold JSON_parse. now rewrite Hp.
Qed.

(** A file that is JSON: its value is the configuration. *)
Lemma loadConfig_parsed text v :
  read_in w configPath = inr text -> parse text = Some v ->
  loadConfig this w =
  (Ret tt, with_config v this,
   said [say info this ("Loaded configuration from: " +:+ configPath)] w).
Proof.
  intros Hr Hp. unfold loadConfig.
  rewrite bind_get_this, bind_get_world, bind_existsSync. fold configPath.
  rewrite (read_in_exists _ _ _ Hr).
  apply try_Ret.
  rewrite (bind_readFileSync_ok _ _ _ _ _ Hr). unfold JSON_parse. now rewrite Hp.
Qed.

(** The installation ends where [loadConfig] does. *)
Lemma install_malformed text :
  read_in w configPath = inr text -> parse text = None ->
  install this w =
  (Exit 1%Z, this,
   said [say info this "Starting Notion MCP Server installation...";
         say failure this PARSE_FAILURE] w).
Proof.
  intros Hr Hp. unfold install. apply try_Exit. rewrite bind_log.
  assert (E : loadConfig this (said [say info this "Starting Notion MCP Server installation..."] w)
              = (Exit 1%Z, this,
                 said [say failure this PARSE_FAILURE]
                   (said [say info this "Starting Notion MCP Server installation..."] w))).
  { unfold loadConfig.
    rewrite bind_get_this, bind_get_world, bind_existsSync.
    change (w_argv (said _ w)) with (w_argv w). fold configPath.
    unfold said at 1. rewrite exists_in_set_console, (read_in_exists _ _ _ Hr).
    apply try_Throw with (e := "Unexpected token in JSON") (t' := this)
                         (w' := said [say info this "Starting Notion MCP Server installation..."] w).
    rewrite (bind_readFileSync_ok _ text); [|exact Hr].
    unfold JSON_parse. now rewrite Hp. }
  rewrite (bind_Exit _ _ _ _ _ _ _ E). now rewrite said_said.
Qed.

(** A file that cannot be read ends the process as well. *)
Lemma loadConfig_unreadable message :
  exists_in w configPath = true -> read_in w configPath = inl message ->
  loadConfig this w =
  (Exit 1%Z, this,
   said [say failure this ("Failed to parse configuration file: " +:+ message)] w).
Proof.
  intros He Hr. unfold loadConfig.
  rewrite bind_get_this, bind_get_world, bind_existsSync. fold configPath. rewrite He.
  apply try_Throw with (e := message) (t' := this) (w' := w).
  now rewrite (bind_readFileSync_err _ _ _ _ _ Hr).
Qed.

End LoadConfig.

(** A machine where [scripts/install-config.json] is cut short. *)
Definition world_bad_config : world :=
  World "linux" "/home/u" "/repo/scripts" ["node"; "/repo/scripts/install.cjs"] ∅
    {[ "/repo/scripts/install-config.json" := File "{ notionToken: " ]}
    ∅ ∅ ExitCodes.ready_procs 1700000000000 [] [].

(** C10. When the configuration file of the installer exists and its
    text is not JSON, [loadConfig] ends the process with code 1, leaving
    the configuration as it was, and so does [install], which prints
    nothing after the failure.  When there is no file, [loadConfig]
    returns with the default configuration; when the file exists,
    [loadConfig] either ends the process or returns with the value
    parsed from the file. *)
Theorem C10_malformed_install_config_is_fatal (this : installer) (w : world) :
  let path := install_config_path this (w_argv w) in
  (forall text,
     read_in w path = inr text -> parse text = None ->
     loadConfig this w = (Exit 1%Z, this, said [say failure this PARSE_FAILURE] w) /\
     install this w =
       (Exit 1%Z, this,
        said [say info this "Starting Notion MCP Server installation...";
              say failure this PARSE_FAILURE] w)) /\
  (exists_in w path = false ->
   loadConfig this w =
     (Ret tt, with_config default_config this,
      said [say info this "Using default configuration (no config file found)"] w)) /\
  (exists_in w path = true ->
   (loadConfig this w).1.1 = Exit 1%Z \/
   exists text v,
     read_in w path = inr text /\ parse text = Some v /\
     (loadConfig this w).1 = (Ret tt, with_config v this)).
Proof.
  cbv zeta. split; [|split].
  - intros text Hr Hp. split.
    + exact (loadConfig_malformed this w text Hr Hp).
    + exact (install_malformed this w text Hr Hp).
  - exact (loadConfig_absent this w).
  - intros He. fold (configPath this w) in *.
    destruct (read_in w (configPath this w)) as [message|text] eqn:Hr.
    + left. now rewrite (loadConfig_unreadable this w message He Hr).
    + destruct (parse text) as [v|] eqn:Hp.
      * right. exists text, v. now rewrite (loadConfig_parsed this w text v Hr Hp).
      * left. now rewrite (loadConfig_malformed this w text Hr Hp).
Qed.

Lemma C10_witness :
  loadConfig (InstallerShapes.built world_bad_config) world_bad_config =
    (Exit 1%Z, InstallerShapes.built world_bad_config,
     said [say failure (InstallerShapes.built world_bad_config) PARSE_FAILURE]
       world_bad_config) /\
  (main world_bad_config).1 = Some 1%Z.
Proof.
  split.
  - apply (proj1 (C10_malformed_install_config_is_fatal
                    (InstallerShapes.built world_bad_config) world_bad_config)
             "{ notionToken: ").
    + reflexivity.
    + vm_compute. reflexivity.
  - vm_compute. reflexivity.
Defined.

End ConfigFacts.

(** * The registry of the command line tool *)

Module RegistryFacts.
Import JSON JS Runtime Installer RuntimeFacts JSONFacts Shapes InstallerShapes DesktopFacts.

Definition REMOVE : string := "claude mcp remove notion-mcp -s user".

(** The command [configureClaudeCodeCLI] builds to add the server. *)
Definition add_command (this : installer) : string :=
  manual_command (cli_binary this) +:+
  (if truthy_opt (member (config this) "notionToken") then
     " --env NOTION_TOKEN=" +:+
     quoted (from_option to_string "undefined" (member (config this) "notionToken"))
   else "").

Definition mode_of (this : installer) : stdio :=
  if truthy_opt (member (config this) "verbose") then inherit else pipe.

(** What a failing command wrote on its standard error. *)
Definition failure_text (cmd : string) (p : option proc) : string :=
  match p with
  | Some (Fails _ err) => err
  | _ => "/bin/sh: 1: " +:+ cmd +:+ ": not found"
  end.

(** The line printed once the removal has ended. *)
Definition removal_line (this : installer) (p : option proc) : string :=
  if fails p then
    say info this "No existing MCP server found (expected for fresh installation)"
  else say info this "Removed existing MCP server configuration".

(** The lines printed once the addition has failed with [message]. *)
Definition failure_lines (this : installer) (message : string) : list string :=
  if includes "already exists" message then
    [say good this "Claude Code CLI MCP server already configured"]
  else
    [say failure this ("Warning: Failed to configure Claude Code CLI: " +:+ message);
     say info this ("You may need to manually run: " +:+ manual_command (cli_binary this))].

(** The attempt to remove the server, as [configureClaudeCodeCLI] makes
    it. *)
Definition removal : M installer unit :=
  try_catch
    (bind (log "Checking for existing Claude Code CLI MCP server..." info) (fun _ =>
     bind (execSync REMOVE plain_options) (fun _ =>
     log "Removed existing MCP server configuration" info)))
    (fun _ => log "No existing MCP server found (expected for fresh installation)" info).

Lemma removal_ends this w :
  w_procs w !! REMOVE <> Some Never ->
  exists w',
    removal this w = (Ret tt, this, w') /\
    w_console w' =
      w_console w ++
      [say info this "Checking for existing Claude Code CLI MCP server...";
       removal_line this (w_procs w !! REMOVE)] /\
    w_procs w' = w_procs w.
Proof.
  intros Hr. unfold removal, removal_line.
  cbv [bind try_catch log get_this console_log execSync run_proc plain_options timeout].
  cbn [w_procs set_console set_calls].
  destruct (w_procs w !! REMOVE) as [[ms out writes|ms err|]|]; try congruence;
    cbn; eexists; (split; [reflexivity|]); cbn; rewrite <- ?app_assoc; now split.
Qed.

Lemma execSync_failing cmd mode (this : installer) w :
  fails (w_procs w !! cmd) = true ->
  exists w',
    execSync cmd (ExecOptions None mode None) this w =
      (Throw (command_failed cmd mode (failure_text cmd (w_procs w !! cmd))), this, w') /\
    w_console w' = w_console w.
Proof.
  intros Hf. cbv [execSync run_proc timeout stdio_mode].
  destruct (w_procs w !! cmd) as [[ms out writes|ms err|]|]; try discriminate Hf;
    cbn; eexists; split; reflexivity.
Qed.

Lemma configureClaudeCodeCLI_add_fails this w :
  config this <> JNull ->
  w_procs w !! REMOVE <> Some Never ->
  fails (w_procs w !! add_command this) = true ->
  (configureClaudeCodeCLI this w).1 = (Ret tt, this) /\
  w_console (configureClaudeCodeCLI this w).2 =
    w_console w ++
    [say info this "Configuring Claude Code CLI...";
     say info this "Checking for existing Claude Code CLI MCP server...";
     removal_line this (w_procs w !! REMOVE);
     say info this "Adding Notion MCP server to Claude Code CLI with user scope..."] ++
    failure_lines this
      (command_failed (add_command this) (mode_of this)
         (failure_text (add_command this) (w_procs w !! add_command this))).
Proof.
  intros Hc Hr Ha.
  unfold configureClaudeCodeCLI. rewrite bind_log.
  set (w1 := said _ w).
  destruct (removal_ends this w1 Hr) as (w2 & E2 & Hc2 & Hp2). unfold removal in E2.
  set (w3 := said [say info this
                     "Adding Notion MCP server to Claude Code CLI with user scope..."] w2).
  assert (Ha3 : fails (w_procs w3 !! add_command this) = true).
  { unfold w3, said. cbn [w_procs set_console]. now rewrite Hp2. }
  destruct (execSync_failing (add_command this) (mode_of this) this w3 Ha3)
    as (w4 & E4 & Hc4).
  assert (Hp3 : w_procs w3 !! add_command this = w_procs w !! add_command this).
  { unfold w3, said. cbn [w_procs set_console]. now rewrite Hp2. }
  rewrite Hp3 in E4.
  set (message := command_failed _ _ _) in *.
  rewrite (try_Throw _ _ _ _ message this w4).
  - unfold failure_lines. destruct (includes "already exists" message).
    + unfold success. rewrite log_run. cbn [fst snd]. split; [reflexivity|].
      unfold said. cbn [w_console set_console]. rewrite Hc4. unfold w3, said.
      cbn [w_console set_console]. rewrite Hc2. unfold w1, said.
      cbn [w_console set_console]. now rewrite <- !app_assoc.
    + rewrite bind_log, bind_get_this, log_run. cbn [fst snd]. split; [reflexivity|].
      unfold said. cbn [w_console set_console]. rewrite Hc4. unfold w3, said.
      cbn [w_console set_console]. rewrite Hc2. unfold w1, said.
      cbn [w_console set_console]. now rewrite <- !app_assoc.
  - rewrite bind_get_this. rewrite (bind_Ret _ _ _ _ _ _ _ E2).
    rewrite (get_member_not_null _ _ Hc), bind_lift_inr. fold (add_command this).
    rewrite bind_log. fold w3. unfold verbose_stdio.
    rewrite bind_assoc, bind_get_this, (get_member_not_null _ _ Hc).
    rewrite bind_assoc, bind_lift_inr, bind_ret. fold (mode_of this).
    now rewrite (bind_Throw _ _ _ _ _ _ _ E4).
Qed.

Lemma execSync_passing cmd mode (this : installer) w ms out writes :
  w_procs w !! cmd = Some (Succeeds ms out writes) ->
  exists w',
    execSync cmd (ExecOptions None mode None) this w = (Ret out, this, w') /\
    w_console w' = w_console w.
Proof.
  intros Hp. cbv [execSync run_proc timeout stdio_mode]. rewrite Hp.
  cbn. eexists; split; reflexivity.
Qed.

(** A removal that fails does not keep the server from being added. *)
Lemma configureClaudeCodeCLI_removal_fails this w ms out writes :
  config this <> JNull ->
  fails (w_procs w !! REMOVE) = true ->
  w_procs w !! add_command this = Some (Succeeds ms out writes) ->
  (configureClaudeCodeCLI this w).1 = (Ret tt, this) /\
  w_console (configureClaudeCodeCLI this w).2 =
    w_console w ++
    [say info this "Configuring Claude Code CLI...";
     say info this "Checking for existing Claude Code CLI MCP server...";
     say info this "No existing MCP server found (expected for fresh installation)";
     say info this "Adding Notion MCP server to Claude Code CLI with user scope...";
     say good this "Claude Code CLI configuration completed"].
Proof.
  intros Hc Hf Ha.
  assert (Hr : w_procs w !! REMOVE <> Some Never).
  { intros E. rewrite E in Hf. discriminate. }
  unfold configureClaudeCodeCLI. rewrite bind_log.
  set (w1 := said _ w).
  destruct (removal_ends this w1 Hr) as (w2 & E2 & Hc2 & Hp2). unfold removal in E2.
  set (w3 := said [say info this
                     "Adding Notion MCP server to Claude Code CLI with user scope..."] w2).
  assert (Ha3 : w_procs w3 !! add_command this = Some (Succeeds ms out writes)).
  { unfold w3, said. cbn [w_procs set_console]. now rewrite Hp2. }
  destruct (execSync_passing (add_command this) (mode_of this) this w3 ms out writes Ha3)
    as (w4 & E4 & Hc4).
  rewrite (try_Ret _ _ _ _ tt this (said [say good this "Claude Code CLI configuration completed"] w4)).
  - cbn [fst snd]. split; [reflexivity|].
    unfold said. cbn [w_console set_console]. rewrite Hc4. unfold w3, said.
    cbn [w_console set_console]. rewrite Hc2. unfold w1, said, removal_line.
    cbn [w_console set_console w_procs]. rewrite Hf. now rewrite <- !app_assoc.
  - rewrite bind_get_this. rewrite (bind_Ret _ _ _ _ _ _ _ E2).
    rewrite (get_member_not_null _ _ Hc), bind_lift_inr. fold (add_command this).
    rewrite bind_log. fold w3. unfold verbose_stdio.
    rewrite bind_assoc, bind_get_this, (get_member_not_null _ _ Hc).
    rewrite bind_assoc, bind_lift_inr, bind_ret. fold (mode_of this).
    rewrite (bind_Ret _ _ _ _ _ _ _ E4). unfold success. now rewrite log_run.
Qed.

(** ** C6 *)

(** A machine without the [claude] command. *)
Definition world_no_claude : world := world_of ∅ ∅ T0.

(** A machine where the server is registered in a way the removal does
    not reach. *)
Definition world_registered : world :=
  World "linux" "/home/u" "/repo/scripts" ["node"; "/repo/scripts/install.cjs"] ∅
    ∅ ∅ ∅
    {[ REMOVE := Fails 30 "No MCP server found with name: notion-mcp";
       add_command this0 := Fails 40 "MCP server notion-mcp already exists in user config" ]}
    T0 [] [].




End RegistryFacts.

(** * Subprocess calls and their timeouts *)

Module TimeoutFacts.
Import JSON JS Runtime RuntimeFacts JSONFacts Shapes.

(** The command both scripts run to test the CLI binary. *)
Definition help_command (binary : string) : string :=
  "node " +:+ Installer.quoted binary +:+ " --help".

(** ** The installer *)

Lemma testNotionMcpServer_ends this w :
  (Installer.testNotionMcpServer this w).1.1 = Ret tt \/
  (Installer.testNotionMcpServer this w).1.1 = Exit 1%Z.
Proof.
  destruct (InstallerShapes.sat_testNotionMcpServer InstallerExit.trivial
              InstallerExit.blind_trivial this w Logic.I) as [_ Ha].
  destruct (Installer.testNotionMcpServer this w) as [[[[]|e|c|] t] w']; cbn in *; auto;
    try discriminate Ha. destruct Ha as [_ ->]. auto.
Qed.

(** A test that never answers is cut after 15 seconds. *)
Lemma testNotionMcpServer_timed_out this w :
  w_procs w !! help_command (Installer.cli_binary this) = Some Never ->
  (Installer.testNotionMcpServer this w).1 = (Exit 1%Z, this) /\
  w_now (Installer.testNotionMcpServer this w).2 = (w_now w + 15000)%Z /\
  w_calls (Installer.testNotionMcpServer this w).2 =
    w_calls w ++ [(help_command (Installer.cli_binary this), Some 15000%Z)] /\
  w_console (Installer.testNotionMcpServer this w).2 =
    w_console w ++
    [DesktopFacts.say Installer.info this "Testing Notion MCP server...";
     DesktopFacts.say Installer.failure this
       ("Notion MCP server test failed: " +:+ timed_out)].
Proof.
  intros Hp. unfold help_command in Hp.
  cbv [Installer.testNotionMcpServer bind try_catch Installer.log Installer.error
       Installer.success get_this console_log process_exit ret execSync run_proc timeout].
  cbn [w_procs set_console set_calls]. rewrite Hp. cbn.
  rewrite <- !app_assoc. now repeat split.
Qed.

(** A call without a timeout: a removal that never ends. *)
Lemma configureClaudeCodeCLI_hangs this w :
  w_procs w !! RegistryFacts.REMOVE = Some Never ->
  (Installer.configureClaudeCodeCLI this w).1 = (Hang, this) /\
  w_calls (Installer.configureClaudeCodeCLI this w).2 =
    w_calls w ++ [(RegistryFacts.REMOVE, None)].
Proof.
  intros Hp. unfold RegistryFacts.REMOVE in Hp.
  cbv [Installer.configureClaudeCodeCLI bind try_catch Installer.log get_this console_log
       ret execSync run_proc Installer.plain_options timeout].
  cbn [w_procs set_console set_calls]. rewrite Hp. cbn. now split.
Qed.

(** A runtime that never answers. *)
Lemma installer_check_hangs this w :
  w_procs w !! "node --version" = Some Never ->
  (Installer.checkSystemDependencies this w).1 = (Hang, this) /\
  w_calls (Installer.checkSystemDependencies this w).2 =
    w_calls w ++ [("node --version", None)].
Proof.
  intros Hp.
  cbv [Installer.checkSystemDependencies bind try_catch Installer.log get_this console_log
       ret execSync run_proc Installer.plain_options timeout].
  cbn [w_procs set_console set_calls]. rewrite Hp. cbn. now split.
Qed.

(** ** The verifier *)

Definition anything (_ : Verifier.verifier) (_ : world) : Prop := True.

Lemma blind_anything : blind anything.
Proof. now intros t w c f n l _. Qed.

Lemma checkProjectBuild_ends this w :
  (Verifier.checkProjectBuild this w).1.1 = Ret tt.
Proof.
  destruct (VerifierExit.sat_checkProjectBuild anything blind_anything
              (fun _ _ _ H => H) this w Logic.I) as [_ Ha].
  destruct (Verifier.checkProjectBuild this w) as [[[[]|e|c|] t] w']; cbn in *; auto;
    try discriminate Ha. now destruct Ha.
Qed.

(** The [claude] command answers when asked for its version. *)
Definition claude_answers (_ : Verifier.verifier) (w : world) : Prop :=
  w_procs w !! "claude --version" <> Some Never.

Lemma blind_claude_answers : blind claude_answers.
Proof. now intros t w c f n l H. Qed.

Lemma checkClaudeCodeCLI_returns : sat claude_answers RETURNS Verifier.checkClaudeCodeCLI.
Proof.
  pose proof blind_claude_answers as Hb.
  assert (He : forall t w e, claude_answers t w -> claude_answers (Verifier.with_errors e t) w)
    by now intros.
  assert (Hw : forall t w l,
             claude_answers t w -> claude_answers (Verifier.with_warnings l t) w)
    by now intros.
  unfold Verifier.checkClaudeCodeCLI.
  apply sat_bind; [now apply VerifierExit.sat_verifier_log|intros _].
  apply sat_bind.
  { apply (sat_try _ FALLIBLE); [| |reflexivity].
    - apply sat_bind; [|intros _; now apply sat_ret].
      apply sat_execSync_ends; [exact Hb|now intros].
    - intros e. apply sat_bind; [now apply VerifierExit.sat_verifier_warning|intros _].
      now apply sat_ret. }
  intros found. destruct (negb found); [now apply sat_ret|].
  apply (sat_try _ FALLIBLE); [|intros; now apply VerifierExit.sat_verifier_error|reflexivity].
  apply sat_bind; [apply sat_execSync; [exact Hb|reflexivity]|intros result].
  repeat match goal with
         | |- sat _ _ (if ?b then _ else _) => destruct b
         end;
    first [now apply VerifierExit.sat_verifier_warning | now apply VerifierExit.sat_verifier_success].
Qed.

Lemma checkClaudeCodeCLI_ends this w :
  w_procs w !! "claude --version" <> Some Never ->
  (Verifier.checkClaudeCodeCLI this w).1.1 = Ret tt.
Proof.
  intros Hp. destruct (checkClaudeCodeCLI_returns this w Hp) as [_ Ha].
  destruct (Verifier.checkClaudeCodeCLI this w) as [[[[]|e|c|] t] w']; cbn in *; auto;
    try discriminate Ha. now destruct Ha.
Qed.

(** A listing that never answers is cut after 30 seconds and recorded
    as an error. *)
Lemma checkClaudeCodeCLI_timed_out this w ms out writes :
  w_procs w !! "claude --version" = Some (Succeeds ms out writes) ->
  w_procs w !! "claude mcp list" = Some Never ->
  (Verifier.checkClaudeCodeCLI this w).1.1 = Ret tt /\
  Verifier.errors (Verifier.checkClaudeCodeCLI this w).1.2 =
    Verifier.errors this ++ ["Failed to check Claude Code CLI MCP servers: " +:+ timed_out] /\
  w_now (Verifier.checkClaudeCodeCLI this w).2 = (w_now w + ms + 30000)%Z /\
  w_calls (Verifier.checkClaudeCodeCLI this w).2 =
    w_calls w ++ [("claude --version", None); ("claude mcp list", Some 30000%Z)].
Proof.
  intros Hv Hl.
  cbv [Verifier.checkClaudeCodeCLI bind try_catch Verifier.log Verifier.error
       Verifier.warning get_this put_this console_log ret execSync run_proc
       Verifier.plain_options timeout].
  cbn [w_procs set_console set_calls]. rewrite Hv.
  cbn [default from_option id negb w_procs set_console set_calls set_fs set_now advance].
  rewrite Hl. cbn. rewrite <- !app_assoc. now repeat split.
Qed.

(** A version query that never answers: the call has no timeout. *)
Lemma checkClaudeCodeCLI_hangs this w :
  w_procs w !! "claude --version" = Some Never ->
  (Verifier.checkClaudeCodeCLI this w).1 = (Hang, this) /\
  w_calls (Verifier.checkClaudeCodeCLI this w).2 = w_calls w ++ [("claude --version", None)].
Proof.
  intros Hv.
  cbv [Verifier.checkClaudeCodeCLI bind try_catch Verifier.log Verifier.error
       Verifier.warning get_this put_this console_log ret execSync run_proc
       Verifier.plain_options timeout].
  cbn [w_procs set_console set_calls]. rewrite Hv. cbn. now split.
Qed.

(** ** The calls that are given no timeout, one by one *)

(** The text holds ASCII characters only.  On such a text [trim] and
    [parseInt] strip the white space [String.prototype.trim] and
    [parseInt] strip: the other white space characters of the language
    are outside ASCII. *)
Definition ascii_only (s : string) : bool :=
  forallb (fun c => (N_of_ascii c <? 128)%N) (list_ascii_of_string s).

Section Unbounded.
Import Installer.
Variables (this : installer) (w : world).

(** The package manager never answers, after a runtime that passed. *)
Lemma installer_npm_hangs ms out writes :
  w_procs w !! "node --version" = Some (Succeeds ms out writes) ->
  lt_number (versionNum (trim out)) 16 = false ->
  w_procs w !! "npm --version" = Some Never ->
  (checkSystemDependencies this w).1 = (Hang, this) /\
  w_calls (checkSystemDependencies this w).2 =
    w_calls w ++ [("node --version", None); ("npm --version", None)].
Proof.
  intros Hp Hlt Hn.
  cbv [checkSystemDependencies bind try_catch log error success get_this console_log
       process_exit ret].
  rewrite (execSync_succeeds "node --version" plain_options ms out writes this
             (set_console _ w) Hp eq_refl).
  rewrite Hlt. cbv [execSync run_proc plain_options timeout].
  cbn [w_procs set_console set_calls set_fs set_now advance called].
  rewrite Hn. cbn. rewrite <- !app_assoc. now split.
Qed.

Hypothesis Hconfig : config this <> JNull.

Lemma verbose_stdio_run w0 :
  verbose_stdio this w0 = (Ret (RegistryFacts.mode_of this), this, w0).
Proof.
  unfold verbose_stdio. rewrite bind_get_this.
  now rewrite (DesktopFacts.get_member_not_null _ _ Hconfig), bind_lift_inr.
Qed.

(** The installation of the dependencies never ends. *)
Lemma buildProject_install_hangs :
  w_procs w !! "npm install" = Some Never ->
  (buildProject this w).1 = (Hang, this) /\
  w_calls (buildProject this w).2 = w_calls w ++ [("npm install", None)].
Proof.
  intros Hp. unfold buildProject. rewrite DesktopFacts.bind_log.
  set (w2 := DesktopFacts.said [DesktopFacts.say info this "Installing dependencies..."]
               (DesktopFacts.said [DesktopFacts.say info this "Building Notion MCP server..."]
                  w)).
  rewrite (try_Hang _ _ _ _ this
             (called "npm install"
                (ExecOptions (Some (projectRoot this)) (RegistryFacts.mode_of this) None) w2)).
  - now split.
  - rewrite bind_get_this, DesktopFacts.bind_log. fold w2.
    rewrite (bind_Ret _ _ _ _ _ _ _ (verbose_stdio_run w2)).
    apply bind_Hang. now apply execSync_never.
Qed.

(** The build never ends, after the dependencies were installed. *)
Lemma buildProject_build_hangs ms out writes :
  w_procs w !! "npm install" = Some (Succeeds ms out writes) ->
  w_procs w !! "npm run build" = Some Never ->
  (buildProject this w).1 = (Hang, this) /\
  w_calls (buildProject this w).2 =
    w_calls w ++ [("npm install", None); ("npm run build", None)].
Proof.
  intros Hi Hp. unfold buildProject. rewrite DesktopFacts.bind_log.
  set (w2 := DesktopFacts.said [DesktopFacts.say info this "Installing dependencies..."]
               (DesktopFacts.said [DesktopFacts.say info this "Building Notion MCP server..."]
                  w)).
  set (opts := ExecOptions (Some (projectRoot this)) (RegistryFacts.mode_of this) None).
  set (w3 := DesktopFacts.said [DesktopFacts.say info this "Building project..."]
               (advance ms (set_fs (write_all writes (w_fs w2)) (called "npm install" opts w2)))).
  rewrite (try_Hang _ _ _ _ this (called "npm run build" opts w3)).
  - cbn. rewrite <- !app_assoc. now split.
  - rewrite bind_get_this, DesktopFacts.bind_log. fold w2.
    rewrite (bind_Ret _ _ _ _ _ _ _ (verbose_stdio_run w2)). fold opts.
    rewrite (bind_Ret _ _ _ _ _ _ _
               (execSync_succeeds "npm install" opts ms out writes this w2 Hi eq_refl)).
    rewrite DesktopFacts.bind_log. fold w3.
    rewrite (bind_Ret _ _ _ _ _ _ _ (verbose_stdio_run w3)). fold opts.
    apply bind_Hang. now apply execSync_never.
Qed.

(** The attempt to remove the server, with the call it leaves on
    record. *)
Lemma removal_record w0 :
  w_procs w0 !! RegistryFacts.REMOVE <> Some Never ->
  exists w',
    RegistryFacts.removal this w0 = (Ret tt, this, w') /\
    w_calls w' = w_calls w0 ++ [(RegistryFacts.REMOVE, None)] /\
    w_procs w' = w_procs w0.
Proof.
  intros Hr. unfold RegistryFacts.removal.
  cbv [bind try_catch log get_this console_log execSync run_proc plain_options timeout].
  cbn [w_procs set_console set_calls].
  destruct (w_procs w0 !! RegistryFacts.REMOVE) as [[ms out writes|ms err|]|]; try congruence;
    cbn; eexists; (split; [reflexivity|]); cbn; now split.
Qed.

(** The addition of the server never ends, after a removal that
    ended. *)
Lemma configureClaudeCodeCLI_add_hangs :
  w_procs w !! RegistryFacts.REMOVE <> Some Never ->
  w_procs w !! RegistryFacts.add_command this = Some Never ->
  (configureClaudeCodeCLI this w).1 = (Hang, this) /\
  w_calls (configureClaudeCodeCLI this w).2 =
    w_calls w ++ [(RegistryFacts.REMOVE, None); (RegistryFacts.add_command this, None)].
Proof.
  intros Hr Ha. unfold configureClaudeCodeCLI. rewrite DesktopFacts.bind_log.
  set (w1 := DesktopFacts.said _ w).
  destruct (removal_record w1 Hr) as (w2 & E2 & Hc2 & Hp2).
  unfold RegistryFacts.removal in E2.
  set (w3 := DesktopFacts.said
               [DesktopFacts.say info this
                  "Adding Notion MCP server to Claude Code CLI with user scope..."] w2).
  assert (Ha3 : w_procs w3 !! RegistryFacts.add_command this = Some Never).
  { unfold w3, DesktopFacts.said. cbn [w_procs set_console]. now rewrite Hp2. }
  set (opts := ExecOptions None (RegistryFacts.mode_of this) None).
  rewrite (try_Hang _ _ _ _ this (called (RegistryFacts.add_command this) opts w3)).
  - cbn [fst snd]. split; [reflexivity|].
    unfold called, w3, DesktopFacts.said. cbn [w_calls set_calls set_console timeout opts].
    rewrite Hc2. unfold w1, DesktopFacts.said. cbn [w_calls set_console].
    now rewrite <- app_assoc.
  - rewrite bind_get_this. rewrite (bind_Ret _ _ _ _ _ _ _ E2).
    rewrite (DesktopFacts.get_member_not_null _ _ Hconfig), bind_lift_inr.
    fold (RegistryFacts.add_command this).
    rewrite DesktopFacts.bind_log. fold w3.
    rewrite (bind_Ret _ _ _ _ _ _ _ (verbose_stdio_run w3)). fold opts.
    apply bind_Hang. now apply execSync_never.
Qed.

End Unbounded.

(** What stands for a command that does not answer within [limit]
    milliseconds. *)
Definition overdue (limit : Z) (p : option proc) : bool :=
  match p with
  | Some Never => true
  | Some (Succeeds ms _ _) | Some (Fails ms _) => (limit <? ms)%Z
  | None => (limit <? 0)%Z
  end.

Section VerifierCalls.
Import Verifier.
Variables (this : verifier) (w : world).

(** The runtime never answers. *)
Lemma verifier_node_hangs :
  w_procs w !! "node --version" = Some Never ->
  (checkSystemDependencies this w).1 = (Hang, this) /\
  w_calls (checkSystemDependencies this w).2 = w_calls w ++ [("node --version", None)].
Proof.
  intros Hp.
  cbv [checkSystemDependencies bind try_catch log error success get_this put_this
       console_log ret execSync run_proc plain_options timeout].
  cbn [w_procs set_console set_calls]. rewrite Hp. cbn. now split.
Qed.

(** The package manager never answers, whatever the runtime did. *)
Lemma verifier_npm_hangs :
  w_procs w !! "node --version" <> Some Never ->
  w_procs w !! "npm --version" = Some Never ->
  (checkSystemDependencies this w).1.1 = Hang /\
  w_calls (checkSystemDependencies this w).2 =
    w_calls w ++ [("node --version", None); ("npm --version", None)].
Proof.
  intros Hp Hn.
  cbv [checkSystemDependencies bind try_catch log error success get_this put_this
       console_log ret execSync run_proc plain_options timeout].
  cbn [w_procs set_console set_calls].
  destruct (w_procs w !! "node --version") as [[ms out writes|ms err|]|]; try congruence;
    unfold default, from_option, id; cbn;
    try destruct (lt_number (versionNum (trim out)) 16); cbn;
    rewrite Hn; cbn; rewrite <- ?app_assoc; now split.
Qed.

(** The test of the CLI binary is cut after 10 seconds, and the failure
    is recorded as an error. *)
Lemma checkProjectBuild_timed_out :
  exists_in w (path_join (sep_of this) [projectRoot this; "node_modules"]) = true ->
  exists_in w (cli_binary this) = true ->
  overdue 10000 (w_procs w !! help_command (cli_binary this)) = true ->
  (checkProjectBuild this w).1 =
    (Ret tt, with_errors (errors this ++ ["CLI binary test failed: " +:+ timed_out]) this) /\
  w_now (checkProjectBuild this w).2 = (w_now w + 10000)%Z /\
  w_calls (checkProjectBuild this w).2 =
    w_calls w ++ [(help_command (cli_binary this), Some 10000%Z)].
Proof.
  intros Hm Hb Hp. unfold checkProjectBuild.
  rewrite VerifierExit.verifier_bind_log, bind_get_this, bind_existsSync.
  change (exists_in (set_console _ w) ?p) with (exists_in w p). rewrite Hm. cbn [negb].
  unfold success. rewrite VerifierExit.verifier_bind_log, bind_existsSync.
  change (exists_in (set_console _ (set_console _ w)) ?p) with (exists_in w p).
  rewrite Hb. cbn [negb]. rewrite VerifierExit.verifier_bind_log.
  change ("node " +:+ quoted (cli_binary this) +:+ " --help")
    with (help_command (cli_binary this)).
  cbv [try_catch bind execSync run_proc timeout log error get_this put_this console_log].
  cbn [w_procs set_console]. unfold overdue in Hp.
  destruct (w_procs w !! help_command (cli_binary this)) as [[ms out writes|ms err|]|];
    unfold default, from_option, id; rewrite ?Hp; cbn; now repeat split.
Qed.

End VerifierCalls.

(** ** C7 *)

(** A machine where the test of the CLI binary never answers. *)
Definition world_silent : world :=
  World "linux" "/home/u" "/repo/scripts" ["node"; "/repo/scripts/install.cjs"] ∅
    ∅ ∅ ∅ {[ help_command "/repo/bin/cli.mjs" := Never ]} DesktopFacts.T0 [] [].

(** A machine where every step goes through, but the removal from the
    registry never ends. *)
Definition world_stuck : world :=
  World "linux" "/home/u" "/repo/scripts" ["node"; "/repo/scripts/install.cjs"] ∅
    ∅ ∅ ∅ (<[RegistryFacts.REMOVE := Never]> ExitCodes.ready_procs)
    DesktopFacts.T0 [] [].




End TimeoutFacts.

(** * The verifier on what the installer wrote *)

Module AfterInstall.
Import JSON JS Runtime RuntimeFacts JSONFacts DesktopFacts.

(** A verifier object that looks where the installer [ti] wrote. *)
Definition alongside (ti : Installer.installer) (tv : Verifier.verifier) : Prop :=
  Verifier.platform tv = Installer.platform ti /\
  Verifier.projectRoot tv = Installer.projectRoot ti /\
  Verifier.claudeConfigDir tv = Installer.claudeConfigDir ti.

Definition verifier_says (tv : Verifier.verifier) (type : Verifier.level) (message : string) : string :=
  Verifier.line type (Verifier.logPrefix tv) message.

(** The check of a file that holds a document with the desired entry
    merged in. *)
Lemma check_merged ti tv w dir o :
  alongside ti tv ->
  Installer.claudeConfigDir ti = Some dir ->
  read_in w (desktop_path ti dir) = inr (stringify (JObject o)) ->
  plain (JObject o) = true ->
  merged o (desired ti) = o ->
  Verifier.checkClaudeDesktopConfig tv w =
  (Ret tt, tv,
   set_console
     (w_console w ++
      [verifier_says tv Verifier.info "Checking Claude Desktop configuration...";
       verifier_says tv Verifier.good "Claude Desktop configuration looks correct"]) w).
Proof.
  intros (Hp & Hr & Hd) Hdir Hread Hplain Hm.
  unfold Verifier.checkClaudeDesktopConfig.
  rewrite VerifierExit.verifier_bind_log, bind_get_this.
  unfold Verifier.config_path. rewrite Hd, Hdir, bind_ret.
  assert (Hpath : path_join (Verifier.sep_of tv) [dir; "claude_desktop_config.json"]
                  = desktop_path ti dir).
  { unfold desktop_path, Verifier.sep_of, Installer.sep_of. now rewrite Hp. }
  rewrite Hpath, bind_existsSync.
  set (w1 := set_console _ w).
  assert (Hread1 : read_in w1 (desktop_path ti dir) = inr (stringify (JObject o)))
    by exact Hread.
  rewrite (ConfigFacts.read_in_exists _ _ _ Hread1). cbn [negb].
  apply try_Ret. rewrite (bind_readFileSync_ok _ _ _ _ _ Hread1).
  unfold Verifier.JSON_parse. rewrite (parse_stringify _ Hplain), bind_ret.
  assert (Hs : obj_get "mcpServers" o
               = Some (JObject (obj_set Installer.SERVER_NAME (desired ti) (servers_of o)))).
  { rewrite <- Hm at 1. apply merged_servers. }
  cbn [get_member]. rewrite Hs, bind_lift_inr. cbn [truthy negb get_member].
  change "notion-mcp" with Installer.SERVER_NAME at 1.
  rewrite obj_get_set_same, bind_lift_inr.
  assert (Hcli : Verifier.cli_binary tv = Installer.cli_binary ti).
  { unfold Verifier.cli_binary, Installer.cli_binary, Verifier.sep_of, Installer.sep_of.
    now rewrite Hp, Hr. }
  rewrite Hcli. unfold desired, Installer.server_entry.
  cbn [truthy negb get_member obj_get String.eqb Ascii.eqb Bool.eqb].
  rewrite bind_lift_inr. cbn [Verifier.is_string String.eqb Ascii.eqb Bool.eqb negb].
  rewrite !bind_ret, bind_lift_inr. cbn [truthy Verifier.call_includes obj_get existsb].
  cbn [Verifier.is_string]. rewrite String.eqb_refl. cbn [orb].
  rewrite bind_lift_inr. cbn [negb]. rewrite bind_ret, bind_lift_inr.
  cbn [truthy Verifier.call_hasOwnProperty obj_get String.eqb Ascii.eqb Bool.eqb].
  rewrite bind_lift_inr.
  rewrite bool_decide_eq_true_2 by eauto. cbn [negb]. rewrite bind_ret.
  unfold Verifier.success, Verifier.log. rewrite bind_get_this.
  unfold console_log, w1, verifier_says. cbn. now rewrite <- app_assoc.
Qed.

(** ** A first installation *)

Lemma desktop_path_not_dir ti dir : desktop_path ti dir <> dir.
Proof.
  unfold desktop_path, Installer.sep_of, path_sep. cbn [path_join].
  apply append_not_self. destruct (String.eqb _ _); discriminate.
Qed.

Lemma mkdirSync_new (ti : Installer.installer) w dir :
  w_fs w !! dir = None -> bool_decide (dir ∈ w_locked w) = false ->
  mkdirSync dir ti w = (Ret tt, ti, set_fs (<[dir := Dir]> (w_fs w)) w).
Proof. intros Hn Hl. unfold mkdirSync. now rewrite Hl, Hn. Qed.

(** Neither the directory nor the file is there, and both can be
    created. *)
Lemma first_installation ti w dir :
  Installer.claudeConfigDir ti = Some dir ->
  Installer.config ti <> JNull ->
  w_fs w !! dir = None ->
  w_fs w !! desktop_path ti dir = None ->
  bool_decide (dir ∈ w_locked w) = false ->
  bool_decide (desktop_path ti dir ∈ w_locked w) = false ->
  Installer.configureClaudeDesktop ti w =
  (Ret tt, ti,
   said [say Installer.info ti "Configuring Claude Desktop...";
         say Installer.info ti ("Created Claude config directory: " +:+ dir);
         say Installer.good ti
           ("Claude Desktop configuration updated: " +:+ desktop_path ti dir)]
     (set_fs (<[desktop_path ti dir := File (stringify (fresh ti))]>
                (<[dir := Dir]> (w_fs w))) w)).
Proof.
  intros Hdir Hconfig Hnd Hnp Hld Hlp.
  unfold Installer.configureClaudeDesktop.
  rewrite bind_log, bind_get_this, Hdir, bind_existsSync.
  unfold exists_in at 1. cbn [said set_console w_fs]. rewrite Hnd. cbn [negb].
  rewrite !bind_assoc.
  rewrite (bind_Ret _ _ _ _ _ _ _ (mkdirSync_new ti (said [_] w) dir Hnd Hld)).
  rewrite bind_log. unfold Installer.join_under. rewrite bind_ret, bind_existsSync.
  fold (desktop_path ti dir).
  unfold exists_in at 1. cbn [said set_console set_fs w_fs].
  rewrite lookup_insert_ne by (symmetry; apply desktop_path_not_dir). rewrite Hnp.
  rewrite bind_ret.
  change (bind (lift (get_member (Installer.config ti) "notionToken")) _)
    with (finish ti (desktop_path ti dir) Installer.empty_config).
  rewrite (finish_written ti dir Hconfig Installer.empty_config _ _ (set_server_fresh _)).
  - unfold said, set_console, set_fs, fresh. cbn. now rewrite <- !app_assoc.
  - unfold writable. cbn [said set_console set_fs w_fs w_locked]. rewrite Hlp.
    rewrite lookup_insert_ne by (symmetry; apply desktop_path_not_dir). now rewrite Hnp.
Qed.

(** ** The token in the file of the desktop application *)

Definition token_in_environment (w : world) : bool :=
  match w_environ w !! "NOTION_TOKEN" with
  | Some (String _ _) => true
  | _ => false
  end.

Definition NOT_IN_ENVIRONMENT : string :=
  "NOTION_TOKEN not set in environment - will need to be configured in Claude configs".

(** The object after the look at the environment. *)
Definition after_environment (tv : Verifier.verifier) (w : world) : Verifier.verifier :=
  if token_in_environment w then tv
  else Verifier.with_warnings (Verifier.warnings tv ++ [NOT_IN_ENVIRONMENT]) tv.

Definition environment_line (tv : Verifier.verifier) (w : world) : string :=
  if token_in_environment w then
    verifier_says tv Verifier.good "NOTION_TOKEN found in environment"
  else verifier_says tv Verifier.caution NOT_IN_ENVIRONMENT.

(** What is printed about a token that is a string. *)
Definition token_lines (tv : Verifier.verifier) (s : string) : list string :=
  if String.eqb s "" then []
  else [verifier_says tv Verifier.good "NOTION_TOKEN configured in Claude Desktop"].

Lemma verifier_log_all_run lines tv w :
  Verifier.log_all lines tv w =
  (Ret tt, tv,
   set_console (w_console w ++ map (verifier_says tv Verifier.info) lines) w).
Proof.
  revert w. induction lines as [|l lines IH]; intros w; cbn [Verifier.log_all map].
  - rewrite app_nil_r. now destruct w.
  - rewrite VerifierExit.verifier_bind_log, IH. destruct w; cbn. now rewrite <- app_assoc.
Qed.

Lemma integration_start tv w0 w B (k : unit -> M Verifier.verifier B) :
  bind (match w_environ w0 !! "NOTION_TOKEN" with
        | Some (String _ _) => Verifier.success "NOTION_TOKEN found in environment"
        | _ => Verifier.warning NOT_IN_ENVIRONMENT
        end) k tv w
  = k tt (after_environment tv w0)
      (set_console (w_console w ++ [environment_line tv w0]) w).
Proof.
  unfold after_environment, environment_line, token_in_environment.
  destruct (w_environ w0 !! "NOTION_TOKEN") as [[|c r]|]; reflexivity.
Qed.

Section StringToken.
Variables (tv : Verifier.verifier) (w : world) (dir text s : string).
Variables (o m e env : object).
Hypothesis Hdir : Verifier.claudeConfigDir tv = Some dir.

Let path := path_join (Verifier.sep_of tv) [dir; "claude_desktop_config.json"].

Hypothesis Hread : read_in w path = inr text.
Hypothesis Hparse : parse text = Some (JObject o).
Hypothesis Hservers : obj_get "mcpServers" o = Some (JObject m).
Hypothesis Hentry : obj_get "notion-mcp" m = Some (JObject e).
Hypothesis Henv : obj_get "env" e = Some (JObject env).
Hypothesis Htoken : obj_get "NOTION_TOKEN" env = Some (JString s).

Lemma integration_string_token :
  Verifier.checkNotionIntegration tv w =
  (Ret tt, after_environment tv w,
   set_console
     (w_console w ++
      [verifier_says tv Verifier.info "Checking Notion integration setup...";
       environment_line tv w] ++
      token_lines tv s ++
      map (verifier_says tv Verifier.info) Verifier.instructions) w).
Proof.
  unfold Verifier.checkNotionIntegration.
  rewrite VerifierExit.verifier_bind_log, bind_get_world.
  change (w_environ (set_console _ w)) with (w_environ w).
  fold NOT_IN_ENVIRONMENT. rewrite integration_start, bind_get_this.
  assert (Hd : Verifier.claudeConfigDir (after_environment tv w) = Some dir).
  { unfold after_environment. now destruct (token_in_environment w). }
  assert (Hs : Verifier.sep_of (after_environment tv w) = Verifier.sep_of tv).
  { unfold after_environment. now destruct (token_in_environment w). }
  assert (Hl : Verifier.logPrefix (after_environment tv w) = Verifier.logPrefix tv).
  { unfold after_environment. now destruct (token_in_environment w). }
  unfold Verifier.config_path. rewrite Hd, Hs, bind_ret, bind_existsSync. fold path.
  set (w2 := set_console _ (set_console _ w)).
  assert (Hread2 : read_in w2 path = inr text) by exact Hread.
  rewrite (ConfigFacts.read_in_exists _ _ _ Hread2).
  assert (E : forall t0,
             Verifier.logPrefix t0 = Verifier.logPrefix tv ->
             try_catch
               (bind (readFileSync path) (fun text0 =>
                bind (Verifier.JSON_parse text0) (fun config =>
                bind (lift (get_member config "mcpServers")) (fun servers =>
                bind (lift (Verifier.and_member servers "notion-mcp")) (fun entry =>
                bind (lift (Verifier.and_member entry "env")) (fun env0 =>
                bind (lift (Verifier.and_member env0 "NOTION_TOKEN")) (fun token =>
                match token with
                | Some token0 =>
                    if truthy token0 then
                      if Verifier.length_positive token0 then
                        Verifier.success "NOTION_TOKEN configured in Claude Desktop"
                      else Verifier.warning "NOTION_TOKEN is empty in Claude Desktop config"
                    else ret tt
                | None => ret tt
                end)))))))
               (fun _ => ret tt) t0 w2
             = (Ret tt, t0, set_console (w_console w2 ++ token_lines tv s) w2)).
  { intros t0 Ht0. apply try_Ret. rewrite (bind_readFileSync_ok _ _ _ _ _ Hread2).
    unfold Verifier.JSON_parse. rewrite Hparse, bind_ret. cbn [get_member].
    rewrite Hservers, bind_lift_inr. cbn [Verifier.and_member truthy get_member].
    rewrite Hentry, bind_lift_inr. cbn [Verifier.and_member truthy get_member].
    rewrite Henv, bind_lift_inr. cbn [Verifier.and_member truthy get_member].
    rewrite Htoken, bind_lift_inr. cbn [truthy Verifier.length_positive].
    unfold token_lines. destruct (String.eqb s ""); cbn [negb].
    - rewrite app_nil_r. now destruct w2.
    - unfold Verifier.success, Verifier.log. rewrite bind_get_this.
      unfold console_log, verifier_says. now rewrite Ht0. }
  rewrite (bind_Ret _ _ _ _ _ _ _ (E _ Hl)), verifier_log_all_run.
  unfold w2, verifier_says. rewrite Hl. cbn. now rewrite <- !app_assoc.
Qed.

End StringToken.

(** ** Paths that [path.join] leaves as they are

    [path_join] puts its arguments together with the separator;
    [path.join] also normalises the result.  The two agree when the
    first argument is a normalised path that does not end with a
    separator and the others are plain names. *)

(** [c] does not occur in [s]. *)
Fixpoint lacks (c : ascii) (s : string) : bool :=
  match s with
  | "" => true
  | String a r => negb (Ascii.eqb a c) && lacks c r
  end.

(** A segment that normalisation keeps: a name that is not empty, not
    [.] or [..], and holds no separator of either platform and no
    colon. *)
Definition plain_name (seg : string) : bool :=
  negb (String.eqb seg "") && negb (String.eqb seg ".") && negb (String.eqb seg "..")
  && lacks "/"%char seg && lacks BACKSLASH seg && lacks ":"%char seg.

(** A drive of Windows: a letter and a colon. *)
Definition drive (seg : string) : bool :=
  match seg with
  | String _ (String c "") => Ascii.eqb c ":"%char
  | _ => false
  end.

(** [p] is a path of plain names, absolute (an empty first segment, or a
    drive followed by at least one name) or relative; in particular it
    is neither empty nor the root, and it does not end with a
    separator. *)
Definition tidy (sep p : string) : bool :=
  match sep with
  | String c _ =>
      match split c p with
      | first :: rest =>
          negb (String.eqb p "")
          && (String.eqb first "" || plain_name first
              || (drive first && negb (bool_decide (rest = []))))
          && forallb plain_name rest
      | [] => false
      end
  | "" => false
  end.

(** The token of the configuration is a string, or there is none. *)
Definition token_is_text (c : value) : bool :=
  match member c "notionToken" with
  | None | Some (JString _) => true
  | Some _ => false
  end.

(** ** The theorems *)

Definition tv0 : Verifier.verifier :=
  Verifier.mkVerifier "linux" "/repo" (Some dir0) (Some "[Notion MCP Verifier]") [] [].

(** A machine on which the desktop application has never run. *)
Definition world_new : world := world_of ∅ ∅ T0.

(** A machine on which the desktop application has never run: the
    directory of the user's configurations is there, the one of the
    application is not. *)
Definition world_first : world := world_of {[ "/home/u/.config" := Dir ]} ∅ T0.

(** X1. On a first installation, where the parent of the configuration
    directory is a directory, neither the configuration directory nor
    the file exists and both can be created, [configureClaudeDesktop]
    returns after creating the directory and writing the file; nothing
    else changes.  The file is JSON that reads back as the document
    whose [mcpServers["notion-mcp"]] has the command [node], the path of
    the CLI binary as its one argument, and the token of the
    configuration (or the empty string) in its environment.  (The
    directory and the project root are normalised paths, as the
    constructor makes them; with its parent in place the recursive
    [mkdirSync] has only the directory itself to create; the token of
    the configuration is a string, if there is one.) *)
Theorem X1_first_installation (ti : Installer.installer) (w : world) (dir : string) :
  Installer.claudeConfigDir ti = Some dir ->
  tidy (Installer.sep_of ti) dir = true ->
  tidy (Installer.sep_of ti) (Installer.projectRoot ti) = true ->
  w_fs w !! path_dirname (Installer.sep_of ti) dir = Some Dir ->
  token_is_text (Installer.config ti) = true ->
  Installer.config ti <> JNull ->
  plain (Installer.config ti) = true ->
  w_fs w !! dir = None ->
  w_fs w !! desktop_path ti dir = None ->
  bool_decide (dir ∈ w_locked w) = false ->
  bool_decide (desktop_path ti dir ∈ w_locked w) = false ->
  let '(out, ti', w') := Installer.configureClaudeDesktop ti w in
  out = Ret tt /\ ti' = ti /\
  w_fs w' = <[desktop_path ti dir := File (stringify (fresh ti))]> (<[dir := Dir]> (w_fs w)) /\
  parse (stringify (fresh ti)) = Some (fresh ti) /\
  entry_of_text (stringify (fresh ti)) =
    Some (JObject
            [("command", JString "node");
             ("args", JArray [JString (Installer.cli_binary ti)] []);
             ("env",
              JObject [("NOTION_TOKEN",
                        Installer.token_or_empty (member (Installer.config ti) "notionToken"))])]).
Proof.
  intros Hdir _ _ _ _ Hconfig Hplain Hnd Hnp Hld Hlp.
  rewrite (first_installation ti w dir Hdir Hconfig Hnd Hnp Hld Hlp).
  split; [reflexivity|]. split; [reflexivity|]. split; [reflexivity|].
  split; [now apply parse_stringify, plain_fresh|].
  rewrite fresh_as_merged.
  exact (entry_of_text_merged [] (desired ti) eq_refl (plain_desired ti Hplain)).
Qed.

Lemma X1_witness :
  let '(out, ti', w') := Installer.configureClaudeDesktop this0 world_first in
  out = Ret tt /\ ti' = this0 /\
  w_fs w' = <[path0 := File (stringify (fresh this0))]> (<[dir0 := Dir]> (w_fs world_first)) /\
  parse (stringify (fresh this0)) = Some (fresh this0) /\
  entry_of_text (stringify (fresh this0)) =
    Some (JObject
            [("command", JString "node");
             ("args", JArray [JString "/repo/bin/cli.mjs"] []);
             ("env", JObject [("NOTION_TOKEN", JString "")])]).
Proof.
  apply (X1_first_installation this0 world_first dir0); try reflexivity. discriminate.
Defined.

(** The target can be reconciled: the directory is there and the target
    is absent, unusable (not readable, not JSON, a primitive, or without
    a place for its backup) or a configuration document (an object whose
    [mcpServers] is absent or an object), and can be written; or the
    directory is not there while its parent is, the target is not there
    either, and both can be created. *)
Definition installable (ti : Installer.installer) (w : world) (dir : string) : Prop :=
  (w_fs w !! dir = Some Dir /\
   regular w (desktop_path ti dir) = true /\
   writable w (desktop_path ti dir) = true) \/
  (w_fs w !! dir = None /\
   w_fs w !! path_dirname (Installer.sep_of ti) dir = Some Dir /\
   w_fs w !! desktop_path ti dir = None /\
   bool_decide (dir ∈ w_locked w) = false /\
   bool_decide (desktop_path ti dir ∈ w_locked w) = false).

(** X2. When the target can be reconciled (the configuration directory
    is there, or can be made under its parent; the target is absent,
    unusable or a configuration document, that is an object whose
    [mcpServers] is absent or an object; it can be written and read; the
    configuration of the installer is plain JSON other than [null]),
    what [configureClaudeDesktop] writes passes the check of the
    verifier: for a verifier object on the same platform, project and
    configuration directory, [checkClaudeDesktopConfig] run after the
    installer has reconciled the file returns without recording an error
    or a warning and reports that the configuration looks correct.  (An
    existing array, or a document whose [mcpServers] is an array or a
    primitive, is not such a document.) *)
Theorem X2_verifier_accepts_what_the_installer_wrote
    (ti : Installer.installer) (tv : Verifier.verifier) (w : world) (dir : string) :
  alongside ti tv ->
  Installer.claudeConfigDir ti = Some dir ->
  Installer.config ti <> JNull ->
  plain (Installer.config ti) = true ->
  readable w (desktop_path ti dir) = true ->
  installable ti w dir ->
  let '(out, _, w1) := Installer.configureClaudeDesktop ti w in
  out = Ret tt /\
  Verifier.checkClaudeDesktopConfig tv w1 =
  (Ret tt, tv,
   set_console
     (w_console w1 ++
      [verifier_says tv Verifier.info "Checking Claude Desktop configuration...";
       verifier_says tv Verifier.good "Claude Desktop configuration looks correct"]) w1).
Proof.
  intros Ha Hdir Hconfig Hplain Hreadable [(Hd & Hreg & Hw)|(Hnd & _ & Hnp & Hld & Hlp)].
  - assert (Hex : exists_in w dir = true) by (unfold exists_in; now rewrite Hd).
    destruct (first_call ti w dir Hdir Hex Hconfig Hplain Hreg Hw)
      as (lines & fs & o & E & Hfile & _ & _ & Hm & Ho & _).
    rewrite E. split; [reflexivity|].
    apply (check_merged ti tv _ dir o Ha Hdir); [|exact Ho|exact Hm].
    unfold read_in. cbn [said set_console set_fs w_unreadable w_fs].
    unfold readable in Hreadable. apply negb_true_iff in Hreadable.
    now rewrite Hreadable, Hfile.
  - rewrite (first_installation ti w dir Hdir Hconfig Hnd Hnp Hld Hlp).
    split; [reflexivity|].
    apply (check_merged ti tv _ dir (merged [] (desired ti)) Ha Hdir).
    + unfold read_in. cbn [said set_console set_fs w_unreadable w_fs].
      unfold readable in Hreadable. apply negb_true_iff in Hreadable.
      now rewrite Hreadable, lookup_insert_eq.
    + rewrite <- fresh_as_merged. now apply plain_fresh.
    + apply merged_merged.
Qed.

Lemma X2_witness :
  let '(out, _, w1) := Installer.configureClaudeDesktop this0 world_document in
  out = Ret tt /\
  Verifier.checkClaudeDesktopConfig tv0 w1 =
  (Ret tt, tv0,
   set_console
     (w_console w1 ++
      [verifier_says tv0 Verifier.info "Checking Claude Desktop configuration...";
       verifier_says tv0 Verifier.good "Claude Desktop configuration looks correct"]) w1).
Proof.
  apply (X2_verifier_accepts_what_the_installer_wrote this0 tv0 world_document dir0).
  - repeat split.
  - reflexivity.
  - discriminate.
  - reflexivity.
  - reflexivity.
  - left. repeat split.
Defined.

(** A machine whose desktop configuration holds a token. *)
Definition document_with_token : string :=
  sq "{'mcpServers':{'notion-mcp':{'command':'node','args':[],'env':{'NOTION_TOKEN':'ntn_1'}}}}".

Definition world_with_token : world := world_of (fs_with document_with_token) ∅ T0.

(** X3. When the file of the desktop application holds a document whose
    [mcpServers["notion-mcp"].env.NOTION_TOKEN] is a string,
    [checkNotionIntegration] returns; about that token it prints the
    success line when the string is not empty and nothing when it is
    empty.  The only warning it can record is the one about the
    environment variable: the warning that the token is empty is never
    recorded for a string. *)
Theorem X3_string_token_is_never_reported_empty
    (tv : Verifier.verifier) (w : world) (dir text s : string) (o m e env : object) :
  Verifier.claudeConfigDir tv = Some dir ->
  read_in w (path_join (Verifier.sep_of tv) [dir; "claude_desktop_config.json"]) = inr text ->
  parse text = Some (JObject o) ->
  obj_get "mcpServers" o = Some (JObject m) ->
  obj_get "notion-mcp" m = Some (JObject e) ->
  obj_get "env" e = Some (JObject env) ->
  obj_get "NOTION_TOKEN" env = Some (JString s) ->
  Verifier.checkNotionIntegration tv w =
  (Ret tt, after_environment tv w,
   set_console
     (w_console w ++
      [verifier_says tv Verifier.info "Checking Notion integration setup...";
       environment_line tv w] ++
      token_lines tv s ++
      map (verifier_says tv Verifier.info) Verifier.instructions) w) /\
  Verifier.errors (after_environment tv w) = Verifier.errors tv /\
  Verifier.warnings (after_environment tv w) =
    Verifier.warnings tv ++
    (if token_in_environment w then [] else [NOT_IN_ENVIRONMENT]).
Proof.
  intros Hdir Hread Hparse Hservers Hentry Henv Htoken.
  split; [exact (integration_string_token tv w dir text s o m e env Hdir Hread Hparse
                   Hservers Hentry Henv Htoken)|].
  unfold after_environment. destruct (token_in_environment w); cbn; [|easy].
  now rewrite app_nil_r.
Qed.

Lemma X3_witness :
  Verifier.checkNotionIntegration tv0 world_with_token =
  (Ret tt, after_environment tv0 world_with_token,
   set_console
     (w_console world_with_token ++
      [verifier_says tv0 Verifier.info "Checking Notion integration setup...";
       environment_line tv0 world_with_token] ++
      token_lines tv0 "ntn_1" ++
      map (verifier_says tv0 Verifier.info) Verifier.instructions) world_with_token) /\
  Verifier.errors (after_environment tv0 world_with_token) = Verifier.errors tv0 /\
  Verifier.warnings (after_environment tv0 world_with_token) =
    Verifier.warnings tv0 ++
    (if token_in_environment world_with_token then [] else [NOT_IN_ENVIRONMENT]).
Proof.
  pose (env := [("NOTION_TOKEN", JString "ntn_1")]).
  pose (e := [("command", JString "node"); ("args", JArray [] []); ("env", JObject env)]).
  pose (m := [("notion-mcp", JObject e)]).
  apply (X3_string_token_is_never_reported_empty tv0 world_with_token dir0
           document_with_token "ntn_1" [("mcpServers", JObject m)] m e env);
    reflexivity.
Defined.

End AfterInstall.

(** * Documents that are JSON but no configuration *)

Module DesktopEdges.
Import JSON JS Runtime Installer RuntimeFacts JSONFacts DesktopFacts.

Lemma plain_array es named : plain (JArray es named) = true -> named = [].
Proof.
  cbn [plain]. destruct named; [reflexivity|]. rewrite andb_false_r. discriminate.
Qed.

Section Array.
Variables (this : installer) (w : world) (dir text : string) (es : list value).
Hypothesis Hdir : claudeConfigDir this = Some dir.
Hypothesis Hex : exists_in w dir = true.
Hypothesis Hconfig : config this <> JNull.

Let path := desktop_path this dir.

Hypothesis Hread : read_in w path = inr text.
Hypothesis Hparse : parse text = Some (JArray es []).
Hypothesis Hbackup : writable w (backup_path path (w_now w)) = true.
Hypothesis Hwritable : writable w path = true.

Lemma find_array : find w path = Usable text (JArray es []).
Proof.
  unfold find. rewrite (ConfigFacts.read_in_exists _ _ _ Hread), Hread, Hparse.
  cbn [is_container andb]. now rewrite Hbackup.
Qed.

Lemma configure_array :
  configureClaudeDesktop this w =
  (Ret tt, this,
   said [say info this "Configuring Claude Desktop...";
         say info this ("Backed up existing configuration to: "
                        +:+ backup_path path (w_now w));
         say good this ("Claude Desktop configuration updated: " +:+ path)]
     (set_fs (<[path := File (stringify (JArray es []))]>
                (<[backup_path path (w_now w) := File text]> (w_fs w))) w)).
Proof.
  rewrite (configure_run this w dir Hdir Hex). fold path. rewrite find_array.
  rewrite (finish_written this dir Hconfig _
             (JArray es [("mcpServers", JObject [(SERVER_NAME, desired this)])])).
  - unfold said, set_console, set_fs. cbn. now rewrite <- ?app_assoc.
  - reflexivity.
  - apply writable_after_file. exact Hwritable.
Qed.

End Array.

(** ** [mcpServers] is an array, or a primitive that is truthy *)

Lemma stringify_obj_set ind k x x' o :
  obj_get k o = Some x ->
  (forall i, stringify_at i x' = stringify_at i x) ->
  stringify_at ind (JObject (obj_set k x' o)) = stringify_at ind (JObject o).
Proof.
  intros Hget Hsame. cbn [stringify_at]. f_equal.
  induction o as [|[k0 v0] o IH]; [discriminate|].
  cbn [obj_get obj_set] in *. destruct (String.eqb k0 k) eqn:E.
  - injection Hget as ->. cbn [map]. now rewrite Hsame.
  - cbn [map]. now rewrite IH.
Qed.

Definition truthy_primitive (v : value) : bool := truthy v && negb (is_container v).

(** A primitive that is truthy whatever its notation: [true], a string
    that is not empty, or a whole number other than zero, written
    without fraction and without exponent and of at most 2^53, which a
    template literal prints as it is written. *)
Definition definite_primitive (v : value) : bool :=
  match v with
  | JBool b => b
  | JString s => negb (String.eqb s "")
  | JNumber n =>
      negb (N.eqb (num_int n) 0) && uint_is_nil (num_frac n)
      && match num_exp n with None => true | Some _ => false end
      && (num_int n <=? 9007199254740992)%N
  | _ => false
  end.

Lemma definite_truthy v : definite_primitive v = true -> truthy_primitive v = true.
Proof.
  unfold truthy_primitive.
  destruct v as [|b|n|s|es named|o]; cbn [definite_primitive truthy is_container negb];
    try discriminate; rewrite ?andb_true_r; try easy.
  intros [[[H _]%andb_true_iff _]%andb_true_iff _]%andb_true_iff.
  apply negb_true_iff in H. now rewrite H.
Qed.

Section Servers.
Variables (this : installer) (w : world) (dir text : string) (o : object).
Hypothesis Hdir : claudeConfigDir this = Some dir.
Hypothesis Hex : exists_in w dir = true.
Hypothesis Hconfig : config this <> JNull.

Let path := desktop_path this dir.

Hypothesis Hread : read_in w path = inr text.
Hypothesis Hparse : parse text = Some (JObject o).
Hypothesis Hbackup : writable w (backup_path path (w_now w)) = true.

Lemma find_object : find w path = Usable text (JObject o).
Proof.
  unfold find. rewrite (ConfigFacts.read_in_exists _ _ _ Hread), Hread, Hparse.
  cbn [is_container andb]. now rewrite Hbackup.
Qed.

Lemma configure_servers_array ms :
  obj_get "mcpServers" o = Some (JArray ms []) ->
  writable w path = true ->
  configureClaudeDesktop this w =
  (Ret tt, this,
   said [say info this "Configuring Claude Desktop...";
         say info this ("Backed up existing configuration to: "
                        +:+ backup_path path (w_now w));
         say good this ("Claude Desktop configuration updated: " +:+ path)]
     (set_fs (<[path := File (stringify (JObject o))]>
                (<[backup_path path (w_now w) := File text]> (w_fs w))) w)).
Proof.
  intros Hs Hw.
  rewrite (configure_run this w dir Hdir Hex). fold path. rewrite find_object.
  rewrite (finish_written this dir Hconfig _
             (JObject (obj_set "mcpServers"
                         (JArray ms [(SERVER_NAME, desired this)]) o))).
  - unfold stringify. rewrite (stringify_obj_set 0 _ (JArray ms [])) by easy.
    unfold said, set_console, set_fs. cbn. now rewrite <- ?app_assoc.
  - unfold with_servers, set_server. cbn [get_member]. rewrite Hs.
    cbn [truthy_opt truthy get_member]. now rewrite Hs.
  - apply writable_after_file. exact Hw.
Qed.

Lemma configure_servers_primitive v :
  obj_get "mcpServers" o = Some v -> truthy_primitive v = true ->
  configureClaudeDesktop this w =
  (Throw ("Cannot create property 'notion-mcp' on " +:+ type_name v +:+ " '"
          +:+ to_string v +:+ "'"),
   this,
   said [say info this "Configuring Claude Desktop...";
         say info this ("Backed up existing configuration to: "
                        +:+ backup_path path (w_now w))]
     (set_fs (<[backup_path path (w_now w) := File text]> (w_fs w)) w)).
Proof.
  intros Hs Hv.
  rewrite (configure_run this w dir Hdir Hex). fold path. rewrite find_object.
  apply (finish_type_error this dir Hconfig).
  unfold with_servers, set_server. cbn [get_member]. rewrite Hs.
  unfold truthy_primitive in Hv. apply andb_true_iff in Hv as [Ht Hc].
  cbn [truthy_opt]. rewrite Ht. cbn [get_member]. rewrite Hs.
  destruct v; try discriminate Hc; try discriminate Ht; reflexivity.
Qed.

End Servers.

(** ** The theorems *)

Definition world_array : world := world_of (fs_with "[1, 2]") ∅ T0.

Definition world_servers_text : world :=
  world_of (fs_with (sq "{'mcpServers':'none'}")) ∅ T0.

(** X4. When the existing file holds a JSON array, or a document whose
    [mcpServers] is an array, [configureClaudeDesktop] makes the backup,
    reports that the configuration was updated and returns, but the text
    it writes is the print of what it read: the entry for
    ["notion-mcp"], stored as a named property of the array, is not
    printed, and the file has no [mcpServers["notion-mcp"]]. *)
Theorem X4_entry_is_lost_in_an_array
    (this : installer) (w : world) (dir text : string) (v : value) :
  claudeConfigDir this = Some dir ->
  exists_in w dir = true ->
  config this <> JNull ->
  read_in w (desktop_path this dir) = inr text ->
  parse text = Some v ->
  (exists es, v = JArray es []) \/
  (exists o ms, v = JObject o /\ obj_get "mcpServers" o = Some (JArray ms [])) ->
  writable w (backup_path (desktop_path this dir) (w_now w)) = true ->
  writable w (desktop_path this dir) = true ->
  configureClaudeDesktop this w =
  (Ret tt, this,
   said [say info this "Configuring Claude Desktop...";
         say info this ("Backed up existing configuration to: "
                        +:+ backup_path (desktop_path this dir) (w_now w));
         say good this ("Claude Desktop configuration updated: " +:+ desktop_path this dir)]
     (set_fs (<[desktop_path this dir := File (stringify v)]>
                (<[backup_path (desktop_path this dir) (w_now w) := File text]> (w_fs w)))
        w)) /\
  parse (stringify v) = Some v /\
  entry_of_text (stringify v) = None.
Proof.
  intros Hdir Hex Hconfig Hread Hparse Hv Hb Hw.
  pose proof (parse_plain _ _ Hparse) as Hplain.
  assert (Hback : parse (stringify v) = Some v) by now apply parse_stringify.
  destruct Hv as [[es ->]|(o & ms & -> & Hs)].
  - split; [exact (configure_array this w dir text es Hdir Hex Hconfig Hread Hparse Hb Hw)|].
    split; [exact Hback|]. unfold entry_of_text. now rewrite Hback.
  - split; [exact (configure_servers_array this w dir text o Hdir Hex Hconfig Hread Hparse
                     Hb ms Hs Hw)|].
    split; [exact Hback|]. unfold entry_of_text. rewrite Hback.
    unfold member. cbn [get_member]. now rewrite Hs.
Qed.

Lemma X4_witness :
  configureClaudeDesktop this0 world_array =
  (Ret tt, this0,
   said [say info this0 "Configuring Claude Desktop...";
         say info this0 ("Backed up existing configuration to: " +:+ backup_path path0 T0);
         say good this0 ("Claude Desktop configuration updated: " +:+ path0)]
     (set_fs (<[path0 := File (stringify (JArray [JNumber (Number false 1 Decimal.Nil None);
                                                   JNumber (Number false 2 Decimal.Nil None)] []))]>
                (<[backup_path path0 T0 := File "[1, 2]"]> (w_fs world_array)))
        world_array)) /\
  parse (stringify (JArray [JNumber (Number false 1 Decimal.Nil None);
                            JNumber (Number false 2 Decimal.Nil None)] []))
  = Some (JArray [JNumber (Number false 1 Decimal.Nil None);
                  JNumber (Number false 2 Decimal.Nil None)] []) /\
  entry_of_text (stringify (JArray [JNumber (Number false 1 Decimal.Nil None);
                                    JNumber (Number false 2 Decimal.Nil None)] [])) = None.
Proof.
  apply (X4_entry_is_lost_in_an_array this0 world_array dir0 "[1, 2]"); try reflexivity.
  - discriminate.
  - left. eexists. reflexivity.
Defined.

(** X5. When the existing file holds a document whose [mcpServers] is
    a string that is not empty, [true], or a whole number other than
    zero (written without fraction or exponent, of at most 2^53),
    [configureClaudeDesktop] makes the backup and then throws the
    [TypeError] of the assignment to a property of a primitive: the
    target is not rewritten and nothing is reported. *)
Theorem X5_primitive_servers_throw
    (this : installer) (w : world) (dir text : string) (o : object) (v : value) :
  claudeConfigDir this = Some dir ->
  exists_in w dir = true ->
  config this <> JNull ->
  read_in w (desktop_path this dir) = inr text ->
  parse text = Some (JObject o) ->
  obj_get "mcpServers" o = Some v ->
  definite_primitive v = true ->
  writable w (backup_path (desktop_path this dir) (w_now w)) = true ->
  configureClaudeDesktop this w =
  (Throw ("Cannot create property 'notion-mcp' on " +:+ type_name v +:+ " '"
          +:+ to_string v +:+ "'"),
   this,
   said [say info this "Configuring Claude Desktop...";
         say info this ("Backed up existing configuration to: "
                        +:+ backup_path (desktop_path this dir) (w_now w))]
     (set_fs (<[backup_path (desktop_path this dir) (w_now w) := File text]> (w_fs w)) w)) /\
  w_fs (configureClaudeDesktop this w).2 !! desktop_path this dir = Some (File text).
Proof.
  intros Hdir Hex Hconfig Hread Hparse Hs Hv%definite_truthy Hb.
  rewrite (configure_servers_primitive this w dir text o Hdir Hex Hconfig Hread Hparse Hb
             v Hs Hv).
  split; [reflexivity|]. cbn [snd said set_console set_fs w_fs].
  rewrite lookup_insert_ne by apply backup_path_fresh.
  now apply read_in_file.
Qed.

Lemma X5_witness :
  configureClaudeDesktop this0 world_servers_text =
  (Throw "Cannot create property 'notion-mcp' on string 'none'", this0,
   said [say info this0 "Configuring Claude Desktop...";
         say info this0 ("Backed up existing configuration to: " +:+ backup_path path0 T0)]
     (set_fs (<[backup_path path0 T0 := File (sq "{'mcpServers':'none'}")]>
                (w_fs world_servers_text)) world_servers_text)) /\
  w_fs (configureClaudeDesktop this0 world_servers_text).2 !! path0
  = Some (File (sq "{'mcpServers':'none'}")).
Proof.
  apply (X5_primitive_servers_throw this0 world_servers_text dir0
           (sq "{'mcpServers':'none'}") [("mcpServers", JString "none")] (JString "none"));
    try reflexivity.
  discriminate.
Defined.

End DesktopEdges.

(** * The files the scripts change *)

Module Footprint.
Import JSON JS Runtime RuntimeFacts JSONFacts.
Local Open Scope js_scope.

(** [q] is a path that one of the commands of [w] writes when it
    succeeds. *)
Definition written_by (w : world) (q : string) : Prop :=
  exists cmd ms out writes bytes,
    w_procs w !! cmd = Some (Succeeds ms out writes) /\ In (q, bytes) writes.

Lemma write_all_other writes (f : gmap string node) q :
  (forall bytes, ~ In (q, bytes) writes) -> write_all writes f !! q = f !! q.
Proof.
  revert f. induction writes as [|[p bytes] writes IH]; intros f Hq; [reflexivity|].
  cbn [write_all]. rewrite IH.
  - apply lookup_insert_ne. intros ->. apply (Hq bytes). now left.
  - intros b Hb. apply (Hq b). now right.
Qed.

(** The paths the commands of [w] write, as a list. *)
Definition paths_written (w : world) : list string :=
  concat (map (fun kp : string * proc =>
                 match kp.2 with
                 | Succeeds _ _ writes => map fst writes
                 | _ => []
                 end) (map_to_list (w_procs w))).

Lemma written_by_paths w q : written_by w q -> In q (paths_written w).
Proof.
  intros (cmd & ms & out & writes & bytes & Hp & Hin).
  unfold paths_written. apply in_concat.
  exists (map fst writes). split.
  - apply in_map_iff. exists (cmd, Succeeds ms out writes). split; [reflexivity|].
    apply list_elem_of_In. now apply elem_of_map_to_list.
  - apply in_map_iff. now exists (q, bytes).
Qed.

Lemma not_written w q : bool_decide (q ∈ paths_written w) = false -> ~ written_by w q.
Proof.
  intros H Hw. apply written_by_paths, list_elem_of_In in Hw.
  apply bool_decide_eq_false_1 in H. contradiction.
Qed.

Section Frame.
Context {T : Type}.
Variable I : T -> Prop.
Variable allowed : string -> Prop.

(** From [w] to [w'] the commands are the same, and a path that is not
    allowed and that no command writes holds what it held. *)
Definition same_outside (w w' : world) : Prop :=
  w_procs w' = w_procs w /\
  forall q, ~ allowed q -> ~ written_by w q -> w_fs w' !! q = w_fs w !! q.

Lemma same_refl w : same_outside w w.
Proof. now split. Qed.

Lemma same_trans w1 w2 w3 : same_outside w1 w2 -> same_outside w2 w3 -> same_outside w1 w3.
Proof.
  intros [Hp1 Hf1] [Hp2 Hf2]. split; [congruence|].
  intros q Ha Hw. rewrite Hf2, Hf1; auto.
  unfold written_by. now rewrite Hp1.
Qed.

Lemma same_console w c : same_outside w (set_console c w).
Proof. now split. Qed.

(** [m] keeps the invariant of the object and changes only allowed
    paths, apart from what the commands write. *)
Definition frames {A} (m : M T A) : Prop :=
  forall t w, I t -> I (m t w).1.2 /\ same_outside w (m t w).2.

Lemma frames_ret {A} (a : A) : frames (ret a).
Proof. intros t w Hi. split; [exact Hi|apply same_refl]. Qed.

Lemma frames_throw {A} e : frames (throw (A := A) e).
Proof. intros t w Hi. split; [exact Hi|apply same_refl]. Qed.

Lemma frames_process_exit {A} c : frames (process_exit (A := A) c).
Proof. intros t w Hi. split; [exact Hi|apply same_refl]. Qed.

Lemma frames_lift {A} (x : string + A) : frames (lift x).
Proof. intros t w Hi. destruct x; (split; [exact Hi|apply same_refl]). Qed.

Lemma frames_get_this : frames get_this.
Proof. intros t w Hi. split; [exact Hi|apply same_refl]. Qed.

Lemma frames_get_world : frames get_world.
Proof. intros t w Hi. split; [exact Hi|apply same_refl]. Qed.

Lemma frames_existsSync p : frames (existsSync p).
Proof. intros t w Hi. split; [exact Hi|apply same_refl]. Qed.

Lemma frames_Date_now : frames Date_now.
Proof. intros t w Hi. split; [exact Hi|apply same_refl]. Qed.

Lemma frames_put_this t' : I t' -> frames (put_this t').
Proof. intros Ht t w Hi. split; [exact Ht|apply same_refl]. Qed.

Lemma frames_console_log l : frames (console_log l).
Proof. intros t w Hi. split; [exact Hi|apply same_console]. Qed.

Lemma frames_readFileSync p : frames (readFileSync p).
Proof.
  intros t w Hi. unfold readFileSync.
  destruct (read_in w p); (split; [exact Hi|apply same_refl]).
Qed.

Lemma frames_bind {A B} (m : M T A) (k : A -> M T B) :
  frames m -> (forall a, frames (k a)) -> frames (bind m k).
Proof.
  intros Hm Hk t w Hi. destruct (Hm t w Hi) as [Hi1 Hs1]. unfold bind.
  destruct (m t w) as [[[a|e|c|] t1] w1]; cbn in *; try (split; assumption).
  destruct (Hk a t1 w1 Hi1) as [Hi2 Hs2]. split; [exact Hi2|].
  exact (same_trans _ _ _ Hs1 Hs2).
Qed.

Lemma frames_bind_ret {A B} (a : A) (k : A -> M T B) : frames (k a) -> frames (bind (ret a) k).
Proof. intros H t w Hi. exact (H t w Hi). Qed.

Lemma frames_bind_get_this {B} (k : T -> M T B) :
  (forall a, I a -> frames (k a)) -> frames (bind get_this k).
Proof. intros Hk t w Hi. exact (Hk t Hi t w Hi). Qed.

Lemma frames_try {A} (body : M T A) (h : string -> M T A) :
  frames body -> (forall e, frames (h e)) -> frames (try_catch body h).
Proof.
  intros Hb Hh t w Hi. destruct (Hb t w Hi) as [Hi1 Hs1]. unfold try_catch.
  destruct (body t w) as [[[a|e|c|] t1] w1]; cbn in *; try (split; assumption).
  destruct (Hh e t1 w1 Hi1) as [Hi2 Hs2]. split; [exact Hi2|].
  exact (same_trans _ _ _ Hs1 Hs2).
Qed.

Lemma same_write w p bytes w' : allowed p -> write_in w p bytes = inr w' -> same_outside w w'.
Proof.
  intros Ha. unfold write_in. destruct (bool_decide _); [discriminate|].
  destruct (w_fs w !! p) as [[|]|] eqn:E; intros [= <-]; (split; [reflexivity|]);
    intros q Hq _; cbn [w_fs set_fs]; apply lookup_insert_ne; intros ->; now apply Hq.
Qed.

Lemma frames_writeFileSync p bytes : allowed p -> frames (writeFileSync p bytes).
Proof.
  intros Ha t w Hi. unfold writeFileSync.
  destruct (write_in w p bytes) as [e|w'] eqn:E; cbn; (split; [exact Hi|]);
    [apply same_refl|now apply (same_write w p bytes)].
Qed.

Lemma frames_copyFileSync src dst : allowed dst -> frames (copyFileSync src dst).
Proof.
  intros Ha t w Hi. unfold copyFileSync.
  destruct (read_in w src) as [e|bytes]; cbn; [split; [exact Hi|apply same_refl]|].
  destruct (write_in w dst bytes) as [e|w'] eqn:E; cbn; (split; [exact Hi|]);
    [apply same_refl|now apply (same_write w dst bytes)].
Qed.

Lemma frames_mkdirSync p : allowed p -> frames (mkdirSync p).
Proof.
  intros Ha t w Hi. unfold mkdirSync.
  destruct (bool_decide _); [split; [exact Hi|apply same_refl]|].
  destruct (w_fs w !! p) as [[|]|]; cbn; (split; [exact Hi|]); try apply same_refl;
    (split; [reflexivity|]); intros q Hq _; cbn [w_fs set_fs];
    apply lookup_insert_ne; intros ->; now apply Hq.
Qed.

Lemma frames_execSync cmd opts : frames (execSync cmd opts).
Proof.
  intros t w Hi. unfold execSync, run_proc.
  destruct (w_procs w !! cmd) as [[ms out writes|ms err|]|] eqn:E;
    unfold default, from_option, id;
    (destruct (timeout opts) as [z|]; [try destruct (z <? _)%Z|]); cbn;
    (split; [exact Hi|]); (split; [reflexivity|]);
    intros q _ Hq; try reflexivity.
  all: apply write_all_other; intros bytes Hin; apply Hq;
    exists cmd, ms, out, writes, bytes; now split.
Qed.

End Frame.

Ltac frame_rule :=
  lazymatch goal with
  | |- frames _ _ (ret _) => apply frames_ret
  | |- frames _ _ (throw _) => apply frames_throw
  | |- frames _ _ (process_exit _) => apply frames_process_exit
  | |- frames _ _ (lift _) => apply frames_lift
  | |- frames _ _ get_this => apply frames_get_this
  | |- frames _ _ get_world => apply frames_get_world
  | |- frames _ _ (existsSync _) => apply frames_existsSync
  | |- frames _ _ Date_now => apply frames_Date_now
  | |- frames _ _ (console_log _) => apply frames_console_log
  | |- frames _ _ (readFileSync _) => apply frames_readFileSync
  | |- frames _ _ (execSync _ _) => apply frames_execSync
  | |- frames _ _ (bind get_this _) => apply frames_bind_get_this; intros ? ?
  | |- frames _ _ (bind _ _) => apply frames_bind
  | |- frames _ _ (try_catch _ _) => apply frames_try
  | |- frames _ _ (if ?b then _ else _) => destruct b
  | |- frames _ _ (match ?x with _ => _ end) => destruct x
  end.

(** ** The verifier *)

Module OfVerifier.
Import Verifier.

Definition any (_ : verifier) : Prop := True.
Definition none (_ : string) : Prop := False.

Ltac go :=
  repeat (intros;
          lazymatch goal with
          | |- frames _ _ (put_this _) => apply frames_put_this; exact Logic.I
          | |- _ => frame_rule
          end).

Lemma frames_log message type : frames any none (log message type).
Proof. unfold log. go. Qed.

Lemma frames_error message : frames any none (error message).
Proof. unfold error, log. go. Qed.

Lemma frames_warning message : frames any none (warning message).
Proof. unfold warning, log. go. Qed.

Lemma frames_log_all lines : frames any none (log_all lines).
Proof.
  induction lines as [|l lines IH]; cbn [log_all]; [apply frames_ret|].
  apply frames_bind; [apply frames_log|intros _; exact IH].
Qed.

Lemma frames_list_all items : frames any none (list_all items).
Proof.
  induction items as [|l items IH]; cbn [list_all]; [apply frames_ret|].
  apply frames_bind; [apply frames_log|intros _; exact IH].
Qed.

Ltac step :=
  repeat (intros;
          lazymatch goal with
          | |- frames _ _ (log _ _) => apply frames_log
          | |- frames _ _ (success _) => apply frames_log
          | |- frames _ _ (error _) => apply frames_error
          | |- frames _ _ (warning _) => apply frames_warning
          | |- frames _ _ (log_all _) => apply frames_log_all
          | |- frames _ _ (list_all _) => apply frames_list_all
          | |- frames _ _ (JSON_parse _) => unfold JSON_parse
          | |- frames _ _ (config_path _) => unfold config_path
          | |- frames _ _ (put_this _) => apply frames_put_this; exact Logic.I
          | |- _ => frame_rule
          end).

Lemma frames_checkSystemDependencies : frames any none checkSystemDependencies.
Proof. unfold checkSystemDependencies. step. Qed.

Lemma frames_checkProjectBuild : frames any none checkProjectBuild.
Proof. unfold checkProjectBuild. step. Qed.

Lemma frames_checkClaudeDesktopConfig : frames any none checkClaudeDesktopConfig.
Proof. unfold checkClaudeDesktopConfig. step. Qed.

Lemma frames_checkClaudeCodeCLI : frames any none checkClaudeCodeCLI.
Proof. unfold checkClaudeCodeCLI. step. Qed.

Lemma frames_checkNotionIntegration : frames any none checkNotionIntegration.
Proof. unfold checkNotionIntegration. step. Qed.

Lemma frames_verify : frames any none verify.
Proof.
  unfold verify.
  repeat (apply frames_bind;
          [first [ apply frames_log | apply frames_checkSystemDependencies
                 | apply frames_checkProjectBuild | apply frames_checkClaudeDesktopConfig
                 | apply frames_checkClaudeCodeCLI | apply frames_checkNotionIntegration ]
          |intros _]).
  step.
Qed.

Lemma frames_constructor : frames any none constructor.
Proof. unfold constructor, getClaudeConfigDir. step. Qed.

Lemma frames_main : frames any none (bind constructor (fun _ => verify)).
Proof. apply frames_bind; [apply frames_constructor|intros _; apply frames_verify]. Qed.

End OfVerifier.

(** X6. The verifier changes no file: a path that none of the commands
    of the machine writes holds after [verify], and after the whole
    script, what it held before, however the run ends. *)
Theorem X6_verifier_changes_no_file (w : world) (q : string) :
  ~ written_by w q ->
  (forall tv, w_fs (Verifier.verify tv w).2 !! q = w_fs w !! q) /\
  w_fs (Verifier.main w).2 !! q = w_fs w !! q.
Proof.
  intros Hq. split.
  - intros tv. destruct (OfVerifier.frames_verify tv w Logic.I) as [_ [_ H]].
    apply H; [intros []|exact Hq].
  - destruct (OfVerifier.frames_main Verifier.blank w Logic.I) as [_ [_ H]].
    unfold Verifier.main.
    destruct (bind Verifier.constructor _ Verifier.blank w) as [[o t] w'].
    apply H; [intros []|exact Hq].
Qed.

Lemma X6_witness :
  (forall tv, w_fs (Verifier.verify tv ExitCodes.world_built).2 !! "/repo/package.json"
              = w_fs ExitCodes.world_built !! "/repo/package.json") /\
  w_fs (Verifier.main ExitCodes.world_built).2 !! "/repo/package.json"
  = w_fs ExitCodes.world_built !! "/repo/package.json".
Proof.
  apply (X6_verifier_changes_no_file ExitCodes.world_built "/repo/package.json").
  apply not_written. vm_compute. reflexivity.
Defined.

(** ** The installer *)

Module OfInstaller.
Import Installer.

Lemma startsWith_append p s : startsWith p (p +:+ s) = true.
Proof.
  unfold startsWith. induction p as [|c p IH]; [reflexivity|].
  rewrite append_cons. cbn [strip_prefix]. now rewrite Ascii.eqb_refl.
Qed.

Section Paths.
Variables plat dir : string.

Definition target : string := InstallerExit.desktop_file plat dir.

(** The object is on the platform [plat] and has the directory [dir]. *)
Definition placed (t : installer) : Prop :=
  platform t = plat /\ claudeConfigDir t = Some dir.

(** The paths [configureClaudeDesktop] may write: the directory, the
    target, and the backups of the target. *)
Definition own (q : string) : Prop :=
  q = dir \/ q = target \/ startsWith (target +:+ ".backup.") q = true.

Lemma own_backup now : own (target +:+ ".backup." +:+ string_of_Z now).
Proof. right. right. rewrite <- append_assoc. apply startsWith_append. Qed.

Lemma placed_config c t : placed t -> placed (with_config c t).
Proof. now intros H. Qed.

Lemma frames_installer_log message type : frames placed own (log message type).
Proof. unfold log. repeat (intros; frame_rule). Qed.

Lemma frames_installer_error message exit : frames placed own (error message exit).
Proof.
  unfold error. apply frames_bind; [apply frames_installer_log|intros _].
  destruct exit; [apply frames_process_exit|apply frames_ret].
Qed.

Lemma frames_installer_log_all lines : frames placed own (log_all lines).
Proof.
  induction lines as [|l lines IH]; cbn [log_all]; [apply frames_ret|].
  apply frames_bind; [apply frames_installer_log|intros _; exact IH].
Qed.

Ltac step :=
  repeat (intros;
          lazymatch goal with
          | |- frames _ _ (log _ _) => apply frames_installer_log
          | |- frames _ _ (success _) => apply frames_installer_log
          | |- frames _ _ (error _ _) => apply frames_installer_error
          | |- frames _ _ (log_all _) => apply frames_installer_log_all
          | |- frames _ _ (JSON_parse _) => unfold JSON_parse
          | |- frames _ _ verbose_stdio => unfold verbose_stdio
          | |- frames _ _ (put_this (with_config _ _)) =>
              apply frames_put_this; apply placed_config; assumption
          | |- _ => frame_rule
          end).

Lemma frames_loadConfig : frames placed own loadConfig.
Proof. unfold loadConfig. step. Qed.

Lemma frames_installer_checkSystemDependencies : frames placed own checkSystemDependencies.
Proof. unfold checkSystemDependencies. step. Qed.

Lemma frames_buildProject : frames placed own buildProject.
Proof. unfold buildProject. step. Qed.

Lemma frames_testNotionMcpServer : frames placed own testNotionMcpServer.
Proof. unfold testNotionMcpServer. step. Qed.

Lemma frames_load_existing : frames placed own (load_existing target).
Proof.
  unfold load_existing.
  apply frames_bind; [apply frames_readFileSync|intros text].
  apply frames_bind; [step|intros claudeConfig].
  apply frames_bind; [step|intros servers].
  apply frames_bind; [step|intros claudeConfig'].
  apply frames_bind; [apply frames_Date_now|intros now].
  apply frames_bind; [apply frames_copyFileSync, own_backup|intros _].
  step.
Qed.

Lemma frames_configureClaudeDesktop : frames placed own configureClaudeDesktop.
Proof.
  unfold configureClaudeDesktop.
  apply frames_bind; [apply frames_installer_log|intros _].
  apply frames_bind_get_this. intros this [Hp Hd]. rewrite Hd. unfold join_under, sep_of.
  rewrite Hp. fold (InstallerExit.desktop_file plat dir). fold target.
  apply frames_bind; [apply frames_existsSync|intros present].
  apply frames_bind.
  { destruct (negb present); [|apply frames_ret].
    apply frames_bind; [apply frames_mkdirSync; now left|intros _].
    apply frames_installer_log. }
  intros _. apply frames_bind_ret.
  apply frames_bind; [apply frames_existsSync|intros present'].
  apply frames_bind.
  { destruct present'; [|apply frames_ret].
    apply frames_try; [apply frames_load_existing|intros e]. step. }
  intros claudeConfig.
  apply frames_bind; [apply frames_lift|intros token].
  apply frames_bind; [apply frames_lift|intros claudeConfig'].
  apply frames_try; [|intros e; apply frames_installer_error].
  apply frames_bind; [apply frames_writeFileSync; right; now left|intros _].
  apply frames_installer_log.
Qed.

Lemma frames_configureClaudeCodeCLI : frames placed own configureClaudeCodeCLI.
Proof. unfold configureClaudeCodeCLI. step. Qed.

Lemma frames_install : frames placed own install.
Proof.
  unfold install. apply frames_try; [|intros e; apply frames_installer_error].
  apply frames_bind; [apply frames_installer_log|intros _].
  apply frames_bind; [apply frames_loadConfig|intros _].
  apply frames_bind; [apply frames_installer_checkSystemDependencies|intros _].
  apply frames_bind; [apply frames_buildProject|intros _].
  apply frames_bind; [apply frames_testNotionMcpServer|intros _].
  apply frames_bind.
  { unfold createClaudeConfig.
    apply frames_bind; [apply frames_installer_log|intros _].
    apply frames_bind; [apply frames_configureClaudeDesktop|intros _].
    apply frames_configureClaudeCodeCLI. }
  intros _. apply frames_bind; [apply frames_installer_log|intros _].
  apply frames_installer_log_all.
Qed.

End Paths.

End OfInstaller.

(** X7. The installer itself writes only the configuration directory
    of the desktop application with the directories above it (which the
    recursive [mkdirSync] makes when they are missing), the
    configuration file in it, and backups of that file: any other path,
    unless one of the commands writes it, holds after the run what it
    held before, however the run ends.  The home directory is a
    normalised path, so that the paths are the ones [path.join] gives;
    a path above the configuration directory is a prefix of it.  On a
    platform the script does not support no file changes. *)
Theorem X7_installer_writes_only_its_own_paths (w : world) (q : string) :
  ~ written_by w q ->
  (forall dir,
     InstallerShapes.config_dir w = Some dir ->
     AfterInstall.tidy (path_sep (w_platform w)) (w_homedir w) = true ->
     startsWith q dir = false ->
     q <> InstallerExit.desktop_file (w_platform w) dir ->
     startsWith (InstallerExit.desktop_file (w_platform w) dir +:+ ".backup.") q = false ->
     w_fs (Installer.main w).2 !! q = w_fs w !! q) /\
  (InstallerShapes.config_dir w = None -> w_fs (Installer.main w).2 = w_fs w).
Proof.
  intros Hq. split.
  - intros dir Hd _ H0 H2 H3.
    assert (H1 : q <> dir).
    { intros ->. pose proof (OfInstaller.startsWith_append dir "") as H.
      rewrite append_nil_r in H. congruence. }
    rewrite (InstallerExit.main_run w dir Hd). cbn [snd].
    destruct (OfInstaller.frames_install (w_platform w) dir (InstallerShapes.built w) w)
      as [_ [_ H]].
    { split; [reflexivity|exact Hd]. }
    apply H; [|exact Hq]. intros [Ho|[Ho|Ho]]; [easy|easy|].
    unfold OfInstaller.target in Ho. congruence.
  - intros Hd. unfold InstallerShapes.config_dir in Hd.
    unfold Installer.main, Installer.constructor, Installer.getClaudeConfigDir.
    rewrite bind_assoc, bind_get_world, bind_assoc, bind_put_this.
    rewrite !bind_assoc, bind_get_this, bind_assoc, bind_get_world.
    cbn [Installer.platform].
    destruct (String.eqb (w_platform w) "win32"); [discriminate|].
    destruct (String.eqb (w_platform w) "darwin"); [discriminate|].
    destruct (String.eqb (w_platform w) "linux"); [discriminate|].
    reflexivity.
Qed.

Lemma X7_witness :
  w_fs (Installer.main ExitCodes.world_ready).2 !! "/repo/package.json"
  = w_fs ExitCodes.world_ready !! "/repo/package.json".
Proof.
  assert (Hq : ~ written_by ExitCodes.world_ready "/repo/package.json").
  { apply not_written. vm_compute. reflexivity. }
  apply (proj1 (X7_installer_writes_only_its_own_paths ExitCodes.world_ready
                  "/repo/package.json" Hq) "/home/u/.config/claude");
    try reflexivity; discriminate.
Defined.

End Footprint.

(** * The build and the test of the server *)

Module BuildFacts.
Import JSON JS Runtime Installer RuntimeFacts JSONFacts DesktopFacts.
Local Open Scope js_scope.

(** What a call of [execSync] that returned has done. *)
Lemma execSync_returns {T} cmd opts (t : T) w out t' w' :
  execSync cmd opts t w = (Ret out, t', w') ->
  t' = t /\
  w_calls w' = w_calls w ++ [(cmd, timeout opts)] /\
  w_console w' = w_console w /\
  exists ms writes,
    w_procs w !! cmd = Some (Succeeds ms out writes) /\
    in_time opts ms = true /\
    w_fs w' = write_all writes (w_fs w) /\
    w_procs w' = w_procs w.
Proof.
  unfold execSync, run_proc, in_time.
  destruct (w_procs w !! cmd) as [[ms o writes|ms err|]|];
    unfold default, from_option, id;
    (destruct (timeout opts) as [z|]; [try destruct (z <? _)%Z eqn:E|]);
    intros H; try discriminate H; injection H as <- <- <-;
    (split; [reflexivity|]); (split; [reflexivity|]); (split; [reflexivity|]);
    exists ms, writes; rewrite ?E; auto.
Qed.

Lemma verbose_stdio_returns this w mode t' w' :
  verbose_stdio this w = (Ret mode, t', w') -> t' = this /\ w' = w.
Proof.
  unfold verbose_stdio. rewrite bind_get_this.
  destruct (get_member (config this) "verbose") as [e|v];
    [rewrite bind_lift_inl; discriminate|rewrite bind_lift_inr].
  now intros [= <- <- <-].
Qed.

(** X8. [buildProject] returns only after [npm install] and
    [npm run build] have both been run, in that order and with no other
    command, and with [bin/cli.mjs] in place: when it returns the object
    is unchanged, the CLI binary exists, and the four lines of a
    successful build have been printed. *)
Theorem X8_build_returns_with_the_binary (this this' : installer) (w w' : world) :
  buildProject this w = (Ret tt, this', w') ->
  this' = this /\
  exists_in w' (cli_binary this) = true /\
  w_calls w' = w_calls w ++ [("npm install", None); ("npm run build", None)] /\
  w_console w' =
    w_console w ++
    [say info this "Building Notion MCP server...";
     say info this "Installing dependencies...";
     say info this "Building project...";
     say good this "Project build completed successfully"].
Proof.
  unfold buildProject. rewrite bind_log. intros E.
  apply try_Ret_inv in E as [E|(e & t1 & w1 & _ & E)].
  2:{ unfold error in E. rewrite bind_log in E. discriminate E. }
  rewrite bind_get_this, bind_log in E.
  apply bind_Ret_inv in E as (mode & t1 & w1 & E1 & E).
  apply verbose_stdio_returns in E1 as [-> ->].
  apply bind_Ret_inv in E as (out1 & t2 & w2 & E2 & E).
  apply execSync_returns in E2 as (-> & Hc2 & Ho2 & _).
  rewrite bind_log in E.
  apply bind_Ret_inv in E as (mode' & t3 & w3 & E3 & E).
  apply verbose_stdio_returns in E3 as [-> ->].
  apply bind_Ret_inv in E as (out2 & t4 & w4 & E4 & E).
  apply execSync_returns in E4 as (-> & Hc4 & Ho4 & _).
  rewrite bind_existsSync in E.
  destruct (exists_in w4 (cli_binary this)) eqn:Hex; cbn [negb] in E; [|discriminate E].
  unfold success in E. rewrite log_run in E. injection E as <- <-.
  split; [reflexivity|]. split; [exact Hex|].
  cbn [said set_console w_calls w_console] in *.
  rewrite Hc4, Hc2, Ho4, Ho2. cbn [said set_console w_calls w_console].
  rewrite <- !app_assoc. now split.
Qed.

(** [this.config] is [null]: the options of the first command cannot be
    built. *)
Lemma buildProject_null this w :
  config this = JNull ->
  buildProject this w =
  (Exit 1%Z, this,
   said [say info this "Building Notion MCP server...";
         say info this "Installing dependencies...";
         say failure this
           "Failed to build project: Cannot read properties of null (reading 'verbose')"] w).
Proof.
  intros Hc. unfold buildProject. rewrite bind_log.
  rewrite (try_Throw _ _ _ _ "Cannot read properties of null (reading 'verbose')" this
             (said [say info this "Installing dependencies..."]
                (said [say info this "Building Notion MCP server..."] w))).
  - unfold error. rewrite bind_log, !said_said. reflexivity.
  - rewrite bind_get_this, bind_log. unfold verbose_stdio.
    rewrite bind_assoc, bind_get_this, Hc. cbn [get_member].
    rewrite bind_assoc, bind_lift_inl. reflexivity.
Qed.

(** ** [testNotionMcpServer] *)

Definition USAGE : string := "Usage: notion-mcp-server".

(** The test command answers within 15 seconds with the usage text. *)
Definition answers_usage (this : installer) (w : world) : Prop :=
  exists ms out writes,
    w_procs w !! TimeoutFacts.help_command (cli_binary this) = Some (Succeeds ms out writes) /\
    (ms <= 15000)%Z /\ includes USAGE out = true.

Lemma testNotionMcpServer_passes this w :
  answers_usage this w ->
  (testNotionMcpServer this w).1 = (Ret tt, this) /\
  w_console (testNotionMcpServer this w).2 =
    w_console w ++
    [say info this "Testing Notion MCP server...";
     say good this "Notion MCP server test completed successfully"].
Proof.
  intros (ms & out & writes & Hp & Hms & Hu).
  unfold testNotionMcpServer. rewrite bind_log.
  set (w1 := said _ w).
  set (opts := ExecOptions None pipe (Some 15000%Z)).
  assert (Ht : in_time opts ms = true).
  { unfold in_time, opts. cbn [timeout]. apply negb_true_iff, Z.ltb_ge. exact Hms. }
  pose proof (execSync_succeeds (T := installer)
                (TimeoutFacts.help_command (cli_binary this)) opts ms out writes
                this w1 Hp Ht) as E.
  unfold TimeoutFacts.help_command in E.
  set (w2 := advance ms _) in E.
  rewrite (try_Ret _ _ _ _ tt this
             (said [say good this "Notion MCP server test completed successfully"] w2)).
  - unfold w2, w1, said, advance, set_fs, set_now, set_console, called, set_calls.
    cbn [fst snd w_console]. rewrite <- app_assoc. now split.
  - rewrite bind_get_this, (bind_Ret _ _ _ _ _ _ _ E). fold USAGE. rewrite Hu.
    unfold success. apply log_run.
Qed.

Lemma testNotionMcpServer_returns this w this' w' :
  testNotionMcpServer this w = (Ret tt, this', w') -> answers_usage this w.
Proof.
  unfold testNotionMcpServer. rewrite bind_log. intros E.
  apply try_Ret_inv in E as [E|(e & t1 & w1 & _ & E)].
  2:{ unfold error in E. rewrite bind_log in E. discriminate E. }
  rewrite bind_get_this in E.
  apply bind_Ret_inv in E as (out & t2 & w2 & E2 & E).
  apply execSync_returns in E2 as (-> & _ & _ & ms & writes & Hp & Ht & _).
  fold USAGE in E. destruct (includes USAGE out) eqn:Hu; [|discriminate E].
  exists ms, out, writes. split; [exact Hp|]. split; [|exact Hu].
  unfold in_time in Ht. cbn in Ht. apply negb_true_iff, Z.ltb_ge in Ht. exact Ht.
Qed.

(** ** The theorems *)

Definition world_ready0 : world :=
  World "linux" "/home/u" "/repo/scripts" ["node"; "/repo/scripts/install.cjs"] ∅
    ∅ ∅ ∅ ExitCodes.ready_procs T0 [] [].

Lemma X8_witness :
  exists_in (buildProject this0 world_ready0).2 (cli_binary this0) = true /\
  w_calls (buildProject this0 world_ready0).2 =
    [("npm install", None); ("npm run build", None)].
Proof.
  destruct (X8_build_returns_with_the_binary this0 (buildProject this0 world_ready0).1.2
              world_ready0 (buildProject this0 world_ready0).2)
    as (_ & H1 & H2 & _); [vm_compute; reflexivity|].
  split; [exact H1|exact H2].
Defined.

(** X9. When the configuration of the installer is [null] (the
    configuration file holds the JSON text [null], which [loadConfig]
    accepts), [buildProject] ends the process with code 1 before any
    command is run: reading [this.config.verbose] throws, and the error
    is reported as a failure of the build. *)
Theorem X9_null_configuration_stops_the_build (this : installer) (w : world) :
  config this = JNull ->
  buildProject this w =
  (Exit 1%Z, this,
   said [say info this "Building Notion MCP server...";
         say info this "Installing dependencies...";
         say failure this
           "Failed to build project: Cannot read properties of null (reading 'verbose')"] w) /\
  w_calls (buildProject this w).2 = w_calls w /\
  w_fs (buildProject this w).2 = w_fs w.
Proof.
  intros Hc. rewrite (buildProject_null this w Hc). now repeat split.
Qed.

Lemma X9_witness :
  buildProject (with_config JNull this0) world_ready0 =
  (Exit 1%Z, with_config JNull this0,
   said [say info this0 "Building Notion MCP server...";
         say info this0 "Installing dependencies...";
         say failure this0
           "Failed to build project: Cannot read properties of null (reading 'verbose')"]
     world_ready0) /\
  w_calls (buildProject (with_config JNull this0) world_ready0).2 = [] /\
  w_fs (buildProject (with_config JNull this0) world_ready0).2 = ∅.
Proof.
  apply (X9_null_configuration_stops_the_build (with_config JNull this0) world_ready0).
  reflexivity.
Defined.

(** X10. [testNotionMcpServer] returns exactly when the command
    [node "<cli>" --help] succeeds within 15 seconds and its output
    contains [Usage: notion-mcp-server]; in every other case it ends the
    process with code 1. *)
Theorem X10_test_passes_exactly_on_the_usage_text (this : installer) (w : world) :
  ((testNotionMcpServer this w).1.1 = Ret tt <-> answers_usage this w) /\
  ((testNotionMcpServer this w).1.1 <> Ret tt ->
   (testNotionMcpServer this w).1.1 = Exit 1%Z).
Proof.
  split; [split|].
  - intros H. destruct (testNotionMcpServer this w) as [[o t] w'] eqn:E.
    cbn in H. subst o. exact (testNotionMcpServer_returns this w t w' E).
  - intros H. destruct (testNotionMcpServer_passes this w H) as [E _]. now rewrite E.
  - intros H. destruct (TimeoutFacts.testNotionMcpServer_ends this w) as [E|E];
      [contradiction|exact E].
Qed.

End BuildFacts.

(** * The checks of the verifier *)

Module CheckFacts.
Import JSON JS Runtime Verifier RuntimeFacts JSONFacts Shapes.

Definition says (tv : verifier) (type : level) (message : string) : string :=
  line type (logPrefix tv) message.

(** ** [checkClaudeCodeCLI] *)

Definition CLI_NOT_FOUND : string :=
  "Claude Code CLI not found - cannot verify MCP configuration".

Section Registry.
Variables (tv : verifier) (w : world).

Lemma registry_without_claude :
  fails (w_procs w !! "claude --version") = true ->
  (checkClaudeCodeCLI tv w).1 =
    (Ret tt, with_warnings (warnings tv ++ [CLI_NOT_FOUND]) tv) /\
  w_calls (checkClaudeCodeCLI tv w).2 = w_calls w ++ [("claude --version", None)] /\
  w_console (checkClaudeCodeCLI tv w).2 =
    w_console w ++
    [says tv info "Checking Claude Code CLI configuration...";
     says tv caution CLI_NOT_FOUND].
Proof.
  intros Hf.
  cbv [checkClaudeCodeCLI bind try_catch log error warning success get_this put_this
       console_log ret execSync run_proc plain_options timeout].
  cbn [w_procs set_console set_calls].
  destruct (w_procs w !! "claude --version") as [[ms out writes|ms err|]|];
    try discriminate Hf; cbn; rewrite <- !app_assoc; now repeat split.
Qed.

Variables (ms : Z) (out : string) (writes : list (string * string)).
Variables (ms' : Z) (result : string) (writes' : list (string * string)).
Hypothesis Hversion : w_procs w !! "claude --version" = Some (Succeeds ms out writes).
Hypothesis Hlist : w_procs w !! "claude mcp list" = Some (Succeeds ms' result writes').
Hypothesis Htime : (ms' <= 30000)%Z.

(** What the listing is taken to say. *)
Definition reading : level * string :=
  if includes "notion-mcp" result then
    if includes "✓ Connected" result then
      (good, "Notion MCP server is connected in Claude Code CLI")
    else if includes "✗ Failed to connect" result then
      (caution, "Notion MCP server found but failed to connect in Claude Code CLI")
    else (caution, "Notion MCP server found with unknown status in Claude Code CLI")
  else (caution, "Notion MCP server not found in Claude Code CLI configuration").

Lemma registry_listed :
  (checkClaudeCodeCLI tv w).1 =
    (Ret tt,
     match reading.1 with
     | caution => with_warnings (warnings tv ++ [reading.2]) tv
     | _ => tv
     end) /\
  w_console (checkClaudeCodeCLI tv w).2 =
    w_console w ++
    [says tv info "Checking Claude Code CLI configuration...";
     says tv reading.1 reading.2].
Proof.
  cbv [checkClaudeCodeCLI bind try_catch log error warning success get_this put_this
       console_log ret].
  rewrite (execSync_succeeds "claude --version" plain_options ms out writes tv
             (set_console _ w) Hversion eq_refl).
  cbv [negb].
  assert (Ht : in_time (ExecOptions None pipe (Some 30000%Z)) ms' = true).
  { unfold in_time. cbn [timeout]. apply negb_true_iff, Z.ltb_ge. exact Htime. }
  match goal with
  | |- context [execSync "claude mcp list" ?o ?t ?W] =>
      rewrite (execSync_succeeds "claude mcp list" o ms' result writes' t W Hlist Ht)
  end.
  unfold reading.
  destruct (includes "notion-mcp" result);
    [destruct (includes "✓ Connected" result);
     [|destruct (includes "✗ Failed to connect" result)]|];
    cbn; rewrite <- !app_assoc; now split.
Qed.

End Registry.

(** A listing in which another server is connected and the Notion
    server failed to connect. *)
Definition listing_mixed : string :=
  "files: npx files-mcp - ✓ Connected" +:+ String LF
  "notion-mcp: node /repo/bin/cli.mjs - ✗ Failed to connect".

Definition world_listing : world :=
  World "linux" "/home/u" "/repo/scripts" ["node"; "/repo/scripts/verify.cjs"] ∅
    ∅ ∅ ∅
    {[ "claude --version" := Succeeds 20 "1.0.0" [];
       "claude mcp list" := Succeeds 900 listing_mixed [] ]}
    DesktopFacts.T0 [] [].

(** X11. [checkClaudeCodeCLI], when [claude --version] succeeds and
    [claude mcp list] answers within 30 seconds: the two marks are looked
    for in the whole output, so an output that contains [notion-mcp] and,
    anywhere, [✓ Connected] is reported as connected, with no warning,
    whatever else it contains; an output without [notion-mcp] gives the
    warning that the server was not found; and whatever the output
    says, no error is recorded. *)
Theorem X11_connected_anywhere_counts
    (tv : verifier) (w : world) (ms ms' : Z) (out result : string)
    (writes writes' : list (string * string)) :
  w_procs w !! "claude --version" = Some (Succeeds ms out writes) ->
  w_procs w !! "claude mcp list" = Some (Succeeds ms' result writes') ->
  (ms' <= 30000)%Z ->
  (includes "notion-mcp" result = true -> includes "✓ Connected" result = true ->
   (checkClaudeCodeCLI tv w).1 = (Ret tt, tv) /\
   w_console (checkClaudeCodeCLI tv w).2 =
     w_console w ++
     [says tv info "Checking Claude Code CLI configuration...";
      says tv good "Notion MCP server is connected in Claude Code CLI"]) /\
  (includes "notion-mcp" result = false ->
   (checkClaudeCodeCLI tv w).1 =
     (Ret tt,
      with_warnings
        (warnings tv ++ ["Notion MCP server not found in Claude Code CLI configuration"])
        tv)) /\
  errors (checkClaudeCodeCLI tv w).1.2 = errors tv.
Proof.
  intros Hv Hl Ht.
  destruct (registry_listed tv w ms out writes ms' result writes' Hv Hl Ht) as [E Ec].
  unfold reading in E, Ec. split; [|split].
  - intros H1 H2. rewrite H1, H2 in E, Ec. now split.
  - intros H1. rewrite H1 in E. exact E.
  - rewrite E. cbn [fst snd].
    destruct (includes "notion-mcp" result);
      [destruct (includes "✓ Connected" result);
       [|destruct (includes "✗ Failed to connect" result)]|]; reflexivity.
Qed.

Lemma X11_witness :
  includes "✗ Failed to connect" listing_mixed = true /\
  (checkClaudeCodeCLI AfterInstall.tv0 world_listing).1 = (Ret tt, AfterInstall.tv0) /\
  w_console (checkClaudeCodeCLI AfterInstall.tv0 world_listing).2 =
    [says AfterInstall.tv0 info "Checking Claude Code CLI configuration...";
     says AfterInstall.tv0 good "Notion MCP server is connected in Claude Code CLI"].
Proof.
  split; [reflexivity|].
  apply (proj1 (X11_connected_anywhere_counts AfterInstall.tv0 world_listing 20 900 "1.0.0"
                  listing_mixed [] [] eq_refl eq_refl ltac:(lia))); reflexivity.
Defined.

(** X12. [checkClaudeCodeCLI], when [claude --version] fails or the
    command is not found: one warning is recorded and no error, and the
    listing is not attempted, the version query being the only command
    run. *)
Theorem X12_missing_claude_is_a_warning (tv : verifier) (w : world) :
  fails (w_procs w !! "claude --version") = true ->
  (checkClaudeCodeCLI tv w).1 =
    (Ret tt, with_warnings (warnings tv ++ [CLI_NOT_FOUND]) tv) /\
  errors (checkClaudeCodeCLI tv w).1.2 = errors tv /\
  w_calls (checkClaudeCodeCLI tv w).2 = w_calls w ++ [("claude --version", None)].
Proof.
  intros Hf. destruct (registry_without_claude tv w Hf) as (E & Hc & _).
  split; [exact E|]. split; [now rewrite E|exact Hc].
Qed.

Lemma X12_witness :
  (checkClaudeCodeCLI AfterInstall.tv0 ExitCodes.world_built).1 =
    (Ret tt, with_warnings [CLI_NOT_FOUND] AfterInstall.tv0) /\
  errors (checkClaudeCodeCLI AfterInstall.tv0 ExitCodes.world_built).1.2 = [] /\
  w_calls (checkClaudeCodeCLI AfterInstall.tv0 ExitCodes.world_built).2 =
    [("claude --version", None)].
Proof.
  apply (X12_missing_claude_is_a_warning AfterInstall.tv0 ExitCodes.world_built).
  reflexivity.
Defined.

(** ** [checkClaudeDesktopConfig] *)

Definition config_file (tv : verifier) (dir : string) : string :=
  path_join (sep_of tv) [dir; "claude_desktop_config.json"].

Definition COMMAND_WARNING : string :=
  "Claude Desktop config command should be " +:+ quoted "node".
Definition ARGS_WARNING : string :=
  "Claude Desktop config args do not point to correct CLI binary".
Definition ENV_WARNING : string :=
  "NOTION_TOKEN not configured in Claude Desktop (may need to be set manually)".

Section Desktop.
Variables (tv : verifier) (w : world) (dir : string).
Hypothesis Hdir : claudeConfigDir tv = Some dir.

Let path := config_file tv dir.
Let w1 := set_console
            (w_console w ++ [says tv info "Checking Claude Desktop configuration..."]) w.

Lemma desktop_absent :
  exists_in w path = false ->
  checkClaudeDesktopConfig tv w =
  (Ret tt, with_warnings (warnings tv ++ ["Claude Desktop config file not found"]) tv,
   set_console (w_console w1 ++ [says tv caution "Claude Desktop config file not found"]) w1).
Proof.
  intros He. unfold checkClaudeDesktopConfig.
  rewrite VerifierExit.verifier_bind_log, bind_get_this.
  unfold config_path. rewrite Hdir, bind_ret, bind_existsSync.
  fold (config_file tv dir). fold path.
  change (exists_in (set_console _ w) path) with (exists_in w path). rewrite He.
  reflexivity.
Qed.

(** The body of the [try] has thrown [message]. *)
Lemma desktop_caught message :
  exists_in w path = true ->
  (read_in w path = inl message \/
   exists text,
     read_in w path = inr text /\
     (parse text = None /\ message = "Unexpected token in JSON" \/
      parse text = Some JNull /\
      message = "Cannot read properties of null (reading 'mcpServers')")) ->
  checkClaudeDesktopConfig tv w =
  (Ret tt,
   with_errors (errors tv ++ ["Failed to parse Claude Desktop config: " +:+ message]) tv,
   set_console
     (w_console w1 ++
      [says tv failure ("Failed to parse Claude Desktop config: " +:+ message)]) w1).
Proof.
  intros He Hcase. unfold checkClaudeDesktopConfig.
  rewrite VerifierExit.verifier_bind_log, bind_get_this.
  unfold config_path. rewrite Hdir, bind_ret, bind_existsSync.
  fold (config_file tv dir). fold path.
  change (exists_in (set_console _ w) path) with (exists_in w path). rewrite He.
  cbn [negb]. fold w1.
  rewrite (try_Throw _ _ _ _ message tv w1); [reflexivity|].
  destruct Hcase as [Hr|(text & Hr & [[Hp ->]|[Hp ->]])].
  - now rewrite (bind_readFileSync_err _ _ _ _ _ (Hr : read_in w1 path = inl message)).
  - rewrite (bind_readFileSync_ok _ _ _ _ _ (Hr : read_in w1 path = inr text)).
    unfold JSON_parse. now rewrite Hp.
  - rewrite (bind_readFileSync_ok _ _ _ _ _ (Hr : read_in w1 path = inr text)).
    unfold JSON_parse. now rewrite Hp.
Qed.

(** An entry that is an object without [args] and without [env]. *)
Lemma desktop_bare_entry text o m e :
  read_in w path = inr text ->
  parse text = Some (JObject o) ->
  obj_get "mcpServers" o = Some (JObject m) ->
  obj_get "notion-mcp" m = Some (JObject e) ->
  obj_get "args" e = None ->
  obj_get "env" e = None ->
  let complaints :=
    (if is_string "node" (obj_get "command" e) then [] else [COMMAND_WARNING])
    ++ [ARGS_WARNING; ENV_WARNING] in
  checkClaudeDesktopConfig tv w =
  (Ret tt, with_warnings (warnings tv ++ complaints) tv,
   set_console
     (w_console w1 ++ map (says tv caution) complaints ++
      [says tv good "Claude Desktop configuration looks correct"]) w1).
Proof.
  intros Hr Hp Hs Hn Ha Hv. cbv zeta. unfold checkClaudeDesktopConfig.
  rewrite VerifierExit.verifier_bind_log, bind_get_this.
  unfold config_path. rewrite Hdir, bind_ret, bind_existsSync.
  fold (config_file tv dir). fold path.
  change (exists_in (set_console _ w) path) with (exists_in w path).
  rewrite (ConfigFacts.read_in_exists w path text Hr). cbn [negb]. fold w1.
  apply try_Ret.
  rewrite (bind_readFileSync_ok _ _ _ _ _ (Hr : read_in w1 path = inr text)).
  unfold JSON_parse. rewrite Hp, bind_ret. cbn [get_member].
  rewrite Hs, bind_lift_inr. cbn [truthy negb get_member].
  rewrite Hn, bind_lift_inr. cbn [truthy negb get_member].
  rewrite bind_lift_inr, Ha, Hv. fold COMMAND_WARNING ARGS_WARNING ENV_WARNING.
  destruct (is_string "node" (obj_get "command" e)); cbn [negb app map];
    cbv [bind lift ret warning success log get_this put_this console_log negb];
    cbn; rewrite <- ?app_assoc; reflexivity.
Qed.

End Desktop.

Definition NULL_MEMBER : string :=
  "Cannot read properties of null (reading 'mcpServers')".

Definition world_bare_entry : world :=
  DesktopFacts.world_of (DesktopFacts.fs_with (DesktopFacts.sq "{'mcpServers':{'notion-mcp':{'command':'npx'}}}")) ∅ DesktopFacts.T0.

Definition world_null : world := DesktopFacts.world_of (DesktopFacts.fs_with "null") ∅ DesktopFacts.T0.

(** X13. [checkClaudeDesktopConfig], when the file holds a document whose
    [mcpServers["notion-mcp"]] is an object without [args] and without
    [env]: the call returns, it records the warning about the arguments
    and the warning about the token (after the one about the command when
    that is not the string [node]) and no error, and the line it prints
    last is still "Claude Desktop configuration looks correct". *)
Theorem X13_looks_correct_is_printed_after_warnings
    (tv : verifier) (w : world) (dir text : string) o m e :
  claudeConfigDir tv = Some dir ->
  read_in w (config_file tv dir) = inr text ->
  parse text = Some (JObject o) ->
  obj_get "mcpServers" o = Some (JObject m) ->
  obj_get "notion-mcp" m = Some (JObject e) ->
  obj_get "args" e = None ->
  obj_get "env" e = None ->
  let result := checkClaudeDesktopConfig tv w in
  result.1.1 = Ret tt /\
  warnings result.1.2 =
    warnings tv
    ++ (if is_string "node" (obj_get "command" e) then [] else [COMMAND_WARNING])
    ++ [ARGS_WARNING; ENV_WARNING] /\
  errors result.1.2 = errors tv /\
  last (w_console result.2) =
    Some (says tv good "Claude Desktop configuration looks correct").
Proof.
  intros Hdir Hr Hp Hs Hn Ha Hv. cbv zeta.
  rewrite (desktop_bare_entry tv w dir Hdir text o m e Hr Hp Hs Hn Ha Hv).
  cbn [fst snd warnings errors with_warnings w_console set_console].
  repeat split. now rewrite !app_assoc, last_snoc.
Qed.

Lemma X13_witness :
  let result := checkClaudeDesktopConfig AfterInstall.tv0 world_bare_entry in
  result.1.1 = Ret tt /\
  warnings result.1.2 = [COMMAND_WARNING; ARGS_WARNING; ENV_WARNING] /\
  errors result.1.2 = [] /\
  last (w_console result.2) =
    Some (says AfterInstall.tv0 good "Claude Desktop configuration looks correct").
Proof.
  apply (X13_looks_correct_is_printed_after_warnings AfterInstall.tv0 world_bare_entry DesktopFacts.dir0
           (DesktopFacts.sq "{'mcpServers':{'notion-mcp':{'command':'npx'}}}")
           [("mcpServers", JObject [("notion-mcp", JObject [("command", JString "npx")])])]
           [("notion-mcp", JObject [("command", JString "npx")])]
           [("command", JString "npx")]);
    vm_compute; reflexivity.
Defined.

(** X14. [checkClaudeDesktopConfig], when the file exists but cannot be
    read, or its text is not JSON, or its text is JSON for [null]: the
    call returns with one more error, the message of the exception after
    "Failed to parse Claude Desktop config: ", and with the warnings it
    had. *)
Theorem X14_unusable_desktop_file_is_an_error
    (tv : verifier) (w : world) (dir message : string) :
  claudeConfigDir tv = Some dir ->
  exists_in w (config_file tv dir) = true ->
  (read_in w (config_file tv dir) = inl message \/
   exists text,
     read_in w (config_file tv dir) = inr text /\
     (parse text = None /\ message = "Unexpected token in JSON" \/
      parse text = Some JNull /\ message = NULL_MEMBER)) ->
  (checkClaudeDesktopConfig tv w).1 =
  (Ret tt,
   with_errors (errors tv ++ ["Failed to parse Claude Desktop config: " +:+ message]) tv).
Proof.
  intros Hdir He Hcase.
  now rewrite (desktop_caught tv w dir Hdir message He Hcase).
Qed.

Lemma X14_witness :
  (checkClaudeDesktopConfig AfterInstall.tv0 world_null).1 =
  (Ret tt,
   with_errors ["Failed to parse Claude Desktop config: " +:+ NULL_MEMBER] AfterInstall.tv0).
Proof.
  apply (X14_unusable_desktop_file_is_an_error AfterInstall.tv0 world_null DesktopFacts.dir0 NULL_MEMBER);
    [reflexivity|reflexivity|].
  right. exists "null". split; [reflexivity|]. right. split; reflexivity.
Defined.

(** X15. [checkClaudeDesktopConfig], when the file does not exist: the
    call returns with one more warning, "Claude Desktop config file not
    found", and with the errors it had. *)
Theorem X15_missing_desktop_file_is_a_warning (tv : verifier) (w : world) (dir : string) :
  claudeConfigDir tv = Some dir ->
  exists_in w (config_file tv dir) = false ->
  (checkClaudeDesktopConfig tv w).1 =
  (Ret tt, with_warnings (warnings tv ++ ["Claude Desktop config file not found"]) tv).
Proof.
  intros Hdir He. now rewrite (desktop_absent tv w dir Hdir He).
Qed.

Lemma X15_witness :
  (checkClaudeDesktopConfig AfterInstall.tv0 AfterInstall.world_new).1 =
  (Ret tt, with_warnings ["Claude Desktop config file not found"] AfterInstall.tv0).
Proof.
  apply (X15_missing_desktop_file_is_a_warning AfterInstall.tv0 AfterInstall.world_new DesktopFacts.dir0);
    reflexivity.
Defined.


End CheckFacts.

(** * What the verifier has recorded when it ends *)

Module Recorded.
Import JSON JS Runtime Verifier RuntimeFacts JSONFacts Shapes Footprint.
Local Open Scope js_scope.

(** [t] is [t0] with, maybe, more errors and more warnings at the end of
    its lists. *)
Definition grown (t0 t : verifier) : Prop :=
  platform t = platform t0 /\ projectRoot t = projectRoot t0 /\
  claudeConfigDir t = claudeConfigDir t0 /\ logPrefix t = logPrefix t0 /\
  (exists more, errors t = errors t0 ++ more) /\
  (exists more, warnings t = warnings t0 ++ more).

Lemma grown_refl t : grown t t.
Proof. repeat split; exists []; now rewrite app_nil_r. Qed.

Lemma grown_trans t0 t1 t2 : grown t0 t1 -> grown t1 t2 -> grown t0 t2.
Proof.
  intros (H1 & H2 & H3 & H4 & [e1 He1] & [l1 Hl1]) (K1 & K2 & K3 & K4 & [e2 He2] & [l2 Hl2]).
  repeat split; try congruence.
  - exists (e1 ++ e2). now rewrite He2, He1, app_assoc.
  - exists (l1 ++ l2). now rewrite Hl2, Hl1, app_assoc.
Qed.

Lemma grown_error t0 t message :
  grown t0 t -> grown t0 (with_errors (errors t ++ [message]) t).
Proof.
  intros (H1 & H2 & H3 & H4 & [e He] & Hl). repeat split; try assumption.
  exists (e ++ [message]). cbn. now rewrite He, app_assoc.
Qed.

Lemma grown_warning t0 t message :
  grown t0 t -> grown t0 (with_warnings (warnings t ++ [message]) t).
Proof.
  intros (H1 & H2 & H3 & H4 & He & [l Hl]). repeat split; try assumption.
  exists (l ++ [message]). cbn. now rewrite Hl, app_assoc.
Qed.

(** Errors that were recorded stay. *)
Lemma grown_clean t0 t : grown t0 t -> errors t = errors t0 -> forall t1,
  grown t0 t1 -> grown t1 t -> errors t1 = errors t0.
Proof.
  intros _ E t1 (_ & _ & _ & _ & [e1 He1] & _) (_ & _ & _ & _ & [e2 He2] & _).
  rewrite He1, <- app_assoc in He2. rewrite E in He2.
  rewrite <- (app_nil_r (errors t0)) in He2 at 1.
  apply app_inv_head in He2. symmetry in He2. apply app_eq_nil in He2 as [-> _].
  now rewrite He1, app_nil_r.
Qed.

Definition nowhere (_ : string) : Prop := False.

(** [m] only adds to the two lists of the object, and writes no file. *)
Definition grows {A} (m : M verifier A) : Prop :=
  forall t0, frames (grown t0) nowhere m.

Section Steps.
Variable t0 : verifier.

Lemma grows_log message type : frames (grown t0) nowhere (log message type).
Proof. unfold log. repeat (intros; frame_rule). Qed.

Lemma grows_error message : frames (grown t0) nowhere (error message).
Proof.
  unfold error. apply frames_bind_get_this. intros a Ha.
  apply frames_bind; [apply frames_put_this; now apply grown_error|intros _].
  apply grows_log.
Qed.

Lemma grows_warning message : frames (grown t0) nowhere (warning message).
Proof.
  unfold warning. apply frames_bind_get_this. intros a Ha.
  apply frames_bind; [apply frames_put_this; now apply grown_warning|intros _].
  apply grows_log.
Qed.

Lemma grows_log_all lines : frames (grown t0) nowhere (log_all lines).
Proof.
  induction lines as [|l lines IH]; cbn [log_all]; [apply frames_ret|].
  apply frames_bind; [apply grows_log|intros _; exact IH].
Qed.

Lemma grows_list_all items : frames (grown t0) nowhere (list_all items).
Proof.
  induction items as [|l items IH]; cbn [list_all]; [apply frames_ret|].
  apply frames_bind; [apply grows_log|intros _; exact IH].
Qed.

Ltac step :=
  repeat (intros;
          lazymatch goal with
          | |- frames _ _ (log _ _) => apply grows_log
          | |- frames _ _ (success _) => apply grows_log
          | |- frames _ _ (error _) => apply grows_error
          | |- frames _ _ (warning _) => apply grows_warning
          | |- frames _ _ (log_all _) => apply grows_log_all
          | |- frames _ _ (list_all _) => apply grows_list_all
          | |- frames _ _ (JSON_parse _) => unfold JSON_parse
          | |- frames _ _ (config_path _) => unfold config_path
          | |- _ => frame_rule
          end).

Lemma grows_checkSystemDependencies : frames (grown t0) nowhere checkSystemDependencies.
Proof. unfold checkSystemDependencies. step. Qed.

Lemma grows_checkProjectBuild : frames (grown t0) nowhere checkProjectBuild.
Proof. unfold checkProjectBuild. step. Qed.

Lemma grows_checkClaudeDesktopConfig : frames (grown t0) nowhere checkClaudeDesktopConfig.
Proof. unfold checkClaudeDesktopConfig. step. Qed.

Lemma grows_checkClaudeCodeCLI : frames (grown t0) nowhere checkClaudeCodeCLI.
Proof. unfold checkClaudeCodeCLI. step. Qed.

Lemma grows_checkNotionIntegration : frames (grown t0) nowhere checkNotionIntegration.
Proof. unfold checkNotionIntegration. step. Qed.

Lemma grows_verify : frames (grown t0) nowhere verify.
Proof.
  unfold verify.
  repeat (apply frames_bind;
          [first [ apply grows_log | apply grows_checkSystemDependencies
                 | apply grows_checkProjectBuild | apply grows_checkClaudeDesktopConfig
                 | apply grows_checkClaudeCodeCLI | apply grows_checkNotionIntegration ]
          |intros _]).
  step.
Qed.

End Steps.

(** One step of a run that returned: where [m] left the object and the
    world, and the rest of the run from there. *)
Lemma grows_step {A B} (m : M verifier A) (k : A -> M verifier B) t w b t' w' :
  (forall t0, frames (grown t0) nowhere m) ->
  bind m k t w = (Ret b, t', w') ->
  exists a t1 w1,
    m t w = (Ret a, t1, w1) /\ k a t1 w1 = (Ret b, t', w') /\
    grown t t1 /\ w_procs w1 = w_procs w.
Proof.
  intros Hm E. apply bind_Ret_inv in E as (a & t1 & w1 & E1 & E).
  exists a, t1, w1. split; [exact E1|]. split; [exact E|].
  destruct (Hm t t w (grown_refl t)) as [Hg [Hp _]]. rewrite E1 in Hg, Hp. now split.
Qed.

(** ** What a check that recorded no error has seen *)

Ltac longer H :=
  apply (f_equal (@length string)) in H; cbn in H; rewrite ?length_app in H; cbn in H; lia.

Definition runtime_ok (w : world) : Prop :=
  exists ms out writes,
    w_procs w !! "node --version" = Some (Succeeds ms out writes) /\
    lt_number (versionNum (trim out)) 16 = false.

Definition npm_ok (w : world) : Prop :=
  exists ms out writes, w_procs w !! "npm --version" = Some (Succeeds ms out writes).

Definition help_command (t : verifier) : string :=
  "node " +:+ quoted (cli_binary t) +:+ " --help".

Definition help_ok (t : verifier) (w : world) : Prop :=
  exists ms out writes,
    w_procs w !! help_command t = Some (Succeeds ms out writes) /\
    (ms <= 10000)%Z /\ includes "Usage: notion-mcp-server" out = true.

Definition registry_ok (w : world) : Prop :=
  fails (w_procs w !! "claude --version") = true \/
  exists ms out writes,
    w_procs w !! "claude mcp list" = Some (Succeeds ms out writes) /\ (ms <= 30000)%Z.

Lemma dependencies_clean t w t' w' :
  checkSystemDependencies t w = (Ret tt, t', w') -> errors t' = errors t ->
  runtime_ok w /\ npm_ok w.
Proof.
  cbv [checkSystemDependencies bind try_catch log error success get_this put_this
       console_log ret execSync run_proc plain_options timeout].
  cbn [w_procs set_console set_calls].
  destruct (w_procs w !! "node --version") as [[ms out writes|ms err|]|] eqn:Hn;
    unfold default, from_option, id; cbn; try discriminate;
    try destruct (lt_number (versionNum (trim out)) 16) eqn:Hlt; cbn;
    (destruct (w_procs w !! "npm --version") as [[ms2 out2 writes2|ms2 err2|]|] eqn:Hm;
     cbn; try discriminate; intros E He; injection E as <- _; cbn in He; try longer He).
  split; [now exists ms, out, writes|now exists ms2, out2, writes2].
Qed.

Definition node_modules (t : verifier) : string :=
  path_join (sep_of t) [projectRoot t; "node_modules"].

Lemma verifier_error_run message t w :
  error message t w =
  (Ret tt, with_errors (errors t ++ [message]) t,
   set_console (w_console w ++ [line failure (logPrefix t) message]) w).
Proof. reflexivity. Qed.

Lemma verifier_warning_run message t w :
  warning message t w =
  (Ret tt, with_warnings (warnings t ++ [message]) t,
   set_console (w_console w ++ [line caution (logPrefix t) message]) w).
Proof. reflexivity. Qed.

Lemma verifier_log_run message type t w :
  log message type t w =
  (Ret tt, t, set_console (w_console w ++ [line type (logPrefix t) message]) w).
Proof. reflexivity. Qed.

Lemma execSync_this {T} cmd opts (t : T) w o t1 w1 :
  execSync cmd opts t w = (o, t1, w1) -> t1 = t.
Proof.
  unfold execSync. destruct (run_proc _ _ _ _) as [o' w2]. now intros [= _ <- _].
Qed.

Lemma build_clean t w t' w' :
  checkProjectBuild t w = (Ret tt, t', w') -> errors t' = errors t ->
  exists_in w (node_modules t) = true /\ exists_in w (cli_binary t) = true /\ help_ok t w.
Proof.
  intros E He. unfold checkProjectBuild in E.
  rewrite VerifierExit.verifier_bind_log, bind_get_this, bind_existsSync in E.
  fold (node_modules t) in E.
  change (exists_in (set_console _ w) (node_modules t))
    with (exists_in w (node_modules t)) in E.
  destruct (exists_in w (node_modules t)); cbn [negb] in E.
  2:{ rewrite verifier_error_run in E. injection E as <- _. cbn in He. longer He. }
  unfold success in E. rewrite VerifierExit.verifier_bind_log, bind_existsSync in E.
  change (exists_in (set_console _ (set_console _ w)) (cli_binary t))
    with (exists_in w (cli_binary t)) in E.
  destruct (exists_in w (cli_binary t)); cbn [negb] in E.
  2:{ rewrite verifier_error_run in E. injection E as <- _. cbn in He. longer He. }
  rewrite VerifierExit.verifier_bind_log in E. fold (help_command t) in E.
  repeat split.
  apply try_Ret_inv in E as [E|(e & t1 & w1 & E1 & E)].
  - apply bind_Ret_inv in E as (result & t1 & w1 & E1 & E).
    apply BuildFacts.execSync_returns in E1 as (-> & _ & _ & ms & writes & Hp & Ht & _).
    destruct (includes "Usage: notion-mcp-server" result) eqn:Hu.
    + exists ms, result, writes. split; [exact Hp|]. split; [|exact Hu].
      unfold in_time in Ht. cbn [timeout] in Ht. apply negb_true_iff, Z.ltb_ge in Ht. exact Ht.
    + rewrite verifier_error_run in E. injection E as <- _. cbn in He. longer He.
  - unfold bind in E1.
    destruct (execSync (help_command t) _ t _) as [[o t2] w2] eqn:Ex.
    apply execSync_this in Ex as ->. destruct o as [result|e'| |]; try discriminate.
    { now destruct (includes "Usage: notion-mcp-server" result). }
    injection E1 as _ <- _. rewrite verifier_error_run in E. injection E as <- _.
    cbn in He. longer He.
Qed.

Lemma registry_clean t w t' w' :
  checkClaudeCodeCLI t w = (Ret tt, t', w') -> errors t' = errors t -> registry_ok w.
Proof.
  intros E He. unfold checkClaudeCodeCLI in E.
  rewrite VerifierExit.verifier_bind_log in E.
  apply bind_Ret_inv in E as (found & t1 & w1 & E1 & E).
  apply try_Ret_inv in E1 as [E1|(e & t2 & w2 & E1 & E2)].
  - apply bind_Ret_inv in E1 as (out & t2 & w2 & E1 & E2).
    apply BuildFacts.execSync_returns in E1 as (-> & _ & _ & ms & writes & Hp & _ & _ & Hprocs).
    injection E2 as <- <- <-. cbn [negb] in E.
    right.
    apply try_Ret_inv in E as [E|(e & t3 & w3 & E3 & E)].
    + apply bind_Ret_inv in E as (result & t3 & w3 & E3 & E).
      apply BuildFacts.execSync_returns in E3 as (-> & _ & _ & ms' & writes' & Hp' & Ht & _).
      rewrite Hprocs in Hp'. exists ms', result, writes'. split; [exact Hp'|].
      unfold in_time in Ht. cbn [timeout] in Ht. apply negb_true_iff, Z.ltb_ge in Ht. exact Ht.
    + unfold bind in E3.
      destruct (execSync "claude mcp list" _ t _) as [[o t4] w4] eqn:Ex.
      apply execSync_this in Ex as ->. destruct o as [result|e'| |]; try discriminate.
      { destruct (includes "notion-mcp" result);
          [destruct (includes "✓ Connected" result);
           [|destruct (includes "✗ Failed to connect" result)]|]; discriminate. }
      injection E3 as _ <- _. rewrite verifier_error_run in E. injection E as <- _.
      cbn in He. longer He.
  - left. unfold bind in E1.
    destruct (execSync "claude --version" _ t _) as [[o t4] w4] eqn:Ex.
    revert Ex. unfold execSync, run_proc, plain_options. cbn [timeout w_procs set_console].
    destruct (w_procs w !! "claude --version") as [[ms out writes|ms err|]|];
      unfold default, from_option, id; intros [= <- <- <-]; try discriminate; reflexivity.
Qed.

(** ** A run of [verify] that returned without a new error *)

Ltac grow :=
  repeat (intros;
          lazymatch goal with
          | |- frames _ _ (log _ _) => apply grows_log
          | |- frames _ _ (success _) => apply grows_log
          | |- frames _ _ (error _) => apply grows_error
          | |- frames _ _ (warning _) => apply grows_warning
          | |- frames _ _ (log_all _) => apply grows_log_all
          | |- frames _ _ (list_all _) => apply grows_list_all
          | |- frames _ _ checkSystemDependencies => apply grows_checkSystemDependencies
          | |- frames _ _ checkProjectBuild => apply grows_checkProjectBuild
          | |- frames _ _ checkClaudeDesktopConfig => apply grows_checkClaudeDesktopConfig
          | |- frames _ _ checkClaudeCodeCLI => apply grows_checkClaudeCodeCLI
          | |- frames _ _ checkNotionIntegration => apply grows_checkNotionIntegration
          | |- _ => frame_rule
          end).

Lemma clean_step {A} (m : M verifier A) (k : A -> M verifier unit) t w t' w' :
  (forall t0, frames (grown t0) nowhere m) ->
  (forall a t0, frames (grown t0) nowhere (k a)) ->
  bind m k t w = (Ret tt, t', w') -> errors t' = errors t ->
  exists a t1 w1,
    m t w = (Ret a, t1, w1) /\ errors t1 = errors t /\ grown t t1 /\
    w_procs w1 = w_procs w /\
    k a t1 w1 = (Ret tt, t', w') /\ errors t' = errors t1.
Proof.
  intros Hm Hk E He. apply grows_step in E as (a & t1 & w1 & E1 & E & G1 & P1); [|exact Hm].
  assert (G2 : grown t1 t').
  { destruct (Hk a t1 t1 w1 (grown_refl t1)) as [G _]. now rewrite E in G. }
  assert (G : grown t t') by exact (grown_trans _ _ _ G1 G2).
  pose proof (grown_clean t t' G He t1 G1 G2) as H1.
  exists a, t1, w1. repeat split; try assumption; try apply G1. congruence.
Qed.

Lemma help_command_grown t0 t : grown t0 t -> help_command t = help_command t0.
Proof.
  intros (H1 & H2 & _). unfold help_command, cli_binary, sep_of. now rewrite H1, H2.
Qed.

Lemma verify_clean t w t' w' :
  verify t w = (Ret tt, t', w') -> errors t' = errors t ->
  runtime_ok w /\ npm_ok w /\ help_ok t w /\ registry_ok w.
Proof.
  intros E He. unfold verify in E.
  apply clean_step in E as ([] & t1 & w1 & E1 & H1 & G1 & P1 & E & He1); [|grow|grow|exact He].
  apply clean_step in E as ([] & t2 & w2 & E2 & H2 & G2 & P2 & E & He2); [|grow|grow|exact He1].
  apply clean_step in E as ([] & t3 & w3 & E3 & H3 & G3 & P3 & E & He3); [|grow|grow|exact He2].
  apply clean_step in E as ([] & t4 & w4 & E4 & H4 & G4 & P4 & E & He4); [|grow|grow|exact He3].
  apply clean_step in E as ([] & t5 & w5 & E5 & H5 & G5 & P5 & E & He5); [|grow|grow|exact He4].
  apply clean_step in E as ([] & t6 & w6 & E6 & H6 & G6 & P6 & E & He6); [|grow|grow|exact He5].
  apply clean_step in E as ([] & t7 & w7 & E7 & H7 & G7 & P7 & E & He7); [|grow|grow|exact He6].
  apply clean_step in E as ([] & t8 & w8 & E8 & H8 & G8 & P8 & E & He8); [|grow|grow|exact He7].
  apply clean_step in E as ([] & t9 & w9 & E9 & H9 & G9 & P9 & E & He9); [|grow|grow|exact He8].
  clear E He9.
  destruct (dependencies_clean t2 w2 t3 w3 E3 H3) as [Hr Hn].
  destruct (build_clean t4 w4 t5 w5 E5 H5) as (_ & _ & Hh).
  pose proof (registry_clean t8 w8 t9 w9 E9 H9) as Hc.
  assert (Q2 : w_procs w2 = w_procs w) by congruence.
  assert (Q4 : w_procs w4 = w_procs w) by congruence.
  assert (Q8 : w_procs w8 = w_procs w) by congruence.
  assert (K4 : help_command t4 = help_command t).
  { apply help_command_grown.
    exact (grown_trans _ _ _ (grown_trans _ _ _ (grown_trans _ _ _ G1 G2) G3) G4). }
  unfold runtime_ok, npm_ok, help_ok, registry_ok in *.
  rewrite Q2 in Hr, Hn. rewrite Q4, K4 in Hh. rewrite Q8 in Hc. auto.
Qed.

(** X16. The verifier script ends with code 0 only on a machine where
    [node --version] succeeds with a version that the comparison does
    not find below 16, [npm --version] succeeds, the help command of the built binary
    answers within 10 seconds with the usage text, and the [claude]
    command either fails to start or lists the servers within 30
    seconds. *)
Theorem X16_exit_zero_needs_the_commands (w : world) :
  (Verifier.main w).1 = Some 0%Z ->
  runtime_ok w /\ npm_ok w /\ help_ok (VerifierExit.built w) w /\ registry_ok w.
Proof.
  intros H0. destruct (VerifierExit.config_dir w) as [dir|] eqn:Hd.
  2:{ rewrite (VerifierExit.verifier_main_unsupported w Hd) in H0. discriminate. }
  pose proof (VerifierExit.verify_verdict dir (VerifierExit.built w) w Hd) as Hv.
  rewrite (VerifierExit.verifier_main_run w dir Hd) in H0. cbn [fst] in H0.
  destruct (verify (VerifierExit.built w) w) as [[[[]|e|c|] t'] w'] eqn:E;
    cbn in H0, Hv; try discriminate.
  - now apply (verify_clean (VerifierExit.built w) w t' w' E).
  - destruct Hv as [-> _]. discriminate.
Qed.

Lemma X16_witness :
  runtime_ok ExitCodes.world_built /\ npm_ok ExitCodes.world_built /\
  help_ok (VerifierExit.built ExitCodes.world_built) ExitCodes.world_built /\
  registry_ok ExitCodes.world_built.
Proof.
  apply (X16_exit_zero_needs_the_commands ExitCodes.world_built).
  vm_compute. reflexivity.
Defined.

(** X17. Whatever happens in [verify], the object it leaves has the
    platform, the project root, the configuration directory and the
    prefix it had, and its errors and warnings are the ones it had with,
    maybe, more after them: no check drops or rewrites what an earlier
    one recorded. *)
Theorem X17_records_are_only_added (t : verifier) (w : world) :
  grown t (verify t w).1.2.
Proof. exact (proj1 (grows_verify t t w (grown_refl t))). Qed.

End Recorded.

(** * How the scripts start *)

Module StartFacts.
Import JSON JS Runtime RuntimeFacts JSONFacts Shapes.
Local Open Scope js_scope.

(** ** A platform that is not supported *)

Definition unsupported (w : world) : Prop :=
  w_platform w <> "win32" /\ w_platform w <> "darwin" /\ w_platform w <> "linux".

Lemma unsupported_eqb w :
  unsupported w ->
  String.eqb (w_platform w) "win32" = false /\
  String.eqb (w_platform w) "darwin" = false /\
  String.eqb (w_platform w) "linux" = false.
Proof. intros (H1 & H2 & H3). repeat split; now apply String.eqb_neq. Qed.

Definition world_freebsd : world :=
  World "freebsd" "/home/u" "/repo/scripts" ["node"; "/repo/scripts/install.cjs"] ∅
    ∅ ∅ ∅ ExitCodes.ready_procs 1700000000000 [] [].

(** X18. On a platform other than [win32], [darwin] and [linux] the
    installer script prints one line, the error about the platform with
    [undefined] where the prefix of the installer goes (the prefix is
    assigned after the directory is looked up), and ends with code 1; the
    verifier script logs no line of its own and ends with code 1, by the
    exception its constructor throws.  Neither runs a command or changes
    a file. *)
Theorem X18_unsupported_platform (w : world) :
  unsupported w ->
  Installer.main w =
    (Some 1%Z,
     set_console
       (w_console w ++ ["❌ undefined Unsupported platform: " +:+ w_platform w]) w) /\
  Verifier.main w = (Some 1%Z, w).
Proof.
  intros Hu. destruct (unsupported_eqb w Hu) as (H1 & H2 & H3). split.
  - unfold Installer.main, Installer.constructor, Installer.getClaudeConfigDir.
    rewrite bind_assoc, bind_get_world, bind_assoc, bind_put_this.
    rewrite !bind_assoc, bind_get_this, bind_assoc, bind_get_world.
    cbn [Installer.platform]. rewrite H1, H2, H3.
    cbv [bind Installer.error Installer.log get_this console_log process_exit exit_code
         Installer.logPrefix Installer.line Installer.icon].
    unfold default, from_option, id. cbn [Installer.platform].
    now rewrite !append_cons, !append_nil_l.
  - unfold Verifier.main, Verifier.constructor, Verifier.getClaudeConfigDir.
    rewrite bind_assoc, bind_get_world, bind_assoc, bind_put_this.
    rewrite !bind_assoc, bind_get_this, bind_assoc, bind_get_world.
    cbn [Verifier.platform]. rewrite H1, H2, H3. reflexivity.
Qed.

Lemma X18_witness :
  Installer.main world_freebsd =
    (Some 1%Z,
     set_console
       (w_console world_freebsd ++ ["❌ undefined Unsupported platform: " +:+ "freebsd"])
       world_freebsd) /\
  Verifier.main world_freebsd = (Some 1%Z, world_freebsd).
Proof.
  apply (X18_unsupported_platform world_freebsd). repeat split; discriminate.
Defined.

(** ** The path of the installation configuration *)

Import Installer.

(** [c] does not occur in [s]. *)
Fixpoint free_of (c : ascii) (s : string) : bool :=
  match s with
  | "" => true
  | String a r => negb (Ascii.eqb a c) && free_of c r
  end.

Lemma split_free c a : free_of c a = true -> split c a = [a].
Proof.
  induction a as [|x a IH]; [reflexivity|]. cbn [free_of split].
  intros [Hx Ha]%andb_true_iff. apply negb_true_iff in Hx. rewrite Hx.
  now rewrite (IH Ha).
Qed.

Lemma split_at c a rest :
  free_of c a = true -> split c (a +:+ String c rest) = a :: split c rest.
Proof.
  induction a as [|x a IH]; intros H.
  - rewrite append_nil_l. cbn [split]. now rewrite Ascii.eqb_refl.
  - cbn [free_of] in H. apply andb_true_iff in H as [Hx Ha]. apply negb_true_iff in Hx.
    rewrite append_cons. cbn [split]. rewrite Hx. now rewrite (IH Ha).
Qed.

Lemma split_config s :
  nth 1 (split "="%char ("--config=" +:+ s)) "" = hd "" (split "="%char s).
Proof.
  change ("--config=" +:+ s) with ("--config" +:+ String "="%char s).
  rewrite split_at by reflexivity. cbn [nth]. now destruct (split "="%char s).
Qed.

Lemma find_after {A} (f : A -> bool) pre x post :
  Forall (fun y => f y = false) pre -> f x = true ->
  List.find f (pre ++ x :: post) = Some x.
Proof.
  intros Hpre Hx. induction Hpre as [|y pre Hy _ IH]; cbn [app List.find].
  - now rewrite Hx.
  - now rewrite Hy.
Qed.

(** X19. The path [loadConfig] reads is taken from the first argument
    that starts with [--config=], and it is what stands between that
    prefix and the next [=] sign: a value with an [=] in it is cut there,
    and later [--config=] arguments are not looked at. *)
Theorem X19_config_path_is_cut_at_equals
    (this : installer) (pre post : list string) (a rest : string) :
  Forall (fun x => startsWith "--config=" x = false) pre ->
  free_of "="%char a = true ->
  install_config_path this (pre ++ ("--config=" +:+ a) :: post) = a /\
  install_config_path this (pre ++ ("--config=" +:+ a +:+ "=" +:+ rest) :: post) = a.
Proof.
  intros Hpre Ha. unfold install_config_path. split.
  - rewrite (find_after _ pre _ post Hpre)
      by apply Footprint.OfInstaller.startsWith_append.
    rewrite split_config. now rewrite split_free.
  - rewrite (find_after _ pre _ post Hpre)
      by apply Footprint.OfInstaller.startsWith_append.
    rewrite split_config.
    change (a +:+ "=" +:+ rest) with (a +:+ String "="%char rest).
    now rewrite split_at.
Qed.

Lemma X19_witness :
  install_config_path DesktopFacts.this0
    (["node"; "/repo/scripts/install.cjs"] ++ ("--config=" +:+ "/tmp/a") :: ["--config=/tmp/c"])
    = "/tmp/a" /\
  install_config_path DesktopFacts.this0
    (["node"; "/repo/scripts/install.cjs"]
     ++ ("--config=" +:+ "/tmp/a" +:+ "=" +:+ "b.json") :: ["--config=/tmp/c"])
    = "/tmp/a".
Proof.
  apply (X19_config_path_is_cut_at_equals DesktopFacts.this0
           ["node"; "/repo/scripts/install.cjs"] ["--config=/tmp/c"] "/tmp/a" "b.json").
  - repeat constructor.
  - reflexivity.
Defined.

(** ** A runtime the installer accepts *)

Section Accepted.
Variables (this : installer) (w : world).
Variables (ms : Z) (out : string) (writes : list (string * string)).
Variables (ms2 : Z) (out2 : string) (writes2 : list (string * string)).
Hypothesis Hnode : w_procs w !! "node --version" = Some (Succeeds ms out writes).
Hypothesis Hnpm : w_procs w !! "npm --version" = Some (Succeeds ms2 out2 writes2).

Definition dependency_lines : list string :=
  [line info (logPrefix this) "Checking system dependencies...";
   line info (logPrefix this) ("Node.js version: " +:+ trim out +:+ " ✓");
   line info (logPrefix this) ("npm version: " +:+ trim out2 +:+ " ✓");
   line good (logPrefix this) "System dependencies check completed"].

Lemma installer_accepts :
  lt_number (versionNum (trim out)) 16 = false ->
  (checkSystemDependencies this w).1 = (Ret tt, this) /\
  w_console (checkSystemDependencies this w).2 = w_console w ++ dependency_lines.
Proof.
  intros Hlt.
  cbv [checkSystemDependencies bind try_catch log error success get_this console_log
       process_exit ret].
  rewrite (execSync_succeeds "node --version" plain_options ms out writes this
             (set_console _ w) Hnode eq_refl).
  rewrite Hlt.
  match goal with
  | |- context [execSync "npm --version" plain_options this ?W] =>
      rewrite (execSync_succeeds "npm --version" plain_options ms2 out2 writes2 this W
                 Hnpm eq_refl)
  end.
  cbn. rewrite <- !app_assoc. now split.
Qed.

End Accepted.

Definition unreadable_procs : gmap string proc :=
  {[ "node --version" := Succeeds 5 "nightly" [];
     "npm --version" := Succeeds 5 "9.0.0" [] ]}.

Definition world_nightly : world :=
  World "linux" "/home/u" "/repo/scripts" ["node"; "/repo/scripts/install.cjs"] ∅
    ∅ ∅ ∅ unreadable_procs 1700000000000 [] [].

(** X20. The version check of the installer passes when the two
    commands answer in ASCII, [npm --version] succeeds and
    [node --version] answers either with [vMAJOR.rest] for a major
    number of 16 or more, or with a text in which no number can be read
    where the major number is looked for: the comparison with 16 is then
    false, and the runtime is taken as recent enough. *)
Theorem X20_runtime_is_accepted
    (this : installer) (w : world) (ms : Z) (out : string) (writes : list (string * string))
    (ms2 : Z) (out2 : string) (writes2 : list (string * string)) :
  w_procs w !! "node --version" = Some (Succeeds ms out writes) ->
  w_procs w !! "npm --version" = Some (Succeeds ms2 out2 writes2) ->
  TimeoutFacts.ascii_only out = true ->
  TimeoutFacts.ascii_only out2 = true ->
  (exists major rest,
     trim out = DependencyFacts.version_string major rest /\ (16 <= major)%N) \/
  versionNum (trim out) = None ->
  (checkSystemDependencies this w).1 = (Ret tt, this) /\
  w_console (checkSystemDependencies this w).2 =
    w_console w ++ dependency_lines this out out2.
Proof.
  intros Hnode Hnpm _ _ Hv.
  apply (installer_accepts this w ms out writes ms2 out2 writes2 Hnode Hnpm).
  destruct Hv as [(major & rest & -> & Hm)| ->]; [|reflexivity].
  rewrite DependencyFacts.lt_number_version_string. now apply N.ltb_ge.
Qed.

Lemma X20_witness :
  (checkSystemDependencies DesktopFacts.this0 world_nightly).1 = (Ret tt, DesktopFacts.this0) /\
  w_console (checkSystemDependencies DesktopFacts.this0 world_nightly).2 =
    w_console world_nightly ++ dependency_lines DesktopFacts.this0 "nightly" "9.0.0".
Proof.
  apply (X20_runtime_is_accepted DesktopFacts.this0 world_nightly 5 "nightly" [] 5 "9.0.0" []);
    [reflexivity|reflexivity|reflexivity|reflexivity|].
  right. reflexivity.
Defined.

End StartFacts.

(** * The check of the build and the summary of the verifier *)

Module SummaryFacts.
Import JSON JS Runtime Verifier RuntimeFacts JSONFacts Shapes Recorded.
Local Open Scope js_scope.

(** ** [checkProjectBuild] *)

(** X21. [checkProjectBuild] always returns.  It runs no command when
    [node_modules] or the binary is missing, and otherwise exactly one,
    the help command of the binary with a limit of 10 seconds; it never
    runs the package manager. *)
Theorem X21_build_check_runs_only_the_help_command (t : verifier) (w : world) :
  (checkProjectBuild t w).1.1 = Ret tt /\
  w_calls (checkProjectBuild t w).2 =
    w_calls w ++
    (if exists_in w (node_modules t) && exists_in w (cli_binary t)
     then [(help_command t, Some 10000%Z)] else []).
Proof.
  unfold checkProjectBuild.
  rewrite VerifierExit.verifier_bind_log, bind_get_this, bind_existsSync.
  fold (node_modules t).
  change (exists_in (set_console _ w) (node_modules t)) with (exists_in w (node_modules t)).
  destruct (exists_in w (node_modules t)); cbn [negb andb].
  2:{ rewrite verifier_error_run. cbn. now rewrite app_nil_r. }
  unfold success. rewrite VerifierExit.verifier_bind_log, bind_existsSync.
  change (exists_in (set_console _ (set_console _ w)) (cli_binary t))
    with (exists_in w (cli_binary t)).
  destruct (exists_in w (cli_binary t)); cbn [negb].
  2:{ rewrite verifier_error_run. cbn. now rewrite app_nil_r. }
  rewrite VerifierExit.verifier_bind_log. fold (help_command t).
  cbv [try_catch bind execSync run_proc timeout log error get_this put_this console_log].
  cbn [w_procs set_console].
  destruct (w_procs w !! help_command t) as [[ms out writes|ms err|]|];
    unfold default, from_option, id; try destruct (10000 <? ms)%Z;
    try destruct (10000 <? 0)%Z;
    try destruct (includes "Usage: notion-mcp-server" out); cbn; now split.
Qed.

(** ** The summary *)

Definition ALL_PASSED : string := "All checks passed! Notion MCP server is ready to use.".
Definition SHOULD_WORK : string :=
  "⚠️ The server should work, but consider addressing the warnings above.".

(** The last statements of [verify], from the reading of the object
    on. *)
Definition summary : M verifier unit :=
  this <- get_this ;;
  if bool_decide (errors this = []) && bool_decide (warnings this = []) then
    success "All checks passed! Notion MCP server is ready to use."
  else
    (if negb (bool_decide (errors this = [])) then
       log ("❌ " +:+ count (errors this) +:+ " error(s) found:") info ;;
       list_all (errors this)
     else ret tt) ;;
    (if negb (bool_decide (warnings this = [])) then
       log ("⚠️ " +:+ count (warnings this) +:+ " warning(s) found:") info ;;
       list_all (warnings this)
     else ret tt) ;;
    if negb (bool_decide (errors this = [])) then
      log "" info ;;
      log "❌ Please fix the errors above before using the Notion MCP server." info ;;
      process_exit 1
    else
      log "" info ;;
      log "⚠️ The server should work, but consider addressing the warnings above." info.

Lemma summary_returns t w t' w' :
  summary t w = (Ret tt, t', w') ->
  t' = t /\ errors t = [] /\
  last (w_console w') =
    Some (if bool_decide (warnings t = [])
          then line good (logPrefix t) ALL_PASSED
          else line info (logPrefix t) SHOULD_WORK) /\
  (warnings t <> [] ->
   exists before,
     w_console w' =
       before ++
       line info (logPrefix t) ("⚠️ " +:+ count (warnings t) +:+ " warning(s) found:")
       :: VerifierExit.items_of t (warnings t)
       ++ [line info (logPrefix t) ""; line info (logPrefix t) SHOULD_WORK]).
Proof.
  unfold summary. rewrite bind_get_this.
  repeat case_bool_decide; cbn [andb negb]; unfold success;
    repeat first [rewrite bind_assoc | rewrite bind_ret | rewrite VerifierExit.verifier_bind_log
                 | rewrite VerifierExit.bind_list_all];
    try (cbn; discriminate).
  - rewrite verifier_log_run. intros [= <- <-]. repeat split; try assumption.
    + cbn. now rewrite last_snoc.
    + intros Hw. contradiction.
  - rewrite verifier_log_run. intros [= <- <-]. repeat split; try assumption.
    + cbn. now rewrite last_snoc.
    + intros _. exists (w_console w). cbn. now rewrite <- !app_assoc.
Qed.

(** X22. A run of [verify] that returns holds no error at the end, and
    the line it prints last tells whether it holds a warning: "All checks
    passed!" when it holds none, and otherwise the line that the server
    should work, which comes after the count of the warnings and one line
    for each of them, in the order they were recorded. *)
Theorem X22_summary_of_a_run_that_returns (t : verifier) (w : world) t' w' :
  verify t w = (Ret tt, t', w') ->
  errors t' = [] /\
  last (w_console w') =
    Some (if bool_decide (warnings t' = [])
          then line good (logPrefix t') ALL_PASSED
          else line info (logPrefix t') SHOULD_WORK) /\
  (warnings t' <> [] ->
   exists before,
     w_console w' =
       before ++
       line info (logPrefix t') ("⚠️ " +:+ count (warnings t') +:+ " warning(s) found:")
       :: VerifierExit.items_of t' (warnings t')
       ++ [line info (logPrefix t') ""; line info (logPrefix t') SHOULD_WORK]).
Proof.
  intros E. unfold verify in E.
  do 15 (apply bind_Ret_inv in E as (? & ? & ? & _ & E)).
  apply summary_returns in E as (-> & He & Hl & Hw). auto.
Qed.

Lemma X22_witness :
  let r := verify (VerifierExit.built ExitCodes.world_built) ExitCodes.world_built in
  errors r.1.2 = [] /\
  last (w_console r.2) =
    Some (if bool_decide (warnings r.1.2 = [])
          then line good (logPrefix r.1.2) ALL_PASSED
          else line info (logPrefix r.1.2) SHOULD_WORK) /\
  (warnings r.1.2 <> [] ->
   exists before,
     w_console r.2 =
       before ++
       line info (logPrefix r.1.2) ("⚠️ " +:+ count (warnings r.1.2) +:+ " warning(s) found:")
       :: VerifierExit.items_of r.1.2 (warnings r.1.2)
       ++ [line info (logPrefix r.1.2) ""; line info (logPrefix r.1.2) SHOULD_WORK]).
Proof.
  cbv zeta.
  apply (X22_summary_of_a_run_that_returns
           (VerifierExit.built ExitCodes.world_built) ExitCodes.world_built).
  assert (H : (verify (VerifierExit.built ExitCodes.world_built) ExitCodes.world_built).1.1
              = Ret tt) by (vm_compute; reflexivity).
  destruct (verify (VerifierExit.built ExitCodes.world_built) ExitCodes.world_built)
    as [[o t1] w1].
  cbn in H. now subst o.
Defined.

End SummaryFacts.

(** * The exit codes of the two scripts *)

Module ExitFacts.
Import JSON JS Runtime Installer RuntimeFacts JSONFacts Shapes DesktopFacts.
Local Open Scope js_scope.

(** ** An installation in which every step goes through *)

(** [w1] is what [w0] has become once commands have run for [ms]
    milliseconds and left the files [F]: what may be read and written,
    and the commands, are the same. *)
Definition after (w0 w1 : world) (F : gmap string node) (ms : Z) : Prop :=
  w_fs w1 = F /\ w_now w1 = (w_now w0 + ms)%Z /\
  w_locked w1 = w_locked w0 /\ w_unreadable w1 = w_unreadable w0 /\
  w_procs w1 = w_procs w0.

Lemma after_start w0 l : after w0 (said l w0) (w_fs w0) 0.
Proof. unfold after. cbn. repeat split. lia. Qed.

Lemma after_said w0 w1 F ms l : after w0 w1 F ms -> after w0 (said l w1) F ms.
Proof. intros H. exact H. Qed.

Lemma after_trans w0 w1 w2 F1 F2 m1 m2 :
  after w0 w1 F1 m1 -> after w1 w2 F2 m2 -> after w0 w2 F2 (m1 + m2).
Proof.
  intros (_ & Hn1 & Hl1 & Hu1 & Hp1) (Hf2 & Hn2 & Hl2 & Hu2 & Hp2).
  unfold after. repeat split; try congruence. lia.
Qed.

(** What [configureClaudeDesktop] looks at is the same in two worlds
    with the same files, clock and permissions. *)
Lemma find_agree a b p :
  w_fs a = w_fs b -> w_now a = w_now b -> w_locked a = w_locked b ->
  w_unreadable a = w_unreadable b -> find a p = find b p.
Proof.
  intros Hf Hn Hl Hu. unfold find, exists_in, read_in, writable.
  now rewrite Hf, Hn, Hl, Hu.
Qed.

Lemma writable_agree a b p :
  w_fs a = w_fs b -> w_locked a = w_locked b -> writable a p = writable b p.
Proof. intros Hf Hl. unfold writable. now rewrite Hf, Hl. Qed.

Section Steps.
Variables (this : installer) (w0 : world).

Lemma check_passes ms1 out1 wr1 ms2 out2 wr2 :
  w_procs w0 !! "node --version" = Some (Succeeds ms1 out1 wr1) ->
  lt_number (versionNum (trim out1)) 16 = false ->
  w_procs w0 !! "npm --version" = Some (Succeeds ms2 out2 wr2) ->
  exists w1,
    checkSystemDependencies this w0 = (Ret tt, this, w1) /\
    after w0 w1 (write_all wr2 (write_all wr1 (w_fs w0))) (ms1 + ms2).
Proof.
  intros Hnode Hlt Hnpm.
  cbv [checkSystemDependencies bind try_catch log error success get_this console_log
       process_exit ret].
  rewrite (execSync_succeeds "node --version" plain_options ms1 out1 wr1 this
             (set_console _ w0) Hnode eq_refl).
  rewrite Hlt.
  match goal with
  | |- context [execSync "npm --version" plain_options this ?W] =>
      rewrite (execSync_succeeds "npm --version" plain_options ms2 out2 wr2 this W
                 Hnpm eq_refl)
  end.
  eexists. split; [reflexivity|]. unfold after. cbn. repeat split. lia.
Qed.

Hypothesis Hconfig : config this <> JNull.

Lemma build_passes ms3 out3 wr3 ms4 out4 wr4 :
  w_procs w0 !! "npm install" = Some (Succeeds ms3 out3 wr3) ->
  w_procs w0 !! "npm run build" = Some (Succeeds ms4 out4 wr4) ->
  is_Some (write_all wr4 (write_all wr3 (w_fs w0)) !! cli_binary this) ->
  exists w1,
    buildProject this w0 = (Ret tt, this, w1) /\
    after w0 w1 (write_all wr4 (write_all wr3 (w_fs w0))) (ms3 + ms4).
Proof.
  intros Hi Hb Hcli. unfold buildProject. rewrite bind_log.
  set (w2 := said [say info this "Installing dependencies..."]
               (said [say info this "Building Notion MCP server..."] w0)).
  set (opts := ExecOptions (Some (projectRoot this)) (RegistryFacts.mode_of this) None).
  set (w3 := said [say info this "Building project..."]
               (advance ms3 (set_fs (write_all wr3 (w_fs w2)) (called "npm install" opts w2)))).
  set (w4 := advance ms4 (set_fs (write_all wr4 (w_fs w3)) (called "npm run build" opts w3))).
  exists (said [say good this "Project build completed successfully"] w4).
  split.
  - apply try_Ret. rewrite bind_get_this, bind_log. fold w2.
    rewrite (bind_Ret _ _ _ _ _ _ _ (TimeoutFacts.verbose_stdio_run this Hconfig w2)).
    fold opts.
    rewrite (bind_Ret _ _ _ _ _ _ _
               (execSync_succeeds "npm install" opts ms3 out3 wr3 this w2 Hi eq_refl)).
    rewrite bind_log. fold w3.
    rewrite (bind_Ret _ _ _ _ _ _ _ (TimeoutFacts.verbose_stdio_run this Hconfig w3)).
    fold opts.
    rewrite (bind_Ret _ _ _ _ _ _ _
               (execSync_succeeds "npm run build" opts ms4 out4 wr4 this w3 Hb eq_refl)).
    fold w4. rewrite bind_existsSync.
    assert (Hex : exists_in w4 (cli_binary this) = true).
    { unfold exists_in. change (w_fs w4) with (write_all wr4 (write_all wr3 (w_fs w0))).
      destruct Hcli as [x ->]. reflexivity. }
    rewrite Hex. cbn [negb]. unfold success. apply log_run.
  - unfold after. cbn. repeat split. lia.
Qed.

Lemma test_passes ms5 out5 wr5 :
  w_procs w0 !! TimeoutFacts.help_command (cli_binary this) = Some (Succeeds ms5 out5 wr5) ->
  (ms5 <= 15000)%Z ->
  includes "Usage: notion-mcp-server" out5 = true ->
  exists w1,
    testNotionMcpServer this w0 = (Ret tt, this, w1) /\
    after w0 w1 (write_all wr5 (w_fs w0)) ms5.
Proof.
  intros Hp Hms Hu. unfold testNotionMcpServer. rewrite bind_log.
  set (w1 := said _ w0).
  set (opts := ExecOptions None pipe (Some 15000%Z)).
  assert (Ht : in_time opts ms5 = true).
  { unfold in_time, opts. cbn [timeout]. apply negb_true_iff, Z.ltb_ge. exact Hms. }
  pose proof (execSync_succeeds (T := installer)
                (TimeoutFacts.help_command (cli_binary this)) opts ms5 out5 wr5
                this w1 Hp Ht) as E.
  unfold TimeoutFacts.help_command in E.
  set (w2 := advance ms5 _) in E.
  exists (said [say good this "Notion MCP server test completed successfully"] w2).
  split.
  - apply try_Ret. rewrite bind_get_this, (bind_Ret _ _ _ _ _ _ _ E). rewrite Hu.
    unfold success. apply log_run.
  - unfold after. cbn. repeat split.
Qed.

Lemma desktop_passes dir :
  claudeConfigDir this = Some dir ->
  AfterInstall.installable this w0 dir ->
  exists w1,
    configureClaudeDesktop this w0 = (Ret tt, this, w1) /\ w_procs w1 = w_procs w0.
Proof.
  intros Hdir [(Hd & Hreg & Hw)|(Hnd & _ & Hnp & Hld & Hlp)].
  - assert (Hex : exists_in w0 dir = true) by (unfold exists_in; now rewrite Hd).
    unfold regular in Hreg.
    destruct (find w0 (desktop_path this dir)) as [| |text v] eqn:Hf.
    + eexists. split; [|shelve].
      apply (configure_fresh this w0 dir Hdir Hex Hconfig); [|exact Hw].
      intros text v. rewrite Hf. discriminate.
      Unshelve. reflexivity.
    + eexists. split; [|shelve].
      apply (configure_fresh this w0 dir Hdir Hex Hconfig); [|exact Hw].
      intros text v. rewrite Hf. discriminate.
      Unshelve. reflexivity.
    + destruct v as [| | | | |o]; try discriminate Hreg.
      eexists. split; [|shelve].
      apply (configure_merged this w0 dir Hdir Hex Hconfig text o Hf Hreg Hw).
      Unshelve. reflexivity.
  - eexists. split; [|shelve].
    apply (AfterInstall.first_installation this w0 dir Hdir Hconfig Hnd Hnp Hld Hlp).
    Unshelve. reflexivity.
Qed.

Lemma registry_passes :
  w_procs w0 !! RegistryFacts.REMOVE <> Some Never ->
  w_procs w0 !! RegistryFacts.add_command this <> Some Never ->
  (configureClaudeCodeCLI this w0).1 = (Ret tt, this).
Proof.
  intros Hr Ha.
  destruct (fails (w_procs w0 !! RegistryFacts.add_command this)) eqn:Hf.
  { exact (proj1 (RegistryFacts.configureClaudeCodeCLI_add_fails this w0 Hconfig Hr Hf)). }
  destruct (w_procs w0 !! RegistryFacts.add_command this) as [[ms out writes|ms err|]|] eqn:Hp;
    try discriminate Hf; try congruence.
  unfold configureClaudeCodeCLI. rewrite bind_log.
  set (w1 := said _ w0).
  destruct (RegistryFacts.removal_ends this w1 Hr) as (w2 & E2 & _ & Hp2).
  unfold RegistryFacts.removal in E2.
  set (w3 := said [say info this
                     "Adding Notion MCP server to Claude Code CLI with user scope..."] w2).
  assert (Ha3 : w_procs w3 !! RegistryFacts.add_command this = Some (Succeeds ms out writes)).
  { unfold w3, said. cbn [w_procs set_console]. now rewrite Hp2. }
  destruct (RegistryFacts.execSync_passing (RegistryFacts.add_command this)
              (RegistryFacts.mode_of this) this w3 ms out writes Ha3) as (w4 & E4 & _).
  rewrite (try_Ret _ _ _ _ tt this
             (said [say good this "Claude Code CLI configuration completed"] w4));
    [reflexivity|].
  rewrite bind_get_this. rewrite (bind_Ret _ _ _ _ _ _ _ E2).
  rewrite (get_member_not_null _ _ Hconfig), bind_lift_inr.
  fold (RegistryFacts.add_command this).
  rewrite bind_log. fold w3.
  rewrite (bind_Ret _ _ _ _ _ _ _ (TimeoutFacts.verbose_stdio_run this Hconfig w3)).
  rewrite (bind_Ret _ _ _ _ _ _ _ E4). unfold success. now rewrite log_run.
Qed.

End Steps.

Lemma installable_agree this a b dir :
  w_fs a = w_fs b -> w_now a = w_now b -> w_locked a = w_locked b ->
  w_unreadable a = w_unreadable b ->
  AfterInstall.installable this b dir -> AfterInstall.installable this a dir.
Proof.
  intros Hf Hn Hl Hu. unfold AfterInstall.installable, regular.
  rewrite (find_agree a b _ Hf Hn Hl Hu), (writable_agree a b _ Hf Hl), Hf, Hl.
  exact (fun H => H).
Qed.

(** The configuration [loadConfig] ends with: the default one when
    there is no file, the value of the file when that is JSON other
    than [null]. *)
Definition configured (w : world) (c : value) : Prop :=
  let path := install_config_path (InstallerShapes.built w) (w_argv w) in
  (exists_in w path = false /\ c = default_config) \/
  (exists text, read_in w path = inr text /\ parse text = Some c /\ c <> JNull).

(** A machine on which every step of the installer goes through.  The
    platform is supported and the home directory and the project root
    are normalised paths; the configuration of the installer is absent
    or JSON other than [null], with a token that is a string if there
    is one; the runtime answers in ASCII with a version that is not
    found below 16 and the package manager answers; the dependencies
    are installed and the project is built, after which the CLI binary
    exists; the binary prints its usage within 15 seconds; once these
    five commands have run the desktop configuration can be
    reconciled; and neither the removal from the registry nor the
    addition to it blocks for ever. *)
Definition ready (w : world) : Prop :=
  exists dir c ms1 out1 wr1 ms2 out2 wr2 ms3 out3 wr3 ms4 out4 wr4 ms5 out5 wr5,
    let this := with_config c (InstallerShapes.built w) in
    let F4 := write_all wr4 (write_all wr3 (write_all wr2 (write_all wr1 (w_fs w)))) in
    let W := set_now (w_now w + (ms1 + ms2 + ms3 + ms4 + ms5))
               (set_fs (write_all wr5 F4) w) in
    InstallerShapes.config_dir w = Some dir /\
    AfterInstall.tidy (path_sep (w_platform w)) (w_homedir w) = true /\
    AfterInstall.tidy (path_sep (w_platform w)) (projectRoot this) = true /\
    configured w c /\ AfterInstall.token_is_text c = true /\
    w_procs w !! "node --version" = Some (Succeeds ms1 out1 wr1) /\
    TimeoutFacts.ascii_only out1 = true /\
    lt_number (versionNum (trim out1)) 16 = false /\
    w_procs w !! "npm --version" = Some (Succeeds ms2 out2 wr2) /\
    w_procs w !! "npm install" = Some (Succeeds ms3 out3 wr3) /\
    w_procs w !! "npm run build" = Some (Succeeds ms4 out4 wr4) /\
    is_Some (F4 !! cli_binary this) /\
    w_procs w !! TimeoutFacts.help_command (cli_binary this) = Some (Succeeds ms5 out5 wr5) /\
    (ms5 <= 15000)%Z /\ includes "Usage: notion-mcp-server" out5 = true /\
    AfterInstall.installable this W dir /\
    w_procs w !! RegistryFacts.REMOVE <> Some Never /\
    w_procs w !! RegistryFacts.add_command this <> Some Never.

Lemma configured_loads w c l :
  configured w c ->
  exists l',
    loadConfig (InstallerShapes.built w) (said l w) =
    (Ret tt, with_config c (InstallerShapes.built w), said l' (said l w)) /\
    c <> JNull.
Proof.
  intros [[He ->]|(text & Hr & Hp & Hc)].
  - eexists. split; [|discriminate].
    apply (ConfigFacts.loadConfig_absent (InstallerShapes.built w) (said l w)). exact He.
  - eexists. split; [|exact Hc].
    apply (ConfigFacts.loadConfig_parsed (InstallerShapes.built w) (said l w) text c);
      [exact Hr|exact Hp].
Qed.

Lemma ready_installs w : ready w -> (Installer.main w).1 = Some 0%Z.
Proof.
  intros (dir & c & ms1 & out1 & wr1 & ms2 & out2 & wr2 & ms3 & out3 & wr3 & ms4 & out4 & wr4
          & ms5 & out5 & wr5 & H).
  cbv zeta in H.
  destruct H as (Hd & _ & _ & Hcfg & _ & Hnode & _ & Hlt & Hnpm & Hi & Hb & Hcli & Hh & Hms
                 & Hu & Hprep & Hr & Ha).
  set (this := with_config c (InstallerShapes.built w)) in *.
  rewrite (InstallerExit.main_run w dir Hd). cbn [fst].
  assert (Hdir : claudeConfigDir this = Some dir) by exact Hd.
  unfold install.
  set (START := say info (InstallerShapes.built w) "Starting Notion MCP Server installation...").
  destruct (configured_loads w c [START] Hcfg) as (l1 & E1 & Hc).
  fold this in E1. set (wA := said l1 (said [START] w)) in E1.
  destruct (check_passes this wA ms1 out1 wr1 ms2 out2 wr2 Hnode Hlt Hnpm)
    as (w1 & E2 & A1).
  pose proof A1 as (Hf1 & _ & _ & _ & Hp1).
  destruct (build_passes this w1 Hc ms3 out3 wr3 ms4 out4 wr4) as (w2 & E3 & A2).
  { now rewrite Hp1. }
  { now rewrite Hp1. }
  { rewrite Hf1. exact Hcli. }
  pose proof A2 as (Hf2 & _ & _ & _ & Hp2).
  destruct (test_passes this w2 ms5 out5 wr5) as (w3 & E4 & A3);
    [rewrite Hp2, Hp1; exact Hh|exact Hms|exact Hu|].
  pose proof (after_trans _ _ _ _ _ _ _ (after_trans _ _ _ _ _ _ _ A1 A2) A3) as A.
  destruct A as (Hf & Hn & Hl & Hun & Hp).
  set (w3' := said [say info this
                      "Creating Claude Desktop and Claude Code CLI configuration..."] w3).
  destruct (desktop_passes this w3' Hc dir Hdir) as (w4 & E5 & Hp4).
  { apply (installable_agree this w3' _ dir) with (5 := Hprep).
    - cbn. rewrite Hf, Hf2, Hf1. reflexivity.
    - cbn. rewrite Hn. cbn. lia.
    - exact Hl.
    - exact Hun. }
  pose proof (registry_passes this w4 Hc) as E6.
  destruct (configureClaudeCodeCLI this w4) as [[o6 t6] w5] eqn:E6'.
  cbn [fst] in E6. rewrite Hp4 in E6.
  change (w_procs w3') with (w_procs w3) in E6. rewrite Hp in E6.
  specialize (E6 Hr Ha). injection E6 as -> ->.
  assert (E : exists t' w',
             (log "Starting Notion MCP Server installation..." info ;;
              loadConfig ;; checkSystemDependencies ;; buildProject ;;
              testNotionMcpServer ;; createClaudeConfig ;;
              success "Installation completed successfully!" ;;
              log_all closing_lines)%js (InstallerShapes.built w) w = (Ret tt, t', w')).
  { rewrite bind_log. fold START.
    rewrite (bind_Ret _ _ _ _ _ _ _ E1). fold wA.
    rewrite (bind_Ret _ _ _ _ _ _ _ E2), (bind_Ret _ _ _ _ _ _ _ E3),
      (bind_Ret _ _ _ _ _ _ _ E4).
    assert (E7 : createClaudeConfig this w3 = (Ret tt, this, w5)).
    { unfold createClaudeConfig. rewrite bind_log. fold w3'.
      now rewrite (bind_Ret _ _ _ _ _ _ _ E5). }
    rewrite (bind_Ret _ _ _ _ _ _ _ E7). unfold success. rewrite bind_log.
    rewrite InstallerExit.log_all_run. eauto. }
  destruct E as (t' & w' & E). now rewrite (try_Ret _ _ _ _ _ _ _ E).
Qed.

(** ** C8 *)

(** The machine on which every step goes through, with the directory of
    the user's configurations in place. *)
Definition world_installable : world :=
  World "linux" "/home/u" "/repo/scripts" ["node"; "/repo/scripts/install.cjs"] ∅
    {[ "/home/u/.config" := Dir ]} ∅ ∅ ExitCodes.ready_procs 1700000000000 [] [].

(** A machine of a platform that neither script supports. *)
Definition world_other_platform : world :=
  World "freebsd" "/home/u" "/repo/scripts" ["node"; "/repo/scripts/verify.cjs"] ∅
    {[ "/repo/node_modules" := Dir; "/repo/bin/cli.mjs" := File "#!/usr/bin/env node" ]}
    ∅ ∅ ExitCodes.ready_procs 1700000000000 [] [].


Lemma world_installable_ready : ready world_installable.
Proof.
  exists "/home/u/.config/claude", default_config,
    5%Z, ("v18.1.0" +:+ String LF ""), [], 5%Z, "9.0.0", [],
    900%Z, "", [("/repo/node_modules", "")],
    800%Z, "", [("/repo/bin/cli.mjs", "#!/usr/bin/env node")],
    40%Z, "Usage: notion-mcp-server [options]", [].
  cbv zeta.
  split; [reflexivity|]. split; [reflexivity|]. split; [reflexivity|].
  split; [left; split; reflexivity|]. split; [reflexivity|].
  split; [reflexivity|]. split; [reflexivity|]. split; [reflexivity|].
  split; [reflexivity|]. split; [reflexivity|]. split; [reflexivity|].
  split; [vm_compute; eauto|]. split; [reflexivity|].
  split; [lia|]. split; [reflexivity|].
  split; [right; repeat split; vm_compute; reflexivity|].
  split; intros H; vm_compute in H; discriminate H.
Qed.



End ExitFacts.
